(** * mad-con: a batch media converter driving an external transcoding engine

    Shallow embedding of the three source files of the repository

    - the helper module imported as [./functions.js] (time stamped logging,
      size formatting),
    - [convert.js], the non-interactive driver,
    - [cli.js], the interactive driver,

    followed by the properties established about them.

    Conventions.  JavaScript strings are [string]s whose characters are the
    bytes of the UTF-8 encoding.  The functions of Node's [path] module are
    those of its POSIX flavour.  The file system, the lines typed by the
    user, the kind of the standard output and the runs of the transcoding
    engine, each with its progress reports and its terminal event, form an
    explicit [World] that is threaded through the effectful code; a
    computation returns a value or stops the process, and leaves a trace of
    what is written to the terminal, the lines read and the runs of the
    engine.  The handlers of the engine's events run inside the run of the
    engine: an exception thrown in one of them is caught by nobody.  The
    opening and closing of the line reader have no part in any result and
    are left out. *)

From Stdlib Require Import List String Ascii Bool Arith NArith ZArith QArith Lia.
From Stdlib Require Import Qround Qabs DecimalString DecimalN.
Import ListNotations.

Local Close Scope Q_scope.
Local Open Scope string_scope.
Local Open Scope list_scope.
Local Open Scope nat_scope.

(* ===================================================================== *)
(** * JavaScript strings *)
(* ===================================================================== *)

Module Js.

Definition chars (s : string) : list ascii := list_ascii_of_string s.
Definition str (l : list ascii) : string := string_of_list_ascii l.

(** Truthiness of a string value: every string but the empty one. *)
Definition truthy (s : string) : bool := negb (s =? "")%string.

(** [Array.prototype.includes] on an array of strings. *)
Definition includes (xs : list string) (x : string) : bool :=
  existsb (String.eqb x) xs.

(** [Array.prototype.filter(Boolean)] on an array of strings. *)
Definition filterBoolean (xs : list string) : list string := filter truthy xs.

Definition code (c : ascii) : nat := nat_of_ascii c.

(** [String.prototype.toLowerCase], on the letters A-Z.  A character outside
    ASCII is left as it is: a text that holds one is none of the extensions
    compared below, neither as it is nor in lower case, so membership in the
    extension tables is the one JavaScript computes. *)
Definition lowerChar (c : ascii) : ascii :=
  let n := code c in
  if (65 <=? n) && (n <=? 90) then ascii_of_nat (n + 32) else c.

Definition toLowerCase (s : string) : string := str (map lowerChar (chars s)).

(** White space and line terminators of ECMAScript, as UTF-8 sequences:
    U+0009..U+000D, U+0020, U+00A0, U+1680, U+2000..U+200A, U+2028, U+2029,
    U+202F, U+205F, U+3000 and U+FEFF. *)
Definition ws1 (x : nat) : bool := ((9 <=? x) && (x <=? 13)) || (x =? 32).

Definition ws2 (x y : nat) : bool := (x =? 194) && (y =? 160).

Definition ws3 (x y z : nat) : bool :=
     ((x =? 225) && (y =? 154) && (z =? 128))
  || ((x =? 226) && (y =? 128)
        && (((128 <=? z) && (z <=? 138)) || (z =? 168) || (z =? 169) || (z =? 175)))
  || ((x =? 226) && (y =? 129) && (z =? 159))
  || ((x =? 227) && (y =? 128) && (z =? 128))
  || ((x =? 239) && (y =? 187) && (z =? 191)).

(** One white space character at the head of [l], removed. *)
Definition skipSpace (l : list ascii) : option (list ascii) :=
  match l with
  | a :: r1 =>
      if ws1 (code a) then Some r1 else
      match r1 with
      | b :: r2 =>
          if ws2 (code a) (code b) then Some r2 else
          match r2 with
          | c :: r3 => if ws3 (code a) (code b) (code c) then Some r3 else None
          | [] => None
          end
      | [] => None
      end
  | [] => None
  end.

(** The same at the end of a string, on the reversed list. *)
Definition skipSpaceRev (l : list ascii) : option (list ascii) :=
  match l with
  | c :: r1 =>
      if ws1 (code c) then Some r1 else
      match r1 with
      | b :: r2 =>
          if ws2 (code b) (code c) then Some r2 else
          match r2 with
          | a :: r3 => if ws3 (code a) (code b) (code c) then Some r3 else None
          | [] => None
          end
      | [] => None
      end
  | [] => None
  end.

Fixpoint dropWhileSome (skip : list ascii -> option (list ascii))
  (fuel : nat) (l : list ascii) : list ascii :=
  match fuel with
  | O => l
  | S fuel' =>
      match skip l with
      | Some r => dropWhileSome skip fuel' r
      | None => l
      end
  end.

Definition trimStartChars (l : list ascii) : list ascii :=
  dropWhileSome skipSpace (List.length l) l.

Definition trimEndChars (l : list ascii) : list ascii :=
  rev (dropWhileSome skipSpaceRev (List.length l) (rev l)).

(** [String.prototype.trim]. *)
Definition trim (s : string) : string :=
  str (trimEndChars (trimStartChars (chars s))).

(** Decimal rendering of a non-negative integer, [String(n)] for an integer
    [n] below 10^21. *)
Definition ofN (n : N) : string := NilZero.string_of_uint (N.to_uint n).

Definition ofNat (n : nat) : string := ofN (N.of_nat n).

(** A text between double quotes. *)
Definition quoted (s : string) : string :=
  String (ascii_of_nat 34) (s ++ String (ascii_of_nat 34) EmptyString).

End Js.

(* ===================================================================== *)
(** * Node's [path] module, POSIX flavour *)
(* ===================================================================== *)

Module Path.

Definition isSlash (c : ascii) : bool := Ascii.eqb c "/".
Definition isDot (c : ascii) : bool := Ascii.eqb c ".".

Definition charsEqb (a b : list ascii) : bool :=
  if list_eq_dec ascii_dec a b then true else false.

(** On lists of characters.  The scans of [path.basename], [path.extname]
    and [path.dirname] run from the end of the path, so they are written on
    the reversed list. *)

Fixpoint dropSlashes (l : list ascii) : list ascii :=
  match l with
  | c :: r => if isSlash c then dropSlashes r else l
  | [] => []
  end.

Fixpoint takeSlashes (l : list ascii) : list ascii :=
  match l with
  | c :: r => if isSlash c then c :: takeSlashes r else []
  | [] => []
  end.

Fixpoint takePart (l : list ascii) : list ascii :=
  match l with
  | c :: r => if isSlash c then [] else c :: takePart r
  | [] => []
  end.

Fixpoint dropPart (l : list ascii) : list ascii :=
  match l with
  | c :: r => if isSlash c then l else dropPart r
  | [] => []
  end.

(** The last component of a path, reversed: trailing separators are skipped,
    then the characters down to the previous separator are kept. *)
Definition lastPartRev (p : list ascii) : list ascii :=
  takePart (dropSlashes (rev p)).

Fixpoint stripPrefix (pre l : list ascii) : option (list ascii) :=
  match pre, l with
  | [], _ => Some l
  | a :: pre', b :: l' => if Ascii.eqb a b then stripPrefix pre' l' else None
  | _ :: _, [] => None
  end.

(** [path.basename(p, suffix)]; [path.basename(p)] is [basenameChars p []]. *)
Definition basenameChars (p suffix : list ascii) : list ascii :=
  let rb := lastPartRev p in
  match suffix with
  | [] => rev rb
  | _ :: _ =>
      if List.length p <? List.length suffix then rev rb
      else if charsEqb suffix p then []
      else
        match stripPrefix (rev suffix) rb with
        | Some [] => rev rb
        | Some rest => rev rest
        | None =>
            match stripPrefix rb (rev suffix) with
            | Some _ => rev rb ++ takeSlashes (rev p)
            | None => rev rb
            end
        end
  end.

(** Splits a reversed component at its first dot, that is at the last dot of
    the component: [(after, before)], both still reversed. *)
Fixpoint splitDot (l : list ascii) : option (list ascii * list ascii) :=
  match l with
  | [] => None
  | c :: r =>
      if isDot c then Some ([], r)
      else match splitDot r with
           | Some (x, y) => Some (c :: x, y)
           | None => None
           end
  end.

(** [path.extname(p)]. *)
Definition extnameChars (p : list ascii) : list ascii :=
  match splitDot (lastPartRev p) with
  | None => []
  | Some (_, []) => []
  | Some (x, y) =>
      match x, y with
      | [], [c] => if isDot c then [] else ["."%char]
      | _, _ => "."%char :: rev x
      end
  end.

(** [path.dirname(p)]. *)
Definition dirnameChars (p : list ascii) : list ascii :=
  match p with
  | [] => ["."%char]
  | c :: t =>
      match dropPart (dropSlashes (rev t)) with
      | [] => if isSlash c then ["/"%char] else ["."%char]
      | _ :: rest =>
          match rest with
          | [] => if isSlash c then ["/"%char; "/"%char] else [c]
          | _ :: _ => c :: rev rest
          end
      end
  end.

(** The segments between separators: [split("/")]. *)
Fixpoint segments (l : list ascii) : list (list ascii) :=
  match l with
  | [] => [[]]
  | c :: r =>
      if isSlash c then [] :: segments r
      else match segments r with
           | s :: ss => (c :: s) :: ss
           | [] => [[c]]
           end
  end.

Definition isDotDot (s : list ascii) : bool :=
  match s with
  | [a; b] => isDot a && isDot b
  | _ => false
  end.

Definition isSingleDot (s : list ascii) : bool :=
  match s with
  | [a] => isDot a
  | _ => false
  end.

(** One segment of [normalizeString]; the stack has its top first. *)
Definition pushSegment (allowAboveRoot : bool)
  (stack : list (list ascii)) (seg : list ascii) : list (list ascii) :=
  match seg with
  | [] => stack
  | _ :: _ =>
      if isSingleDot seg then stack
      else if isDotDot seg then
        match stack with
        | top :: below =>
            if isDotDot top
            then (if allowAboveRoot then seg :: stack else stack)
            else below
        | [] => if allowAboveRoot then [seg] else []
        end
      else seg :: stack
  end.

Definition normalizeSegments (allowAboveRoot : bool)
  (segs : list (list ascii)) : list (list ascii) :=
  rev (fold_left (pushSegment allowAboveRoot) segs []).

Fixpoint joinSegments (segs : list (list ascii)) : list ascii :=
  match segs with
  | [] => []
  | [s] => s
  | s :: rest => s ++ "/"%char :: joinSegments rest
  end.

Definition startsWithSlash (p : list ascii) : bool :=
  match p with
  | c :: _ => isSlash c
  | [] => false
  end.

Definition endsWithSlash (p : list ascii) : bool := startsWithSlash (rev p).

(** [path.normalize(p)]. *)
Definition normalizeChars (p : list ascii) : list ascii :=
  match p with
  | [] => ["."%char]
  | _ :: _ =>
      let isAbsolute := startsWithSlash p in
      let trailingSeparator := endsWithSlash p in
      let body := joinSegments (normalizeSegments (negb isAbsolute) (segments p)) in
      match body with
      | [] =>
          if isAbsolute then ["/"%char]
          else if trailingSeparator then ["."%char; "/"%char] else ["."%char]
      | _ :: _ =>
          let body' := if trailingSeparator then body ++ ["/"%char] else body in
          if isAbsolute then "/"%char :: body' else body'
      end
  end.

(** [path.join(a, b)]: empty arguments are dropped, the others are joined
    with a separator and the result is normalized. *)
Definition joinChars (a b : list ascii) : list ascii :=
  match a, b with
  | [], [] => ["."%char]
  | [], _ :: _ => normalizeChars b
  | _ :: _, [] => normalizeChars a
  | _ :: _, _ :: _ => normalizeChars (a ++ "/"%char :: b)
  end.

(** The functions of the module, on strings. *)

Definition basename (p suffix : string) : string :=
  Js.str (basenameChars (Js.chars p) (Js.chars suffix)).

Definition extname (p : string) : string := Js.str (extnameChars (Js.chars p)).

Definition dirname (p : string) : string := Js.str (dirnameChars (Js.chars p)).

Definition normalize (p : string) : string := Js.str (normalizeChars (Js.chars p)).

Definition join (a b : string) : string :=
  Js.str (joinChars (Js.chars a) (Js.chars b)).

End Path.

(* ===================================================================== *)
(** * Numbers read from strings: [parseFloat] *)
(* ===================================================================== *)

(** A value of type Number, a finite one being given by its exact value, a
    fraction in lowest terms. *)
Inductive Number : Type :=
| NaN
| Infinity (negative : bool)
| Finite (q : Q).

Module Float.

Local Open Scope Z_scope.

Definition pow2 (e : Z) : Q :=
  if 0 <=? e then inject_Z (2 ^ e) else Qinv (inject_Z (2 ^ (- e))).

(** The integer nearest to [m], the even one of two. *)
Definition roundHalfEven (m : Q) : Z :=
  let f := Qfloor m in
  match Qcompare (m - inject_Z f) (1 # 2) with
  | Lt => f
  | Gt => f + 1
  | Eq => if Z.even f then f else f + 1
  end.

(** [floor (log2 a)] for [a > 0]. *)
Definition exponent (a : Q) : Z :=
  let e := Z.log2 (Qnum a) - Z.log2 (Zpos (Qden a)) in
  if Qle_bool (pow2 e) a then e else e - 1.

(** The Number value for a real: the nearest binary64 value, ties to the
    even significand; the spacing of the values around [a] is
    [2 ^ (max e (-1022) - 52)]. *)
Definition ofQ (x : Q) : Number :=
  if Qeq_bool x 0 then Finite 0
  else
    let a := Qabs x in
    let quantum := pow2 (Z.max (exponent a) (-1022) - 52) in
    let r := (inject_Z (roundHalfEven (a / quantum)) * quantum)%Q in
    if Qle_bool (pow2 1024) r then Infinity (negb (Qle_bool 0 x))
    else Finite (Qred (if Qle_bool 0 x then r else (- r)%Q)).

Definition isNaN (x : Number) : bool :=
  match x with
  | NaN => true
  | _ => false
  end.

(** [x >= y] and [x <= y] for a finite [y]. *)
Definition geb (x : Number) (y : Q) : bool :=
  match x with
  | NaN => false
  | Infinity negative => negb negative
  | Finite q => Qle_bool y q
  end.

Definition leb (x : Number) (y : Q) : bool :=
  match x with
  | NaN => false
  | Infinity negative => negative
  | Finite q => Qle_bool q y
  end.

Definition isDigit (c : ascii) : bool :=
  let n := Js.code c in (48 <=? n)%nat && (n <=? 57)%nat.

Fixpoint takeDigits (l : list ascii) : list ascii :=
  match l with
  | c :: r => if isDigit c then c :: takeDigits r else []
  | [] => []
  end.

Fixpoint dropDigits (l : list ascii) : list ascii :=
  match l with
  | c :: r => if isDigit c then dropDigits r else l
  | [] => []
  end.

Definition digitsValue (ds : list ascii) : Z :=
  fold_left (fun acc c => 10 * acc + (Z.of_nat (Js.code c) - 48)) ds 0.

(** An optional sign: whether it is a minus, and what follows it. *)
Definition takeSign (l : list ascii) : bool * list ascii :=
  match l with
  | "+"%char :: r => (false, r)
  | "-"%char :: r => (true, r)
  | _ => (false, l)
  end.

(** The exponent part at the head of [l], when there is a complete one:
    its value and what follows it. *)
Definition takeExponent (l : list ascii) : Z * list ascii :=
  match l with
  | c :: r =>
      if Ascii.eqb c "e" || Ascii.eqb c "E" then
        let '(negative, r') := takeSign r in
        match takeDigits r' with
        | [] => (0, l)
        | ds => ((if negative then - digitsValue ds else digitsValue ds), dropDigits r')
        end
      else (0, l)
  | [] => (0, l)
  end.

Definition pow10 (e : Z) : Q :=
  if 0 <=? e then inject_Z (10 ^ e) else Qinv (inject_Z (10 ^ (- e))).

(** The longest prefix of [l] that is a decimal literal
    ([StrDecimalLiteral]): its Number value and the characters after it;
    [NaN] when no prefix is one.  The sign of a zero is not kept. *)
Definition decimalPrefix (l : list ascii) : Number * list ascii :=
  let '(negative, body) := takeSign l in
  match Path.stripPrefix (Js.chars "Infinity") body with
  | Some rest => (Infinity negative, rest)
  | None =>
      let ip := takeDigits body in
      let '(fp, afterMantissa) :=
        match dropDigits body with
        | "."%char :: r => (takeDigits r, dropDigits r)
        | r => ([], r)
        end in
      match (ip ++ fp)%list with
      | [] => (NaN, l)
      | ds =>
          let '(e, rest) := takeExponent afterMantissa in
          let mv := (inject_Z (digitsValue ds)
                     * pow10 (e - Z.of_nat (List.length fp)))%Q in
          (ofQ (if negative then (- mv)%Q else mv), rest)
      end
  end.

(** [parseFloat(s)]: leading white space is skipped and what follows the
    literal is ignored. *)
Definition parseFloat (s : string) : Number :=
  fst (decimalPrefix (Js.trimStartChars (Js.chars s))).

(** [parseInt(s, 10)]: leading white space is skipped, then an optional
    sign and the digits that follow it are read; what comes after them is
    ignored, and without a digit the result is [NaN].  The digits are read
    exactly; an implementation may read those after the twentieth
    significant one as zeros. *)
Definition parseInt (s : string) : Number :=
  let '(negative, body) := takeSign (Js.trimStartChars (Js.chars s)) in
  match takeDigits body with
  | [] => NaN
  | ds =>
      let mathInt := inject_Z (digitsValue ds) in
      ofQ (if negative then (- mathInt)%Q else mathInt)
  end.

(** A string that is a decimal literal from its first character to its
    last. *)
Definition isDecimalLiteral (s : string) : bool :=
  match decimalPrefix (Js.chars s) with
  | (NaN, _) => false
  | (_, []) => true
  | (_, _ :: _) => false
  end.

End Float.

(* ===================================================================== *)
(** * Numbers written as strings: [toFixed] *)
(* ===================================================================== *)

Module Num.

Local Open Scope Q_scope.

Definition gtb (x y : Q) : bool := negb (Qle_bool x y).
Definition geb (x y : Q) : bool := Qle_bool y x.
Definition leb (x y : Q) : bool := Qle_bool x y.

Definition ofN (n : N) : Q := inject_Z (Z.of_N n).

Definition pow10 (f : nat) : Z := Z.pow 10 (Z.of_nat f).

(** The integer [n] for which [n / 10^f - x] is closest to zero, the larger
    one of two. *)
Definition scaledRound (x : Q) (f : nat) : Z :=
  Qfloor (x * inject_Z (pow10 f) + (1 # 2)).

(** The decimal digits of an integer that is not negative. *)
Definition digits (n : Z) : list ascii := Js.chars (Js.ofN (Z.to_N n)).

(** Whether the decimal [s * 10^p] is read back as the Number [x]. *)
Definition readsBackAs (x : Q) (s : Z) (p : nat) : bool :=
  match Float.ofQ (inject_Z (s * pow10 p)) with
  | Finite y => Qeq_bool y x
  | _ => false
  end.

(** A decimal with the digits [s]: one that has grown to [10^k] is written
    with the digits of [10^(k-1)]. *)
Definition normal (k : nat) (s : Z) (p : nat) : Z * nat :=
  if (s =? pow10 k)%Z then (pow10 (k - 1), S p) else (s, p).

(** For a Number [x] of at least [10^21], the decimal [s * 10^p] with [k]
    digits [s] that is read back as [x], the nearest to [x] when there are
    two; [None] when there is none.  Only the two decimals around [x] can be
    read back as [x]. *)
Definition withDigits (x : Q) (k : nat) : option (Z * nat) :=
  let p := (List.length (digits (Qfloor x)) - k)%nat in
  let unit := inject_Z (pow10 p) in
  let below := Qfloor (x / unit) in
  let above := (below + 1)%Z in
  let nearerBelow := Qle_bool (x - inject_Z below * unit) (inject_Z above * unit - x) in
  if readsBackAs x below p && (nearerBelow || negb (readsBackAs x above p))
  then Some (below, p)
  else if readsBackAs x above p then Some (normal k above p)
  else None.

(** The decimal with the fewest digits that is read back as [x], from [k]
    digits on; seventeen digits are always enough. *)
Fixpoint shortest (x : Q) (more k : nat) : Z * nat :=
  match more with
  | O => (Qfloor x, 0%nat)
  | S more' =>
      match withDigits x k with
      | Some decimal => decimal
      | None => shortest x more' (S k)
      end
  end.

(** [Number::toString] of a Number [x] of at least [10^21], which is
    written with an exponent: the first digit, after a point the other
    digits if there are any, and the exponent with its sign. *)
Definition exponential (x : Q) : string :=
  let '(s, p) := shortest x 17 1 in
  let ds := digits s in
  let e := Js.ofNat (List.length ds - 1 + p) in
  match ds with
  | [] => e
  | [d] => (Js.str [d] ++ "e+" ++ e)%string
  | d :: rest => (Js.str (d :: "."%char :: rest) ++ "e+" ++ e)%string
  end.

(** [Number.prototype.toFixed(f)], for [f] from 0 to 100.  A Number that is
    not finite is written as [String] writes it, and so is, after its sign,
    one of at least [10^21]; of another one the digits of the scaled
    integer are written, padded with zeros to [f + 1] digits, with the point
    before the last [f] of them. *)
Definition toFixed (x : Number) (f : nat) : string :=
  match x with
  | NaN => "NaN"%string
  | Infinity negative => if negative then "-Infinity"%string else "Infinity"%string
  | Finite q =>
      let s := if Qle_bool 0 q then [] else ["-"%char] in
      let a := Qabs q in
      if Qle_bool (inject_Z (pow10 21)) a then (Js.str s ++ exponential a)%string
      else
        let n := scaledRound a f in
        let m := digits n in
        let m := (repeat "0"%char (S f - List.length m) ++ m)%list in
        let k := List.length m in
        match f with
        | O => Js.str (s ++ m)
        | S _ => Js.str (s ++ firstn (k - f) m ++ "."%char :: skipn (k - f) m)
        end
  end.

(** Truthiness of a Number: every one but [NaN] and the zeros. *)
Definition truthy (x : Number) : bool :=
  match x with
  | NaN => false
  | Infinity _ => true
  | Finite q => negb (Qeq_bool q 0)
  end.

(** [value || 0] for a value that is a Number or is undefined. *)
Definition orZero (value : option Number) : Number :=
  match value with
  | Some x => if truthy x then x else Finite 0
  | None => Finite 0
  end.

End Num.

(* ===================================================================== *)
(** * The helper module: [functions.js] *)
(* ===================================================================== *)

(** The calls of the file system that the program makes and that can
    fail. *)
Inductive Syscall : Type :=
| stat
| scandir.

(** What a function call can throw: a [TypeError], or the error of a call of
    the file system, with its code ([ENOENT], [ENOTDIR], [EACCES], ...). *)
Inductive Exn : Type :=
| TypeError (what : string)
| SystemError (code : string) (syscall : Syscall) (path : string).

(** How a call ends.  [Unmodelled] stands for what this development does
    not follow: the call of a property of the [chalk] object that is not a
    style. *)
Inductive result (A : Type) : Type :=
| Ok (a : A)
| Throw (e : Exn)
| Unmodelled.

Arguments Ok {A} a.
Arguments Throw {A} e.
Arguments Unmodelled {A}.

(** What [chalk[name]] is: a style, which is a function from a text to a
    text; undefined; or another property of the object.  The object is a
    function, so it has the properties of every function ([call], [bind],
    ...), and it has the colour models ([rgb], [hex], ...) and its [level].
    What comes of calling one of these depends on the property, on the
    message, on the version of the package and on the styles used before. *)
Inductive Property : Type :=
| Style (f : string -> string)
| Undefined
| Member.

Definition Chalk : Type := string -> Property.

Module Chalk.

(** The style names of the package (version 5). *)
Definition modifiers : list string :=
  ["reset"; "bold"; "dim"; "italic"; "underline"; "overline"; "inverse";
   "hidden"; "strikethrough"; "visible"]%string.

Definition foreground : list string :=
  ["black"; "red"; "green"; "yellow"; "blue"; "magenta"; "cyan"; "white";
   "blackBright"; "gray"; "grey"; "redBright"; "greenBright"; "yellowBright";
   "blueBright"; "magentaBright"; "cyanBright"; "whiteBright"]%string.

Definition background : list string :=
  ["bgBlack"; "bgRed"; "bgGreen"; "bgYellow"; "bgBlue"; "bgMagenta"; "bgCyan";
   "bgWhite"; "bgBlackBright"; "bgGray"; "bgGrey"; "bgRedBright";
   "bgGreenBright"; "bgYellowBright"; "bgBlueBright"; "bgMagentaBright";
   "bgCyanBright"; "bgWhiteBright"]%string.

Definition styleNames : list string := modifiers ++ foreground ++ background.

Definition recognised (name : string) : bool := Js.includes styleNames name.

(** The names of the other properties: those every function has from
    [Function.prototype] and [Object.prototype], and those the package
    defines besides the styles in one version or another. *)
Definition ofFunctions : list string :=
  ["apply"; "bind"; "call"; "toString"; "constructor"; "length"; "name";
   "arguments"; "caller"; "prototype"; "hasOwnProperty"; "isPrototypeOf";
   "propertyIsEnumerable"; "toLocaleString"; "valueOf"; "__defineGetter__";
   "__defineSetter__"; "__lookupGetter__"; "__lookupSetter__";
   "__proto__"]%string.

Definition ofThePackage : list string :=
  ["level"; "rgb"; "hex"; "ansi256"; "bgRgb"; "bgHex"; "bgAnsi256"; "ansi";
   "bgAnsi"; "keyword"; "bgKeyword"; "hsl"; "bgHsl"; "hsv"; "bgHsv"; "hwb";
   "bgHwb"; "enabled"; "supportsColor"; "stderr"; "Instance"; "template";
   "default"]%string.

Definition member (name : string) : bool :=
  Js.includes (ofFunctions ++ ofThePackage) name.

(** The object of the package with colours switched off (output that is not
    a terminal): every style returns its text unchanged. *)
Definition plain : Chalk :=
  fun name =>
    if recognised name then Style (fun text => text)
    else if member name then Member
    else Undefined.

End Chalk.

Module Functions.

(** Calling [chalk[name](text)]: a [TypeError] when [chalk[name]] is
    undefined. *)
Definition style (chalk : Chalk) (name text : string) : result string :=
  match chalk name with
  | Style f => Ok (f text)
  | Undefined => Throw (TypeError ("chalk." ++ name ++ " is not a function")%string)
  | Member => Unmodelled
  end.

Definition bindResult {A B} (r : result A) (k : A -> result B) : result B :=
  match r with
  | Ok a => k a
  | Throw e => Throw e
  | Unmodelled => Unmodelled
  end.

(** The marker glyph U+25B6. *)
Definition marker : string :=
  String (ascii_of_nat 226) (String (ascii_of_nat 150) (String (ascii_of_nat 182) "")).

(** [logWithTimestamp(message, color)]: the line handed to [console.log],
    [time] being what [getCurrentTime()] returns.  The three pieces of the
    template are evaluated from left to right; in the last one the call
    [chalk[color](message)] comes before the [||].  Every call in the
    drivers gives the colour, so its default value is not modelled. *)
Definition logWithTimestamp (chalk : Chalk) (time message color : string)
  : result string :=
  bindResult (style chalk "dim" time) (fun t =>
  bindResult (style chalk "greenBright" marker) (fun g =>
  bindResult (style chalk color message) (fun styled =>
  bindResult (if Js.truthy styled then Ok styled
              else style chalk "whiteBright" message) (fun body =>
  Ok (t ++ " " ++ g ++ " " ++ body)%string)))).

(** [formatFileSize(size)], for a size that is a non-negative integer: the
    two divisions by 1024 are exact. *)
Definition formatFileSize (size : N) : string :=
  let bytes := Num.ofN size in
  let kilobytes := (bytes / 1024)%Q in
  let megabytes := (kilobytes / 1024)%Q in
  if Num.gtb megabytes 1 then (Num.toFixed (Finite megabytes) 2 ++ " MB")%string
  else if Num.gtb kilobytes 1 then (Num.toFixed (Finite kilobytes) 2 ++ " KB")%string
  else (Js.ofN size ++ " bytes")%string.

(** [formatPercentage(percent)], for a [percent] that is a Number or is
    undefined, as the engine gives it: reading [toFixed] of undefined
    throws. *)
Definition formatPercentage (percent : option Number) : result string :=
  match percent with
  | Some x => Ok (Num.toFixed x 2 ++ "%")%string
  | None => Throw (TypeError "Cannot read properties of undefined (reading 'toFixed')")
  end.

End Functions.

(* ===================================================================== *)
(** * The world around the program *)
(* ===================================================================== *)

(** What [fs.statSync] tells about a path. *)
Record Stats : Type := mkStats {
  isFile : bool;
  isDirectory : bool;
  size : N
}.

(** The terminal event of one run of the transcoding engine: [end], with the
    size of the file written, or [error], with its message and the size of
    the partial output left behind, if any. *)
Inductive EngineEvent : Type :=
| End (outputSize : N)
| Error (message : string) (partial : option N).

(** A [progress] event of the engine.  The handlers read its [percent],
    which the engine leaves undefined when it does not know how long the
    input is. *)
Record Progress : Type := mkProgress {
  percent : option Number
}.

(** One run of the engine: its progress events, then its terminal event. *)
Record Run : Type := mkRun {
  reports : list Progress;
  ending : EngineEvent
}.

(** The file system, the lines the user is going to type, whether the
    standard output is a terminal, and the coming runs of the engine.
    [files] is what [stat] gives at a path and [listing] what [scandir]
    gives, [None] where the call fails; [errno] is then the code of its
    error, [ENOENT] when there is nothing at the path, [ENOTDIR] when a
    file is on the way to it, [EACCES] when it may not be read. *)
Record World : Type := mkWorld {
  files : string -> option Stats;
  listing : string -> option (list string);
  errno : Syscall -> string -> string;
  stdin : list string;
  isTTY : bool;
  engine : list Run
}.

(** The messages of the two drivers.  A message keeps the values that are
    interpolated in it; literal lines are kept as text.  [TotalTime] is the
    closing line of the non-interactive driver, which tells the time the run
    took; the clock is not part of the world.  [Processing] is the line of
    the progress display. *)
Inductive Line : Type :=
| Text (literal : string)
| InputPaths (paths : list string)
| Setting (name value : string)
| Checking (path : string)
| Found (heading : string)
| Tree (lastFile : bool) (file : string)
| OutputExists (name : string)
| Skipping (name : string)
| Completed (done total : nat)
| Failed (file reason : string)
| Finished (name : string) (sizes : option (string * string))
| EngineFailed (message : string)
| OptionSelected (option : string)
| TotalTime
| Processing (name percentage : string).

(** What the process does that can be observed: a line on the console; a
    line read from the user; a run of the engine begun, and a run ended
    with its terminal event; and, for the progress display, the line of the
    terminal cleared, the cursor moved and a text written without a line
    end. *)
Inductive Event : Type :=
| Console (color : string) (line : Line)
| Asked (answer : string)
| Started (input : string) (options : list string) (output : string)
| Ffmpeg (input : string) (options : list string) (output : string)
    (event : EngineEvent)
| ClearLine
| CursorTo (column : nat)
| Written (line : Line).

(** Why a computation does not return: [process.exit], an exception nobody
    catches, waiting for ever on the user or on the engine, or a call that
    is not followed (see [Unmodelled]). *)
Inductive Halt : Type :=
| Exit (code : nat)
| Uncaught (e : Exn)
| Waiting
| NotFollowed.

Inductive Outcome (A : Type) : Type :=
| Ret (a : A)
| Stop (h : Halt).

Arguments Ret {A} a.
Arguments Stop {A} h.

(** A settled promise. *)
Inductive Settled : Type :=
| Resolved
| Rejected (reason : string).

Definition Proc (A : Type) : Type := World -> Outcome A * World * list Event.

Module Proc.

Definition ret {A} (a : A) : Proc A := fun w => (Ret a, w, []).

Definition bind {A B} (m : Proc A) (k : A -> Proc B) : Proc B :=
  fun w =>
    match m w with
    | (Ret a, w1, t1) =>
        match k a w1 with
        | (r, w2, t2) => (r, w2, t1 ++ t2)
        end
    | (Stop h, w1, t1) => (Stop h, w1, t1)
    end.

Definition stop {A} (h : Halt) : Proc A := fun w => (Stop h, w, []).

Definition emit (e : Event) : Proc unit := fun w => (Ret tt, w, [e]).

(** [process.exit(code)]. *)
Definition exit {A} (code : nat) : Proc A := stop (Exit code).

Definition throw {A} (e : Exn) : Proc A := stop (Uncaught e).

(** The value of a call, or its exception, which the caller lets through. *)
Definition call {A} (r : result A) : Proc A :=
  match r with
  | Ok a => ret a
  | Throw e => throw e
  | Unmodelled => stop NotFollowed
  end.

(** [console.log] of a message styled with [chalk[color]]: the line is
    written when the colour is a style. *)
Definition console (line : Line) (color : string) : Proc unit :=
  match Chalk.plain color with
  | Style _ => emit (Console color line)
  | Undefined => throw (TypeError ("chalk." ++ color ++ " is not a function")%string)
  | Member => stop NotFollowed
  end.

(** [fs.existsSync]: whether [stat] succeeds. *)
Definition existsSync (path : string) : Proc bool :=
  fun w => (Ret (match files w path with Some _ => true | None => false end), w, []).

(** [fs.statSync]: throws the error of [stat] when it fails. *)
Definition statSync (path : string) : Proc Stats :=
  fun w =>
    match files w path with
    | Some stats => (Ret stats, w, [])
    | None => (Stop (Uncaught (SystemError (errno w stat path) stat path)), w, [])
    end.

(** [fs.readdirSync]: throws the error of [scandir] when there is no
    listing. *)
Definition readdirSync (path : string) : Proc (list string) :=
  fun w =>
    match listing w path with
    | Some names => (Ret names, w, [])
    | None => (Stop (Uncaught (SystemError (errno w scandir path) scandir path)), w, [])
    end.

(** [rl.question]: the next line typed by the user. *)
Definition question : Proc string :=
  fun w =>
    match stdin w with
    | answer :: rest =>
        (Ret answer,
         mkWorld (files w) (listing w) (errno w) rest (isTTY w) (engine w),
         [Asked answer])
    | [] => (Stop Waiting, w, [])
    end.

(** [process.stdout.clearLine()] and [process.stdout.cursorTo(x)]: only a
    terminal has these two methods. *)
Definition clearLine : Proc unit :=
  fun w =>
    if isTTY w then (Ret tt, w, [ClearLine])
    else (Stop (Uncaught (TypeError "process.stdout.clearLine is not a function")), w, []).

Definition cursorTo (column : nat) : Proc unit :=
  fun w =>
    if isTTY w then (Ret tt, w, [CursorTo column])
    else (Stop (Uncaught (TypeError "process.stdout.cursorTo is not a function")), w, []).

(** [process.stdout.write] of a line of the progress display. *)
Definition write (line : Line) : Proc unit := emit (Written line).

Definition written (output : string) (event : EngineEvent)
  (fs : string -> option Stats) : string -> option Stats :=
  match event with
  | End n | Error _ (Some n) =>
      fun p => if (p =? output)%string then Some (mkStats true false n) else fs p
  | Error _ None => fs
  end.

(** The next run of the engine; without one the process waits for an event
    that does not come. *)
Definition nextRun : Proc Run :=
  fun w =>
    match engine w with
    | run :: rest =>
        (Ret run, mkWorld (files w) (listing w) (errno w) (stdin w) (isTTY w) rest, [])
    | [] => (Stop Waiting, w, [])
    end.

(** The terminal event of a run: the output is there as the run leaves
    it. *)
Definition finish (input : string) (options : list string) (output : string)
  (event : EngineEvent) : Proc EngineEvent :=
  fun w =>
    (Ret event,
     mkWorld (written output event (files w)) (listing w) (errno w) (stdin w)
       (isTTY w) (engine w),
     [Ffmpeg input options output event]).

(** [for (const x of xs)] and [xs.forEach], the variables the body assigns
    being passed along. *)
Fixpoint forOf {S A} (body : S -> A -> Proc S) (xs : list A) (s : S) : Proc S :=
  match xs with
  | [] => ret s
  | x :: rest => bind (body s x) (forOf body rest)
  end.

(** One run of the engine, [ffmpeg(input).outputOptions(options)
    .on('progress', onProgress).save(output)], up to its terminal event,
    which is returned to the handlers of [end] and [error].  The handler of
    [progress] is called for every report of the run; what it throws is
    thrown in the middle of the run, outside every [try]. *)
Definition ffmpeg (input : string) (options : list string) (output : string)
  (onProgress : Progress -> Proc unit) : Proc EngineEvent :=
  bind (emit (Started input options output)) (fun _ =>
  bind nextRun (fun run =>
  bind (forOf (fun _ progress => onProgress progress) (reports run) tt) (fun _ =>
  finish input options output (ending run)))).

End Proc.

Declare Scope proc_scope.
Delimit Scope proc_scope with proc.
Bind Scope proc_scope with Proc.

Notation "x <- c ;; k" := (Proc.bind c (fun x => k))
  (at level 61, c at next level, right associativity) : proc_scope.
Notation "c ;; k" := (Proc.bind c (fun _ => k))
  (at level 61, right associativity) : proc_scope.

Local Open Scope proc_scope.

(* ===================================================================== *)
(** * The non-interactive driver: [convert.js] *)
(* ===================================================================== *)

Module Convert.

Import Proc.

Definition log (line : Line) (color : string) : Proc unit := console line color.

Definition getConversionOptions (format scale fps : string) : list string :=
  let scaleFilter :=
    if Js.truthy scale && negb (scale =? "auto")%string
    then ("-vf scale=" ++ scale)%string else ""%string in
  let fpsFilter :=
    if Js.truthy fps && negb (fps =? "auto")%string
    then ("-vf fps=" ++ fps)%string else ""%string in
  Js.filterBoolean [scaleFilter; "-gifflags"; "transdiff"; "-y"; fpsFilter]%string.

(** The handler of [progress] that [convertMedia] installs. *)
Definition onProgress (inputPath : string) (progress : Progress) : Proc unit :=
  clearLine ;;
  cursorTo 0 ;;
  write (Processing (Path.basename inputPath "")
           (Num.toFixed (Num.orZero (percent progress)) 2)).

Definition convertMedia (inputPath outputPath format scale fps : string)
  : Proc Settled :=
  event <- ffmpeg inputPath (getConversionOptions format scale fps) outputPath
             (onProgress inputPath) ;;
  match event with
  | End _ =>
      log (Finished (Path.basename inputPath "") None) "white" ;;
      ret Resolved
  | Error message _ =>
      log (EngineFailed message) "redBright" ;;
      ret (Rejected message)
  end.

Definition extensions : list string := [".mp4"; ".avi"; ".jpg"; ".jpeg"; ".png"]%string.

Definition accepted (path : string) : bool :=
  Js.includes extensions (Js.toLowerCase (Path.extname path)).

(** The callback of the loop over the entries of a directory; [mediaFiles]
    is the array the files are pushed to. *)
Definition addEntry (inputPath : string) (mediaFiles : list string) (file : string)
  : Proc (list string) :=
  let filePath := Path.join inputPath file in
  st <- statSync filePath ;;
  if isFile st && accepted filePath
  then ret (mediaFiles ++ [filePath])
  else ret mediaFiles.

(** The callback of the loop over the input paths. *)
Definition addPath (mediaFiles : list string) (inputPath : string)
  : Proc (list string) :=
  log (Checking inputPath) "white" ;;
  stats <- statSync inputPath ;;
  if isDirectory stats then
    names <- readdirSync inputPath ;;
    forOf (addEntry inputPath) names mediaFiles
  else if isFile stats && accepted inputPath
  then ret (mediaFiles ++ [inputPath])
  else ret mediaFiles.

Definition listFile (_ : unit) (file : string) : Proc unit :=
  log (Tree false (Path.basename file "")) "white".

Definition getMediaFiles (inputPaths : list string) : Proc (list string) :=
  mediaFiles <- forOf addPath inputPaths [] ;;
  log (Found "Media files found:") "white" ;;
  forOf listFile mediaFiles tt ;;
  ret mediaFiles.

Definition formats : list string := ["gif"; "mp4"; "webm"; "mov"; "avi"]%string.

(** The path written for [file]. *)
Definition outputFile (outputFolder format file : string) : string :=
  Path.join outputFolder
    (Path.basename file (Path.extname file) ++ "." ++ format)%string.

(** The [try] statement of the loop over the files; [completedFiles] is the
    counter of [main]. *)
Definition tryConvert (total : nat) (format scale fps : string)
  (completedFiles : nat) (file outputFile : string) : Proc nat :=
  settled <- convertMedia file outputFile format scale fps ;;
  match settled with
  | Resolved =>
      log (Completed (S completedFiles) total) "white" ;;
      ret (S completedFiles)
  | Rejected err =>
      log (Failed file err) "redBright" ;;
      ret completedFiles
  end.

(** The body of the loop over the files. *)
Definition convertFile (total : nat) (outputFolder format scale fps : string)
  (completedFiles : nat) (file : string) : Proc nat :=
  let outputFile := outputFile outputFolder format file in
  present <- existsSync outputFile ;;
  if present then
    log (OutputExists (Path.basename outputFile "")) "yellowBright" ;;
    ret completedFiles
  else tryConvert total format scale fps completedFiles file outputFile.

(** The loop of [main] over the files found, from the choice of the output
    folder on; the result is the final [completedFiles]. *)
Definition convertAll (format scale fps : string) (mediaFiles : list string)
  : Proc nat :=
  let outputFolder := Path.dirname (hd ""%string mediaFiles) in
  forOf (convertFile (List.length mediaFiles) outputFolder format scale fps)
    mediaFiles 0.

(** [main], [args] being the arguments of the command line. *)
Definition main (args : list string) : Proc unit :=
  if List.length args <? 4 then
    log (Text "Usage: node script.js <inputPaths> <outputFormat> <scale> <fps>")
      "redBright" ;;
    exit 1
  else
    let inputPaths := firstn (List.length args - 3) args in
    let format := Js.toLowerCase (nth (List.length args - 3) args ""%string) in
    let scale := nth (List.length args - 2) args ""%string in
    let fps := nth (List.length args - 1) args ""%string in
    if negb (Js.includes formats format) then
      log (Text "Invalid format. Valid formats: gif, mp4, webm, mov, avi.")
        "redBright" ;;
      exit 1
    else
      log (InputPaths inputPaths) "white" ;;
      log (Setting "Format" format) "white" ;;
      log (Setting "Scale" scale) "white" ;;
      log (Setting "FPS" fps) "white" ;;
      mediaFiles <- getMediaFiles inputPaths ;;
      match mediaFiles with
      | [] => log (Text "No media files found.") "redBright" ;; exit 1
      | _ :: _ =>
          _ <- convertAll format scale fps mediaFiles ;;
          log TotalTime "white"
      end.

End Convert.

(* ===================================================================== *)
(** * The interactive driver: [cli.js] *)
(* ===================================================================== *)

Module Cli.

Import Proc.

(** The effect of the helper's [logWithTimestamp], the message in its
    structured form. *)
Definition logWithTimestamp (line : Line) (color : string) : Proc unit :=
  console line color.

Definition getConversionOptions (format scale fps : string) : list string :=
  let scaleFilter :=
    if Js.truthy scale && negb (scale =? "auto")%string
    then ("-vf scale=" ++ scale)%string else "-vf scale=-1:-1"%string in
  let fpsFilter :=
    if Js.truthy fps && negb (fps =? "auto")%string
    then ("-vf fps=" ++ fps)%string else ""%string in
  Js.filterBoolean [scaleFilter; "-gifflags"; "transdiff"; "-y"; fpsFilter]%string.

(** The handler of [progress] that [convertVideo] installs: it calls
    [onProgress] when there is one, the line of the terminal cleared. *)
Definition progressHandler (onProgress : option (string -> Progress -> Proc unit))
  (inputPath : string) (progress : Progress) : Proc unit :=
  match onProgress with
  | Some callback =>
      clearLine ;;
      cursorTo 0 ;;
      callback (Path.basename inputPath "") progress
  | None => ret tt
  end.

(** [convertVideo]: the handler of [end] reads the sizes of both files for
    its message before it resolves the promise. *)
Definition convertVideo (inputPath outputPath format scale fps : string)
  (onProgress : option (string -> Progress -> Proc unit)) : Proc Settled :=
  event <- ffmpeg inputPath (getConversionOptions format scale fps) outputPath
             (progressHandler onProgress inputPath) ;;
  match event with
  | End _ =>
      src <- statSync inputPath ;;
      out <- statSync outputPath ;;
      logWithTimestamp
        (Finished (Path.basename inputPath "")
           (Some (Functions.formatFileSize (size src),
                  Functions.formatFileSize (size out))))
        "whiteBright" ;;
      ret Resolved
  | Error message _ =>
      logWithTimestamp (EngineFailed message) "redBright" ;;
      ret (Rejected message)
  end.

Definition accepted (path : string) : bool :=
  (Js.toLowerCase (Path.extname path) =? ".mp4")%string.

(** The callback of the loop of [processFiles] over the entries of a
    directory; [videoFiles] is the array the files are pushed to. *)
Definition processFile (inputPath : string) (videoFiles : list string) (file : string)
  : Proc (list string) :=
  let filePath := Path.join inputPath file in
  st <- statSync filePath ;;
  if isFile st && accepted filePath
  then ret (videoFiles ++ [filePath])
  else ret videoFiles.

(** The callback of the loop over the input paths. *)
Definition addPath (videoFiles : list string) (inputPath : string)
  : Proc (list string) :=
  logWithTimestamp (Checking inputPath) "whiteBright" ;;
  stats <- statSync inputPath ;;
  if isDirectory stats then
    names <- readdirSync inputPath ;;
    logWithTimestamp (Text "Directory contents:") "whiteBright" ;;
    forOf (processFile inputPath) names videoFiles
  else if isFile stats && accepted inputPath
  then ret (videoFiles ++ [inputPath])
  else ret videoFiles.

(** The callback of the loop that lists the files found; [index] counts
    them. *)
Definition listFile (total : nat) (index : nat) (file : string) : Proc nat :=
  logWithTimestamp (Tree (index =? total - 1) file) "whiteBright" ;;
  ret (S index).

Definition getVideoFiles (inputPaths : list string) : Proc (list string) :=
  videoFiles <- forOf addPath inputPaths [] ;;
  logWithTimestamp (Found "Video files found:") "bgGreen" ;;
  forOf (listFile (List.length videoFiles)) videoFiles 0 ;;
  ret videoFiles.

(** [validateScale] of [promptUserScale]; [None] is its [null]. *)
Definition validateScale (input : string) : Proc (option string) :=
  if (input =? "")%string || (input =? "auto")%string then ret (Some "auto"%string)
  else
    let scaleValue := Float.parseFloat input in
    if negb (Float.isNaN scaleValue)
       && Float.geb scaleValue (1 # 4) && Float.leb scaleValue 3
    then ret (Some input)
    else
      logWithTimestamp
        (Text ("Invalid scale value. Please enter a number between 0.25 and 3.0, or "
               ++ Js.quoted "auto" ++ " for source dimensions."))
        "white" ;;
      ret None.

(** The loop [while (!scale)] of [promptUserScale], at most [rounds] times
    around. *)
Fixpoint promptUserScaleLoop (rounds : nat) : Proc string :=
  match rounds with
  | O => stop Waiting
  | S rounds' =>
      logWithTimestamp
        (Text ("Enter the scale (e.g., 0.25, 1, 1.5, 2, 3) or " ++ Js.quoted "auto"
               ++ " for source dimensions or Enter for default: "))
        "whiteBright" ;;
      answer <- question ;;
      scale <- validateScale (Js.trim answer) ;;
      match scale with
      | Some value => ret value
      | None => promptUserScaleLoop rounds'
      end
  end.

(** [promptUserScale]: every round reads a line, so the loop cannot go
    around more often than there are lines to read, plus once to wait. *)
Definition promptUserScale : Proc string :=
  fun w => promptUserScaleLoop (S (List.length (stdin w))) w.

(** [promptUserFormat]: [None] is its [null]. *)
Definition promptUserFormat : Proc (option string) :=
  forOf (fun (_ : unit) line => logWithTimestamp (Text line) "whiteBright")
    ["Select the output format:"; "- Press 1 for GIF"; "- Press 2 for MP4";
     "- Press 3 for WebM"; "- Press 4 for MOV"; "- Press 5 for AVI"]%string tt ;;
  answer <- question ;;
  let trimmedAnswer := Js.trim answer in
  if (trimmedAnswer =? "1")%string then ret (Some "gif"%string)
  else if (trimmedAnswer =? "2")%string then ret (Some "mp4"%string)
  else if (trimmedAnswer =? "3")%string then ret (Some "webm"%string)
  else if (trimmedAnswer =? "4")%string then ret (Some "mov"%string)
  else if (trimmedAnswer =? "5")%string then ret (Some "avi"%string)
  else
    logWithTimestamp (Text "Invalid format selected. Please select a valid option.")
      "redBright" ;;
    ret None.

(** [promptUserConfirmation(message)], the message given by its lines. *)
Definition promptUserConfirmation (message : list Line) : Proc string :=
  forOf (fun (_ : unit) line => logWithTimestamp line "whiteBright") message tt ;;
  answer <- question ;;
  let trimmedAnswer := Js.trim answer in
  (if (trimmedAnswer =? "1")%string then
     logWithTimestamp (OptionSelected "Overwrite") "cyanBright"
   else if (trimmedAnswer =? "2")%string then
     logWithTimestamp (OptionSelected "Overwrite all") "cyanBright"
   else if (trimmedAnswer =? "3")%string then
     logWithTimestamp (OptionSelected "Skip this file") "yellowBright"
   else if (trimmedAnswer =? "4")%string then
     logWithTimestamp (OptionSelected "Skip all remaining files") "yellowBright"
   else if (trimmedAnswer =? "0")%string then
     logWithTimestamp (OptionSelected "Cancel") "redBright"
   else
     logWithTimestamp (Text "Invalid option selected") "redBright") ;;
  ret trimmedAnswer.

(** The variables of the main function that the loop over the files
    assigns. *)
Record Vars : Type := mkVars {
  completedFiles : nat;
  overwriteAll : bool;
  skipAll : bool
}.

(** How the [switch] on the answer is left: [break], on to the rest of the
    body, or [continue], on to the next file. *)
Inductive Leave : Type :=
| Break
| Continue.

Definition outputFile (outputFolder format file : string) : string :=
  Path.join outputFolder
    (Path.basename file (Path.extname file) ++ "." ++ format)%string.

Definition overwriteMessage (outputFile : string) : list Line :=
  [OutputExists (Path.basename outputFile "");
   Text "- Press 1 to overwrite";
   Text "- Press 2 to overwrite all";
   Text "- Press 3 to skip this file";
   Text "- Press 4 to skip all remaining files";
   Text "- Press 0 to cancel"].

(** The [switch] on the answer to the overwrite prompt. *)
Definition overwriteDecision (outputFile : string) (v : Vars)
  : Proc (Leave * Vars) :=
  userResponse <- promptUserConfirmation (overwriteMessage outputFile) ;;
  if (userResponse =? "0")%string then
    logWithTimestamp (Text "Process canceled by user.") "redBright" ;;
    exit 1
  else if (userResponse =? "2")%string then
    ret (Break, mkVars (completedFiles v) true (skipAll v))
  else if (userResponse =? "4")%string then
    ret (Continue, mkVars (completedFiles v) (overwriteAll v) true)
  else if (userResponse =? "3")%string then
    logWithTimestamp (Skipping (Path.basename outputFile "")) "yellowBright" ;;
    ret (Continue, v)
  else
    ret (Break, v).

(** The callback the loop over the files hands to [convertVideo]. *)
Definition showProgress (fileName : string) (progress : Progress) : Proc unit :=
  percentage <- call (Functions.formatPercentage (percent progress)) ;;
  write (Processing fileName percentage).

(** The [try] statement of the loop over the files. *)
Definition tryConvert (total : nat) (format finalScale finalFps : string)
  (v : Vars) (file outputFile : string) : Proc Vars :=
  settled <- convertVideo file outputFile format finalScale finalFps
               (Some showProgress) ;;
  match settled with
  | Resolved =>
      logWithTimestamp (Completed (S (completedFiles v)) total) "cyanBright" ;;
      ret (mkVars (S (completedFiles v)) (overwriteAll v) (skipAll v))
  | Rejected err =>
      logWithTimestamp (Failed file err) "redBright" ;;
      ret v
  end.

(** The body of the loop over the files. *)
Definition convertFile (total : nat) (outputFolder format finalScale finalFps : string)
  (v : Vars) (file : string) : Proc Vars :=
  let outputFile := outputFile outputFolder format file in
  present <- existsSync outputFile ;;
  left <-
    (if present && negb (overwriteAll v) && negb (skipAll v)
     then overwriteDecision outputFile v
     else ret (Break, v)) ;;
  match left with
  | (Continue, v') => ret v'
  | (Break, v') =>
      if skipAll v' then ret v'
      else tryConvert total format finalScale finalFps v' file outputFile
  end.

Definition start : Vars := mkVars 0 false false.

(** The loop of the main function over the files found, with the variables
    declared before it and the line written after it.  The prompt to start,
    which stands between the declarations and the loop, is not part of it. *)
Definition convertAll (format finalScale finalFps : string)
  (videoFiles : list string) : Proc Vars :=
  let outputFolder := Path.dirname (hd ""%string videoFiles) in
  v <- forOf (convertFile (List.length videoFiles) outputFolder format
                finalScale finalFps) videoFiles start ;;
  logWithTimestamp (Text "All files processed successfully.") "cyanBright" ;;
  ret v.

(** [validateFps] of [promptUserFps]; [None] is its [null]. *)
Definition validateFps (input : string) : Proc (option string) :=
  if (input =? "")%string || (input =? "auto")%string then ret (Some "auto"%string)
  else
    let fpsValue := Float.parseInt input in
    if negb (Float.isNaN fpsValue)
       && Float.geb fpsValue 8 && Float.leb fpsValue 60
    then ret (Some input)
    else
      logWithTimestamp
        (Text ("Invalid FPS value. Please enter a number between 8 and 60, or "
               ++ Js.quoted "auto" ++ " for source FPS."))
        "white" ;;
      ret None.

(** The loop [while (!fps)] of [promptUserFps], at most [rounds] times
    around. *)
Fixpoint promptUserFpsLoop (rounds : nat) : Proc string :=
  match rounds with
  | O => stop Waiting
  | S rounds' =>
      logWithTimestamp
        (Text ("Enter the FPS (8-60) or " ++ Js.quoted "auto"
               ++ " for source FPS or Enter for default: "))
        "whiteBright" ;;
      answer <- question ;;
      fps <- validateFps (Js.trim answer) ;;
      match fps with
      | Some value => ret value
      | None => promptUserFpsLoop rounds'
      end
  end.

(** [promptUserFps]: as for the scale, every round reads a line. *)
Definition promptUserFps : Proc string :=
  fun w => promptUserFpsLoop (S (List.length (stdin w))) w.

(** [promptStartConversion], which calls itself after an invalid answer, at
    most [rounds] calls deep. *)
Fixpoint promptStartConversionLoop (rounds : nat) : Proc bool :=
  match rounds with
  | O => stop Waiting
  | S rounds' =>
      forOf (fun (_ : unit) line => logWithTimestamp (Text line) "whiteBright")
        ["Ready to start the conversion?"; "- Press 1 to start now";
         "- Press 2 to restart the process"; "- Press 3 to exit"]%string tt ;;
      answer <- question ;;
      let trimmedAnswer := Js.trim answer in
      if (trimmedAnswer =? "1")%string then ret true
      else if (trimmedAnswer =? "2")%string then ret false
      else if (trimmedAnswer =? "3")%string then
        logWithTimestamp (Text "Exiting the process. Goodbye! ") "redBright" ;;
        exit 0
      else
        logWithTimestamp (Text "Invalid selection. Please choose a valid option.")
          "redBright" ;;
        promptStartConversionLoop rounds'
  end.

(** [promptStartConversion]: every call reads a line. *)
Definition promptStartConversion : Proc bool :=
  fun w => promptStartConversionLoop (S (List.length (stdin w))) w.

(** The test of the filter of [parseArguments]. *)
Definition isDirectoryArgument (arg : string) : Proc bool :=
  present <- existsSync arg ;;
  if present then
    stats <- statSync arg ;;
    ret (isDirectory stats)
  else ret false.

(** [parseArguments], [args] being the arguments of the command line: its
    [inputPaths]. *)
Definition parseArguments (args : list string) : Proc (list string) :=
  forOf (fun inputPaths arg =>
    keep <- isDirectoryArgument arg ;;
    ret (if keep then inputPaths ++ [arg] else inputPaths)) args [].

(** What the template of the line [Format: ...] shows for the format. *)
Definition shownFormat (format : option string) : string :=
  match format with
  | Some value => value
  | None => "null"%string
  end.

(** One turn of the [do ... while (restart)] of the main function; [again]
    is what follows a [continue], which is reached with [restart] set: the
    next turn. *)
Definition round (args : list string) (again : Proc unit) : Proc unit :=
  inputPaths <- parseArguments args ;;
  finalScale <- promptUserScale ;;
  finalFps <- promptUserFps ;;
  format <- promptUserFormat ;;
  logWithTimestamp (InputPaths inputPaths) "whiteBright" ;;
  logWithTimestamp (Setting "Scale" finalScale) "whiteBright" ;;
  logWithTimestamp (Setting "FPS" finalFps) "whiteBright" ;;
  logWithTimestamp (Setting "Format" (shownFormat format)) "whiteBright" ;;
  match format with
  | None =>
      logWithTimestamp (Text "Invalid format. Restarting.") "redBright" ;;
      again
  | Some format =>
      videoFiles <- getVideoFiles inputPaths ;;
      match videoFiles with
      | [] => logWithTimestamp (Text "No video files found.") "redBright"
      | _ :: _ =>
          startConversion <- promptStartConversion ;;
          if startConversion then
            _ <- convertAll format finalScale finalFps videoFiles ;;
            ret tt
          else
            logWithTimestamp (Text "Restarting conversion process.") "cyanBright" ;;
            again
      end
  end.

(** The main function, its loop at most [rounds] times around. *)
Fixpoint mainLoop (rounds : nat) (args : list string) : Proc unit :=
  match rounds with
  | O => stop Waiting
  | S rounds' => round args (mainLoop rounds' args)
  end.

(** The main function: every round reads a line for the scale, so there
    are no more rounds than lines, plus one to wait. *)
Definition main (args : list string) : Proc unit :=
  fun w => mainLoop (S (List.length (stdin w))) args w.

End Cli.

(* ===================================================================== *)
(** * What is observed of a run, and the shapes the properties speak of *)
(* ===================================================================== *)

Module Spec.

(** The engine runs begun in a trace: input and output of each. *)
Definition attempts (t : list Event) : list (string * string) :=
  flat_map (fun e =>
    match e with
    | Started input _ output => [(input, output)]
    | _ => []
    end) t.

(** The number of engine runs that ended well. *)
Definition successes (t : list Event) : nat :=
  List.length (filter (fun e =>
    match e with
    | Ffmpeg _ _ _ (End _) => true
    | _ => false
    end) t).

(** The engine runs that failed: input and message of each. *)
Definition failures (t : list Event) : list (string * string) :=
  flat_map (fun e =>
    match e with
    | Ffmpeg input _ _ (Error message _) => [(input, message)]
    | _ => []
    end) t.

(** The failures the loop over the files wrote to the console. *)
Definition reported (t : list Event) : list (string * string) :=
  flat_map (fun e =>
    match e with
    | Console _ (Failed file reason) => [(file, reason)]
    | _ => []
    end) t.

Definition isScaleFilter (option : string) : bool := String.prefix "-vf scale=" option.

Definition isFpsFilter (option : string) : bool := String.prefix "-vf fps=" option.

(** The option list as the specification words it: a scale filter only if
    the scale is not [auto], the flag pair, the overwrite flag, an fps filter
    only if the fps is not [auto], in this order. *)
Definition optionsAsSpecified (options : list string) (scale fps : string) : Prop :=
  exists scalePart fpsPart,
    options = scalePart ++ ["-gifflags"; "transdiff"; "-y"]%string ++ fpsPart
    /\ (scalePart = []
        \/ (scale <> "auto"%string /\ scalePart = ["-vf scale=" ++ scale]%string))
    /\ (fpsPart = []
        \/ (fps <> "auto"%string /\ fpsPart = ["-vf fps=" ++ fps]%string)).

(** The condition under which the code builds a filter from a value. *)
Definition given (value : string) : bool :=
  Js.truthy value && negb (value =? "auto")%string.

Definition allDigits (s : string) : bool := forallb Float.isDigit (Js.chars s).

(** A number with exactly two decimals, followed by a unit. *)
Definition twoDecimals (unit s : string) : Prop :=
  exists whole d1 d2,
    s = (whole ++ "." ++ String d1 (String d2 unit))%string
    /\ whole <> EmptyString
    /\ allDigits whole = true
    /\ Float.isDigit d1 = true
    /\ Float.isDigit d2 = true.

(** The largest integer up to which every integer is a Number. *)
Definition maxSafeInteger : N := 9007199254740991.

(** The two lines of the scale prompt. *)
Definition invalidScaleLine : Event :=
  Console "white"
    (Text ("Invalid scale value. Please enter a number between 0.25 and 3.0, or "
           ++ Js.quoted "auto" ++ " for source dimensions.")).

Definition enterScaleLine : Event :=
  Console "whiteBright"
    (Text ("Enter the scale (e.g., 0.25, 1, 1.5, 2, 3) or " ++ Js.quoted "auto"
           ++ " for source dimensions or Enter for default: ")).

(** The verdicts of [validateScale]; they do not depend on the world. *)
Definition rejects (input : string) : Prop :=
  forall w, Cli.validateScale input w = (Ret None, w, [invalidScaleLine]).

Definition accepts (input value : string) : Prop :=
  forall w, Cli.validateScale input w = (Ret (Some value), w, []).

(** The world after the user has typed all but the lines [rest]. *)
Definition answered (w : World) (rest : list string) : World :=
  mkWorld (files w) (listing w) (errno w) rest (isTTY w) (engine w).

Definition isAsked (e : Event) : bool :=
  match e with
  | Asked _ => true
  | _ => false
  end.

(** The world after a run of the engine that wrote to [output] and ended
    with [event], the runs [rest] still to come. *)
Definition afterRun (w : World) (output : string) (event : EngineEvent)
  (rest : list Run) : World :=
  mkWorld (Proc.written output event (files w)) (listing w) (errno w) (stdin w)
    (isTTY w) rest.

(** The overwrite prompt as the specification words it in its section on
    the prompts: an answer other than 0, 1, 2, 3 and 4 is an invalid one on
    which no action is taken, the loop going on to the next file. *)
Definition otherAnswerTakesNoAction : Prop :=
  forall (total : nat) (folder format scale fps : string) (v : Cli.Vars)
         (file answer : string) (rest : list string) (w : World),
    files w (Cli.outputFile folder format file) <> None ->
    Cli.overwriteAll v = false ->
    Cli.skipAll v = false ->
    stdin w = answer :: rest ->
    ~ In (Js.trim answer) ["0"; "1"; "2"; "3"; "4"]%string ->
    exists w' t,
      Cli.convertFile total folder format scale fps v file w = (Ret v, w', t)
      /\ attempts t = [].

(** A file system given by the list of what it holds. *)
Definition fileSystem (entries : list (string * Stats)) : string -> option Stats :=
  fun path =>
    match find (fun entry => (fst entry =? path)%string) entries with
    | Some entry => Some (snd entry)
    | None => None
    end.

Definition directory (entries : list (string * list string))
  : string -> option (list string) :=
  fun path =>
    match find (fun entry => (fst entry =? path)%string) entries with
    | Some entry => Some (snd entry)
    | None => None
    end.

(** ** Paths *)

Definition noSlash (l : list ascii) : Prop :=
  Forall (fun c => Path.isSlash c = false) l.

Definition noDot (l : list ascii) : Prop :=
  Forall (fun c => Path.isDot c = false) l.

(** A name as a directory lists it: not empty, without separator, and
    neither [.] nor [..]. *)
Definition plainChars (l : list ascii) : bool :=
  match l with
  | [] => false
  | _ :: _ =>
      forallb (fun c => negb (Path.isSlash c)) l
      && negb (Path.isSingleDot l) && negb (Path.isDotDot l)
  end.

Definition entryName (name : string) : bool := plainChars (Js.chars name).

(** The segments [path.normalize] keeps of a path. *)
Definition normalSegments (a : list ascii) : list (list ascii) :=
  Path.normalizeSegments (negb (Path.startsWithSlash a)) (Path.segments a).

Definition root (absolute : bool) : list ascii :=
  if absolute then ["/"%char] else [].

(** What [path.join] puts before an entry of a folder, and the folder as
    [path.dirname] returns it, from the segments kept of the folder. *)
Definition prefixOf (absolute : bool) (kept : list (list ascii)) : list ascii :=
  match kept with
  | [] => root absolute
  | _ :: _ => root absolute ++ Path.joinSegments kept ++ ["/"%char]
  end.

Definition folderOf (absolute : bool) (kept : list (list ascii)) : list ascii :=
  match kept with
  | [] => if absolute then ["/"%char] else ["."%char]
  | _ :: _ => root absolute ++ Path.joinSegments kept
  end.

Definition dotDot : list ascii := ["."%char; "."%char].

(** The stacks [normalizeString] builds, top first: plain segments above a
    block of [..], the block being empty when the path is absolute. *)
Definition normalStack (allowAboveRoot : bool) (stack : list (list ascii)) : Prop :=
  exists plain k,
    stack = rev plain ++ repeat dotDot k
    /\ Forall (fun s => plainChars s = true) plain
    /\ (allowAboveRoot = false -> k = 0).

(** Whether there is a regular file at a path. *)
Definition regular (w : World) (path : string) : bool :=
  match files w path with
  | Some stats => isFile stats
  | None => false
  end.

(** The output path as the specification words it: in the directory of the
    input file itself. *)
Definition outputBesideInput : Prop :=
  forall (videoFiles : list string) (format file : string),
    In file videoFiles ->
    Path.dirname (Cli.outputFile (Path.dirname (hd EmptyString videoFiles)) format file)
    = Path.dirname file.

(** Sample worlds: the output is a terminal, and where there is nothing the
    file system says so with [ENOENT].  A folder with three videos, the
    output of the second one already there; the user answers the overwrite
    prompt with [answer]; the engine runs as [runs] tells. *)
Definition video : Stats := mkStats true false 2000000.

Definition folder : Stats := mkStats false true 4096.

Definition nothingThere : Syscall -> string -> string := fun _ _ => "ENOENT"%string.

Definition threeVideos (answer : string) (runs : list Run) : World :=
  mkWorld
    (fileSystem [("vids", folder); ("vids/a.mp4", video); ("vids/b.gif", video);
                 ("vids/b.mp4", video); ("vids/c.mp4", video)]%string)
    (directory [("vids", ["a.mp4"; "b.gif"; "b.mp4"; "c.mp4"])]%string)
    nothingThere [answer] true runs.

(** A folder that holds [a.mp4], [b.txt] and [c.MP4]. *)
Definition mixedFolder : World :=
  mkWorld
    (fileSystem [("vids", folder); ("vids/a.mp4", video); ("vids/b.txt", video);
                 ("vids/c.MP4", video)]%string)
    (directory [("vids", ["a.mp4"; "b.txt"; "c.MP4"])]%string)
    nothingThere [] true [].

(** A run that reports once, at one half, and one that reports without a
    percentage. *)
Definition halfway (event : EngineEvent) : Run :=
  mkRun [mkProgress (Some (Finite (50 # 1)))] event.

Definition blind (event : EngineEvent) : Run := mkRun [mkProgress None] event.

(** The same world with a standard output that is not a terminal. *)
Definition piped (w : World) : World :=
  mkWorld (files w) (listing w) (errno w) (stdin w) false (engine w).

(** The same world with other error codes; and the codes of a file system
    on which the path [vids/a.mp4/] leads through a file. *)
Definition withCodes (codes : Syscall -> string -> string) (w : World) : World :=
  mkWorld (files w) (listing w) codes (stdin w) (isTTY w) (engine w).

Definition throughAFile : Syscall -> string -> string :=
  fun _ path => if (path =? "vids/a.mp4/")%string then "ENOTDIR"%string
                else "ENOENT"%string.

(** A folder with two videos and no output yet. *)
Definition twoVideos (answers : list string) (runs : list Run) : World :=
  mkWorld
    (fileSystem [("vids", folder); ("vids/a.mp4", video); ("vids/b.mp4", video)]%string)
    (directory [("vids", ["a.mp4"; "b.mp4"])]%string)
    nothingThere answers true runs.

(** ** More observations *)

(** The file system of [w'] holds at least what that of [w] holds; its
    error codes and the kind of the standard output are those of [w]. *)
Definition grows (w w' : World) : Prop :=
  (forall p, files w p <> None -> files w' p <> None)
  /\ errno w' = errno w /\ isTTY w' = isTTY w.

(** [l1] is [l2] with some elements left out, the order kept. *)
Inductive subsequence {A : Type} : list A -> list A -> Prop :=
| sub_nil : subsequence [] []
| sub_skip (x : A) (l1 l2 : list A) : subsequence l1 l2 -> subsequence l1 (x :: l2)
| sub_take (x : A) (l1 l2 : list A) : subsequence l1 l2 -> subsequence (x :: l1) (x :: l2).

(** The lines read from the user, in a trace. *)
Definition answers (t : list Event) : list string :=
  flat_map (fun e =>
    match e with
    | Asked answer => [answer]
    | _ => []
    end) t.

(** The two flags of the interactive loop are not set both. *)
Definition oneFlagAtMost (v : Cli.Vars) : Prop :=
  Cli.overwriteAll v = false \/ Cli.skipAll v = false.

(** The two lines of the fps prompt. *)
Definition invalidFpsLine : Event :=
  Console "white"
    (Text ("Invalid FPS value. Please enter a number between 8 and 60, or "
           ++ Js.quoted "auto" ++ " for source FPS.")).

Definition enterFpsLine : Event :=
  Console "whiteBright"
    (Text ("Enter the FPS (8-60) or " ++ Js.quoted "auto"
           ++ " for source FPS or Enter for default: ")).

(** The verdicts of [validateFps]. *)
Definition rejectsFps (input : string) : Prop :=
  forall w, Cli.validateFps input w = (Ret None, w, [invalidFpsLine]).

Definition acceptsFps (input value : string) : Prop :=
  forall w, Cli.validateFps input w = (Ret (Some value), w, []).

(** Whether there is a directory at a path. *)
Definition isFolder (w : World) (path : string) : bool :=
  match files w path with
  | Some stats => isDirectory stats
  | None => false
  end.

(** A text that does not go on with a digit. *)
Definition noDigitAhead (suffix : string) : bool :=
  match Js.chars suffix with
  | c :: _ => negb (Float.isDigit c)
  | [] => true
  end.

(** ** Frames *)

(** From every world, [c] keeps [I] between the world it starts from, the
    world it ends in and its trace, and it stops only as [H] allows. *)
Definition keeps {A : Type} (I : World -> World -> list Event -> Prop)
  (H : Halt -> Prop) (c : Proc A) : Prop :=
  forall w,
    match c w with
    | (Ret _, w', t) => I w w' t
    | (Stop h, w', t) => I w w' t /\ H h
    end.

(** Nothing is changed, no line is read and the engine is not run. *)
Definition untouched (w w' : World) (t : list Event) : Prop :=
  w' = w /\ attempts t = [] /\ answers t = [].

(** Lines of the user are read, those of the trace, and nothing else
    happens to the world. *)
Definition onlyReads (w w' : World) (t : list Event) : Prop :=
  files w' = files w /\ listing w' = listing w /\ engine w' = engine w
  /\ attempts t = [] /\ stdin w = answers t ++ stdin w'
  /\ errno w' = errno w /\ isTTY w' = isTTY w.

(** No way of stopping. *)
Definition never (h : Halt) : Prop := False.

(** ** Discovery *)

(** Where a file found comes from: it is an input path that is not a
    directory, or an entry of an input path that is one. *)
Definition comesFrom (w : World) (inputPaths : list string) (file : string) : Prop :=
  (In file inputPaths /\ isFolder w file = false)
  \/ (exists d names n,
         In d inputPaths /\ isFolder w d = true /\ listing w d = Some names
         /\ In n names /\ file = Path.join d n).

(** A path that discovery cannot read: an input path that cannot be
    inspected, an input path that is a directory and cannot be listed, or an
    entry listed in an input path that cannot be inspected. *)
Definition unreadable (w : World) (inputPaths : list string) (p : string) : Prop :=
  (In p inputPaths
   /\ (files w p = None \/ (isFolder w p = true /\ listing w p = None)))
  \/ (exists d names n,
         In d inputPaths /\ isFolder w d = true /\ listing w d = Some names
         /\ In n names /\ p = Path.join d n /\ files w p = None).

(** The call that fails at a path that cannot be read: [stat] when the path
    cannot be inspected, [scandir] otherwise. *)
Definition failing (w : World) (p : string) : Syscall :=
  match files w p with
  | None => stat
  | Some _ => scandir
  end.

(** The error of the file system at a path. *)
Definition errorAt (w : World) (p : string) : Exn :=
  SystemError (errno w (failing w p) p) (failing w p) p.

(** The exception of the file system for a path that cannot be read. *)
Definition missing (w : World) (inputPaths : list string) (h : Halt) : Prop :=
  exists p, h = Uncaught (errorAt w p) /\ unreadable w inputPaths p.

(** What discovery has to return from [inputPaths] with the extension test
    [accepted]. *)
Definition wanted (accepted : string -> bool) (w : World) (inputPaths : list string)
  (file : string) : Prop :=
  regular w file = true /\ accepted file = true /\ comesFrom w inputPaths file.

(** A file system on which every directory can be listed and every entry
    listed can be inspected. *)
Definition consistent (w : World) : Prop :=
  forall d, isFolder w d = true ->
    exists names, listing w d = Some names
                  /\ Forall (fun n => files w (Path.join d n) <> None) names.

(** ** The progress display *)

(** The progress reports of a run can be shown by the non-interactive
    driver: there is none, or the standard output is a terminal. *)
Definition redrawable (w : World) (run : Run) : Prop :=
  reports run = [] \/ isTTY w = true.

(** They can be shown by the interactive driver: there is none, or the
    standard output is a terminal and every report has its percentage. *)
Definition showable (w : World) (run : Run) : Prop :=
  reports run = []
  \/ (isTTY w = true /\ Forall (fun p => percent p <> None) (reports run)).

(** A run without progress reports. *)
Definition quiet (event : EngineEvent) : Run := mkRun [] event.

(** The world while the engine is running, the runs [rest] still to come. *)
Definition running (w : World) (rest : list Run) : World :=
  mkWorld (files w) (listing w) (errno w) (stdin w) (isTTY w) rest.

(** What the display of progress lines leaves in the trace. *)
Definition redraws (lines : list Line) : list Event :=
  flat_map (fun line => [ClearLine; CursorTo 0; Written line]) lines.

(** The progress lines of a run, in the non-interactive driver and in the
    interactive one. *)
Definition convertLines (inputPath : string) (run : Run) : list Line :=
  map (fun p => Processing (Path.basename inputPath "")
                  (Num.toFixed (Num.orZero (percent p)) 2))
    (reports run).

Definition percentage (p : Progress) : string :=
  match percent p with
  | Some x => (Num.toFixed x 2 ++ "%")%string
  | None => EmptyString
  end.

Definition cliLines (inputPath : string) (run : Run) : list Line :=
  map (fun p => Processing (Path.basename inputPath "") (percentage p)) (reports run).

(** The exceptions of the progress display. *)
Definition noClearLine : Exn := TypeError "process.stdout.clearLine is not a function".

Definition noPercent : Exn :=
  TypeError "Cannot read properties of undefined (reading 'toFixed')".

(** An event of the progress display. *)
Definition isDisplay (e : Event) : bool :=
  match e with
  | ClearLine | CursorTo _ | Written _ => true
  | _ => false
  end.

(** The terminal events of the runs that ended, in a trace. *)
Definition endings (t : list Event) : list EngineEvent :=
  flat_map (fun e =>
    match e with
    | Ffmpeg _ _ _ event => [event]
    | _ => []
    end) t.

(** An exception of the progress display of the interactive driver, which
    a run of the engine whose reports cannot be shown brings about. *)
Definition displayFails (w : World) (e : Exn) : Prop :=
  (e = noClearLine \/ e = noPercent)
  /\ exists run, In run (engine w) /\ ~ showable w run.

(** ** The drivers as a whole *)

(** How a run of the interactive driver from [w] may end.  The file system
    has only grown, and the lines read are the first lines there were.  The
    process is ended with the exit code 0 before anything has been
    converted, or with the exit code 1; an error of the file system escapes
    only on a file system that is not consistent, and another exception
    only when the engine has a run whose progress reports cannot be shown;
    and the run waits only when the lines of the user or the runs of the
    engine have run out. *)
Definition endsWell (w : World) (result : Outcome unit * World * list Event) : Prop :=
  let '(r, w', t) := result in
  grows w w' /\ listing w' = listing w /\ stdin w = answers t ++ stdin w'
  /\ match r with
     | Ret _ => True
     | Stop (Exit code) =>
         (code = 0 /\ attempts t = [] /\ files w' = files w) \/ code = 1
     | Stop (Uncaught e) =>
         ((exists code call p, e = SystemError code call p) /\ ~ consistent w)
         \/ displayFails w e
     | Stop Waiting => stdin w' = [] \/ engine w' = []
     | Stop NotFollowed => False
     end.

End Spec.

(* ===================================================================== *)
(** * Properties *)
(* ===================================================================== *)

(** ** Strings and lists of characters *)

Lemma str_chars (s : string) : Js.str (Js.chars s) = s.
Proof. apply string_of_list_ascii_of_string. Qed.

Lemma chars_str (l : list ascii) : Js.chars (Js.str l) = l.
Proof. apply list_ascii_of_string_of_list_ascii. Qed.

Lemma str_app (a b : list ascii) : Js.str (a ++ b) = (Js.str a ++ Js.str b)%string.
Proof. induction a as [|c a IH]; simpl; [reflexivity | now rewrite <- IH]. Qed.

Lemma chars_app (a b : string) : Js.chars (a ++ b)%string = Js.chars a ++ Js.chars b.
Proof. induction a as [|c a IH]; simpl; [reflexivity | now rewrite <- IH]. Qed.

Lemma chars_inj (a b : string) : Js.chars a = Js.chars b -> a = b.
Proof. intros H. rewrite <- (str_chars a), <- (str_chars b). now rewrite H. Qed.

(** ** The option list of the engine *)

Lemma convert_options_shape (format scale fps : string) :
  Convert.getConversionOptions format scale fps
  = (if Spec.given scale then ["-vf scale=" ++ scale]%string else [])
    ++ ["-gifflags"; "transdiff"; "-y"]%string
    ++ (if Spec.given fps then ["-vf fps=" ++ fps]%string else []).
Proof.
  unfold Convert.getConversionOptions, Spec.given, Js.filterBoolean.
  destruct (Js.truthy scale && negb (scale =? "auto")%string);
    destruct (Js.truthy fps && negb (fps =? "auto")%string); reflexivity.
Qed.

Lemma cli_options_shape (format scale fps : string) :
  Cli.getConversionOptions format scale fps
  = [if Spec.given scale then ("-vf scale=" ++ scale)%string
     else "-vf scale=-1:-1"%string]
    ++ ["-gifflags"; "transdiff"; "-y"]%string
    ++ (if Spec.given fps then ["-vf fps=" ++ fps]%string else []).
Proof.
  unfold Cli.getConversionOptions, Spec.given, Js.filterBoolean.
  destruct (Js.truthy scale && negb (scale =? "auto")%string);
    destruct (Js.truthy fps && negb (fps =? "auto")%string); reflexivity.
Qed.

Lemma given_not_auto (value : string) : Spec.given value = true -> value <> "auto"%string.
Proof.
  unfold Spec.given. intros H ->. discriminate H.
Qed.

(** C10.  The option list does not depend on the output format, in either
    driver; the flag pair [-gifflags transdiff], in this order, is part of it
    whatever the format. *)
Theorem conversion_options_ignore_format :
  forall f1 f2 scale fps : string,
    Convert.getConversionOptions f1 scale fps = Convert.getConversionOptions f2 scale fps
    /\ Cli.getConversionOptions f1 scale fps = Cli.getConversionOptions f2 scale fps
    /\ (exists before after,
          Convert.getConversionOptions f1 scale fps
          = before ++ ["-gifflags"; "transdiff"]%string ++ after)
    /\ (exists before after,
          Cli.getConversionOptions f1 scale fps
          = before ++ ["-gifflags"; "transdiff"]%string ++ after).
Proof.
  intros f1 f2 scale fps.
  split; [reflexivity |]. split; [reflexivity |]. split.
  - rewrite convert_options_shape.
    do 2 eexists. reflexivity.
  - rewrite cli_options_shape.
    do 2 eexists. reflexivity.
Qed.

(** C2, as the specification words it, fails in the interactive driver: for
    scale [auto] its list starts with the scale filter [-vf scale=-1:-1]. *)
Lemma cli_options_not_as_specified :
  ~ Spec.optionsAsSpecified (Cli.getConversionOptions "gif" "auto" "30") "auto" "30".
Proof.
  intros (scalePart & fpsPart & Heq & [Hs | [Hs _]] & _).
  - subst scalePart. discriminate Heq.
  - now apply Hs.
Qed.

(** C2, amended.  The non-interactive driver builds the list as specified:
    the filter [-vf scale=<scale>] exactly when the scale is not empty and
    not [auto], the three flags, the filter [-vf fps=<fps>] exactly when the
    fps is not empty and not [auto].  The interactive driver builds the same
    list except that a scale filter always comes first, the filter
    [-vf scale=-1:-1] standing in when the scale is empty or [auto]. *)
Theorem conversion_options_shape :
  forall format scale fps : string,
    Convert.getConversionOptions format scale fps
    = (if Spec.given scale then ["-vf scale=" ++ scale]%string else [])
      ++ ["-gifflags"; "transdiff"; "-y"]%string
      ++ (if Spec.given fps then ["-vf fps=" ++ fps]%string else [])
    /\ Spec.optionsAsSpecified (Convert.getConversionOptions format scale fps) scale fps
    /\ Cli.getConversionOptions format scale fps
       = [if Spec.given scale then ("-vf scale=" ++ scale)%string
          else "-vf scale=-1:-1"%string]
         ++ ["-gifflags"; "transdiff"; "-y"]%string
         ++ (if Spec.given fps then ["-vf fps=" ++ fps]%string else [])
    /\ Convert.getConversionOptions "gif" "auto" "30"
       = ["-gifflags"; "transdiff"; "-y"; "-vf fps=30"]%string
    /\ Cli.getConversionOptions "gif" "auto" "30"
       = ["-vf scale=-1:-1"; "-gifflags"; "transdiff"; "-y"; "-vf fps=30"]%string.
Proof.
  intros format scale fps.
  split; [apply convert_options_shape |].
  split; [| split; [apply cli_options_shape | split; reflexivity]].
  rewrite convert_options_shape.
  exists (if Spec.given scale then ["-vf scale=" ++ scale]%string else []),
         (if Spec.given fps then ["-vf fps=" ++ fps]%string else []).
  split; [reflexivity |]. split.
  - destruct (Spec.given scale) eqn:E; [right | now left].
    split; [now apply given_not_auto | reflexivity].
  - destruct (Spec.given fps) eqn:E; [right | now left].
    split; [now apply given_not_auto | reflexivity].
Qed.

(** ** Logging *)

Lemma style_undefined (chalk : Chalk) (name text : string) :
  chalk name = Undefined ->
  Functions.style chalk name text
  = Throw (TypeError ("chalk." ++ name ++ " is not a function")%string).
Proof. unfold Functions.style. now intros ->. Qed.

(** With a tag of the table one line is written. *)
Lemma console_recognised (line : Line) (color : string) (w : World) :
  Chalk.recognised color = true ->
  Proc.console line color w = (Ret tt, w, [Console color line]).
Proof. unfold Proc.console, Chalk.plain. now intros ->. Qed.

(** C9.  The tag [rainbow] is none of the styles; with it [logWithTimestamp]
    throws a [TypeError] instead of writing the line in the default style,
    and so does the logging of the interactive driver. *)
Theorem logWithTimestamp_unknown_tag_throws :
  forall w : World,
    Chalk.recognised "rainbow" = false
    /\ Functions.logWithTimestamp Chalk.plain "12:00:00" "hello" "rainbow"
       = Throw (TypeError "chalk.rainbow is not a function")
    /\ Cli.logWithTimestamp (Text "hello") "rainbow" w
       = (Stop (Uncaught (TypeError "chalk.rainbow is not a function")), w, []).
Proof.
  intros w. split; [reflexivity |]. split; reflexivity.
Qed.

(** ** Sizes *)

Lemma string_app_assoc (a b c : string) : ((a ++ b) ++ c = a ++ (b ++ c))%string.
Proof. induction a as [|x a IH]; simpl; [reflexivity | now rewrite IH]. Qed.

Lemma digits_of_uint (d : Decimal.uint) :
  Forall (fun c => Float.isDigit c = true) (Js.chars (NilEmpty.string_of_uint d)).
Proof.
  induction d; simpl; constructor; try assumption; reflexivity.
Qed.

Lemma digits_ofN (n : N) :
  Forall (fun c => Float.isDigit c = true) (Js.chars (Js.ofN n)).
Proof.
  unfold Js.ofN, NilZero.string_of_uint.
  destruct (N.to_uint n) eqn:E; try (rewrite <- E; apply digits_of_uint).
  repeat constructor.
Qed.

Lemma Forall_repeat {A} (P : A -> Prop) (x : A) (n : nat) :
  P x -> Forall P (repeat x n).
Proof. intros H. induction n; simpl; constructor; assumption. Qed.

(** The rendering of a non-negative number with two decimals. *)
Lemma toFixed_fixed (x : Q) :
  (0 <= x)%Q -> (x < inject_Z (Num.pow10 21))%Q ->
  Qle_bool (inject_Z (Num.pow10 21)) (Qabs x) = false.
Proof.
  intros H0 H1. apply not_true_iff_false. intros H. apply Qle_bool_iff in H.
  rewrite (Qabs_pos x H0) in H. exact (Qlt_not_le _ _ H1 H).
Qed.

Lemma toFixed_two_decimals (x : Q) :
  (0 <= x)%Q -> (x < inject_Z (Num.pow10 21))%Q ->
  Spec.twoDecimals EmptyString (Num.toFixed (Finite x) 2).
Proof.
  intros Hx Hlt. unfold Num.toFixed. rewrite (toFixed_fixed x Hx Hlt).
  apply Qle_bool_iff in Hx. rewrite Hx. unfold Num.digits.
  set (m0 := Js.chars (Js.ofN (Z.to_N (Num.scaledRound (Qabs x) 2)))).
  set (m := repeat "0"%char (3 - List.length m0) ++ m0).
  assert (Hm : Forall (fun c => Float.isDigit c = true) m).
  { apply Forall_app. split; [now apply Forall_repeat | apply digits_ofN]. }
  assert (Hk : 3 <= List.length m).
  { unfold m. rewrite length_app, repeat_length. lia. }
  rewrite <- (firstn_skipn (List.length m - 2) m) in Hm.
  apply Forall_app in Hm. destruct Hm as [Ha Hb].
  assert (La : List.length (firstn (List.length m - 2) m) = List.length m - 2).
  { rewrite length_firstn. lia. }
  assert (Lb : List.length (skipn (List.length m - 2) m) = 2).
  { rewrite length_skipn. lia. }
  destruct (skipn (List.length m - 2) m) as [|d1 [|d2 [|? ?]]]; try discriminate Lb.
  exists (Js.str (firstn (List.length m - 2) m)), d1, d2.
  repeat split.
  - simpl. now rewrite str_app.
  - intros E. apply (f_equal Js.chars) in E. rewrite chars_str in E.
    rewrite E in La. simpl in La. lia.
  - unfold Spec.allDigits. rewrite chars_str. now apply forallb_forall, Forall_forall.
  - now inversion Hb.
  - inversion Hb as [|? ? ? Hb']. now inversion Hb'.
Qed.

Lemma twoDecimals_unit (unit s : string) :
  Spec.twoDecimals EmptyString s -> Spec.twoDecimals unit (s ++ unit)%string.
Proof.
  intros (whole & d1 & d2 & -> & H). exists whole, d1, d2.
  split; [| exact H].
  now rewrite !string_app_assoc.
Qed.

Lemma gtb_true (x y : Q) : Num.gtb x y = true <-> (y < x)%Q.
Proof.
  unfold Num.gtb. rewrite negb_true_iff, <- not_true_iff_false, Qle_bool_iff.
  split; [apply Qnot_le_lt | apply Qlt_not_le].
Qed.

Lemma gtb_false (x y : Q) : Num.gtb x y = false <-> (x <= y)%Q.
Proof.
  unfold Num.gtb. rewrite negb_false_iff. apply Qle_bool_iff.
Qed.

Lemma ofN_nonneg (n : N) : (0 <= Num.ofN n)%Q.
Proof.
  unfold Num.ofN, Qle. simpl. lia.
Qed.

Lemma kilo_nonneg (x : Q) : (0 <= x)%Q -> (0 <= x / 1024)%Q.
Proof.
  destruct x as [n d]. unfold Qle, Qdiv, Qmult, Qinv. simpl. lia.
Qed.

Lemma kilo_le (x : Q) : (x / 1024 <= 1)%Q <-> (x <= 1024)%Q.
Proof.
  destruct x as [n d]. unfold Qle, Qdiv, Qmult, Qinv. simpl. lia.
Qed.

Lemma kilo_lt (x : Q) (bound : Z) :
  (0 < bound)%Z -> (x < inject_Z bound)%Q -> (x / 1024 < inject_Z bound)%Q.
Proof.
  destruct x as [n d]. unfold Qlt, Qdiv, Qmult, Qinv. simpl. intros Hb H. nia.
Qed.

Lemma safe_fixed (b : N) :
  (b <= Spec.maxSafeInteger)%N -> (Num.ofN b < inject_Z (Num.pow10 21))%Q.
Proof.
  intros H. unfold Num.ofN. rewrite <- Zlt_Qlt.
  unfold Spec.maxSafeInteger in H. change (Num.pow10 21) with (10 ^ 21)%Z. lia.
Qed.

(** C7.  For a size [b] that is a safe integer, with [kb = b / 1024] and
    [mb = kb / 1024]: when [kb <= 1] the text is the integer followed by
    [ bytes]; when [1 < kb <= 1024] it is a number with exactly two decimals
    followed by [ KB]; when [1 < mb] it is a number with exactly two decimals
    followed by [ MB]. *)
Theorem formatFileSize_units :
  forall b : N,
    (b <= Spec.maxSafeInteger)%N ->
    let kb := (Num.ofN b / 1024)%Q in
    let mb := (kb / 1024)%Q in
    ((kb <= 1)%Q -> Functions.formatFileSize b = (Js.ofN b ++ " bytes")%string)
    /\ ((1 < kb)%Q /\ (kb <= 1024)%Q ->
        Spec.twoDecimals " KB" (Functions.formatFileSize b))
    /\ ((1 < mb)%Q -> Spec.twoDecimals " MB" (Functions.formatFileSize b)).
Proof.
  intros b Hb kb mb.
  assert (Hkb : (0 <= kb)%Q) by (apply kilo_nonneg, ofN_nonneg).
  assert (Hmb : (0 <= mb)%Q) by (apply kilo_nonneg, Hkb).
  assert (Lkb : (kb < inject_Z (Num.pow10 21))%Q)
    by (apply kilo_lt; [reflexivity | now apply safe_fixed]).
  assert (Lmb : (mb < inject_Z (Num.pow10 21))%Q)
    by (apply kilo_lt; [reflexivity | exact Lkb]).
  unfold Functions.formatFileSize. fold kb. fold mb.
  split; [| split].
  - intros H.
    assert (Hm : Num.gtb mb 1 = false).
    { apply gtb_false. apply kilo_le. eapply Qle_trans; [exact H | discriminate]. }
    rewrite Hm. apply gtb_false in H. now rewrite H.
  - intros [H1 H2].
    assert (Hm : Num.gtb mb 1 = false) by (apply gtb_false, kilo_le, H2).
    rewrite Hm. apply gtb_true in H1. rewrite H1.
    now apply twoDecimals_unit, toFixed_two_decimals.
  - intros H. apply gtb_true in H. rewrite H.
    now apply twoDecimals_unit, toFixed_two_decimals.
Qed.

Lemma formatFileSize_units_witness :
  Functions.formatFileSize 1024 = "1024 bytes"%string
  /\ Spec.twoDecimals " KB" (Functions.formatFileSize 1536)
  /\ Spec.twoDecimals " MB" (Functions.formatFileSize 2000000).
Proof.
  split; [| split].
  - apply (formatFileSize_units 1024); [vm_compute; discriminate |].
    vm_compute. discriminate.
  - apply (formatFileSize_units 1536); [vm_compute; discriminate |].
    split; [reflexivity | vm_compute; discriminate].
  - apply (formatFileSize_units 2000000); [vm_compute; discriminate |].
    reflexivity.
Defined.

(** ** The scale prompt *)

Lemma validateScale_auto : Spec.accepts "" "auto" /\ Spec.accepts "auto" "auto".
Proof. split; intros w; reflexivity. Qed.

Lemma validateScale_cases (input : string) :
  Spec.rejects input \/ Spec.accepts input "auto" \/ Spec.accepts input input.
Proof.
  unfold Spec.rejects, Spec.accepts, Cli.validateScale, Spec.invalidScaleLine.
  destruct ((input =? "")%string || (input =? "auto")%string).
  - right. left. reflexivity.
  - destruct (negb (Float.isNaN (Float.parseFloat input))
              && Float.geb (Float.parseFloat input) (1 # 4)
              && Float.leb (Float.parseFloat input) 3).
    + right. right. reflexivity.
    + left. reflexivity.
Qed.

Lemma promptUserScaleLoop_accept (n : nat) (w : World) (answer value : string)
  (rest : list string) :
  stdin w = answer :: rest -> Spec.accepts (Js.trim answer) value ->
  Cli.promptUserScaleLoop (S n) w
  = (Ret value, Spec.answered w rest, [Spec.enterScaleLine; Asked answer]).
Proof.
  intros Hin Hok. cbn [Cli.promptUserScaleLoop].
  unfold Proc.bind, Cli.logWithTimestamp, Proc.question.
  rewrite console_recognised by reflexivity.
  rewrite Hin. rewrite Hok. reflexivity.
Qed.

Lemma promptUserScaleLoop_reject (n : nat) (w : World) (answer : string)
  (rest : list string) :
  stdin w = answer :: rest -> Spec.rejects (Js.trim answer) ->
  Cli.promptUserScaleLoop (S n) w
  = (let '(r, w', t) := Cli.promptUserScaleLoop n (Spec.answered w rest) in
     (r, w', [Spec.enterScaleLine; Asked answer; Spec.invalidScaleLine] ++ t)).
Proof.
  intros Hin Hno. cbn [Cli.promptUserScaleLoop].
  unfold Proc.bind, Cli.logWithTimestamp, Proc.question.
  rewrite console_recognised by reflexivity.
  rewrite Hin. rewrite Hno. unfold Spec.answered.
  destruct (Cli.promptUserScaleLoop n _) as [[r w'] t].
  reflexivity.
Qed.

Lemma promptUserScaleLoop_waits (n : nat) (w : World) :
  stdin w = [] ->
  Cli.promptUserScaleLoop (S n) w = (Stop Waiting, w, [Spec.enterScaleLine]).
Proof.
  intros Hin. cbn [Cli.promptUserScaleLoop].
  unfold Proc.bind, Cli.logWithTimestamp, Proc.question.
  rewrite console_recognised by reflexivity.
  rewrite Hin. reflexivity.
Qed.

(** After every rejected answer the prompt is shown again; the first answer
    that is accepted is the result, whatever the number of rejected ones. *)
Lemma promptUserScale_retries (rejected : list string) :
  forall (w : World) (answer value : string) (rest : list string),
    Forall (fun a => Spec.rejects (Js.trim a)) rejected ->
    Spec.accepts (Js.trim answer) value ->
    stdin w = rejected ++ answer :: rest ->
    exists t,
      Cli.promptUserScale w = (Ret value, Spec.answered w rest, t)
      /\ List.length (filter Spec.isAsked t)
         = S (List.length rejected).
Proof.
  unfold Cli.promptUserScale.
  induction rejected as [|a rejected IH]; intros w answer value rest Hrej Hok Hin.
  - simpl in Hin. rewrite (promptUserScaleLoop_accept _ _ _ _ _ Hin Hok).
    eexists. split; reflexivity.
  - inversion Hrej as [|? ? Ha Hrest]; subst.
    simpl in Hin. rewrite Hin.
    rewrite (promptUserScaleLoop_reject _ _ _ _ Hin Ha).
    destruct (IH (Spec.answered w (rejected ++ answer :: rest)) answer value rest Hrest Hok eq_refl)
      as (t & Ht & Hn).
    simpl in Ht. simpl. rewrite Ht.
    eexists. split; [reflexivity |]. simpl. now rewrite Hn.
Qed.

(** The prompt never ends the process: it returns a scale or goes on
    waiting for a line. *)
Lemma promptUserScale_not_fatal (w : World) :
  match fst (fst (Cli.promptUserScale w)) with
  | Ret _ | Stop Waiting => True
  | Stop _ => False
  end.
Proof.
  unfold Cli.promptUserScale.
  remember (stdin w) as lines eqn:E. revert w E.
  induction lines as [|a lines IH]; intros w E.
  - rewrite promptUserScaleLoop_waits by auto. exact I.
  - symmetry in E.
    destruct (validateScale_cases (Js.trim a)) as [H | [H | H]].
    + rewrite (promptUserScaleLoop_reject _ _ _ _ E H).
      specialize (IH (Spec.answered w lines) eq_refl).
      cbn [List.length].
      destruct (Cli.promptUserScaleLoop (S (List.length lines)) (Spec.answered w lines))
        as [[r w'] t]. exact IH.
    + rewrite (promptUserScaleLoop_accept _ _ _ _ _ E H). exact I.
    + rewrite (promptUserScaleLoop_accept _ _ _ _ _ E H). exact I.
Qed.

(** C5.  The answer [1abc] is accepted and returned as the scale although it
    is not a number: [parseFloat] reads the number 1 at its head and the
    check of the bounds is made on that number. *)
Theorem promptUserScale_returns_trailing_text :
  forall (fs : string -> option Stats) (ls : string -> option (list string))
         (codes : Syscall -> string -> string) (rest : list string) (tty : bool)
         (eng : list Run),
    Cli.promptUserScale (mkWorld fs ls codes ("1abc"%string :: rest) tty eng)
    = (Ret "1abc"%string, mkWorld fs ls codes rest tty eng,
       [Spec.enterScaleLine; Asked "1abc"])
    /\ Float.parseFloat "1abc" = Finite 1
    /\ Float.isDecimalLiteral "1abc" = false.
Proof.
  intros fs ls codes rest tty eng. split; [| split; reflexivity].
  unfold Cli.promptUserScale.
  apply (promptUserScaleLoop_accept _ (mkWorld fs ls codes ("1abc"%string :: rest) tty eng)
           "1abc" "1abc" rest eq_refl).
  intros w. reflexivity.
Qed.

(** ** The loops over the files *)

Arguments Path.basename : simpl never.
Arguments Path.extname : simpl never.
Arguments Path.dirname : simpl never.
Arguments Path.join : simpl never.
Arguments Js.trim : simpl never.
Arguments Functions.formatFileSize : simpl never.
Arguments Convert.getConversionOptions : simpl never.
Arguments Cli.getConversionOptions : simpl never.
Arguments Chalk.recognised : simpl never.
Arguments Num.toFixed : simpl never.

Ltac run_console := rewrite !console_recognised by reflexivity.

Ltac tally :=
  repeat split;
  unfold Spec.successes, Spec.reported, Spec.failures, Spec.attempts, Spec.answers,
    Spec.endings;
  simpl; try reflexivity; try lia.

Lemma forOf_cons {S A} (body : S -> A -> Proc S) (x : A) (xs : list A) (s : S) (w : World) :
  Proc.forOf body (x :: xs) s w
  = match body s x w with
    | (Ret s', w1, t1) =>
        let '(r, w2, t2) := Proc.forOf body xs s' w1 in (r, w2, t1 ++ t2)
    | (Stop h, w1, t1) => (Stop h, w1, t1)
    end.
Proof. reflexivity. Qed.

Lemma successes_app (t1 t2 : list Event) :
  Spec.successes (t1 ++ t2) = Spec.successes t1 + Spec.successes t2.
Proof. unfold Spec.successes. now rewrite filter_app, length_app. Qed.

Lemma failures_app (t1 t2 : list Event) :
  Spec.failures (t1 ++ t2) = Spec.failures t1 ++ Spec.failures t2.
Proof. apply flat_map_app. Qed.

Lemma reported_app (t1 t2 : list Event) :
  Spec.reported (t1 ++ t2) = Spec.reported t1 ++ Spec.reported t2.
Proof. apply flat_map_app. Qed.

Lemma attempts_app (t1 t2 : list Event) :
  Spec.attempts (t1 ++ t2) = Spec.attempts t1 ++ Spec.attempts t2.
Proof. apply flat_map_app. Qed.

Lemma endings_app (t1 t2 : list Event) :
  Spec.endings (t1 ++ t2) = Spec.endings t1 ++ Spec.endings t2.
Proof. apply flat_map_app. Qed.

Lemma answers_app (t1 t2 : list Event) :
  Spec.answers (t1 ++ t2) = Spec.answers t1 ++ Spec.answers t2.
Proof. apply flat_map_app. Qed.

(** *** The progress display *)

(** The display starts no run of the engine, ends none, reads no line and
    writes no line to the console. *)
Lemma display_silent (t : list Event) :
  forallb Spec.isDisplay t = true ->
  Spec.attempts t = [] /\ Spec.successes t = 0 /\ Spec.failures t = []
  /\ Spec.reported t = [] /\ Spec.answers t = [] /\ Spec.endings t = [].
Proof.
  induction t as [|e t IH]; [now repeat split |].
  destruct e; simpl; try discriminate; exact IH.
Qed.

Lemma redraws_display (lines : list Line) :
  forallb Spec.isDisplay (Spec.redraws lines) = true.
Proof. induction lines as [|l lines IH]; [reflexivity | exact IH]. Qed.

Lemma attempts_redraws (lines : list Line) : Spec.attempts (Spec.redraws lines) = [].
Proof. apply (display_silent _ (redraws_display lines)). Qed.

Lemma successes_redraws (lines : list Line) : Spec.successes (Spec.redraws lines) = 0.
Proof. apply (display_silent _ (redraws_display lines)). Qed.

Lemma failures_redraws (lines : list Line) : Spec.failures (Spec.redraws lines) = [].
Proof. apply (display_silent _ (redraws_display lines)). Qed.

Lemma reported_redraws (lines : list Line) : Spec.reported (Spec.redraws lines) = [].
Proof. apply (display_silent _ (redraws_display lines)). Qed.

Lemma answers_redraws (lines : list Line) : Spec.answers (Spec.redraws lines) = [].
Proof. apply (display_silent _ (redraws_display lines)). Qed.

Lemma showable_redrawable (w : World) (run : Run) :
  Spec.showable w run -> Spec.redrawable w run.
Proof. intros [H | [H _]]; [now left | now right]. Qed.

Lemma showable_same (w w' : World) (run : Run) :
  isTTY w' = isTTY w -> Spec.showable w run -> Spec.showable w' run.
Proof. unfold Spec.showable. intros ->. exact (fun H => H). Qed.

Lemma redrawable_same (w w' : World) (run : Run) :
  isTTY w' = isTTY w -> Spec.redrawable w run -> Spec.redrawable w' run.
Proof. unfold Spec.redrawable. intros ->. exact (fun H => H). Qed.

Lemma showable_quiet (w : World) (event : EngineEvent) : Spec.showable w (Spec.quiet event).
Proof. now left. Qed.

(** The handler of the non-interactive driver on a terminal. *)
Lemma convert_onProgress_terminal (inputPath : string) (p : Progress) (w : World) :
  isTTY w = true ->
  Convert.onProgress inputPath p w
  = (Ret tt, w,
     [ClearLine; CursorTo 0;
      Written (Processing (Path.basename inputPath "")
                 (Num.toFixed (Num.orZero (percent p)) 2))]).
Proof.
  intros H.
  unfold Convert.onProgress, Proc.bind, Proc.clearLine, Proc.cursorTo, Proc.write, Proc.emit.
  rewrite H. cbn. rewrite H. reflexivity.
Qed.

(** Without a terminal its first call throws. *)
Lemma convert_onProgress_pipe (inputPath : string) (p : Progress) (w : World) :
  isTTY w = false ->
  Convert.onProgress inputPath p w = (Stop (Uncaught Spec.noClearLine), w, []).
Proof.
  intros H. unfold Convert.onProgress, Proc.bind, Proc.clearLine. rewrite H. reflexivity.
Qed.

Lemma convert_display (inputPath : string) (run : Run) (w : World) :
  Spec.redrawable w run ->
  Proc.forOf (fun (_ : unit) p => Convert.onProgress inputPath p) (reports run) tt w
  = (Ret tt, w, Spec.redraws (Spec.convertLines inputPath run)).
Proof.
  unfold Spec.convertLines. intros [H | H]; [rewrite H; reflexivity |].
  induction (reports run) as [|p ps IH]; [reflexivity |].
  rewrite forOf_cons, (convert_onProgress_terminal _ _ _ H), IH. reflexivity.
Qed.

Lemma convert_display_fails (inputPath : string) (run : Run) (w : World) :
  ~ Spec.redrawable w run ->
  Proc.forOf (fun (_ : unit) p => Convert.onProgress inputPath p) (reports run) tt w
  = (Stop (Uncaught Spec.noClearLine), w, []).
Proof.
  unfold Spec.redrawable. intros H.
  destruct (reports run) as [|p ps]; [exfalso; apply H; now left |].
  destruct (isTTY w) eqn:E; [exfalso; apply H; now right |].
  now rewrite forOf_cons, (convert_onProgress_pipe _ _ _ E).
Qed.

(** The handler of the interactive driver, on a terminal and for a report
    with its percentage. *)
Lemma cli_progressHandler_shown (inputPath : string) (p : Progress) (w : World) :
  isTTY w = true ->
  percent p <> None ->
  Cli.progressHandler (Some Cli.showProgress) inputPath p w
  = (Ret tt, w,
     [ClearLine; CursorTo 0;
      Written (Processing (Path.basename inputPath "") (Spec.percentage p))]).
Proof.
  intros H Hp.
  unfold Cli.progressHandler, Cli.showProgress, Spec.percentage, Proc.bind,
    Proc.clearLine, Proc.cursorTo, Proc.write, Proc.emit, Functions.formatPercentage.
  rewrite H. cbn. rewrite H. destruct (percent p); [reflexivity | contradiction].
Qed.

Lemma cli_progressHandler_pipe (inputPath : string) (p : Progress) (w : World) :
  isTTY w = false ->
  Cli.progressHandler (Some Cli.showProgress) inputPath p w
  = (Stop (Uncaught Spec.noClearLine), w, []).
Proof.
  intros H. unfold Cli.progressHandler, Proc.bind, Proc.clearLine. rewrite H. reflexivity.
Qed.

Lemma cli_progressHandler_no_percent (inputPath : string) (p : Progress) (w : World) :
  isTTY w = true ->
  percent p = None ->
  Cli.progressHandler (Some Cli.showProgress) inputPath p w
  = (Stop (Uncaught Spec.noPercent), w, [ClearLine; CursorTo 0]).
Proof.
  intros H Hp.
  unfold Cli.progressHandler, Cli.showProgress, Proc.bind, Proc.clearLine,
    Proc.cursorTo, Functions.formatPercentage.
  rewrite H, Hp. cbn. rewrite H. reflexivity.
Qed.

Lemma cli_display (inputPath : string) (run : Run) (w : World) :
  Spec.showable w run ->
  Proc.forOf (fun (_ : unit) p => Cli.progressHandler (Some Cli.showProgress) inputPath p)
    (reports run) tt w
  = (Ret tt, w, Spec.redraws (Spec.cliLines inputPath run)).
Proof.
  unfold Spec.cliLines. intros [H | [H Hall]]; [rewrite H; reflexivity |].
  induction Hall as [|p ps Hp Hps IH]; [reflexivity |].
  rewrite forOf_cons, (cli_progressHandler_shown _ _ _ H Hp), IH. reflexivity.
Qed.

(** When the reports of a run cannot be shown the display throws one of its
    two exceptions, with nothing but the display in the trace. *)
Lemma cli_display_fails (inputPath : string) (run : Run) (w : World) :
  ~ Spec.showable w run ->
  exists e t,
    Proc.forOf (fun (_ : unit) p => Cli.progressHandler (Some Cli.showProgress) inputPath p)
      (reports run) tt w
    = (Stop (Uncaught e), w, t)
    /\ (e = Spec.noClearLine \/ e = Spec.noPercent)
    /\ forallb Spec.isDisplay t = true.
Proof.
  unfold Spec.showable. intros H.
  destruct (isTTY w) eqn:E.
  - assert (Hn : ~ Forall (fun p => percent p <> None) (reports run)).
    { intros Hall. apply H. now right. }
    clear H. induction (reports run) as [|p ps IH]; [exfalso; apply Hn; constructor |].
    rewrite forOf_cons. destruct (percent p) eqn:Hp.
    + rewrite (cli_progressHandler_shown _ _ _ E) by (rewrite Hp; discriminate).
      destruct IH as (e & t & -> & He & Ht).
      { intros Hall. apply Hn. constructor; [rewrite Hp; discriminate | exact Hall]. }
      exists e. eexists. split; [reflexivity |]. split; [exact He | exact Ht].
    + rewrite (cli_progressHandler_no_percent _ _ _ E Hp).
      exists Spec.noPercent. eexists. split; [reflexivity |]. split; [now right | reflexivity].
  - destruct (reports run) as [|p ps]; [exfalso; apply H; now left |].
    rewrite forOf_cons, (cli_progressHandler_pipe _ _ _ E).
    exists Spec.noClearLine, []. split; [reflexivity |]. split; [now left | reflexivity].
Qed.

Lemma endings_redraws (lines : list Line) : Spec.endings (Spec.redraws lines) = [].
Proof. apply (display_silent _ (redraws_display lines)). Qed.

(** What a trace with a run of the engine in it holds. *)
Ltac count_run :=
  change (Started ?a ?b ?c :: ?l) with ([Started a b c] ++ l);
  rewrite ?attempts_app, ?successes_app, ?reported_app, ?failures_app, ?answers_app,
    ?endings_app, ?attempts_redraws, ?successes_redraws, ?reported_redraws,
    ?failures_redraws, ?answers_redraws, ?endings_redraws;
  tally.

(** *** One run of the engine *)

Lemma ffmpeg_waits (input : string) (options : list string) (output : string)
  (handler : Progress -> Proc unit) (w : World) :
  engine w = [] ->
  Proc.ffmpeg input options output handler w
  = (Stop Waiting, w, [Started input options output]).
Proof.
  intros He. unfold Proc.ffmpeg, Proc.bind, Proc.emit, Proc.nextRun. now rewrite He.
Qed.

Lemma ffmpeg_ends (input : string) (options : list string) (output : string)
  (handler : Progress -> Proc unit) (w : World) (run : Run) (es : list Run)
  (shown : list Event) :
  engine w = run :: es ->
  Proc.forOf (fun (_ : unit) p => handler p) (reports run) tt (Spec.running w es)
  = (Ret tt, Spec.running w es, shown) ->
  Proc.ffmpeg input options output handler w
  = (Ret (ending run), Spec.afterRun w output (ending run) es,
     Started input options output :: shown ++ [Ffmpeg input options output (ending run)]).
Proof.
  intros He Hd. unfold Proc.ffmpeg, Proc.bind, Proc.emit, Proc.nextRun.
  rewrite He. fold (Spec.running w es). rewrite Hd. reflexivity.
Qed.

Lemma ffmpeg_aborts (input : string) (options : list string) (output : string)
  (handler : Progress -> Proc unit) (w : World) (run : Run) (es : list Run)
  (h : Halt) (shown : list Event) :
  engine w = run :: es ->
  Proc.forOf (fun (_ : unit) p => handler p) (reports run) tt (Spec.running w es)
  = (Stop h, Spec.running w es, shown) ->
  Proc.ffmpeg input options output handler w
  = (Stop h, Spec.running w es, Started input options output :: shown).
Proof.
  intros He Hd. unfold Proc.ffmpeg, Proc.bind, Proc.emit, Proc.nextRun.
  rewrite He. fold (Spec.running w es). rewrite Hd. reflexivity.
Qed.

(** *** The non-interactive loop *)

Lemma convert_tryConvert_waits (total : nat) (format scale fps : string) (n : nat)
  (file out : string) (w : World) :
  engine w = [] ->
  Convert.tryConvert total format scale fps n file out w
  = (Stop Waiting, w,
     [Started file (Convert.getConversionOptions format scale fps) out]).
Proof.
  intros He. unfold Convert.tryConvert, Convert.convertMedia, Proc.bind at 1 2.
  now rewrite (ffmpeg_waits _ _ _ _ _ He).
Qed.

Lemma convert_tryConvert_aborts (total : nat) (format scale fps : string) (n : nat)
  (file out : string) (w : World) (run : Run) (es : list Run) :
  engine w = run :: es ->
  ~ Spec.redrawable w run ->
  Convert.tryConvert total format scale fps n file out w
  = (Stop (Uncaught Spec.noClearLine), Spec.running w es,
     [Started file (Convert.getConversionOptions format scale fps) out]).
Proof.
  intros He Hd. unfold Convert.tryConvert, Convert.convertMedia, Proc.bind at 1 2.
  rewrite (ffmpeg_aborts _ _ _ _ _ _ _ (Uncaught Spec.noClearLine) [] He); [reflexivity |].
  apply convert_display_fails. intros H. apply Hd. revert H. now apply redrawable_same.
Qed.

Lemma convert_tryConvert_error (total : nat) (format scale fps : string) (n : nat)
  (file out : string) (w : World) (run : Run) (msg : string) (p : option N)
  (es : list Run) :
  engine w = run :: es ->
  ending run = Error msg p ->
  Spec.redrawable w run ->
  Convert.tryConvert total format scale fps n file out w
  = (Ret n, Spec.afterRun w out (Error msg p) es,
     Started file (Convert.getConversionOptions format scale fps) out
     :: Spec.redraws (Spec.convertLines file run)
     ++ [Ffmpeg file (Convert.getConversionOptions format scale fps) out (Error msg p);
         Console "redBright" (EngineFailed msg);
         Console "redBright" (Failed file msg)]).
Proof.
  intros He Hev Hd.
  unfold Convert.tryConvert, Convert.convertMedia, Proc.bind at 1 2.
  rewrite (ffmpeg_ends _ _ _ _ _ _ _ (Spec.redraws (Spec.convertLines file run)) He)
    by (apply convert_display; revert Hd; now apply redrawable_same).
  rewrite Hev. unfold Convert.log, Proc.bind, Proc.ret. run_console. cbn.
  now rewrite <- !app_assoc.
Qed.

Lemma convert_tryConvert_end (total : nat) (format scale fps : string) (n : nat)
  (file out : string) (w : World) (run : Run) (sz : N) (es : list Run) :
  engine w = run :: es ->
  ending run = End sz ->
  Spec.redrawable w run ->
  Convert.tryConvert total format scale fps n file out w
  = (Ret (S n), Spec.afterRun w out (End sz) es,
     Started file (Convert.getConversionOptions format scale fps) out
     :: Spec.redraws (Spec.convertLines file run)
     ++ [Ffmpeg file (Convert.getConversionOptions format scale fps) out (End sz);
         Console "white" (Finished (Path.basename file "") None);
         Console "white" (Completed (S n) total)]).
Proof.
  intros He Hev Hd.
  unfold Convert.tryConvert, Convert.convertMedia, Proc.bind at 1 2.
  rewrite (ffmpeg_ends _ _ _ _ _ _ _ (Spec.redraws (Spec.convertLines file run)) He)
    by (apply convert_display; revert Hd; now apply redrawable_same).
  rewrite Hev. unfold Convert.log, Proc.bind, Proc.ret. run_console. cbn.
  now rewrite <- !app_assoc.
Qed.

Lemma convert_convertFile_present (total : nat) (folder format scale fps : string)
  (n : nat) (file : string) (w : World) :
  files w (Convert.outputFile folder format file) <> None ->
  Convert.convertFile total folder format scale fps n file w
  = (Ret n, w,
     [Console "yellowBright"
        (OutputExists (Path.basename (Convert.outputFile folder format file) ""))]).
Proof.
  intros Hp.
  unfold Convert.convertFile, Convert.log, Proc.bind, Proc.existsSync.
  destruct (files w (Convert.outputFile folder format file)); [| contradiction].
  run_console. reflexivity.
Qed.

Lemma convert_convertFile_absent (total : nat) (folder format scale fps : string)
  (n : nat) (file : string) (w : World) :
  files w (Convert.outputFile folder format file) = None ->
  Convert.convertFile total folder format scale fps n file w
  = Convert.tryConvert total format scale fps n file
      (Convert.outputFile folder format file) w.
Proof.
  intros Hp.
  unfold Convert.convertFile, Proc.bind, Proc.existsSync. rewrite Hp.
  destruct (Convert.tryConvert _ _ _ _ _ _ _ w) as [[r w'] t]. reflexivity.
Qed.

Lemma written_grows (out : string) (ev : EngineEvent) (fs : string -> option Stats)
  (p : string) :
  fs p <> None -> Proc.written out ev fs p <> None.
Proof.
  intros H. destruct ev as [sz | msg [sz |]]; simpl; try assumption;
    destruct (p =? out)%string; try assumption; discriminate.
Qed.

Lemma written_output (out : string) (sz : N) (fs : string -> option Stats) :
  Proc.written out (End sz) fs out = Some (mkStats true false sz).
Proof. simpl. now rewrite String.eqb_refl. Qed.

(** The [try] statement when the engine has a run left whose reports can be
    shown: it returns, whatever the terminal event. *)
Lemma convert_tryConvert_step (total : nat) (format scale fps : string) (n : nat)
  (file out : string) (w : World) (run : Run) (es : list Run) :
  engine w = run :: es ->
  Spec.redrawable w run ->
  exists t,
    Convert.tryConvert total format scale fps n file out w
    = (Ret (n + match ending run with End _ => 1 | Error _ _ => 0 end),
       Spec.afterRun w out (ending run) es, t)
    /\ Spec.attempts t = [(file, out)]
    /\ Spec.successes t = match ending run with End _ => 1 | Error _ _ => 0 end
    /\ Spec.reported t = Spec.failures t
    /\ Spec.failures t
       = match ending run with End _ => [] | Error msg _ => [(file, msg)] end.
Proof.
  intros He Hd. destruct (ending run) as [sz | msg p] eqn:Hev.
  - rewrite (convert_tryConvert_end _ _ _ _ _ _ _ _ _ _ _ He Hev Hd).
    eexists. rewrite Nat.add_1_r. split; [reflexivity |]. count_run.
  - rewrite (convert_tryConvert_error _ _ _ _ _ _ _ _ _ _ _ _ He Hev Hd).
    eexists. rewrite Nat.add_0_r. split; [reflexivity |]. count_run.
Qed.

(** One file of the non-interactive loop, when the engine has a run left
    whose reports can be shown: the body returns, the counter has grown by
    the successes, every failure is on the console, at most one run of the
    engine is used, and the output of the file is there unless the engine
    failed on the file. *)
Lemma convert_convertFile_step (total : nat) (folder format scale fps : string)
  (n : nat) (file : string) (w : World) :
  engine w <> [] ->
  Forall (Spec.redrawable w) (engine w) ->
  exists w' t n',
    Convert.convertFile total folder format scale fps n file w = (Ret n', w', t)
    /\ n' = n + Spec.successes t
    /\ Spec.reported t = Spec.failures t
    /\ List.length (engine w) <= S (List.length (engine w'))
    /\ Forall (Spec.redrawable w') (engine w')
    /\ (forall p, files w p <> None -> files w' p <> None)
    /\ (files w' (Convert.outputFile folder format file) <> None
        \/ In file (map fst (Spec.failures t))).
Proof.
  intros He Hd.
  destruct (files w (Convert.outputFile folder format file)) eqn:Hp.
  - rewrite convert_convertFile_present by (rewrite Hp; discriminate).
    do 3 eexists. split; [reflexivity |].
    split; [tally |]. split; [tally |]. split; [lia |]. split; [exact Hd |].
    split; [auto |]. left. rewrite Hp. discriminate.
  - rewrite convert_convertFile_absent by assumption.
    destruct (engine w) as [|run es] eqn:E; [contradiction |].
    inversion Hd as [|? ? Hrun Hes]; subst.
    destruct (convert_tryConvert_step total format scale fps n file
                (Convert.outputFile folder format file) w run es E Hrun)
      as (t & -> & Ha & Hs & Hr & Hfl).
    do 3 eexists. split; [reflexivity |]. rewrite Hs.
    split; [reflexivity |]. split; [exact Hr |]. split; [simpl; lia |].
    split; [exact Hes |]. split; [intros p; apply written_grows |].
    rewrite Hfl. unfold Spec.afterRun. cbn [files].
    destruct (ending run) as [sz | msg p];
      [left; rewrite written_output; discriminate | right; now left].
Qed.

(** The loop, when the engine has for every file a run whose reports can be
    shown: it returns, and no file is passed over, the output of each being
    there at the end unless the engine failed on it. *)
Lemma convert_loop (total : nat) (folder format scale fps : string) (mediaFiles : list string) :
  forall (n : nat) (w : World),
    List.length mediaFiles <= List.length (engine w) ->
    Forall (Spec.redrawable w) (engine w) ->
    exists w' t n',
      Proc.forOf (Convert.convertFile total folder format scale fps) mediaFiles n w
      = (Ret n', w', t)
      /\ n' = n + Spec.successes t
      /\ Spec.reported t = Spec.failures t
      /\ (forall p, files w p <> None -> files w' p <> None)
      /\ Forall (fun file =>
           files w' (Convert.outputFile folder format file) <> None
           \/ In file (map fst (Spec.failures t)))
           mediaFiles.
Proof.
  induction mediaFiles as [|file rest IH]; intros n w Hlen Hd.
  - exists w, [], n. split; [reflexivity |]. split; [tally |]. split; [tally |].
    split; [auto | constructor].
  - rewrite forOf_cons.
    destruct (convert_convertFile_step total folder format scale fps n file w)
      as (w1 & t1 & n1 & H1 & N1 & R1 & L1 & D1 & G1 & O1); [| exact Hd |].
    { destruct (engine w); [simpl in Hlen; lia | discriminate]. }
    rewrite H1.
    destruct (IH n1 w1) as (w2 & t2 & n2 & H2 & N2 & R2 & G2 & O2); [| exact D1 |].
    { simpl in Hlen. lia. }
    rewrite H2. exists w2, (t1 ++ t2), n2. split; [reflexivity |].
    split; [rewrite successes_app; lia |].
    split; [now rewrite reported_app, failures_app, R1, R2 |].
    split; [auto |]. constructor.
    + rewrite failures_app, map_app. destruct O1 as [O1 | O1]; [left; auto |].
      right. apply in_or_app. now left.
    + eapply Forall_impl; [| exact O2]. intros f [O | O]; [now left |].
      right. rewrite failures_app, map_app. apply in_or_app. now right.
Qed.

(** *** The interactive loop *)

Lemma cli_ffmpeg_ends (format scale fps file out : string) (w : World) (run : Run)
  (es : list Run) :
  engine w = run :: es ->
  Spec.showable w run ->
  Proc.ffmpeg file (Cli.getConversionOptions format scale fps) out
    (Cli.progressHandler (Some Cli.showProgress) file) w
  = (Ret (ending run), Spec.afterRun w out (ending run) es,
     Started file (Cli.getConversionOptions format scale fps) out
     :: Spec.redraws (Spec.cliLines file run)
     ++ [Ffmpeg file (Cli.getConversionOptions format scale fps) out (ending run)]).
Proof.
  intros He Hd. apply (ffmpeg_ends _ _ _ _ _ _ _ _ He).
  apply cli_display. revert Hd. now apply showable_same.
Qed.

Lemma cli_tryConvert_waits (total : nat) (format scale fps : string) (v : Cli.Vars)
  (file out : string) (w : World) :
  engine w = [] ->
  Cli.tryConvert total format scale fps v file out w
  = (Stop Waiting, w, [Started file (Cli.getConversionOptions format scale fps) out]).
Proof.
  intros He. unfold Cli.tryConvert, Cli.convertVideo, Proc.bind at 1 2.
  now rewrite (ffmpeg_waits _ _ _ _ _ He).
Qed.

(** The [try] statement when the reports of the run cannot be shown: the
    exception of the display ends the process in the middle of the run. *)
Lemma cli_tryConvert_aborts (total : nat) (format scale fps : string) (v : Cli.Vars)
  (file out : string) (w : World) (run : Run) (es : list Run) :
  engine w = run :: es ->
  ~ Spec.showable w run ->
  exists e t,
    Cli.tryConvert total format scale fps v file out w
    = (Stop (Uncaught e), Spec.running w es, t)
    /\ (e = Spec.noClearLine \/ e = Spec.noPercent)
    /\ Spec.attempts t = [(file, out)]
    /\ Spec.endings t = []
    /\ Spec.answers t = []
    /\ Spec.reported t = [].
Proof.
  intros He Hd.
  destruct (cli_display_fails file run (Spec.running w es)) as (e & shown & Hrun & Hcase & Hs).
  { intros H. apply Hd. revert H. now apply showable_same. }
  exists e. eexists. split.
  - unfold Cli.tryConvert, Cli.convertVideo, Proc.bind at 1 2.
    rewrite (ffmpeg_aborts _ _ _ _ _ _ _ _ _ He Hrun). reflexivity.
  - split; [exact Hcase |].
    destruct (display_silent _ Hs) as (A & _ & _ & R & Q & E).
    change (Started ?a ?b ?c :: shown) with ([Started a b c] ++ shown).
    rewrite attempts_app, endings_app, answers_app, reported_app, A, E, Q, R.
    now repeat split.
Qed.

Lemma cli_tryConvert_error (total : nat) (format scale fps : string) (v : Cli.Vars)
  (file out : string) (w : World) (run : Run) (msg : string) (p : option N)
  (es : list Run) :
  engine w = run :: es ->
  ending run = Error msg p ->
  Spec.showable w run ->
  Cli.tryConvert total format scale fps v file out w
  = (Ret v, Spec.afterRun w out (Error msg p) es,
     Started file (Cli.getConversionOptions format scale fps) out
     :: Spec.redraws (Spec.cliLines file run)
     ++ [Ffmpeg file (Cli.getConversionOptions format scale fps) out (Error msg p);
         Console "redBright" (EngineFailed msg);
         Console "redBright" (Failed file msg)]).
Proof.
  intros He Hev Hd.
  unfold Cli.tryConvert, Cli.convertVideo, Proc.bind at 1 2.
  rewrite (cli_ffmpeg_ends _ _ _ _ _ _ _ _ He Hd), Hev.
  unfold Cli.logWithTimestamp, Proc.bind, Proc.ret. run_console. cbn.
  now rewrite <- !app_assoc.
Qed.

Lemma cli_tryConvert_ended (total : nat) (format scale fps : string) (v : Cli.Vars)
  (file out : string) (w : World) (run : Run) (sz : N) (es : list Run) (src : Stats) :
  engine w = run :: es ->
  ending run = End sz ->
  Spec.showable w run ->
  Proc.written out (End sz) (files w) file = Some src ->
  Cli.tryConvert total format scale fps v file out w
  = (Ret (Cli.mkVars (S (Cli.completedFiles v)) (Cli.overwriteAll v) (Cli.skipAll v)),
     Spec.afterRun w out (End sz) es,
     Started file (Cli.getConversionOptions format scale fps) out
     :: Spec.redraws (Spec.cliLines file run)
     ++ [Ffmpeg file (Cli.getConversionOptions format scale fps) out (End sz);
         Console "whiteBright"
           (Finished (Path.basename file "")
              (Some (Functions.formatFileSize (size src),
                     Functions.formatFileSize sz)));
         Console "cyanBright" (Completed (S (Cli.completedFiles v)) total)]).
Proof.
  intros He Hev Hd Hsrc.
  unfold Cli.tryConvert, Cli.convertVideo, Proc.bind at 1 2.
  rewrite (cli_ffmpeg_ends _ _ _ _ _ _ _ _ He Hd), Hev.
  unfold Cli.logWithTimestamp, Proc.bind, Proc.statSync.
  unfold Spec.afterRun at 1. cbn [files]. rewrite Hsrc.
  unfold Spec.afterRun at 1. cbn [files]. rewrite written_output.
  run_console. cbn. run_console. cbn. now rewrite <- !app_assoc.
Qed.

Lemma cli_tryConvert_end (total : nat) (format scale fps : string) (v : Cli.Vars)
  (file out : string) (w : World) (run : Run) (sz : N) (es : list Run) :
  engine w = run :: es ->
  ending run = End sz ->
  Spec.showable w run ->
  files w file <> None ->
  exists src,
    Proc.written out (End sz) (files w) file = Some src
    /\ Cli.tryConvert total format scale fps v file out w
       = (Ret (Cli.mkVars (S (Cli.completedFiles v)) (Cli.overwriteAll v) (Cli.skipAll v)),
          Spec.afterRun w out (End sz) es,
          Started file (Cli.getConversionOptions format scale fps) out
          :: Spec.redraws (Spec.cliLines file run)
          ++ [Ffmpeg file (Cli.getConversionOptions format scale fps) out (End sz);
              Console "whiteBright"
                (Finished (Path.basename file "")
                   (Some (Functions.formatFileSize (size src),
                          Functions.formatFileSize sz)));
              Console "cyanBright" (Completed (S (Cli.completedFiles v)) total)]).
Proof.
  intros He Hev Hd Hin.
  destruct (Proc.written out (End sz) (files w) file) as [src |] eqn:Hsrc.
  2: { now apply (written_grows out (End sz)) in Hin. }
  exists src. split; [reflexivity |].
  now apply cli_tryConvert_ended.
Qed.

(** When the engine ends well and the input is not there, neither as it was
    nor as the output of the run, the handler of [end] throws the error of
    [stat], which nobody catches. *)
Lemma cli_tryConvert_gone (total : nat) (format scale fps : string) (v : Cli.Vars)
  (file out : string) (w : World) (run : Run) (sz : N) (es : list Run) :
  engine w = run :: es ->
  ending run = End sz ->
  Spec.showable w run ->
  Proc.written out (End sz) (files w) file = None ->
  Cli.tryConvert total format scale fps v file out w
  = (Stop (Uncaught (SystemError (errno w stat file) stat file)),
     Spec.afterRun w out (End sz) es,
     Started file (Cli.getConversionOptions format scale fps) out
     :: Spec.redraws (Spec.cliLines file run)
     ++ [Ffmpeg file (Cli.getConversionOptions format scale fps) out (End sz)]).
Proof.
  intros He Hev Hd Hsrc.
  unfold Cli.tryConvert, Cli.convertVideo, Proc.bind at 1 2.
  rewrite (cli_ffmpeg_ends _ _ _ _ _ _ _ _ He Hd), Hev.
  unfold Proc.bind, Proc.statSync. unfold Spec.afterRun at 1. cbn [files].
  rewrite Hsrc. cbn. now rewrite app_nil_r.
Qed.

Lemma cli_tryConvert_input_gone (total : nat) (format scale fps : string) (v : Cli.Vars)
  (file out : string) (w : World) (run : Run) (sz : N) (es : list Run) :
  engine w = run :: es ->
  ending run = End sz ->
  Spec.showable w run ->
  files w file = None ->
  file <> out ->
  Cli.tryConvert total format scale fps v file out w
  = (Stop (Uncaught (SystemError (errno w stat file) stat file)),
     Spec.afterRun w out (End sz) es,
     Started file (Cli.getConversionOptions format scale fps) out
     :: Spec.redraws (Spec.cliLines file run)
     ++ [Ffmpeg file (Cli.getConversionOptions format scale fps) out (End sz)]).
Proof.
  intros He Hev Hd Hin Hne. apply cli_tryConvert_gone; try assumption.
  cbn [Proc.written]. apply String.eqb_neq in Hne. now rewrite Hne.
Qed.

(** The [try] statement when the engine has a run left whose reports can be
    shown and the input is there: it returns, whatever the terminal
    event. *)
Lemma cli_tryConvert_step (total : nat) (format scale fps : string) (v : Cli.Vars)
  (file out : string) (w : World) (run : Run) (es : list Run) :
  engine w = run :: es ->
  Spec.showable w run ->
  files w file <> None ->
  exists t,
    Cli.tryConvert total format scale fps v file out w
    = (Ret (Cli.mkVars
              (Cli.completedFiles v + match ending run with End _ => 1 | Error _ _ => 0 end)
              (Cli.overwriteAll v) (Cli.skipAll v)),
       Spec.afterRun w out (ending run) es, t)
    /\ Spec.attempts t = [(file, out)]
    /\ Spec.successes t = match ending run with End _ => 1 | Error _ _ => 0 end
    /\ Spec.reported t = Spec.failures t
    /\ Spec.failures t
       = match ending run with End _ => [] | Error msg _ => [(file, msg)] end.
Proof.
  intros He Hd Hin. destruct (ending run) as [sz | msg p] eqn:Hev.
  - destruct (cli_tryConvert_end total format scale fps v file out w run sz es
                He Hev Hd Hin) as (src & _ & ->).
    eexists. rewrite Nat.add_1_r. split; [reflexivity |]. count_run.
  - rewrite (cli_tryConvert_error _ _ _ _ _ _ _ _ _ _ _ _ He Hev Hd).
    eexists. rewrite Nat.add_0_r. destruct v. split; [reflexivity |]. count_run.
Qed.

Lemma cli_convertFile_skipAll (total : nat) (folder format scale fps : string)
  (v : Cli.Vars) (file : string) (w : World) :
  Cli.skipAll v = true ->
  Cli.convertFile total folder format scale fps v file w = (Ret v, w, []).
Proof.
  intros Hs. unfold Cli.convertFile, Proc.bind, Proc.existsSync.
  rewrite Hs. rewrite andb_false_r. cbn. now rewrite Hs.
Qed.

Lemma cli_convertFile_direct (total : nat) (folder format scale fps : string)
  (v : Cli.Vars) (file : string) (w : World) :
  files w (Cli.outputFile folder format file) = None \/ Cli.overwriteAll v = true ->
  Cli.skipAll v = false ->
  Cli.convertFile total folder format scale fps v file w
  = Cli.tryConvert total format scale fps v file (Cli.outputFile folder format file) w.
Proof.
  intros Hd Hs. unfold Cli.convertFile, Proc.bind, Proc.existsSync.
  assert (E : (match files w (Cli.outputFile folder format file) with
               | Some _ => true
               | None => false
               end && negb (Cli.overwriteAll v) && negb (Cli.skipAll v)) = false).
  { destruct Hd as [-> | ->]; [reflexivity |]. now rewrite andb_false_r. }
  rewrite E. cbn. rewrite Hs.
  destruct (Cli.tryConvert _ _ _ _ _ _ _ w) as [[r w'] t]. reflexivity.
Qed.

(** The overwrite prompt reads one line and returns it trimmed; nothing is
    converted meanwhile. *)
Lemma promptUserConfirmation_run (out : string) (w : World) (answer : string)
  (rest : list string) :
  stdin w = answer :: rest ->
  exists t,
    Cli.promptUserConfirmation (Cli.overwriteMessage out) w
    = (Ret (Js.trim answer), Spec.answered w rest, t)
    /\ Spec.attempts t = [] /\ Spec.successes t = 0
    /\ Spec.failures t = [] /\ Spec.reported t = [].
Proof.
  intros Hin.
  unfold Cli.promptUserConfirmation, Cli.overwriteMessage, Cli.logWithTimestamp,
    Proc.bind, Proc.question.
  cbn [Proc.forOf]. unfold Proc.bind, Proc.ret. run_console. rewrite Hin.
  destruct (Js.trim answer =? "1")%string; [run_console; eexists; tally |].
  destruct (Js.trim answer =? "2")%string; [run_console; eexists; tally |].
  destruct (Js.trim answer =? "3")%string; [run_console; eexists; tally |].
  destruct (Js.trim answer =? "4")%string; [run_console; eexists; tally |].
  destruct (Js.trim answer =? "0")%string; run_console; eexists; tally.
Qed.

(** The body of the loop when the output is there and no flag is set: the
    user is asked, and the answer decides. *)
Lemma cli_convertFile_prompt (total : nat) (folder format scale fps : string)
  (v : Cli.Vars) (file : string) (w : World) (answer : string) (rest : list string) :
  let out := Cli.outputFile folder format file in
  files w out <> None ->
  Cli.overwriteAll v = false ->
  Cli.skipAll v = false ->
  stdin w = answer :: rest ->
  exists t0,
    (Spec.attempts t0 = [] /\ Spec.successes t0 = 0
     /\ Spec.failures t0 = [] /\ Spec.reported t0 = [])
    /\ Cli.convertFile total folder format scale fps v file w
       = if (Js.trim answer =? "0")%string then
           (Stop (Exit 1), Spec.answered w rest,
            t0 ++ [Console "redBright" (Text "Process canceled by user.")])
         else if (Js.trim answer =? "2")%string then
           let '(r, w2, t2) :=
             Cli.tryConvert total format scale fps
               (Cli.mkVars (Cli.completedFiles v) true (Cli.skipAll v)) file out
               (Spec.answered w rest) in
           (r, w2, t0 ++ t2)
         else if (Js.trim answer =? "4")%string then
           (Ret (Cli.mkVars (Cli.completedFiles v) (Cli.overwriteAll v) true),
            Spec.answered w rest, t0)
         else if (Js.trim answer =? "3")%string then
           (Ret v, Spec.answered w rest,
            t0 ++ [Console "yellowBright" (Skipping (Path.basename out ""))])
         else
           let '(r, w2, t2) :=
             Cli.tryConvert total format scale fps v file out (Spec.answered w rest) in
           (r, w2, t0 ++ t2).
Proof.
  intros out Hp Ho Hs Hin.
  destruct (promptUserConfirmation_run out w answer rest Hin) as (t0 & Hrun & Hq).
  exists t0. split; [exact Hq |].
  unfold Cli.convertFile, Proc.bind at 1 2, Proc.existsSync. fold out.
  destruct (files w out); [| contradiction].
  rewrite Ho, Hs. cbn [andb negb].
  unfold Cli.overwriteDecision, Proc.bind at 1. rewrite Hrun.
  destruct (Js.trim answer =? "0")%string.
  { unfold Proc.bind, Cli.logWithTimestamp, Proc.exit, Proc.stop. run_console.
    cbn. now rewrite ?app_nil_r. }
  destruct (Js.trim answer =? "2")%string.
  { cbn. rewrite Hs. destruct (Cli.tryConvert _ _ _ _ _ _ _ _) as [[r w2] t2].
    now rewrite ?app_nil_r. }
  destruct (Js.trim answer =? "4")%string.
  { cbn. now rewrite ?app_nil_r, ?Ho. }
  destruct (Js.trim answer =? "3")%string.
  { unfold Proc.bind, Cli.logWithTimestamp. run_console. cbn.
    now rewrite ?app_nil_r. }
  cbn. rewrite Hs. destruct (Cli.tryConvert _ _ _ _ _ _ _ _) as [[r w2] t2].
  now rewrite ?app_nil_r.
Qed.

Lemma eqb_false_of_neq (a b : string) : a <> b -> (a =? b)%string = false.
Proof. now intros H; apply String.eqb_neq. Qed.

(** One file of the interactive loop, when the engine has a run left whose
    reports can be shown, the user a line to type that is not the cancel
    code, and the input is there: the body returns, the counter has grown
    by the successes, every failure is on the console. *)
Lemma cli_convertFile_step (total : nat) (folder format scale fps : string)
  (v : Cli.Vars) (file : string) (w : World) :
  engine w <> [] ->
  Forall (Spec.showable w) (engine w) ->
  stdin w <> [] ->
  Forall (fun a => Js.trim a <> "0"%string) (stdin w) ->
  files w file <> None ->
  exists w' t v',
    Cli.convertFile total folder format scale fps v file w = (Ret v', w', t)
    /\ Cli.completedFiles v' = Cli.completedFiles v + Spec.successes t
    /\ Spec.reported t = Spec.failures t
    /\ List.length (engine w) <= S (List.length (engine w'))
    /\ Forall (Spec.showable w') (engine w')
    /\ List.length (stdin w) <= S (List.length (stdin w'))
    /\ Forall (fun a => Js.trim a <> "0"%string) (stdin w')
    /\ (forall p, files w p <> None -> files w' p <> None)
    /\ (Cli.skipAll v = true -> Cli.skipAll v' = true)
    /\ (files w' (Cli.outputFile folder format file) <> None
        \/ In file (map fst (Spec.failures t))
        \/ Cli.skipAll v' = true).
Proof.
  intros He Hd Hi Hc Hf.
  destruct (engine w) as [|run es] eqn:Ee; [contradiction |].
  inversion Hd as [|? ? Hshow Hes]; subst.
  destruct (stdin w) as [|answer rest] eqn:Ei; [contradiction |].
  inversion Hc as [|? ? Hanswer Hrest]; subst.
  destruct (Cli.skipAll v) eqn:Hs.
  { rewrite cli_convertFile_skipAll by assumption.
    exists w, [], v. rewrite ?Ee, ?Ei. tally; auto. }
  set (out := Cli.outputFile folder format file).
  set (gain := match ending run with End _ => 1 | Error _ _ => 0 end).
  assert (Hdirect :
    forall v0 w0, Cli.completedFiles v0 = Cli.completedFiles v ->
      engine w0 = run :: es -> isTTY w0 = isTTY w -> files w0 file <> None ->
      exists t,
        Cli.tryConvert total format scale fps v0 file out w0
        = (Ret (Cli.mkVars (Cli.completedFiles v + gain)
                  (Cli.overwriteAll v0) (Cli.skipAll v0)),
           Spec.afterRun w0 out (ending run) es, t)
        /\ Spec.successes t = gain
        /\ Spec.reported t = Spec.failures t
        /\ (files (Spec.afterRun w0 out (ending run) es) out <> None
            \/ In file (map fst (Spec.failures t)))).
  { intros v0 w0 Hv0 He0 Ht0 Hf0.
    destruct (cli_tryConvert_step total format scale fps v0 file out w0 run es He0)
      as (t & Ht & Ha & Hn & Hr & Hfl); [now apply (showable_same w) | exact Hf0 |].
    exists t. rewrite Ht, Hv0, Hfl. split; [reflexivity |]. split; [exact Hn |].
    split; [now rewrite <- Hfl |].
    unfold Spec.afterRun. cbn [files].
    destruct (ending run) as [sz | msg p];
      [left; rewrite written_output; discriminate | right; now left]. }
  assert (Hes' : forall w0 ev, isTTY w0 = isTTY w ->
                   Forall (Spec.showable (Spec.afterRun w0 out ev es)) es).
  { intros w0 ev Ht0. eapply Forall_impl; [| exact Hes].
    intros r. apply showable_same. exact Ht0. }
  destruct (files w out) as [st |] eqn:Hp; [destruct (Cli.overwriteAll v) eqn:Ho |].
  - rewrite cli_convertFile_direct by auto. fold out.
    destruct (Hdirect v w eq_refl Ee eq_refl Hf) as (t & -> & Hn & Hr & Hout).
    do 3 eexists. split; [reflexivity |].
    cbn. rewrite Hn, ?Ee, ?Ei.
    repeat split; auto; simpl; try lia; try (intros p; apply written_grows).
    destruct Hout as [Hout | Hout]; [left; exact Hout | right; left; exact Hout].
  - destruct (cli_convertFile_prompt total folder format scale fps v file w answer rest)
      as (t0 & (Ha0 & Hn0 & Hf0 & Hr0) & Hrun); try assumption.
    { fold out. rewrite Hp. discriminate. }
    fold out in Hrun. rewrite Hrun.
    rewrite (eqb_false_of_neq _ _ Hanswer).
    assert (Hes0 : Forall (Spec.showable (Spec.answered w rest)) (run :: es)).
    { eapply Forall_impl; [| exact Hd]. intros r. now apply showable_same. }
    destruct (Js.trim answer =? "2")%string.
    { destruct (Hdirect (Cli.mkVars (Cli.completedFiles v) true (Cli.skipAll v))
                  (Spec.answered w rest) eq_refl Ee eq_refl Hf)
        as (t & -> & Hn & Hr & Hout).
      do 3 eexists. split; [reflexivity |].
      cbn. rewrite successes_app, reported_app, failures_app, Hn0, Hf0, Hr0, Hn, Hr, ?Ee, ?Ei.
      repeat split; auto; simpl; try lia; try (intros p; apply written_grows).
      destruct Hout as [Hout | Hout]; [left; exact Hout | right; left; exact Hout]. }
    destruct (Js.trim answer =? "4")%string.
    { do 3 eexists. split; [reflexivity |].
      cbn. rewrite Hn0, Hf0, Hr0, ?Ee, ?Ei. repeat split; auto; simpl; try lia. }
    destruct (Js.trim answer =? "3")%string.
    { do 3 eexists. split; [reflexivity |].
      cbn. rewrite successes_app, reported_app, failures_app, Hn0, Hf0, Hr0, ?Ee, ?Ei.
      repeat split; auto; simpl; try lia.
      left. fold out. rewrite Hp. discriminate. }
    destruct (Hdirect v (Spec.answered w rest) eq_refl Ee eq_refl Hf)
      as (t & -> & Hn & Hr & Hout).
    do 3 eexists. split; [reflexivity |].
    cbn. rewrite successes_app, reported_app, failures_app, Hn0, Hf0, Hr0, Hn, Hr, ?Ee, ?Ei.
    repeat split; auto; simpl; try lia; try (intros p; apply written_grows).
    destruct Hout as [Hout | Hout]; [left; exact Hout | right; left; exact Hout].
  - rewrite cli_convertFile_direct by auto. fold out.
    destruct (Hdirect v w eq_refl Ee eq_refl Hf) as (t & -> & Hn & Hr & Hout).
    do 3 eexists. split; [reflexivity |].
    cbn. rewrite Hn, ?Ee, ?Ei.
    repeat split; auto; simpl; try lia; try (intros p; apply written_grows).
    destruct Hout as [Hout | Hout]; [left; exact Hout | right; left; exact Hout].
Qed.

Lemma cli_loop (total : nat) (folder format scale fps : string) (videoFiles : list string) :
  forall (v : Cli.Vars) (w : World),
    List.length videoFiles <= List.length (engine w) ->
    Forall (Spec.showable w) (engine w) ->
    List.length videoFiles <= List.length (stdin w) ->
    Forall (fun a => Js.trim a <> "0"%string) (stdin w) ->
    Forall (fun f => files w f <> None) videoFiles ->
    exists w' t v',
      Proc.forOf (Cli.convertFile total folder format scale fps) videoFiles v w
      = (Ret v', w', t)
      /\ Cli.completedFiles v' = Cli.completedFiles v + Spec.successes t
      /\ Spec.reported t = Spec.failures t
      /\ (forall p, files w p <> None -> files w' p <> None)
      /\ (Cli.skipAll v = true -> Cli.skipAll v' = true)
      /\ Forall (fun file =>
           files w' (Cli.outputFile folder format file) <> None
           \/ In file (map fst (Spec.failures t))
           \/ Cli.skipAll v' = true) videoFiles.
Proof.
  induction videoFiles as [|file rest IH]; intros v w He Hd Hi Hc Hf.
  - exists w, [], v. split; [reflexivity |]. split; [tally |]. split; [tally |].
    split; [auto |]. split; [auto | constructor].
  - rewrite forOf_cons. inversion Hf as [|? ? Hfile Hrest]; subst.
    destruct (cli_convertFile_step total folder format scale fps v file w)
      as (w1 & t1 & v1 & H1 & N1 & R1 & E1 & D1 & I1 & C1 & F1 & K1 & O1);
      try assumption.
    { destruct (engine w); [simpl in He; lia | discriminate]. }
    { destruct (stdin w); [simpl in Hi; lia | discriminate]. }
    rewrite H1.
    destruct (IH v1 w1) as (w2 & t2 & v2 & H2 & N2 & R2 & G2 & K2 & O2).
    { simpl in He. lia. }
    { assumption. }
    { simpl in Hi. lia. }
    { assumption. }
    { eapply Forall_impl; [| exact Hrest]. intros f. apply F1. }
    rewrite H2. exists w2, (t1 ++ t2), v2. split; [reflexivity |].
    split; [rewrite successes_app; lia |].
    split; [now rewrite reported_app, failures_app, R1, R2 |].
    split; [auto |]. split; [auto |]. constructor.
    + rewrite failures_app, map_app. destruct O1 as [O1 | [O1 | O1]].
      * left. auto.
      * right. left. apply in_or_app. now left.
      * right. right. auto.
    + eapply Forall_impl; [| exact O2]. intros f [O | [O | O]]; [now left | | auto].
      right. left. rewrite failures_app, map_app. apply in_or_app. now right.
Qed.

(** C1.  Three files, the output of the second one there and not that of
    the first, the first run of the engine ending well with reports that can
    be shown, the user answering the prompt for the second file with the
    code 4: the first file is converted, the engine is not run for the
    second and the third, and the counter ends at 1.  More generally, from a
    state in which [skipAll] is set the loop runs over any files without
    running the engine and without changing anything. *)
Theorem skip_all_remaining_files :
  (forall (format scale fps f1 f2 f3 : string) (w : World) (answer : string)
          (rest : list string) (run : Run) (sz : N) (es : list Run),
      let out1 := Cli.outputFile (Path.dirname f1) format f1 in
      let out2 := Cli.outputFile (Path.dirname f1) format f2 in
      files w out1 = None ->
      files w out2 <> None ->
      files w f1 <> None ->
      engine w = run :: es ->
      ending run = End sz ->
      Spec.showable w run ->
      stdin w = answer :: rest ->
      Js.trim answer = "4"%string ->
      exists w' t,
        Cli.convertAll format scale fps [f1; f2; f3] w
        = (Ret (Cli.mkVars 1 false true), w', t)
        /\ Spec.attempts t = [(f1, out1)]
        /\ Spec.successes t = 1
        /\ stdin w' = rest
        /\ engine w' = es)
  /\ (forall (total : nat) (folder format scale fps : string)
             (videoFiles : list string) (v : Cli.Vars) (w : World),
        Cli.skipAll v = true ->
        Proc.forOf (Cli.convertFile total folder format scale fps) videoFiles v w
        = (Ret v, w, [])).
Proof.
  split.
  - intros format scale fps f1 f2 f3 w answer rest run sz es out1 out2
      H1 H2 Hf He Hev Hd Hi Ht.
    unfold Cli.convertAll, Proc.bind at 1. cbn [hd List.length].
    rewrite forOf_cons.
    rewrite cli_convertFile_direct by (auto; reflexivity). fold out1.
    destruct (cli_tryConvert_end 3 format scale fps Cli.start f1 out1 w run sz es
                He Hev Hd Hf) as (src & _ & ->).
    rewrite forOf_cons.
    destruct (cli_convertFile_prompt 3 (Path.dirname f1) format scale fps
                (Cli.mkVars 1 false false) f2 (Spec.afterRun w out1 (End sz) es)
                answer rest)
      as (t0 & (Ha0 & Hn0 & Hf0 & Hr0) & Hrun); try reflexivity; try assumption.
    { apply written_grows. exact H2. }
    cbn [Cli.start Cli.completedFiles Cli.overwriteAll Cli.skipAll].
    rewrite Hrun, Ht. cbn [String.eqb Ascii.eqb Bool.eqb].
    cbn [Cli.completedFiles Cli.overwriteAll].
    rewrite forOf_cons, cli_convertFile_skipAll by reflexivity.
    cbn [Proc.forOf]. unfold Cli.logWithTimestamp, Proc.bind, Proc.ret. run_console.
    do 2 eexists. split; [reflexivity |].
    rewrite !attempts_app, !successes_app, Ha0, Hn0. count_run.
  - intros total folder format scale fps videoFiles v w Hs.
    induction videoFiles as [|file rest IH]; [reflexivity |].
    rewrite forOf_cons, cli_convertFile_skipAll, IH by assumption. reflexivity.
Qed.

Lemma halfway_showable (w : World) (event : EngineEvent) :
  isTTY w = true -> Spec.showable w (Spec.halfway event).
Proof. intros H. right. split; [exact H |]. repeat constructor. discriminate. Qed.

Lemma skip_all_remaining_files_witness :
  (exists w' t,
      Cli.convertAll "gif" "auto" "30" ["vids/a.mp4"; "vids/b.mp4"; "vids/c.mp4"]%string
        (Spec.threeVideos " 4 " [Spec.halfway (End 4096%N)])
      = (Ret (Cli.mkVars 1 false true), w', t)
      /\ Spec.attempts t = [("vids/a.mp4", "vids/a.gif")]%string
      /\ Spec.successes t = 1
      /\ stdin w' = []
      /\ engine w' = [])
  /\ Proc.forOf (Cli.convertFile 3 "vids" "gif" "auto" "30")
       ["vids/b.mp4"; "vids/c.mp4"]%string (Cli.mkVars 1 false true)
       (Spec.threeVideos "1" [Spec.halfway (End 4096%N)])
     = (Ret (Cli.mkVars 1 false true), Spec.threeVideos "1" [Spec.halfway (End 4096%N)], []).
Proof.
  split.
  - apply (proj1 skip_all_remaining_files "gif" "auto" "30"
             "vids/a.mp4" "vids/b.mp4" "vids/c.mp4"
             (Spec.threeVideos " 4 " [Spec.halfway (End 4096%N)]) " 4 " []
             (Spec.halfway (End 4096%N)) 4096%N [])%string.
    + reflexivity.
    + vm_compute. discriminate.
    + vm_compute. discriminate.
    + reflexivity.
    + reflexivity.
    + now apply halfway_showable.
    + reflexivity.
    + reflexivity.
  - apply (proj2 skip_all_remaining_files). reflexivity.
Defined.

(** C3, as the specification words it in its section on the prompts, fails:
    with the output there and the answer 9 the file is converted, and the
    counter goes from 0 to 1. *)
Lemma other_answer_is_not_skipped : ~ Spec.otherAnswerTakesNoAction.
Proof.
  intros H.
  destruct (H 1 "vids" "gif" "auto" "30" Cli.start "vids/b.mp4" "9" []
              (Spec.threeVideos "9" [Spec.halfway (End 4096%N)]))%string
    as (w' & t & Hrun & _).
  - vm_compute. discriminate.
  - reflexivity.
  - reflexivity.
  - reflexivity.
  - vm_compute. intuition discriminate.
  - vm_compute in Hrun. discriminate Hrun.
Qed.

(** C3, amended.  With the output there and no flag set, every answer other
    than 0, 2, 3 and 4, the code 1 and any unrecognised text alike, leads to
    the conversion of the current file onto the existing output: the engine
    is run once for it and, the progress reports of the run being of those
    that can be shown, the counter grows by one when the run ends well. *)
Theorem other_answer_converts :
  forall (total : nat) (folder format scale fps : string) (v : Cli.Vars)
         (file answer : string) (rest : list string) (w : World)
         (run : Run) (es : list Run),
    let out := Cli.outputFile folder format file in
    files w out <> None ->
    Cli.overwriteAll v = false ->
    Cli.skipAll v = false ->
    stdin w = answer :: rest ->
    ~ In (Js.trim answer) ["0"; "2"; "3"; "4"]%string ->
    engine w = run :: es ->
    Spec.showable w run ->
    files w file <> None ->
    exists w' t,
      Cli.convertFile total folder format scale fps v file w
      = (Ret (Cli.mkVars
                (Cli.completedFiles v
                 + match ending run with End _ => 1 | Error _ _ => 0 end)
                false false), w', t)
      /\ Spec.attempts t = [(file, out)]
      /\ stdin w' = rest
      /\ engine w' = es.
Proof.
  intros total folder format scale fps v file answer rest w run es out
    Hp Ho Hs Hi Hn He Hd Hf.
  destruct (cli_convertFile_prompt total folder format scale fps v file w answer rest)
    as (t0 & (Ha0 & _) & Hrun); try assumption.
  fold out in Hrun. rewrite Hrun.
  rewrite !eqb_false_of_neq by (intros E; apply Hn; rewrite E; simpl; tauto).
  destruct (cli_tryConvert_step total format scale fps v file out
              (Spec.answered w rest) run es He) as (t & -> & Ha & _);
    [now apply (showable_same w) | exact Hf |].
  rewrite Ho, Hs. do 2 eexists. split; [reflexivity |].
  rewrite attempts_app, Ha0, Ha. repeat split.
Qed.

Lemma other_answer_converts_witness :
  exists w' t,
    Cli.convertFile 1 "vids" "gif" "auto" "30" Cli.start "vids/b.mp4"
      (Spec.threeVideos "9" [Spec.halfway (End 4096%N)])
    = (Ret (Cli.mkVars 1 false false), w', t)
    /\ Spec.attempts t = [("vids/b.mp4", "vids/b.gif")]%string
    /\ stdin w' = []
    /\ engine w' = [].
Proof.
  apply (other_answer_converts 1 "vids" "gif" "auto" "30" Cli.start "vids/b.mp4" "9" []
           (Spec.threeVideos "9" [Spec.halfway (End 4096%N)])
           (Spec.halfway (End 4096%N)) [])%string.
  - vm_compute. discriminate.
  - reflexivity.
  - reflexivity.
  - reflexivity.
  - vm_compute. intuition discriminate.
  - reflexivity.
  - now apply halfway_showable.
  - vm_compute. discriminate.
Defined.

(** C6.  The [try] statement of the loop catches what the promise of the
    conversion is rejected with, the [error] event of the engine.  An
    exception thrown inside a handler of the engine's events is not caught:
    it ends the process in the middle of the batch, whatever files remain.
    In the interactive driver this happens when a progress report cannot be
    shown, for want of a terminal or of a percentage, and when the input is
    not there any more at the end of its run; in the non-interactive driver,
    when there is a progress report and no terminal.  Then no run has ended
    and no failure has been written to the console. *)
Theorem handler_exception_ends_the_batch :
  (forall (total : nat) (folder format scale fps : string) (v : Cli.Vars)
          (file : string) (rest : list string) (w : World) (run : Run) (es : list Run),
      let out := Cli.outputFile folder format file in
      files w out = None \/ Cli.overwriteAll v = true ->
      Cli.skipAll v = false ->
      engine w = run :: es ->
      ~ Spec.showable w run ->
      exists e t,
        Proc.forOf (Cli.convertFile total folder format scale fps) (file :: rest) v w
        = (Stop (Uncaught e), Spec.running w es, t)
        /\ (e = Spec.noClearLine \/ e = Spec.noPercent)
        /\ Spec.attempts t = [(file, out)]
        /\ Spec.endings t = []
        /\ Spec.reported t = [])
  /\ (forall (total : nat) (folder format scale fps : string) (v : Cli.Vars)
             (file : string) (rest : list string) (w : World) (run : Run) (sz : N)
             (es : list Run),
        let out := Cli.outputFile folder format file in
        files w out = None \/ Cli.overwriteAll v = true ->
        Cli.skipAll v = false ->
        engine w = run :: es ->
        ending run = End sz ->
        Spec.showable w run ->
        files w file = None ->
        file <> out ->
        exists t,
          Proc.forOf (Cli.convertFile total folder format scale fps) (file :: rest) v w
          = (Stop (Uncaught (SystemError (errno w stat file) stat file)),
             Spec.afterRun w out (End sz) es, t)
          /\ Spec.attempts t = [(file, out)]
          /\ Spec.reported t = [])
  /\ (forall (total : nat) (folder format scale fps : string) (n : nat)
             (file : string) (rest : list string) (w : World) (run : Run) (es : list Run),
        let out := Convert.outputFile folder format file in
        files w out = None ->
        engine w = run :: es ->
        ~ Spec.redrawable w run ->
        Proc.forOf (Convert.convertFile total folder format scale fps) (file :: rest) n w
        = (Stop (Uncaught Spec.noClearLine), Spec.running w es,
           [Started file (Convert.getConversionOptions format scale fps) out])).
Proof.
  split; [| split].
  - intros total folder format scale fps v file rest w run es out Hd Hs He Hn.
    rewrite forOf_cons, cli_convertFile_direct by assumption. fold out.
    destruct (cli_tryConvert_aborts total format scale fps v file out w run es He Hn)
      as (e & t & -> & Hcase & Ha & Hen & _ & Hr).
    exists e, t. auto.
  - intros total folder format scale fps v file rest w run sz es out
      Hd Hs He Hev Hshow Hgone Hne.
    rewrite forOf_cons, cli_convertFile_direct by assumption. fold out.
    rewrite (cli_tryConvert_input_gone _ _ _ _ _ _ _ _ _ _ _ He Hev Hshow Hgone Hne).
    eexists. split; [reflexivity |]. count_run.
  - intros total folder format scale fps n file rest w run es out Hp He Hn.
    rewrite forOf_cons, convert_convertFile_absent by assumption. fold out.
    now rewrite (convert_tryConvert_aborts _ _ _ _ _ _ _ _ _ _ He Hn).
Qed.

Lemma blind_not_showable (w : World) (event : EngineEvent) :
  ~ Spec.showable w (Spec.blind event).
Proof.
  intros [H | [_ H]]; [discriminate H |].
  inversion H as [|? ? Hp _]. now apply Hp.
Qed.

Lemma piped_not_redrawable (w : World) (event : EngineEvent) :
  ~ Spec.redrawable (Spec.piped w) (Spec.halfway event).
Proof. intros [H | H]; discriminate H. Qed.

Lemma handler_exception_ends_the_batch_witness :
  (exists e t,
      Proc.forOf (Cli.convertFile 2 "vids" "gif" "auto" "30")
        ["vids/a.mp4"; "vids/b.mp4"]%string Cli.start
        (Spec.twoVideos [] [Spec.blind (End 4096%N); Spec.halfway (End 4096%N)])
      = (Stop (Uncaught e),
         Spec.running
           (Spec.twoVideos [] [Spec.blind (End 4096%N); Spec.halfway (End 4096%N)])
           [Spec.halfway (End 4096%N)], t)
      /\ (e = Spec.noClearLine \/ e = Spec.noPercent)
      /\ Spec.attempts t = [("vids/a.mp4", "vids/a.gif")]%string
      /\ Spec.endings t = []
      /\ Spec.reported t = [])
  /\ (exists t,
        Proc.forOf (Cli.convertFile 2 "vids" "gif" "auto" "30")
          ["vids/z.mp4"; "vids/b.mp4"]%string Cli.start
          (Spec.twoVideos [] [Spec.halfway (End 4096%N); Spec.halfway (End 4096%N)])
        = (Stop (Uncaught (SystemError "ENOENT" stat "vids/z.mp4")),
           Spec.afterRun
             (Spec.twoVideos [] [Spec.halfway (End 4096%N); Spec.halfway (End 4096%N)])
             "vids/z.gif" (End 4096%N) [Spec.halfway (End 4096%N)], t)
        /\ Spec.attempts t = [("vids/z.mp4", "vids/z.gif")]%string
        /\ Spec.reported t = [])
  /\ Proc.forOf (Convert.convertFile 2 "vids" "gif" "auto" "30")
       ["vids/a.mp4"; "vids/b.mp4"]%string 0
       (Spec.piped
          (Spec.twoVideos [] [Spec.halfway (End 4096%N); Spec.halfway (End 4096%N)]))
     = (Stop (Uncaught Spec.noClearLine),
        Spec.running
          (Spec.piped
             (Spec.twoVideos [] [Spec.halfway (End 4096%N); Spec.halfway (End 4096%N)]))
          [Spec.halfway (End 4096%N)],
        [Started "vids/a.mp4" (Convert.getConversionOptions "gif" "auto" "30")
           "vids/a.gif"]%string).
Proof.
  split; [| split].
  - apply (proj1 handler_exception_ends_the_batch 2 "vids" "gif" "auto" "30" Cli.start
             "vids/a.mp4" ["vids/b.mp4"]
             (Spec.twoVideos [] [Spec.blind (End 4096%N); Spec.halfway (End 4096%N)])
             (Spec.blind (End 4096%N)) [Spec.halfway (End 4096%N)])%string.
    + left. reflexivity.
    + reflexivity.
    + reflexivity.
    + apply blind_not_showable.
  - apply (proj1 (proj2 handler_exception_ends_the_batch) 2 "vids" "gif" "auto" "30"
             Cli.start "vids/z.mp4" ["vids/b.mp4"]
             (Spec.twoVideos [] [Spec.halfway (End 4096%N); Spec.halfway (End 4096%N)])
             (Spec.halfway (End 4096%N)) 4096%N [Spec.halfway (End 4096%N)])%string.
    + left. reflexivity.
    + reflexivity.
    + reflexivity.
    + reflexivity.
    + now apply halfway_showable.
    + reflexivity.
    + vm_compute. discriminate.
  - apply (proj2 (proj2 handler_exception_ends_the_batch) 2 "vids" "gif" "auto" "30" 0
             "vids/a.mp4" ["vids/b.mp4"]
             (Spec.piped
                (Spec.twoVideos [] [Spec.halfway (End 4096%N); Spec.halfway (End 4096%N)]))
             (Spec.halfway (End 4096%N)) [Spec.halfway (End 4096%N)])%string.
    + reflexivity.
    + reflexivity.
    + apply piped_not_redrawable.
Defined.

(** X25.  What the [try] statement does catch.  In both drivers, a failure
    of the engine on a file whose progress reports could be shown is written
    to the console and the loop goes on with the remaining files from the
    counter it had.  And a loop that has for every file a run of the engine
    whose reports can be shown (in the interactive driver also a line of the
    user for every file, none of them the cancel code, and every input in
    place) runs to its end and passes over no file: the counter is then the
    number of runs that ended well, the failures on the console are those
    of the engine, and the output of every file is there unless the engine
    failed on that file or, in the interactive driver, the user chose to
    skip all the remaining files. *)
Theorem engine_failure_is_not_fatal :
  (forall (total : nat) (folder format scale fps : string) (n : nat)
          (file : string) (rest : list string) (w : World) (run : Run)
          (msg : string) (p : option N) (es : list Run),
      let out := Convert.outputFile folder format file in
      files w out = None ->
      engine w = run :: es ->
      ending run = Error msg p ->
      Spec.redrawable w run ->
      Proc.forOf (Convert.convertFile total folder format scale fps) (file :: rest) n w
      = (let '(r, w2, t2) :=
           Proc.forOf (Convert.convertFile total folder format scale fps) rest n
             (Spec.afterRun w out (Error msg p) es) in
         (r, w2,
          (Started file (Convert.getConversionOptions format scale fps) out
           :: Spec.redraws (Spec.convertLines file run)
           ++ [Ffmpeg file (Convert.getConversionOptions format scale fps) out
                 (Error msg p);
               Console "redBright" (EngineFailed msg);
               Console "redBright" (Failed file msg)]) ++ t2)))
  /\ (forall (format scale fps : string) (mediaFiles : list string) (w : World),
        List.length mediaFiles <= List.length (engine w) ->
        Forall (Spec.redrawable w) (engine w) ->
        exists w' t n,
          Convert.convertAll format scale fps mediaFiles w = (Ret n, w', t)
          /\ n = Spec.successes t
          /\ Spec.reported t = Spec.failures t
          /\ Forall (fun file =>
               files w' (Convert.outputFile (Path.dirname (hd EmptyString mediaFiles))
                           format file) <> None
               \/ In file (map fst (Spec.failures t))) mediaFiles)
  /\ (forall (total : nat) (folder format scale fps : string) (v : Cli.Vars)
             (file : string) (rest : list string) (w : World) (run : Run)
             (msg : string) (p : option N) (es : list Run),
        let out := Cli.outputFile folder format file in
        files w out = None \/ Cli.overwriteAll v = true ->
        Cli.skipAll v = false ->
        engine w = run :: es ->
        ending run = Error msg p ->
        Spec.showable w run ->
        Proc.forOf (Cli.convertFile total folder format scale fps) (file :: rest) v w
        = (let '(r, w2, t2) :=
             Proc.forOf (Cli.convertFile total folder format scale fps) rest v
               (Spec.afterRun w out (Error msg p) es) in
           (r, w2,
            (Started file (Cli.getConversionOptions format scale fps) out
             :: Spec.redraws (Spec.cliLines file run)
             ++ [Ffmpeg file (Cli.getConversionOptions format scale fps) out
                   (Error msg p);
                 Console "redBright" (EngineFailed msg);
                 Console "redBright" (Failed file msg)]) ++ t2)))
  /\ (forall (format scale fps : string) (videoFiles : list string) (w : World),
        List.length videoFiles <= List.length (engine w) ->
        Forall (Spec.showable w) (engine w) ->
        List.length videoFiles <= List.length (stdin w) ->
        Forall (fun a => Js.trim a <> "0"%string) (stdin w) ->
        Forall (fun f => files w f <> None) videoFiles ->
        exists w' t v,
          Cli.convertAll format scale fps videoFiles w = (Ret v, w', t)
          /\ Cli.completedFiles v = Spec.successes t
          /\ Spec.reported t = Spec.failures t
          /\ Forall (fun file =>
               files w' (Cli.outputFile (Path.dirname (hd EmptyString videoFiles))
                           format file) <> None
               \/ In file (map fst (Spec.failures t))
               \/ Cli.skipAll v = true) videoFiles).
Proof.
  split; [| split; [| split]].
  - intros total folder format scale fps n file rest w run msg p es out Hp He Hev Hd.
    rewrite forOf_cons, convert_convertFile_absent by assumption. fold out.
    rewrite (convert_tryConvert_error _ _ _ _ _ _ _ _ _ _ _ _ He Hev Hd). reflexivity.
  - intros format scale fps mediaFiles w Hlen Hd. unfold Convert.convertAll.
    destruct (convert_loop (List.length mediaFiles)
                (Path.dirname (hd EmptyString mediaFiles)) format scale fps
                mediaFiles 0 w Hlen Hd) as (w' & t & n & H & Hn & Hr & _ & Ho).
    exists w', t, n. auto.
  - intros total folder format scale fps v file rest w run msg p es out Hd Hs He Hev Hshow.
    rewrite forOf_cons, cli_convertFile_direct by assumption. fold out.
    rewrite (cli_tryConvert_error _ _ _ _ _ _ _ _ _ _ _ _ He Hev Hshow). reflexivity.
  - intros format scale fps videoFiles w He Hd Hi Hc Hf.
    unfold Cli.convertAll, Proc.bind at 1.
    destruct (cli_loop (List.length videoFiles)
                (Path.dirname (hd EmptyString videoFiles)) format scale fps
                videoFiles Cli.start w He Hd Hi Hc Hf)
      as (w' & t & v & H & Hn & Hr & _ & _ & Ho).
    rewrite H. unfold Cli.logWithTimestamp, Proc.bind, Proc.ret. run_console.
    do 3 eexists. split; [reflexivity |].
    rewrite successes_app, reported_app, failures_app, Hn, Hr.
    split; [tally |]. split; [tally |].
    cbn [Spec.failures flat_map]. rewrite app_nil_r. exact Ho.
Qed.

Lemma engine_failure_is_not_fatal_witness :
  let failing := Spec.halfway (Error "Conversion failed" None) in
  let runs := [failing; Spec.halfway (End 4096%N)] in
  let failure (options : list string) (lines : list Line) :=
    (Started "vids/a.mp4" options "vids/a.gif"
     :: Spec.redraws lines
     ++ [Ffmpeg "vids/a.mp4" options "vids/a.gif" (Error "Conversion failed" None);
         Console "redBright" (EngineFailed "Conversion failed");
         Console "redBright" (Failed "vids/a.mp4" "Conversion failed")])%string in
  Proc.forOf (Convert.convertFile 2 "vids" "gif" "auto" "30")
    ["vids/a.mp4"; "vids/b.mp4"]%string 0 (Spec.twoVideos [] runs)
  = (let '(r, w2, t2) :=
       Proc.forOf (Convert.convertFile 2 "vids" "gif" "auto" "30") ["vids/b.mp4"%string] 0
         (Spec.afterRun (Spec.twoVideos [] runs) "vids/a.gif"
            (Error "Conversion failed" None) [Spec.halfway (End 4096%N)]) in
     (r, w2,
      failure (Convert.getConversionOptions "gif" "auto" "30")
        (Spec.convertLines "vids/a.mp4" failing) ++ t2))
  /\ (exists w' t n,
        Convert.convertAll "gif" "auto" "30" ["vids/a.mp4"; "vids/b.mp4"]%string
          (Spec.twoVideos [] runs)
        = (Ret n, w', t)
        /\ n = Spec.successes t
        /\ Spec.reported t = Spec.failures t
        /\ Forall (fun file =>
             files w' (Convert.outputFile
                         (Path.dirname (hd EmptyString ["vids/a.mp4"; "vids/b.mp4"]))
                         "gif" file) <> None
             \/ In file (map fst (Spec.failures t)))
             ["vids/a.mp4"; "vids/b.mp4"]%string)
  /\ Proc.forOf (Cli.convertFile 2 "vids" "gif" "auto" "30")
       ["vids/a.mp4"; "vids/b.mp4"]%string Cli.start (Spec.twoVideos [] runs)
     = (let '(r, w2, t2) :=
          Proc.forOf (Cli.convertFile 2 "vids" "gif" "auto" "30") ["vids/b.mp4"%string]
            Cli.start
            (Spec.afterRun (Spec.twoVideos [] runs) "vids/a.gif"
               (Error "Conversion failed" None) [Spec.halfway (End 4096%N)]) in
        (r, w2,
         failure (Cli.getConversionOptions "gif" "auto" "30")
           (Spec.cliLines "vids/a.mp4" failing) ++ t2))
  /\ (exists w' t v,
        Cli.convertAll "gif" "auto" "30" ["vids/a.mp4"; "vids/b.mp4"]%string
          (Spec.twoVideos ["1"; "1"]%string runs)
        = (Ret v, w', t)
        /\ Cli.completedFiles v = Spec.successes t
        /\ Spec.reported t = Spec.failures t
        /\ Forall (fun file =>
             files w' (Cli.outputFile
                         (Path.dirname (hd EmptyString ["vids/a.mp4"; "vids/b.mp4"]))
                         "gif" file) <> None
             \/ In file (map fst (Spec.failures t))
             \/ Cli.skipAll v = true)
             ["vids/a.mp4"; "vids/b.mp4"]%string).
Proof.
  intros failing runs failure.
  assert (Hall : forall answers,
            Forall (Spec.showable (Spec.twoVideos answers runs)) runs).
  { intros answers.
    constructor; [now apply halfway_showable |].
    constructor; [now apply halfway_showable | constructor]. }
  split; [| split; [| split]].
  - apply (proj1 engine_failure_is_not_fatal 2 "vids" "gif" "auto" "30" 0
             "vids/a.mp4" ["vids/b.mp4"] (Spec.twoVideos [] runs) failing
             "Conversion failed" None [Spec.halfway (End 4096%N)])%string;
      try reflexivity.
    now right.
  - apply (proj1 (proj2 engine_failure_is_not_fatal)); [simpl; lia |].
    eapply Forall_impl; [| exact (Hall [])]. intros r. apply showable_redrawable.
  - apply (proj1 (proj2 (proj2 engine_failure_is_not_fatal)) 2 "vids" "gif" "auto" "30"
             Cli.start "vids/a.mp4" ["vids/b.mp4"] (Spec.twoVideos [] runs) failing
             "Conversion failed" None [Spec.halfway (End 4096%N)])%string;
      [left; reflexivity | reflexivity | reflexivity | reflexivity |].
    now apply halfway_showable.
  - apply (proj2 (proj2 (proj2 engine_failure_is_not_fatal))).
    + simpl. lia.
    + apply Hall.
    + simpl. lia.
    + repeat constructor; vm_compute; discriminate.
    + repeat constructor; vm_compute; discriminate.
Defined.
(** ** Paths *)

Lemma isSlash_true (c : ascii) : Path.isSlash c = true -> c = "/"%char.
Proof. unfold Path.isSlash. now intros H; apply Ascii.eqb_eq. Qed.

Lemma segments_nonempty (p : list ascii) : Path.segments p <> [].
Proof.
  destruct p as [|c p]; simpl; [discriminate |].
  destruct (Path.isSlash c); [discriminate |].
  destruct (Path.segments p); discriminate.
Qed.

Lemma segments_app_slash (x y : list ascii) :
  Path.segments (x ++ "/"%char :: y) = Path.segments x ++ Path.segments y.
Proof.
  induction x as [|c x IH]; [reflexivity |].
  cbn [app Path.segments]. destruct (Path.isSlash c).
  - now rewrite IH.
  - rewrite IH. destruct (Path.segments x) eqn:E; [| reflexivity].
    now apply segments_nonempty in E.
Qed.

Lemma segments_noSlash (e : list ascii) :
  Spec.noSlash e -> Path.segments e = [e].
Proof.
  induction 1 as [|c e Hc He IH]; [reflexivity |].
  cbn [Path.segments]. now rewrite Hc, IH.
Qed.

Lemma segments_all_noSlash (p : list ascii) :
  Forall Spec.noSlash (Path.segments p).
Proof.
  induction p as [|c p IH]; [repeat constructor |].
  cbn [Path.segments]. destruct (Path.isSlash c) eqn:Hc.
  - constructor; [constructor | exact IH].
  - destruct (Path.segments p) as [|s ss]; [repeat constructor; assumption |].
    inversion IH; subst. constructor; [now constructor | assumption].
Qed.

Lemma plainChars_noSlash (e : list ascii) :
  Spec.plainChars e = true -> Spec.noSlash e.
Proof.
  destruct e as [|c e]; [discriminate |]. unfold Spec.plainChars.
  rewrite !andb_true_iff. intros [[H _] _].
  apply Forall_forall. intros x Hx.
  rewrite forallb_forall in H. specialize (H x Hx). now apply negb_true_iff in H.
Qed.

Lemma plainChars_nonempty (e : list ascii) : Spec.plainChars e = true -> e <> [].
Proof. destruct e; [discriminate | discriminate]. Qed.

Lemma pushSegment_plain (allow : bool) (stack : list (list ascii)) (e : list ascii) :
  Spec.plainChars e = true -> Path.pushSegment allow stack e = e :: stack.
Proof.
  destruct e as [|c e]; [discriminate |]. unfold Spec.plainChars, Path.pushSegment.
  rewrite !andb_true_iff, !negb_true_iff. now intros [[_ ->] ->].
Qed.

Lemma joinSegments_snoc (kept : list (list ascii)) (e : list ascii) :
  Path.joinSegments (kept ++ [e])
  = match kept with
    | [] => e
    | _ :: _ => Path.joinSegments kept ++ "/"%char :: e
    end.
Proof.
  induction kept as [|s kept IH]; [reflexivity |].
  destruct kept as [|s' kept]; [reflexivity |].
  change (Path.joinSegments ((s :: s' :: kept) ++ [e]))
    with (s ++ "/"%char :: Path.joinSegments ((s' :: kept) ++ [e])).
  rewrite IH. change (Path.joinSegments (s :: s' :: kept))
    with (s ++ "/"%char :: Path.joinSegments (s' :: kept)).
  now rewrite <- app_assoc.
Qed.

Lemma startsWithSlash_app (a b : list ascii) :
  a <> [] -> Path.startsWithSlash (a ++ b) = Path.startsWithSlash a.
Proof. destruct a; [contradiction | reflexivity]. Qed.

Lemma endsWithSlash_entry (a e : list ascii) :
  Spec.plainChars e = true -> Path.endsWithSlash (a ++ e) = false.
Proof.
  intros He. unfold Path.endsWithSlash. rewrite rev_app_distr.
  pose proof (plainChars_noSlash e He) as Hn.
  pose proof (plainChars_nonempty e He) as Hne.
  destruct (rev e) as [|c r] eqn:E.
  - apply (f_equal (@rev ascii)) in E. rewrite rev_involutive in E. contradiction.
  - simpl. assert (Hin : In c e) by (apply in_rev; rewrite E; now left).
    unfold Spec.noSlash in Hn. rewrite Forall_forall in Hn. now apply Hn.
Qed.

(** [path.join] of a folder and one of its entries: the prefix that the
    segments kept of the folder give, then the entry. *)
Lemma joinChars_entry (a e : list ascii) :
  a <> [] -> Spec.plainChars e = true ->
  Path.joinChars a e
  = Spec.prefixOf (Path.startsWithSlash a) (Spec.normalSegments a) ++ e.
Proof.
  intros Ha He.
  pose proof (plainChars_nonempty e He) as Hne.
  destruct a as [|c a]; [contradiction |]. destruct e as [|d e]; [contradiction |].
  unfold Path.joinChars, Path.normalizeChars.
  set (p := (c :: a) ++ "/"%char :: d :: e).
  assert (Hp : exists x y, p = x :: y) by (now exists c, (a ++ "/"%char :: d :: e)).
  destruct Hp as (x & y & Hp). rewrite Hp. rewrite <- Hp. clear x y Hp.
  assert (Habs : Path.startsWithSlash p = Path.startsWithSlash (c :: a)) by reflexivity.
  assert (Hend : Path.endsWithSlash p = false).
  { unfold p. change ((c :: a) ++ "/"%char :: d :: e)
      with ((c :: a) ++ ["/"%char] ++ (d :: e)).
    rewrite app_assoc. now apply endsWithSlash_entry. }
  assert (Hseg : Path.normalizeSegments (negb (Path.startsWithSlash p)) (Path.segments p)
                 = Spec.normalSegments (c :: a) ++ [d :: e]).
  { unfold Spec.normalSegments, Path.normalizeSegments. rewrite Habs. unfold p.
    rewrite segments_app_slash, (segments_noSlash (d :: e))
      by now apply plainChars_noSlash.
    rewrite fold_left_app. cbn [fold_left]. rewrite pushSegment_plain by assumption.
    reflexivity. }
  rewrite Hseg, Hend, Habs, joinSegments_snoc. unfold Spec.prefixOf, Spec.root.
  destruct (Spec.normalSegments (c :: a)) as [|s kept].
  - destruct (Path.startsWithSlash (c :: a)); reflexivity.
  - destruct (Path.joinSegments (s :: kept) ++ "/"%char :: d :: e) eqn:E.
    { destruct (Path.joinSegments (s :: kept)); discriminate. }
    rewrite <- E.
    destruct (Path.startsWithSlash (c :: a)); cbn [app]; now rewrite <- app_assoc.
Qed.

Lemma isDot_true (c : ascii) : Path.isDot c = true -> c = "."%char.
Proof. unfold Path.isDot. now intros H; apply Ascii.eqb_eq. Qed.

Lemma isDotDot_true (s : list ascii) : Path.isDotDot s = true -> s = Spec.dotDot.
Proof.
  destruct s as [|a [|b [|c s]]]; try discriminate. simpl.
  rewrite andb_true_iff. intros [Ha Hb].
  now rewrite (isDot_true a Ha), (isDot_true b Hb).
Qed.

Lemma plainChars_intro (s : list ascii) :
  s <> [] -> Spec.noSlash s -> Path.isSingleDot s = false -> Path.isDotDot s = false ->
  Spec.plainChars s = true.
Proof.
  intros Hne Hn H1 H2. destruct s as [|c s]; [contradiction |].
  unfold Spec.plainChars. rewrite H1, H2, !andb_true_r.
  apply forallb_forall. intros x Hx. unfold Spec.noSlash in Hn.
  rewrite Forall_forall in Hn. now rewrite (Hn x Hx).
Qed.

Lemma plainChars_not_dotDot (s : list ascii) :
  Spec.plainChars s = true -> Path.isDotDot s = false.
Proof.
  destruct s as [|c s]; [discriminate |]. unfold Spec.plainChars.
  rewrite !andb_true_iff, !negb_true_iff. now intros [_ H].
Qed.

Lemma normalStack_nil (allow : bool) : Spec.normalStack allow [].
Proof. exists [], 0. repeat split. constructor. Qed.

Lemma pushSegment_normal (allow : bool) (stack : list (list ascii)) (seg : list ascii) :
  Spec.noSlash seg -> Spec.normalStack allow stack ->
  Spec.normalStack allow (Path.pushSegment allow stack seg).
Proof.
  intros Hn (plain & k & -> & Hpl & Hk).
  destruct seg as [|c rest]; [now exists plain, k |].
  remember (c :: rest) as seg eqn:Es.
  assert (Hpush : Path.pushSegment allow (rev plain ++ repeat Spec.dotDot k) seg
                  = if Path.isSingleDot seg then rev plain ++ repeat Spec.dotDot k
                    else if Path.isDotDot seg then
                      match rev plain ++ repeat Spec.dotDot k with
                      | top :: below =>
                          if Path.isDotDot top
                          then (if allow then seg :: rev plain ++ repeat Spec.dotDot k
                                else rev plain ++ repeat Spec.dotDot k)
                          else below
                      | [] => if allow then [seg] else []
                      end
                    else seg :: rev plain ++ repeat Spec.dotDot k).
  { rewrite Es. reflexivity. }
  rewrite Hpush. clear Hpush.
  destruct (Path.isSingleDot seg) eqn:H1; [now exists plain, k |].
  destruct (Path.isDotDot seg) eqn:H2.
  - apply isDotDot_true in H2. rewrite H2.
    destruct plain as [|t plain _] using rev_ind.
    + cbn [rev app]. destruct k as [|k]; cbn [repeat].
      * destruct allow; [exists [], 1 | exists [], 0]; repeat split;
          try constructor; discriminate.
      * change (Path.isDotDot Spec.dotDot) with true. cbn iota.
        destruct allow.
        -- exists [], (S (S k)). repeat split; [constructor | discriminate].
        -- exists [], (S k). repeat split; [constructor | exact Hk].
    + rewrite rev_app_distr. cbn [rev app].
      apply Forall_app in Hpl. destruct Hpl as [Hpl Ht].
      inversion Ht as [|? ? Htp _]; subst.
      rewrite (plainChars_not_dotDot t Htp).
      now exists plain, k.
  - exists (plain ++ [seg]), k. rewrite rev_app_distr. repeat split; try assumption.
    apply Forall_app. split; [assumption |]. constructor; [| constructor].
    apply plainChars_intro; try assumption. rewrite Es. discriminate.
Qed.

Lemma fold_normal (allow : bool) (segs : list (list ascii)) :
  forall stack,
    Forall Spec.noSlash segs -> Spec.normalStack allow stack ->
    Spec.normalStack allow (fold_left (Path.pushSegment allow) segs stack).
Proof.
  induction segs as [|s segs IH]; intros stack Hs Hst; [exact Hst |].
  inversion Hs; subst. cbn [fold_left]. apply IH; [assumption |].
  now apply pushSegment_normal.
Qed.

Lemma rev_repeat {A} (x : A) (k : nat) : rev (repeat x k) = repeat x k.
Proof.
  induction k as [|k IH]; [reflexivity |].
  cbn [repeat rev]. rewrite IH. clear IH.
  induction k as [|k IH]; [reflexivity |]. cbn [repeat app]. now rewrite IH.
Qed.

Lemma fold_dotDots (k : nat) :
  forall j, fold_left (Path.pushSegment true) (repeat Spec.dotDot k) (repeat Spec.dotDot j)
            = repeat Spec.dotDot (k + j).
Proof.
  induction k as [|k IH]; intros j; [reflexivity |].
  cbn [repeat fold_left].
  assert (E : Path.pushSegment true (repeat Spec.dotDot j) Spec.dotDot
              = repeat Spec.dotDot (S j)) by (destruct j; reflexivity).
  rewrite E, IH. f_equal. lia.
Qed.

Lemma fold_plain (allow : bool) (plain : list (list ascii)) :
  forall stack,
    Forall (fun s => Spec.plainChars s = true) plain ->
    fold_left (Path.pushSegment allow) plain stack = rev plain ++ stack.
Proof.
  induction plain as [|s plain IH]; intros stack H; [reflexivity |].
  inversion H; subst. cbn [fold_left rev].
  rewrite pushSegment_plain, IH by assumption. now rewrite <- app_assoc.
Qed.

(** Normalizing the segments of a normalized path gives them back. *)
Lemma renormalize (allow : bool) (stack : list (list ascii)) :
  Spec.normalStack allow stack ->
  fold_left (Path.pushSegment allow) (rev stack) [] = stack.
Proof.
  intros (plain & k & -> & Hpl & Hk).
  rewrite rev_app_distr, rev_involutive, rev_repeat, fold_left_app.
  assert (E : fold_left (Path.pushSegment allow) (repeat Spec.dotDot k) []
              = repeat Spec.dotDot k).
  { destruct allow.
    - change (@nil (list ascii)) with (repeat Spec.dotDot 0).
      rewrite fold_dotDots. f_equal. lia.
    - now rewrite (Hk eq_refl). }
  rewrite E. now apply fold_plain.
Qed.

Lemma normalSegments_stack (a : list ascii) :
  exists stack,
    Spec.normalSegments a = rev stack
    /\ Spec.normalStack (negb (Path.startsWithSlash a)) stack.
Proof.
  eexists. split; [reflexivity |].
  apply fold_normal; [apply segments_all_noSlash | apply normalStack_nil].
Qed.

Lemma normalizeSegments_fixed (a : list ascii) :
  Path.normalizeSegments (negb (Path.startsWithSlash a)) (Spec.normalSegments a)
  = Spec.normalSegments a.
Proof.
  destruct (normalSegments_stack a) as (stack & -> & Hst).
  unfold Path.normalizeSegments. now rewrite renormalize.
Qed.

(** Every segment kept is a name or [..]: not empty and without separator. *)
Lemma normalSegments_ok (a : list ascii) :
  Forall (fun s => s <> [] /\ Spec.noSlash s) (Spec.normalSegments a).
Proof.
  destruct (normalSegments_stack a) as (stack & -> & plain & k & -> & Hpl & _).
  apply Forall_rev, Forall_app. split.
  - apply Forall_rev. eapply Forall_impl; [| exact Hpl].
    intros s Hs. split; [now apply plainChars_nonempty | now apply plainChars_noSlash].
  - apply Forall_forall. intros s Hs. apply repeat_spec in Hs. subst s.
    split; [discriminate | repeat constructor].
Qed.

Lemma segments_joinSegments (kept : list (list ascii)) :
  kept <> [] -> Forall Spec.noSlash kept ->
  Path.segments (Path.joinSegments kept) = kept.
Proof.
  induction kept as [|s kept IH]; intros Hne H; [contradiction |].
  inversion H; subst. destruct kept as [|s' kept].
  - now apply segments_noSlash.
  - change (Path.joinSegments (s :: s' :: kept))
      with (s ++ "/"%char :: Path.joinSegments (s' :: kept)).
    rewrite segments_app_slash, segments_noSlash, IH by (assumption || discriminate).
    reflexivity.
Qed.

Lemma takePart_app (x y : list ascii) :
  Spec.noSlash x -> y = [] \/ (exists y', y = "/"%char :: y') ->
  Path.takePart (x ++ y) = x.
Proof.
  intros Hx Hy. induction Hx as [|c x Hc Hx IH].
  - destruct Hy as [-> | (y' & ->)]; reflexivity.
  - cbn [app Path.takePart]. now rewrite Hc, IH.
Qed.

Lemma dropPart_app (x y : list ascii) :
  Spec.noSlash x -> Path.dropPart (x ++ "/"%char :: y) = "/"%char :: y.
Proof.
  induction 1 as [|c x Hc Hx IH]; [reflexivity |].
  cbn [app Path.dropPart]. now rewrite Hc.
Qed.

Lemma dropPart_noSlash (x : list ascii) : Spec.noSlash x -> Path.dropPart x = [].
Proof.
  induction 1 as [|c x Hc Hx IH]; [reflexivity |].
  cbn [Path.dropPart]. now rewrite Hc.
Qed.

Lemma dropSlashes_noSlash (x : list ascii) : Spec.noSlash x -> Path.dropSlashes x = x.
Proof. destruct 1 as [|c x Hc Hx]; [reflexivity |]. cbn. now rewrite Hc. Qed.

Lemma noSlash_rev (x : list ascii) : Spec.noSlash x -> Spec.noSlash (rev x).
Proof. apply Forall_rev. Qed.

Lemma noSlash_app (x y : list ascii) :
  Spec.noSlash (x ++ y) <-> Spec.noSlash x /\ Spec.noSlash y.
Proof. apply Forall_app. Qed.

(** The last component of a path that ends with a name after a separator is
    that name. *)
Lemma lastPartRev_entry (pre e : list ascii) :
  pre = [] \/ (exists pre', pre = pre' ++ ["/"%char]) ->
  Spec.plainChars e = true ->
  Path.lastPartRev (pre ++ e) = rev e.
Proof.
  intros Hpre He. unfold Path.lastPartRev. rewrite rev_app_distr.
  pose proof (noSlash_rev e (plainChars_noSlash e He)) as Hn.
  assert (Hd : Path.dropSlashes (rev e ++ rev pre) = rev e ++ rev pre).
  { destruct (rev e) as [|c r] eqn:E.
    - apply (f_equal (@rev ascii)) in E. rewrite rev_involutive in E.
      now apply plainChars_nonempty in He.
    - inversion Hn as [|? ? Hc _]; subst. cbn. now rewrite Hc. }
  rewrite Hd. apply takePart_app; [assumption |].
  destruct Hpre as [-> | (pre' & ->)]; [now left | right].
  rewrite rev_app_distr. now exists (rev pre').
Qed.

Lemma prefixOf_shape (absolute : bool) (kept : list (list ascii)) :
  Spec.prefixOf absolute kept = []
  \/ (exists pre', Spec.prefixOf absolute kept = pre' ++ ["/"%char]).
Proof.
  unfold Spec.prefixOf, Spec.root. destruct kept as [|s kept].
  - destruct absolute; [right; now exists [] | now left].
  - right. exists ((if absolute then ["/"%char] else []) ++ Path.joinSegments (s :: kept)).
    now rewrite app_assoc.
Qed.

Lemma joinSegments_head (s : list ascii) (kept : list (list ascii)) :
  exists tail, Path.joinSegments (s :: kept) = s ++ tail
               /\ (tail = [] \/ exists tail', tail = "/"%char :: tail').
Proof.
  destruct kept as [|s' kept].
  - exists []. rewrite app_nil_r. split; [reflexivity | now left].
  - exists ("/"%char :: Path.joinSegments (s' :: kept)). split; [reflexivity |].
    right. now eexists.
Qed.

(** The folder never is a lone separator that a name directly follows. *)
Lemma folder_single (absolute : bool) (s : list ascii) (kept : list (list ascii)) (c : ascii) :
  s <> [] -> Spec.noSlash s ->
  Spec.root absolute ++ Path.joinSegments (s :: kept) = [c] ->
  Path.isSlash c = false.
Proof.
  intros Hne Hn H.
  destruct (joinSegments_head s kept) as (tail & E & _). rewrite E in H.
  destruct s as [|d s]; [contradiction |]. inversion Hn as [|? ? Hd _]; subst.
  destruct absolute; cbn in H.
  - destruct s; discriminate H.
  - inversion H; subst. exact Hd.
Qed.

Lemma dirnameChars_entry (absolute : bool) (kept : list (list ascii)) (e : list ascii) :
  Forall (fun s => s <> [] /\ Spec.noSlash s) kept ->
  Spec.plainChars e = true ->
  Path.dirnameChars (Spec.prefixOf absolute kept ++ e) = Spec.folderOf absolute kept.
Proof.
  intros Hk He.
  pose proof (plainChars_noSlash e He) as Hn.
  pose proof (plainChars_nonempty e He) as Hne.
  unfold Spec.prefixOf, Spec.folderOf. destruct kept as [|s kept].
  - destruct absolute; cbn [Spec.root app].
    + unfold Path.dirnameChars.
      rewrite dropSlashes_noSlash, dropPart_noSlash by now apply noSlash_rev.
      reflexivity.
    + destruct e as [|c t]; [contradiction |].
      inversion Hn as [|? ? Hc Ht]; subst.
      unfold Path.dirnameChars.
      rewrite dropSlashes_noSlash, dropPart_noSlash by now apply noSlash_rev.
      now rewrite Hc.
  - inversion Hk as [|? ? [Hs1 Hs2] _]; subst.
    remember (Spec.root absolute ++ Path.joinSegments (s :: kept)) as X eqn:EX.
    assert (HX : X <> []).
    { rewrite EX. destruct (joinSegments_head s kept) as (tail & -> & _).
      destruct s; [contradiction |]. destruct absolute; discriminate. }
    replace ((Spec.root absolute ++ Path.joinSegments (s :: kept) ++ ["/"%char]) ++ e)
      with (X ++ "/"%char :: e)
      by (rewrite EX, <- !app_assoc; reflexivity).
    destruct X as [|c t0]; [contradiction |].
    cbn [app]. unfold Path.dirnameChars.
    rewrite rev_app_distr. cbn [rev]. rewrite <- app_assoc. cbn [app].
    assert (Hd : Path.dropSlashes (rev e ++ "/"%char :: rev t0)
                 = rev e ++ "/"%char :: rev t0).
    { pose proof (noSlash_rev e Hn) as Hr.
      destruct (rev e) as [|x r] eqn:E.
      - apply (f_equal (@rev ascii)) in E. rewrite rev_involutive in E. contradiction.
      - inversion Hr as [|? ? Hx _]; subst. cbn. now rewrite Hx. }
    rewrite Hd, dropPart_app by now apply noSlash_rev.
    destruct (rev t0) as [|x r] eqn:E.
    + apply (f_equal (@rev ascii)) in E. rewrite rev_involutive in E. cbn in E. subst t0.
      symmetry in EX. now rewrite (folder_single absolute s kept c Hs1 Hs2 EX).
    + rewrite <- E, rev_involutive. reflexivity.
Qed.

Lemma folderOf_nonempty (absolute : bool) (kept : list (list ascii)) :
  Forall (fun s => s <> [] /\ Spec.noSlash s) kept ->
  Spec.folderOf absolute kept <> [].
Proof.
  intros Hk. unfold Spec.folderOf, Spec.root. destruct kept as [|s kept].
  - destruct absolute; discriminate.
  - inversion Hk as [|? ? [Hs _] _]; subst.
    destruct (joinSegments_head s kept) as (tail & -> & _).
    destruct s; [contradiction |]. destruct absolute; discriminate.
Qed.

Lemma folderOf_starts (absolute : bool) (kept : list (list ascii)) :
  Forall (fun s => s <> [] /\ Spec.noSlash s) kept ->
  Path.startsWithSlash (Spec.folderOf absolute kept) = absolute.
Proof.
  intros Hk. unfold Spec.folderOf, Spec.root. destruct kept as [|s kept].
  - destruct absolute; reflexivity.
  - destruct absolute; [reflexivity |].
    inversion Hk as [|? ? [Hs Hn] _]; subst.
    destruct (joinSegments_head s kept) as (tail & -> & _).
    destruct s as [|c s]; [contradiction |]. inversion Hn; subst. cbn. assumption.
Qed.

(** The folder [path.dirname] returns is in normal form: its segments are
    the segments kept. *)
Lemma normalSegments_folderOf (a : list ascii) :
  Spec.normalSegments (Spec.folderOf (Path.startsWithSlash a) (Spec.normalSegments a))
  = Spec.normalSegments a.
Proof.
  pose proof (normalSegments_ok a) as Hk.
  pose proof (normalizeSegments_fixed a) as Hfix.
  unfold Spec.normalSegments at 1. rewrite folderOf_starts by assumption.
  unfold Spec.folderOf, Spec.root.
  destruct (Spec.normalSegments a) as [|s kept] eqn:E.
  - destruct (Path.startsWithSlash a); reflexivity.
  - assert (Hseg : Path.segments (Path.joinSegments (s :: kept)) = s :: kept).
    { apply segments_joinSegments; [discriminate |].
      eapply Forall_impl; [| exact Hk]. now intros x [_ Hx]. }
    destruct (Path.startsWithSlash a); cbn [app].
    + cbn [Path.segments]. change (Path.isSlash "/") with true. cbn iota.
      rewrite Hseg. exact Hfix.
    + rewrite Hseg. exact Hfix.
Qed.

Lemma splitDot_spec (l x y : list ascii) :
  Path.splitDot l = Some (x, y) -> l = x ++ "."%char :: y.
Proof.
  revert x. induction l as [|c l IH]; intros x H; [discriminate |].
  cbn [Path.splitDot] in H. destruct (Path.isDot c) eqn:Hc.
  - inversion H; subst. now rewrite (isDot_true c Hc).
  - destruct (Path.splitDot l) as [[x' y'] |]; [| discriminate].
    inversion H; subst. cbn [app]. now rewrite (IH x' eq_refl).
Qed.

Lemma splitDot_app (x y : list ascii) :
  Spec.noDot x -> Path.splitDot (x ++ "."%char :: y) = Some (x, y).
Proof.
  induction 1 as [|c x Hc Hx IH]; [reflexivity |].
  cbn [app Path.splitDot]. now rewrite Hc, IH.
Qed.

Lemma stripPrefix_app (x y : list ascii) : Path.stripPrefix x (x ++ y) = Some y.
Proof.
  induction x as [|c x IH]; [now destruct y |].
  cbn [app Path.stripPrefix]. now rewrite Ascii.eqb_refl.
Qed.

Lemma charsEqb_true (a b : list ascii) : Path.charsEqb a b = true -> a = b.
Proof. unfold Path.charsEqb. now destruct (list_eq_dec ascii_dec a b). Qed.

Lemma lastPartRev_plain (e : list ascii) :
  Spec.plainChars e = true -> Path.lastPartRev e = rev e.
Proof. exact (lastPartRev_entry [] e (or_introl eq_refl)). Qed.

Lemma extnameChars_entry (pre e : list ascii) :
  pre = [] \/ (exists pre', pre = pre' ++ ["/"%char]) ->
  Spec.plainChars e = true ->
  Path.extnameChars (pre ++ e) = Path.extnameChars e.
Proof.
  intros Hpre He. unfold Path.extnameChars.
  now rewrite (lastPartRev_entry pre e Hpre He), (lastPartRev_plain e He).
Qed.

Lemma basenameChars_entry (pre e : list ascii) :
  pre = [] \/ (exists pre', pre = pre' ++ ["/"%char]) ->
  Spec.plainChars e = true ->
  Path.basenameChars (pre ++ e) [] = e.
Proof.
  intros Hpre He. unfold Path.basenameChars.
  now rewrite (lastPartRev_entry pre e Hpre He), rev_involutive.
Qed.

(** The base name of an entry without its extension: what is left of the
    name is not empty, and with the extension it is the name again. *)
Lemma stem_entry (pre e : list ascii) :
  pre = [] \/ (exists pre', pre = pre' ++ ["/"%char]) ->
  Spec.plainChars e = true ->
  exists stem,
    Path.basenameChars (pre ++ e) (Path.extnameChars (pre ++ e)) = stem
    /\ stem <> []
    /\ stem ++ Path.extnameChars e = e.
Proof.
  intros Hpre He.
  pose proof (plainChars_nonempty e He) as Hne.
  rewrite (extnameChars_entry pre e Hpre He).
  assert (Hwhole : Path.extnameChars e = [] ->
                   exists stem, Path.basenameChars (pre ++ e) (Path.extnameChars e) = stem
                                /\ stem <> [] /\ stem ++ Path.extnameChars e = e).
  { intros ->. exists e. rewrite basenameChars_entry, app_nil_r by assumption. auto. }
  assert (Hcut : forall x y,
             rev e = x ++ "."%char :: y -> y <> [] ->
             Path.extnameChars e = "."%char :: rev x ->
             exists stem, Path.basenameChars (pre ++ e) (Path.extnameChars e) = stem
                          /\ stem <> [] /\ stem ++ Path.extnameChars e = e).
  { intros x y Hrev Hy ->. exists (rev y).
    assert (He' : e = rev y ++ "."%char :: rev x).
    { rewrite <- (rev_involutive e), Hrev, rev_app_distr. cbn [rev].
      now rewrite <- app_assoc. }
    split; [| split].
    - unfold Path.basenameChars.
      rewrite (lastPartRev_entry pre e Hpre He), Hrev.
      assert (Hlen : (List.length (pre ++ e) <? List.length ("."%char :: rev x)) = false).
      { apply Nat.ltb_ge. rewrite He', !length_app. cbn [List.length].
        rewrite !length_rev. lia. }
      rewrite Hlen.
      assert (Hneq : Path.charsEqb ("."%char :: rev x) (pre ++ e) = false).
      { destruct (Path.charsEqb _ _) eqn:E; [| reflexivity].
        apply charsEqb_true in E. apply (f_equal (@List.length ascii)) in E.
        rewrite He', !length_app in E. cbn [List.length] in E.
        rewrite !length_rev in E. destruct y; [contradiction | cbn in E; lia]. }
      rewrite Hneq. cbn [rev]. rewrite rev_involutive.
      replace (x ++ "."%char :: y) with ((x ++ ["."%char]) ++ y)
        by now rewrite <- app_assoc.
      rewrite stripPrefix_app. destruct y; [contradiction | reflexivity].
    - intros E. apply (f_equal (@rev ascii)) in E. rewrite rev_involutive in E.
      contradiction.
    - now rewrite He'. }
  unfold Path.extnameChars in *.
  rewrite (lastPartRev_plain e He) in *.
  destruct (Path.splitDot (rev e)) as [[x y] |] eqn:E; [| now apply Hwhole].
  apply splitDot_spec in E.
  destruct y as [|c y]; [now apply Hwhole |].
  destruct x as [|d x].
  - destruct y as [|c' y].
    + destruct (Path.isDot c); [now apply Hwhole |].
      apply (Hcut [] [c]); [assumption | discriminate | reflexivity].
    + apply (Hcut [] (c :: c' :: y)); [assumption | discriminate | reflexivity].
  - apply (Hcut (d :: x) (c :: y)); [assumption | discriminate | reflexivity].
Qed.

Lemma noSlash_of_app_l (x y : list ascii) : Spec.noSlash (x ++ y) -> Spec.noSlash x.
Proof. intros H. now apply noSlash_app in H. Qed.

Lemma long_not_dots (l : list ascii) :
  3 <= List.length l -> Path.isSingleDot l = false /\ Path.isDotDot l = false.
Proof.
  destruct l as [|a [|b [|c l]]]; cbn; intros H; try lia; now split.
Qed.

(** The name written for a stem and a format. *)
Lemma output_name (stem fmt : list ascii) :
  stem <> [] -> Spec.noSlash stem ->
  fmt <> [] -> Spec.noSlash fmt -> Spec.noDot fmt ->
  Spec.plainChars (stem ++ "."%char :: fmt) = true
  /\ Path.extnameChars (stem ++ "."%char :: fmt) = "."%char :: fmt.
Proof.
  intros Hs Hsn Hf Hfn Hfd.
  assert (Hplain : Spec.plainChars (stem ++ "."%char :: fmt) = true).
  { apply plainChars_intro.
    - destruct stem; discriminate.
    - apply noSlash_app. split; [assumption |]. constructor; [reflexivity | assumption].
    - apply long_not_dots. rewrite length_app. cbn [List.length].
      destruct stem; [contradiction |]. destruct fmt; [contradiction |]. cbn. lia.
    - apply long_not_dots. rewrite length_app. cbn [List.length].
      destruct stem; [contradiction |]. destruct fmt; [contradiction |]. cbn. lia. }
  split; [exact Hplain |].
  unfold Path.extnameChars.
  rewrite (lastPartRev_plain _ Hplain).
  rewrite rev_app_distr. cbn [rev]. rewrite <- app_assoc. cbn [app].
  rewrite splitDot_app by now apply Forall_rev.
  destruct (rev stem) as [|c r] eqn:E.
  { apply (f_equal (@rev ascii)) in E. rewrite rev_involutive in E. contradiction. }
  destruct (rev fmt) as [|d r'] eqn:E'.
  { apply (f_equal (@rev ascii)) in E'. rewrite rev_involutive in E'. contradiction. }
  rewrite <- E', rev_involutive. reflexivity.
Qed.

(** The same on strings. *)

Lemma chars_nonempty (s : string) : s <> EmptyString -> Js.chars s <> [].
Proof. destruct s; [contradiction | discriminate]. Qed.

Lemma join_entry (d n : string) :
  d <> EmptyString -> Spec.entryName n = true ->
  Js.chars (Path.join d n)
  = Spec.prefixOf (Path.startsWithSlash (Js.chars d)) (Spec.normalSegments (Js.chars d))
    ++ Js.chars n.
Proof.
  intros Hd Hn. unfold Path.join. rewrite chars_str.
  apply joinChars_entry; [now apply chars_nonempty | exact Hn].
Qed.

Lemma extname_join (d n : string) :
  d <> EmptyString -> Spec.entryName n = true ->
  Path.extname (Path.join d n) = Path.extname n.
Proof.
  intros Hd Hn. unfold Path.extname. rewrite join_entry by assumption.
  now rewrite extnameChars_entry by (apply prefixOf_shape || exact Hn).
Qed.

Lemma basename_join (d n : string) :
  d <> EmptyString -> Spec.entryName n = true ->
  Path.basename (Path.join d n) EmptyString = n.
Proof.
  intros Hd Hn. unfold Path.basename. rewrite join_entry by assumption.
  cbn [Js.chars list_ascii_of_string].
  rewrite basenameChars_entry by (apply prefixOf_shape || exact Hn).
  apply str_chars.
Qed.

Lemma dirname_join (d n : string) :
  d <> EmptyString -> Spec.entryName n = true ->
  Path.dirname (Path.join d n)
  = Js.str (Spec.folderOf (Path.startsWithSlash (Js.chars d))
              (Spec.normalSegments (Js.chars d))).
Proof.
  intros Hd Hn. unfold Path.dirname. rewrite join_entry by assumption.
  now rewrite dirnameChars_entry by (apply normalSegments_ok || exact Hn).
Qed.

(** ** Discovery *)

Lemma statSync_run (path : string) (w : World) (st : Stats) :
  files w path = Some st -> Proc.statSync path w = (Ret st, w, []).
Proof. unfold Proc.statSync. now intros ->. Qed.

Lemma regular_of_stat (w : World) (path : string) (st : Stats) :
  files w path = Some st -> Spec.regular w path = isFile st.
Proof. unfold Spec.regular. now intros ->. Qed.

Lemma convert_entries (d : string) (names : list string) (w : World) :
  forall acc,
    Forall (fun n => files w (Path.join d n) <> None) names ->
    Proc.forOf (Convert.addEntry d) names acc w
    = (Ret (acc ++ map (Path.join d)
                     (filter (fun n => Spec.regular w (Path.join d n)
                                       && Convert.accepted (Path.join d n)) names)),
       w, []).
Proof.
  induction names as [|n names IH]; intros acc H.
  - cbn. now rewrite app_nil_r.
  - inversion H as [|? ? Hn Hrest]; subst. rewrite forOf_cons.
    destruct (files w (Path.join d n)) as [st |] eqn:E; [| contradiction].
    unfold Convert.addEntry, Proc.bind. rewrite (statSync_run _ _ _ E).
    cbn [filter]. rewrite (regular_of_stat _ _ _ E).
    destruct (isFile st && Convert.accepted (Path.join d n)); cbn [Proc.ret];
      rewrite IH by assumption; cbn [map app]; now rewrite <- ?app_assoc.
Qed.

Lemma cli_entries (d : string) (names : list string) (w : World) :
  forall acc,
    Forall (fun n => files w (Path.join d n) <> None) names ->
    Proc.forOf (Cli.processFile d) names acc w
    = (Ret (acc ++ map (Path.join d)
                     (filter (fun n => Spec.regular w (Path.join d n)
                                       && Cli.accepted (Path.join d n)) names)),
       w, []).
Proof.
  induction names as [|n names IH]; intros acc H.
  - cbn. now rewrite app_nil_r.
  - inversion H as [|? ? Hn Hrest]; subst. rewrite forOf_cons.
    destruct (files w (Path.join d n)) as [st |] eqn:E; [| contradiction].
    unfold Cli.processFile, Proc.bind. rewrite (statSync_run _ _ _ E).
    cbn [filter]. rewrite (regular_of_stat _ _ _ E).
    destruct (isFile st && Cli.accepted (Path.join d n)); cbn [Proc.ret];
      rewrite IH by assumption; cbn [map app]; now rewrite <- ?app_assoc.
Qed.

Lemma convert_listing (found : list string) (w : World) :
  exists t, Proc.forOf Convert.listFile found tt w = (Ret tt, w, t).
Proof.
  induction found as [|f found (t & IH)]; [now exists [] |].
  rewrite forOf_cons. unfold Convert.listFile at 1, Convert.log. run_console.
  rewrite IH. now eexists.
Qed.

Lemma cli_listing (total : nat) (found : list string) (w : World) :
  forall index,
    exists t index',
      Proc.forOf (Cli.listFile total) found index w = (Ret index', w, t).
Proof.
  induction found as [|f found IH]; intros index; [now exists [], index |].
  rewrite forOf_cons.
  unfold Cli.listFile at 1, Cli.logWithTimestamp, Proc.bind, Proc.ret. run_console.
  destruct (IH (S index)) as (t & index' & ->). now do 2 eexists.
Qed.

Lemma filter_same {A} (f g : A -> bool) (l : list A) :
  Forall (fun x => f x = g x) l -> filter f l = filter g l.
Proof.
  induction 1 as [|x l Hx Hl IH]; [reflexivity |].
  cbn [filter]. now rewrite Hx, IH.
Qed.

(** C8.  For a directory whose entries can all be inspected, both drivers
    return, in the order of the listing, the paths of the entries that are
    regular files and whose extension, in lower case, is in the set of the
    driver: [.mp4], [.avi], [.jpg], [.jpeg], [.png] for the non-interactive
    one, [.mp4] for the interactive one.  For a directory that holds
    [a.mp4], [b.txt] and [c.MP4], both return [a.mp4] and [c.MP4]. *)
Theorem discovery_of_a_directory :
  (forall (w : World) (d : string) (names : list string) (st : Stats),
      d <> EmptyString ->
      files w d = Some st ->
      isDirectory st = true ->
      listing w d = Some names ->
      Forall (fun n => Spec.entryName n = true) names ->
      Forall (fun n => files w (Path.join d n) <> None) names ->
      (exists t,
          Convert.getMediaFiles [d] w
          = (Ret (map (Path.join d)
                    (filter (fun n =>
                       Spec.regular w (Path.join d n)
                       && Js.includes [".mp4"; ".avi"; ".jpg"; ".jpeg"; ".png"]%string
                            (Js.toLowerCase (Path.extname n))) names)),
             w, t))
      /\ (exists t,
             Cli.getVideoFiles [d] w
             = (Ret (map (Path.join d)
                       (filter (fun n =>
                          Spec.regular w (Path.join d n)
                          && (Js.toLowerCase (Path.extname n) =? ".mp4")%string) names)),
                w, t)))
  /\ (exists t,
         Convert.getMediaFiles ["vids"%string] Spec.mixedFolder
         = (Ret ["vids/a.mp4"; "vids/c.MP4"]%string, Spec.mixedFolder, t))
  /\ (exists t,
         Cli.getVideoFiles ["vids"%string] Spec.mixedFolder
         = (Ret ["vids/a.mp4"; "vids/c.MP4"]%string, Spec.mixedFolder, t)).
Proof.
  split; [| split; eexists; vm_compute; reflexivity].
  intros w d names st Hd Hst Hdir Hls Hnames Hfiles. split.
  - unfold Convert.getMediaFiles, Proc.bind at 1. rewrite forOf_cons.
    unfold Convert.addPath, Convert.log, Proc.bind at 1 2 3, Proc.readdirSync.
    run_console. rewrite (statSync_run _ _ _ Hst), Hdir, Hls.
    rewrite convert_entries by assumption. cbn [app Proc.forOf Proc.ret].
    rewrite (filter_same _ (fun n =>
               Spec.regular w (Path.join d n)
               && Js.includes [".mp4"; ".avi"; ".jpg"; ".jpeg"; ".png"]%string
                    (Js.toLowerCase (Path.extname n)))).
    2: { eapply Forall_impl; [| exact Hnames]. intros n Hn. cbn beta.
         unfold Convert.accepted. now rewrite extname_join. }
    unfold Proc.bind, Convert.log. run_console.
    destruct (convert_listing
                (map (Path.join d)
                   (filter (fun n =>
                      Spec.regular w (Path.join d n)
                      && Js.includes [".mp4"; ".avi"; ".jpg"; ".jpeg"; ".png"]%string
                           (Js.toLowerCase (Path.extname n))) names)) w) as (t & ->).
    now eexists.
  - unfold Cli.getVideoFiles, Proc.bind at 1. rewrite forOf_cons.
    unfold Cli.addPath, Cli.logWithTimestamp, Proc.bind, Proc.readdirSync.
    run_console. rewrite (statSync_run _ _ _ Hst), Hdir, Hls. run_console.
    rewrite cli_entries by assumption. cbn [app Proc.forOf Proc.ret].
    rewrite (filter_same _ (fun n =>
               Spec.regular w (Path.join d n)
               && (Js.toLowerCase (Path.extname n) =? ".mp4")%string)).
    2: { eapply Forall_impl; [| exact Hnames]. intros n Hn. cbn beta.
         unfold Cli.accepted. now rewrite extname_join. }
    unfold Proc.bind, Cli.logWithTimestamp. run_console.
    match goal with
    | |- context [Proc.forOf (Cli.listFile ?total) ?found 0 w] =>
        destruct (cli_listing total found w 0) as (t & index' & ->)
    end.
    now eexists.
Qed.

Lemma discovery_of_a_directory_witness :
  (exists t,
      Convert.getMediaFiles ["vids"%string] Spec.mixedFolder
      = (Ret (map (Path.join "vids")
                (filter (fun n =>
                   Spec.regular Spec.mixedFolder (Path.join "vids" n)
                   && Js.includes [".mp4"; ".avi"; ".jpg"; ".jpeg"; ".png"]%string
                        (Js.toLowerCase (Path.extname n)))
                   ["a.mp4"; "b.txt"; "c.MP4"]%string)),
         Spec.mixedFolder, t))
  /\ (exists t,
         Cli.getVideoFiles ["vids"%string] Spec.mixedFolder
         = (Ret (map (Path.join "vids")
                   (filter (fun n =>
                      Spec.regular Spec.mixedFolder (Path.join "vids" n)
                      && (Js.toLowerCase (Path.extname n) =? ".mp4")%string)
                      ["a.mp4"; "b.txt"; "c.MP4"]%string)),
            Spec.mixedFolder, t)).
Proof.
  apply (proj1 discovery_of_a_directory Spec.mixedFolder "vids"%string
           ["a.mp4"; "b.txt"; "c.MP4"]%string Spec.folder).
  - discriminate.
  - reflexivity.
  - reflexivity.
  - reflexivity.
  - repeat constructor.
  - repeat constructor; vm_compute; discriminate.
Defined.

(** ** The output path *)

Lemma formats_plain (format : string) :
  In format Convert.formats ->
  Js.chars format <> [] /\ Spec.noSlash (Js.chars format) /\ Spec.noDot (Js.chars format).
Proof.
  unfold Convert.formats. cbn [In].
  intros [<- | [<- | [<- | [<- | [<- | []]]]]];
    (split; [discriminate | split; repeat constructor]).
Qed.

(** The format prompt of the interactive driver returns one of the formats
    the non-interactive driver accepts. *)
Lemma promptUserFormat_formats (w w' : World) (t : list Event) (format : string) :
  Cli.promptUserFormat w = (Ret (Some format), w', t) -> In format Convert.formats.
Proof.
  unfold Cli.promptUserFormat, Proc.bind at 1.
  cbn [Proc.forOf]. unfold Cli.logWithTimestamp, Proc.bind, Proc.question, Proc.ret.
  run_console. destruct (stdin w) as [|answer rest]; [discriminate |].
  unfold Convert.formats.
  destruct (Js.trim answer =? "1")%string; [intros [= <- _ _]; cbn; tauto |].
  destruct (Js.trim answer =? "2")%string; [intros [= <- _ _]; cbn; tauto |].
  destruct (Js.trim answer =? "3")%string; [intros [= <- _ _]; cbn; tauto |].
  destruct (Js.trim answer =? "4")%string; [intros [= <- _ _]; cbn; tauto |].
  destruct (Js.trim answer =? "5")%string; [intros [= <- _ _]; cbn; tauto |].
  run_console. discriminate.
Qed.

(** C4, as the specification words it, fails: of two files found in the
    folders [a] and [b], the second one is written to the folder [a]. *)
Lemma output_not_beside_input : ~ Spec.outputBesideInput.
Proof.
  intros H.
  specialize (H ["a/x.mp4"; "b/y.mp4"]%string "gif"%string "b/y.mp4"%string
                (or_intror (or_introl eq_refl))).
  vm_compute in H. discriminate H.
Qed.

(** C4, amended.  Of files found in folders, [f0], the first one found,
    being the entry [n0] of [d0] and [f] the entry [n] of [d]: the path
    written for [f], in either driver, is in the directory of [f0]; its base
    name is the base name of [f] without its extension, followed by a dot
    and the format; its extension is that of the format.  It is in the
    directory of [f] itself when [f] comes from the folder of [f0]. *)
Theorem output_path_in_first_folder :
  forall (d0 n0 d n format : string),
    d0 <> EmptyString ->
    d <> EmptyString ->
    Spec.entryName n0 = true ->
    Spec.entryName n = true ->
    In format Convert.formats ->
    let f0 := Path.join d0 n0 in
    let f := Path.join d n in
    let out := Cli.outputFile (Path.dirname f0) format f in
    Convert.outputFile (Path.dirname f0) format f = out
    /\ Path.dirname out = Path.dirname f0
    /\ Path.basename out EmptyString
       = (Path.basename f (Path.extname f) ++ "." ++ format)%string
    /\ Path.extname out = ("." ++ format)%string
    /\ Path.basename out (Path.extname out) = Path.basename f (Path.extname f)
    /\ (d = d0 -> Path.dirname out = Path.dirname f).
Proof.
  intros d0 n0 d n format Hd0 Hd Hn0 Hn Hfmt f0 f out.
  destruct (formats_plain format Hfmt) as (Hf1 & Hf2 & Hf3).
  set (abs0 := Path.startsWithSlash (Js.chars d0)).
  set (kept0 := Spec.normalSegments (Js.chars d0)).
  assert (Hdir0 : Path.dirname f0 = Js.str (Spec.folderOf abs0 kept0))
    by (apply dirname_join; assumption).
  assert (Hok0 : Forall (fun s => s <> [] /\ Spec.noSlash s) kept0)
    by apply normalSegments_ok.
  (* the stem of the input *)
  destruct (stem_entry
              (Spec.prefixOf (Path.startsWithSlash (Js.chars d))
                 (Spec.normalSegments (Js.chars d)))
              (Js.chars n) (prefixOf_shape _ _) Hn) as (stem & Hstem & Hne & Hsplit).
  rewrite <- join_entry in Hstem by assumption. fold f in Hstem.
  assert (Hbase : Path.basename f (Path.extname f) = Js.str stem).
  { unfold Path.basename, Path.extname. now rewrite chars_str, Hstem. }
  assert (Hsn : Spec.noSlash stem).
  { apply (noSlash_of_app_l stem (Path.extnameChars (Js.chars n))).
    rewrite Hsplit. now apply plainChars_noSlash. }
  destruct (output_name stem (Js.chars format) Hne Hsn Hf1 Hf2 Hf3) as (Hplain & Hext).
  set (b := stem ++ "."%char :: Js.chars format) in *.
  (* the path written *)
  assert (Hout : Js.chars out = Spec.prefixOf abs0 kept0 ++ b).
  { unfold out, Cli.outputFile, Path.join. rewrite chars_str, Hdir0, Hbase, chars_str.
    rewrite !chars_app, chars_str. cbn [Js.chars list_ascii_of_string app]. fold b.
    rewrite joinChars_entry by (try apply folderOf_nonempty; assumption).
    unfold abs0, kept0.
    now rewrite folderOf_starts, normalSegments_folderOf by apply normalSegments_ok. }
  assert (Hdirout : Path.dirname out = Path.dirname f0).
  { unfold Path.dirname at 1. rewrite Hout, dirnameChars_entry by assumption.
    now rewrite Hdir0. }
  split; [reflexivity |]. split; [exact Hdirout |]. split; [| split; [| split]].
  - unfold Path.basename at 1. rewrite Hout. cbn [Js.chars list_ascii_of_string].
    rewrite basenameChars_entry by (apply prefixOf_shape || exact Hplain).
    rewrite Hbase. unfold b. rewrite str_app. f_equal.
    change (Js.str ("."%char :: Js.chars format))
      with (String "."%char (Js.str (Js.chars format))).
    now rewrite str_chars.
  - unfold Path.extname. rewrite Hout.
    rewrite extnameChars_entry by (apply prefixOf_shape || exact Hplain).
    rewrite Hext.
    change (Js.str ("."%char :: Js.chars format))
      with (String "."%char (Js.str (Js.chars format))).
    now rewrite str_chars.
  - destruct (stem_entry (Spec.prefixOf abs0 kept0) b (prefixOf_shape _ _) Hplain)
      as (stem' & Hstem' & _ & Hsplit').
    rewrite <- Hout in Hstem'.
    rewrite Hbase. unfold Path.basename, Path.extname. rewrite chars_str, Hstem'.
    f_equal. rewrite Hext in Hsplit'. unfold b in Hsplit'.
    now apply app_inv_tail in Hsplit'.
  - intros ->. rewrite Hdirout. unfold f, f0.
    now rewrite !dirname_join by assumption.
Qed.

Lemma output_path_in_first_folder_witness :
  let f0 := Path.join "a" "x.mp4" in
  let f := Path.join "b" "y.mp4" in
  let out := Cli.outputFile (Path.dirname f0) "gif" f in
  Convert.outputFile (Path.dirname f0) "gif" f = out
  /\ Path.dirname out = Path.dirname f0
  /\ Path.basename out EmptyString
     = (Path.basename f (Path.extname f) ++ "." ++ "gif")%string
  /\ Path.extname out = ("." ++ "gif")%string
  /\ Path.basename out (Path.extname out) = Path.basename f (Path.extname f)
  /\ ("b"%string = "a"%string -> Path.dirname out = Path.dirname f).
Proof.
  apply (output_path_in_first_folder "a" "x.mp4" "b" "y.mp4" "gif")%string.
  - discriminate.
  - discriminate.
  - reflexivity.
  - reflexivity.
  - cbn. tauto.
Defined.

(* ===================================================================== *)

(** * Further properties *)
(* ===================================================================== *)

(** ** What the loops run *)

Lemma grows_refl (w : World) : Spec.grows w w.
Proof. now repeat split. Qed.

Lemma grows_trans (w1 w2 w3 : World) :
  Spec.grows w1 w2 -> Spec.grows w2 w3 -> Spec.grows w1 w3.
Proof.
  intros (H1 & E1 & T1) (H2 & E2 & T2). repeat split; [| congruence | congruence].
  intros p Hp. now apply H2, H1.
Qed.

Lemma grows_afterRun (w : World) (out : string) (ev : EngineEvent) (es : list Run) :
  Spec.grows w (Spec.afterRun w out ev es).
Proof. repeat split. intros p. apply written_grows. Qed.

Lemma grows_running (w : World) (es : list Run) : Spec.grows w (Spec.running w es).
Proof. now repeat split. Qed.

Lemma subsequence_nil {A} (l : list A) : Spec.subsequence [] l.
Proof. induction l; now constructor. Qed.

Lemma redrawable_dec (w : World) (run : Run) :
  Spec.redrawable w run \/ ~ Spec.redrawable w run.
Proof.
  unfold Spec.redrawable. destruct (reports run); [now left; left |].
  destruct (isTTY w); [now left; right |].
  right. intros [H | H]; discriminate H.
Qed.

Lemma showable_dec (w : World) (run : Run) :
  Spec.showable w run \/ ~ Spec.showable w run.
Proof.
  unfold Spec.showable. destruct (isTTY w).
  - assert (D : Forall (fun p => percent p <> None) (reports run)
                \/ ~ Forall (fun p => percent p <> None) (reports run)).
    { induction (reports run) as [|p ps IH]; [left; constructor |].
      destruct (percent p) eqn:Hp.
      - destruct IH as [IH | IH].
        + left. constructor; [rewrite Hp; discriminate | exact IH].
        + right. intros H. inversion H. contradiction.
      - right. intros H. inversion H. contradiction. }
    destruct D as [D | D]; [left; right; now split |].
    destruct (reports run); [left; now left |].
    right. intros [H | [_ H]]; [discriminate H | contradiction].
  - destruct (reports run); [left; now left |].
    right. intros [H | [H _]]; discriminate H.
Qed.

Lemma not_redrawable (w : World) (run : Run) :
  ~ Spec.redrawable w run -> isTTY w = false /\ reports run <> [].
Proof.
  unfold Spec.redrawable. intros H. split.
  - destruct (isTTY w); [exfalso; apply H; now right | reflexivity].
  - intros E. apply H. now left.
Qed.

(** The [try] statement of the non-interactive loop, whatever the world. *)
Lemma convert_tryConvert_any (total : nat) (format scale fps : string) (n : nat)
  (file out : string) (w : World) :
  exists r w1 t,
    Convert.tryConvert total format scale fps n file out w = (r, w1, t)
    /\ Spec.grows w w1
    /\ (listing w1 = listing w /\ stdin w1 = stdin w /\ Spec.answers t = [])
    /\ Spec.attempts t = [(file, out)]
    /\ ((r = Stop Waiting /\ engine w1 = [])
        \/ (r = Stop (Uncaught Spec.noClearLine) /\ isTTY w = false
            /\ exists run, In run (engine w) /\ reports run <> [])
        \/ (exists n', r = Ret n')).
Proof.
  destruct (engine w) as [|run es] eqn:E.
  - rewrite convert_tryConvert_waits by assumption.
    do 3 eexists. split; [reflexivity |]. split; [apply grows_refl |].
    split; [now repeat split |]. split; [reflexivity | now left].
  - destruct (redrawable_dec w run) as [Hd | Hd].
    + destruct (ending run) as [sz | msg p] eqn:Hev.
      * rewrite (convert_tryConvert_end _ _ _ _ _ _ _ _ _ _ _ E Hev Hd).
        do 3 eexists. split; [reflexivity |]. split; [apply grows_afterRun |].
        split; [split; [reflexivity |]; split; [reflexivity |]; count_run |].
        split; [count_run | right; right; now eexists].
      * rewrite (convert_tryConvert_error _ _ _ _ _ _ _ _ _ _ _ _ E Hev Hd).
        do 3 eexists. split; [reflexivity |]. split; [apply grows_afterRun |].
        split; [split; [reflexivity |]; split; [reflexivity |]; count_run |].
        split; [count_run | right; right; now eexists].
    + rewrite (convert_tryConvert_aborts _ _ _ _ _ _ _ _ _ _ E Hd).
      destruct (not_redrawable _ _ Hd) as [Ht Hr].
      do 3 eexists. split; [reflexivity |]. split; [apply grows_running |].
      split; [now repeat split |]. split; [reflexivity |].
      right; left. split; [reflexivity |]. split; [exact Ht |].
      exists run. split; [now left | exact Hr].
Qed.

(** One file of the non-interactive loop, whatever the world. *)
Lemma convert_convertFile_any (total : nat) (folder format scale fps : string)
  (n : nat) (file : string) (w : World) :
  exists r w1 t1,
    Convert.convertFile total folder format scale fps n file w = (r, w1, t1)
    /\ Spec.grows w w1
    /\ (listing w1 = listing w /\ stdin w1 = stdin w /\ Spec.answers t1 = [])
    /\ (Spec.attempts t1 = []
        \/ (Spec.attempts t1 = [(file, Convert.outputFile folder format file)]
            /\ files w (Convert.outputFile folder format file) = None))
    /\ ((r = Stop Waiting /\ engine w1 = [])
        \/ (r = Stop (Uncaught Spec.noClearLine) /\ isTTY w = false
            /\ exists run, In run (engine w) /\ reports run <> [])
        \/ (exists n', r = Ret n'))
    /\ (exists used, engine w = used ++ engine w1).
Proof.
  destruct (files w (Convert.outputFile folder format file)) eqn:Hp.
  - rewrite convert_convertFile_present by (rewrite Hp; discriminate).
    do 3 eexists. split; [reflexivity |].
    split; [apply grows_refl |]. split; [now repeat split |].
    split; [now left |]. split; [right; right; now eexists | now exists []].
  - rewrite convert_convertFile_absent by assumption.
    destruct (convert_tryConvert_any total format scale fps n file
                (Convert.outputFile folder format file) w)
      as (r & w1 & t & Hrun & G & F & A & R).
    exists r, w1, t. split; [exact Hrun |]. split; [exact G |]. split; [exact F |].
    split; [right; now split |]. split; [exact R |].
    revert Hrun. clear.
    destruct (engine w) as [|run es] eqn:E.
    + rewrite convert_tryConvert_waits by assumption. intros [= <- <- <-].
      exists []. now rewrite E.
    + destruct (redrawable_dec w run) as [Hd | Hd].
      * destruct (convert_tryConvert_step total format scale fps n file
                    (Convert.outputFile folder format file) w run es E Hd)
          as (t' & -> & _). intros [= <- <- <-]. now exists [run].
      * rewrite (convert_tryConvert_aborts _ _ _ _ _ _ _ _ _ _ E Hd).
        intros [= <- <- <-]. now exists [run].
Qed.

Lemma tty_of_grows (w w' : World) : Spec.grows w w' -> isTTY w' = isTTY w.
Proof. now intros (_ & _ & H). Qed.

Lemma convert_loop_any (total : nat) (folder format scale fps : string)
  (mediaFiles : list string) :
  forall (n : nat) (w : World),
    exists r w' t,
      Proc.forOf (Convert.convertFile total folder format scale fps) mediaFiles n w
      = (r, w', t)
      /\ Spec.grows w w'
      /\ (listing w' = listing w /\ stdin w' = stdin w /\ Spec.answers t = [])
      /\ Spec.subsequence (map fst (Spec.attempts t)) mediaFiles
      /\ Forall (fun io => snd io = Convert.outputFile folder format (fst io)
                           /\ files w (snd io) = None) (Spec.attempts t)
      /\ ((r = Stop Waiting /\ engine w' = [])
          \/ (r = Stop (Uncaught Spec.noClearLine) /\ isTTY w = false
              /\ exists run, In run (engine w) /\ reports run <> [])
          \/ (exists n', r = Ret n'))
      /\ (exists used, engine w = used ++ engine w').
Proof.
  induction mediaFiles as [|file rest IH]; intros n w.
  - exists (Ret n), w, []. split; [reflexivity |]. split; [apply grows_refl |].
    split; [now repeat split |].
    split; [constructor |]. split; [constructor |].
    split; [right; right; now eexists | now exists []].
  - rewrite forOf_cons.
    destruct (convert_convertFile_any total folder format scale fps n file w)
      as (r1 & w1 & t1 & -> & G1 & (L1 & S1 & B1) & A1 & R1 & U1).
    assert (Hstop : forall h, r1 = Stop h ->
      Spec.subsequence (map fst (Spec.attempts t1)) (file :: rest)
      /\ Forall (fun io => snd io = Convert.outputFile folder format (fst io)
                           /\ files w (snd io) = None) (Spec.attempts t1)).
    { intros h _. destruct A1 as [-> | [-> Hnone]]; cbn [map fst].
      - split; [apply subsequence_nil | constructor].
      - split; [constructor; apply subsequence_nil |].
        constructor; [now split | constructor]. }
    destruct R1 as [[-> He] | [(-> & Ht & Hr) | (n1 & ->)]].
    + exists (Stop Waiting), w1, t1. split; [reflexivity |]. split; [exact G1 |].
      split; [now repeat split |].
      destruct (Hstop Waiting eq_refl) as [Hs Hf].
      split; [exact Hs |]. split; [exact Hf |]. split; [now left | exact U1].
    + exists (Stop (Uncaught Spec.noClearLine)), w1, t1.
      split; [reflexivity |]. split; [exact G1 |]. split; [now repeat split |].
      destruct (Hstop (Uncaught Spec.noClearLine) eq_refl) as [Hs Hf].
      split; [exact Hs |]. split; [exact Hf |].
      split; [right; left; now repeat split | exact U1].
    + destruct (IH n1 w1)
        as (r2 & w2 & t2 & -> & G2 & (L2 & S2 & B2) & Sub2 & F2 & R2 & U2).
      exists r2, w2, (t1 ++ t2). split; [reflexivity |].
      split; [now apply (grows_trans w w1 w2) |].
      split; [rewrite answers_app, B1, B2; repeat split; congruence |].
      rewrite attempts_app, map_app.
      assert (F2' : Forall (fun io => snd io = Convert.outputFile folder format (fst io)
                                      /\ files w (snd io) = None) (Spec.attempts t2)).
      { eapply Forall_impl; [| exact F2]. intros io [Ho Hn]. split; [exact Ho |].
        destruct (files w (snd io)) eqn:E; [| reflexivity].
        exfalso. apply (proj1 G1 (snd io)); [rewrite E; discriminate | exact Hn]. }
      assert (R2' : (r2 = Stop Waiting /\ engine w2 = [])
                    \/ (r2 = Stop (Uncaught Spec.noClearLine) /\ isTTY w = false
                        /\ exists run, In run (engine w) /\ reports run <> [])
                    \/ (exists n', r2 = Ret n')).
      { destruct R2 as [R2 | [(E2 & T2 & run & Hin & Hrep) | R2]];
          [now left | | now right; right].
        right; left. split; [exact E2 |].
        split; [now rewrite <- (tty_of_grows _ _ G1) |].
        exists run. split; [| exact Hrep].
        destruct U1 as [used ->]. apply in_or_app. now right. }
      assert (U : exists used, engine w = used ++ engine w2).
      { destruct U1 as [u1 ->], U2 as [u2 ->]. exists (u1 ++ u2). now rewrite app_assoc. }
      destruct A1 as [-> | [-> Hnone]]; cbn [map fst app].
      * repeat split; [now constructor | exact F2' | exact R2' | exact U].
      * repeat split; [now constructor | | exact R2' | exact U].
        constructor; [now split | exact F2'].
Qed.

(** X1.  The loop of the non-interactive driver, from any world and over
    any files: the engine is run for some of the files, in their order and
    at most once each, every run onto the output path of its file, and only
    where nothing was at that path when the loop began, so no file that was
    there is ever written over.  The loop reads no line of the user and
    never calls [process.exit]: it returns the counter; or it goes on
    waiting for the engine when there is no run left; or, when the standard
    output is not a terminal and a run reports its progress, the exception
    of the progress display ends the process. *)
Theorem convert_loop_never_overwrites :
  forall (format scale fps : string) (mediaFiles : list string) (w : World),
    exists r w' t,
      Convert.convertAll format scale fps mediaFiles w = (r, w', t)
      /\ Spec.subsequence (map fst (Spec.attempts t)) mediaFiles
      /\ Forall (fun io =>
           snd io = Convert.outputFile (Path.dirname (hd EmptyString mediaFiles))
                      format (fst io)
           /\ files w (snd io) = None) (Spec.attempts t)
      /\ Spec.grows w w'
      /\ stdin w' = stdin w
      /\ ((r = Stop Waiting /\ engine w' = [])
          \/ (r = Stop (Uncaught Spec.noClearLine) /\ isTTY w = false
              /\ exists run, In run (engine w) /\ reports run <> [])
          \/ (exists n, r = Ret n)).
Proof.
  intros format scale fps mediaFiles w. unfold Convert.convertAll.
  destruct (convert_loop_any (List.length mediaFiles)
              (Path.dirname (hd EmptyString mediaFiles)) format scale fps mediaFiles 0 w)
    as (r & w' & t & H & G & (_ & S & _) & Sub & F & R & _).
  exists r, w', t. split; [exact H |]. split; [exact Sub |]. split; [exact F |].
  split; [exact G |]. split; [exact S | exact R].
Qed.

(** ** Frames *)

Section Keeps.

Context (I : World -> World -> list Event -> Prop) (H : Halt -> Prop).
Hypothesis I_refl : forall w, I w w [].
Hypothesis I_trans :
  forall w1 w2 w3 t1 t2, I w1 w2 t1 -> I w2 w3 t2 -> I w1 w3 (t1 ++ t2).

Lemma keeps_ret {A} (a : A) : Spec.keeps I H (Proc.ret a).
Proof. intros w. apply I_refl. Qed.

Lemma keeps_bind {A B} (m : Proc A) (k : A -> Proc B) :
  Spec.keeps I H m -> (forall a, Spec.keeps I H (k a)) -> Spec.keeps I H (Proc.bind m k).
Proof.
  intros Hm Hk w. unfold Proc.bind. specialize (Hm w).
  destruct (m w) as [[[a | h] w1] t1]; [| exact Hm].
  specialize (Hk a w1). destruct (k a w1) as [[[b | h] w2] t2].
  - eapply I_trans; eassumption.
  - destruct Hk as [Hk Hh]. split; [eapply I_trans; eassumption | exact Hh].
Qed.

Lemma keeps_forOf {S A} (body : S -> A -> Proc S) (xs : list A) :
  (forall s x, Spec.keeps I H (body s x)) ->
  forall s, Spec.keeps I H (Proc.forOf body xs s).
Proof.
  intros Hb. induction xs as [|x xs IH]; intros s.
  - apply keeps_ret.
  - cbn [Proc.forOf]. apply keeps_bind; [apply Hb | exact IH].
Qed.

End Keeps.

Lemma untouched_refl (w : World) : Spec.untouched w w [].
Proof. now repeat split. Qed.

Lemma untouched_trans (w1 w2 w3 : World) (t1 t2 : list Event) :
  Spec.untouched w1 w2 t1 -> Spec.untouched w2 w3 t2 -> Spec.untouched w1 w3 (t1 ++ t2).
Proof.
  intros (-> & A1 & B1) (-> & A2 & B2). unfold Spec.untouched.
  now rewrite attempts_app, answers_app, A1, A2, B1, B2.
Qed.

Lemma onlyReads_trans (w1 w2 w3 : World) (t1 t2 : list Event) :
  Spec.onlyReads w1 w2 t1 -> Spec.onlyReads w2 w3 t2 -> Spec.onlyReads w1 w3 (t1 ++ t2).
Proof.
  intros (F1 & L1 & E1 & A1 & S1 & C1 & T1) (F2 & L2 & E2 & A2 & S2 & C2 & T2).
  unfold Spec.onlyReads. repeat split; try congruence.
  - now rewrite attempts_app, A1, A2.
  - now rewrite answers_app, <- app_assoc, <- S2.
Qed.


(** ** Discovery, from any world *)

Lemma statSync_absent (path : string) (w : World) :
  files w path = None ->
  Proc.statSync path w = (Stop (Uncaught (Spec.errorAt w path)), w, []).
Proof. unfold Proc.statSync, Spec.errorAt, Spec.failing. now intros ->. Qed.

Lemma readdirSync_absent (path : string) (w : World) (st : Stats) :
  files w path = Some st ->
  listing w path = None ->
  Proc.readdirSync path w = (Stop (Uncaught (Spec.errorAt w path)), w, []).
Proof. unfold Proc.readdirSync, Spec.errorAt, Spec.failing. now intros -> ->. Qed.

Lemma isFolder_of_stat (w : World) (path : string) (st : Stats) :
  files w path = Some st -> Spec.isFolder w path = isDirectory st.
Proof. unfold Spec.isFolder. now intros ->. Qed.

Lemma convert_entries_any (d : string) (names : list string) (w : World) :
  forall acc,
    exists r,
      Proc.forOf (Convert.addEntry d) names acc w = (r, w, [])
      /\ match r with
         | Ret found =>
             Forall (fun n => files w (Path.join d n) <> None) names
             /\ found = acc ++ map (Path.join d)
                                 (filter (fun n => Spec.regular w (Path.join d n)
                                                   && Convert.accepted (Path.join d n)) names)
         | Stop h =>
             exists n, In n names /\ files w (Path.join d n) = None
                       /\ h = Uncaught (Spec.errorAt w (Path.join d n))
         end.
Proof.
  induction names as [|n names IH]; intros acc.
  - exists (Ret acc). split; [reflexivity |]. split; [constructor |].
    cbn. now rewrite app_nil_r.
  - rewrite forOf_cons. unfold Convert.addEntry at 1, Proc.bind at 1.
    destruct (files w (Path.join d n)) as [st |] eqn:E.
    + rewrite (statSync_run _ _ _ E). cbn [filter]. rewrite (regular_of_stat _ _ _ E).
      assert (Hn : files w (Path.join d n) <> None) by (rewrite E; discriminate).
      destruct (isFile st && Convert.accepted (Path.join d n)); cbn [Proc.ret].
      * destruct (IH (acc ++ [Path.join d n])) as (r & -> & Hr).
        exists r. split; [reflexivity |]. destruct r as [found | h].
        -- destruct Hr as [Hall ->]. split; [now constructor |].
           cbn [map app]. now rewrite <- app_assoc.
        -- destruct Hr as (m & Hm & Hnone & ->). exists m. cbn [In]. auto.
      * destruct (IH acc) as (r & -> & Hr).
        exists r. split; [reflexivity |]. destruct r as [found | h].
        -- destruct Hr as [Hall ->]. split; [now constructor | reflexivity].
        -- destruct Hr as (m & Hm & Hnone & ->). exists m. cbn [In]. auto.
    + rewrite (statSync_absent _ _ E). eexists. split; [reflexivity |].
      exists n. cbn [In]. auto.
Qed.

Lemma cli_entries_any (d : string) (names : list string) (w : World) :
  forall acc,
    exists r,
      Proc.forOf (Cli.processFile d) names acc w = (r, w, [])
      /\ match r with
         | Ret found =>
             Forall (fun n => files w (Path.join d n) <> None) names
             /\ found = acc ++ map (Path.join d)
                                 (filter (fun n => Spec.regular w (Path.join d n)
                                                   && Cli.accepted (Path.join d n)) names)
         | Stop h =>
             exists n, In n names /\ files w (Path.join d n) = None
                       /\ h = Uncaught (Spec.errorAt w (Path.join d n))
         end.
Proof.
  induction names as [|n names IH]; intros acc.
  - exists (Ret acc). split; [reflexivity |]. split; [constructor |].
    cbn. now rewrite app_nil_r.
  - rewrite forOf_cons. unfold Cli.processFile at 1, Proc.bind at 1.
    destruct (files w (Path.join d n)) as [st |] eqn:E.
    + rewrite (statSync_run _ _ _ E). cbn [filter]. rewrite (regular_of_stat _ _ _ E).
      assert (Hn : files w (Path.join d n) <> None) by (rewrite E; discriminate).
      destruct (isFile st && Cli.accepted (Path.join d n)); cbn [Proc.ret].
      * destruct (IH (acc ++ [Path.join d n])) as (r & -> & Hr).
        exists r. split; [reflexivity |]. destruct r as [found | h].
        -- destruct Hr as [Hall ->]. split; [now constructor |].
           cbn [map app]. now rewrite <- app_assoc.
        -- destruct Hr as (m & Hm & Hnone & ->). exists m. cbn [In]. auto.
      * destruct (IH acc) as (r & -> & Hr).
        exists r. split; [reflexivity |]. destruct r as [found | h].
        -- destruct Hr as [Hall ->]. split; [now constructor | reflexivity].
        -- destruct Hr as (m & Hm & Hnone & ->). exists m. cbn [In]. auto.
    + rewrite (statSync_absent _ _ E). eexists. split; [reflexivity |].
      exists n. cbn [In]. auto.
Qed.

(** What one input path gives, by the shape of what is there. *)
Lemma wanted_entries (accepted : string -> bool) (w : World) (p : string)
  (st : Stats) (names : list string) (f : string) :
  files w p = Some st -> isDirectory st = true -> listing w p = Some names ->
  In f (map (Path.join p)
          (filter (fun n => Spec.regular w (Path.join p n) && accepted (Path.join p n)) names))
  <-> Spec.wanted accepted w [p] f.
Proof.
  intros Hst Hdir Hls. rewrite in_map_iff. split.
  - intros (n & <- & Hn). apply filter_In in Hn. destruct Hn as [Hn Hok].
    apply andb_true_iff in Hok. destruct Hok as [Hr Ha].
    split; [exact Hr |]. split; [exact Ha |]. right. exists p, names, n.
    rewrite (isFolder_of_stat _ _ _ Hst). cbn [In]. auto.
  - intros (Hr & Ha & [[Hin Hf] | (d & names' & n & Hd & Hf & Hl & Hn & ->)]).
    + destruct Hin as [<- | []]. rewrite (isFolder_of_stat _ _ _ Hst) in Hf. congruence.
    + destruct Hd as [<- | []]. rewrite Hls in Hl. injection Hl as <-.
      exists n. split; [reflexivity |]. apply filter_In. split; [exact Hn |].
      now rewrite Hr, Ha.
Qed.

Lemma wanted_file (accepted : string -> bool) (w : World) (p : string)
  (st : Stats) (f : string) :
  files w p = Some st -> isDirectory st = false ->
  In f (if isFile st && accepted p then [p] else []) <-> Spec.wanted accepted w [p] f.
Proof.
  intros Hst Hdir. split.
  - destruct (isFile st && accepted p) eqn:E; [| intros []].
    intros [<- | []]. apply andb_true_iff in E. destruct E as [Hf Ha].
    split; [now rewrite (regular_of_stat _ _ _ Hst) |]. split; [exact Ha |].
    left. rewrite (isFolder_of_stat _ _ _ Hst). cbn [In]. auto.
  - intros (Hr & Ha & [[Hin Hf] | (d & names' & n & Hd & Hf & _)]).
    + destruct Hin as [<- | []]. rewrite (regular_of_stat _ _ _ Hst) in Hr.
      rewrite Hr, Ha. now left.
    + destruct Hd as [<- | []]. rewrite (isFolder_of_stat _ _ _ Hst) in Hf. congruence.
Qed.

Lemma readable_entries (w : World) (p : string) (st : Stats) (names : list string) :
  files w p = Some st -> isDirectory st = true -> listing w p = Some names ->
  Forall (fun n => files w (Path.join p n) <> None) names ->
  forall q, ~ Spec.unreadable w [p] q.
Proof.
  intros Hst Hdir Hls Hall q
    [[[<- | []] [Hn | [_ Hn]]] | (d & names' & n & [<- | []] & _ & Hl & Hn & -> & Hq)];
    try congruence.
  rewrite Hls in Hl. injection Hl as <-.
  rewrite Forall_forall in Hall. now apply (Hall n).
Qed.

Lemma readable_file (w : World) (p : string) (st : Stats) :
  files w p = Some st -> isDirectory st = false ->
  forall q, ~ Spec.unreadable w [p] q.
Proof.
  intros Hst Hdir q
    [[[<- | []] [Hn | [Hf _]]] | (d & names' & n & [<- | []] & Hf & _)];
    try congruence; rewrite (isFolder_of_stat _ _ _ Hst) in Hf; congruence.
Qed.

Lemma wanted_cons (accepted : string -> bool) (w : World) (p : string)
  (ps : list string) (f : string) :
  Spec.wanted accepted w (p :: ps) f
  <-> Spec.wanted accepted w [p] f \/ Spec.wanted accepted w ps f.
Proof.
  unfold Spec.wanted, Spec.comesFrom. cbn [In]. split.
  - intros (Hr & Ha & [[[<- | Hin] Hf] | (d & names & n & [<- | Hd] & H)]).
    + left. tauto.
    + right. tauto.
    + left. repeat split; try assumption. right. exists p, names, n. tauto.
    + right. repeat split; try assumption. right. exists d, names, n. tauto.
  - intros [(Hr & Ha & [[[<- | []] Hf] | (d & names & n & [<- | []] & H)])
           | (Hr & Ha & [[Hin Hf] | (d & names & n & Hd & H)])].
    + tauto.
    + repeat split; try assumption. right. exists p, names, n. tauto.
    + tauto.
    + repeat split; try assumption. right. exists d, names, n. tauto.
Qed.

Lemma wanted_nil (accepted : string -> bool) (w : World) (f : string) :
  ~ Spec.wanted accepted w [] f.
Proof. intros (_ & _ & [[[] _] | (d & names & n & [] & _)]). Qed.

Lemma unreadable_cons (w : World) (p : string) (ps : list string) (q : string) :
  Spec.unreadable w (p :: ps) q
  <-> Spec.unreadable w [p] q \/ Spec.unreadable w ps q.
Proof.
  unfold Spec.unreadable. cbn [In]. split.
  - intros [[[<- | Hin] H] | (d & names & n & [<- | Hd] & H)].
    + left. tauto.
    + right. tauto.
    + left. right. exists p, names, n. tauto.
    + right. right. exists d, names, n. tauto.
  - intros [[[[<- | []] H] | (d & names & n & [<- | []] & H)]
           | [[Hin H] | (d & names & n & Hd & H)]].
    + tauto.
    + right. exists p, names, n. tauto.
    + tauto.
    + right. exists d, names, n. tauto.
Qed.

Lemma unreadable_nil (w : World) (q : string) : ~ Spec.unreadable w [] q.
Proof. intros [[[] _] | (d & names & n & [] & _)]. Qed.

Lemma convert_addPath_any (acc : list string) (p : string) (w : World) :
  exists r t,
    Convert.addPath acc p w = (r, w, t)
    /\ Spec.attempts t = [] /\ Spec.answers t = []
    /\ match r with
       | Ret found =>
           (forall q, ~ Spec.unreadable w [p] q)
           /\ exists more, found = acc ++ more
                           /\ forall f, In f more <-> Spec.wanted Convert.accepted w [p] f
       | Stop h => Spec.missing w [p] h
       end.
Proof.
  unfold Convert.addPath, Convert.log, Proc.bind at 1 2. run_console.
  destruct (files w p) as [st |] eqn:Hst.
  - rewrite (statSync_run _ _ _ Hst). destruct (isDirectory st) eqn:Hdir.
    + unfold Proc.bind, Proc.readdirSync. destruct (listing w p) as [names |] eqn:Hls.
      * destruct (convert_entries_any p names w acc) as (r & -> & Hr).
        exists r. eexists. split; [reflexivity |]. repeat split.
        destruct r as [found | h].
        -- destruct Hr as [Hall ->]. split.
           ++ now apply readable_entries with (st := st) (names := names).
           ++ eexists. split; [reflexivity |]. intros f.
              now apply wanted_entries with (st := st).
        -- destruct Hr as (n & Hn & Hnone & ->). exists (Path.join p n).
           split; [reflexivity |]. right. exists p, names, n.
           rewrite (isFolder_of_stat _ _ _ Hst). cbn [In]. repeat split; auto.
      * do 2 eexists. split; [reflexivity |]. repeat split. exists p.
        split; [unfold Spec.errorAt, Spec.failing; now rewrite Hst |].
        left. rewrite (isFolder_of_stat _ _ _ Hst).
        cbn [In]. auto.
    + exists (Ret (acc ++ (if isFile st && Convert.accepted p then [p] else []))).
      eexists. split.
      * destruct (isFile st && Convert.accepted p); cbn [Proc.ret];
          now rewrite ?app_nil_r.
      * repeat split.
        -- now apply readable_file with (st := st).
        -- eexists. split; [reflexivity |]. intros f. now apply wanted_file.
  - rewrite (statSync_absent _ _ Hst). do 2 eexists. split; [reflexivity |].
    repeat split. exists p. split; [reflexivity |]. left. cbn [In]. auto.
Qed.

Lemma cli_addPath_any (acc : list string) (p : string) (w : World) :
  exists r t,
    Cli.addPath acc p w = (r, w, t)
    /\ Spec.attempts t = [] /\ Spec.answers t = []
    /\ match r with
       | Ret found =>
           (forall q, ~ Spec.unreadable w [p] q)
           /\ exists more, found = acc ++ more
                           /\ forall f, In f more <-> Spec.wanted Cli.accepted w [p] f
       | Stop h => Spec.missing w [p] h
       end.
Proof.
  unfold Cli.addPath, Cli.logWithTimestamp, Proc.bind at 1 2. run_console.
  destruct (files w p) as [st |] eqn:Hst.
  - rewrite (statSync_run _ _ _ Hst). destruct (isDirectory st) eqn:Hdir.
    + unfold Proc.bind, Proc.readdirSync. destruct (listing w p) as [names |] eqn:Hls.
      * run_console. destruct (cli_entries_any p names w acc) as (r & -> & Hr).
        exists r. eexists. split; [reflexivity |]. repeat split.
        destruct r as [found | h].
        -- destruct Hr as [Hall ->]. split.
           ++ now apply readable_entries with (st := st) (names := names).
           ++ eexists. split; [reflexivity |]. intros f.
              now apply wanted_entries with (st := st).
        -- destruct Hr as (n & Hn & Hnone & ->). exists (Path.join p n).
           split; [reflexivity |]. right. exists p, names, n.
           rewrite (isFolder_of_stat _ _ _ Hst). cbn [In]. repeat split; auto.
      * do 2 eexists. split; [reflexivity |]. repeat split. exists p.
        split; [unfold Spec.errorAt, Spec.failing; now rewrite Hst |].
        left. rewrite (isFolder_of_stat _ _ _ Hst).
        cbn [In]. auto.
    + exists (Ret (acc ++ (if isFile st && Cli.accepted p then [p] else []))).
      eexists. split.
      * destruct (isFile st && Cli.accepted p); cbn [Proc.ret];
          now rewrite ?app_nil_r.
      * repeat split.
        -- now apply readable_file with (st := st).
        -- eexists. split; [reflexivity |]. intros f. now apply wanted_file.
  - rewrite (statSync_absent _ _ Hst). do 2 eexists. split; [reflexivity |].
    repeat split. exists p. split; [reflexivity |]. left. cbn [In]. auto.
Qed.

(** The loop over the input paths, given what one path gives. *)
Lemma paths_any (accepted : string -> bool)
  (addPath : list string -> string -> Proc (list string)) :
  (forall acc p w,
      exists r t,
        addPath acc p w = (r, w, t)
        /\ Spec.attempts t = [] /\ Spec.answers t = []
        /\ match r with
           | Ret found =>
               (forall q, ~ Spec.unreadable w [p] q)
               /\ exists more, found = acc ++ more
                               /\ forall f, In f more <-> Spec.wanted accepted w [p] f
           | Stop h => Spec.missing w [p] h
           end) ->
  forall (ps acc : list string) (w : World),
    exists r t,
      Proc.forOf addPath ps acc w = (r, w, t)
      /\ Spec.attempts t = [] /\ Spec.answers t = []
      /\ match r with
         | Ret found =>
             (forall q, ~ Spec.unreadable w ps q)
             /\ exists more, found = acc ++ more
                             /\ forall f, In f more <-> Spec.wanted accepted w ps f
         | Stop h => Spec.missing w ps h
         end.
Proof.
  intros Hstep. induction ps as [|p ps IH]; intros acc w.
  - exists (Ret acc), []. repeat split; [apply unreadable_nil |].
    exists []. rewrite app_nil_r.
    split; [reflexivity |]. intros f. split; [intros [] | apply wanted_nil].
  - rewrite forOf_cons.
    destruct (Hstep acc p w) as (r1 & t1 & -> & A1 & B1 & R1).
    destruct r1 as [found1 | h].
    2: { exists (Stop h), t1. repeat split; try assumption.
         destruct R1 as (q & -> & Hq). exists q. split; [reflexivity |].
         apply unreadable_cons. now left. }
    destruct R1 as (Hread1 & more1 & -> & W1).
    destruct (IH (acc ++ more1) w) as (r2 & t2 & -> & A2 & B2 & R2).
    exists r2, (t1 ++ t2). split; [reflexivity |].
    rewrite attempts_app, answers_app, A1, A2, B1, B2. repeat split.
    destruct r2 as [found2 | h].
    + destruct R2 as (Hread2 & more2 & -> & W2). split.
      * intros q Hq. apply unreadable_cons in Hq. destruct Hq as [Hq | Hq];
          [now apply (Hread1 q) | now apply (Hread2 q)].
      * exists (more1 ++ more2).
        rewrite app_assoc. split; [reflexivity |]. intros f.
        rewrite in_app_iff, wanted_cons, W1, W2. reflexivity.
    + destruct R2 as (q & -> & Hq). exists q. split; [reflexivity |].
      apply unreadable_cons. now right.
Qed.

Lemma console_untouched (H : Halt -> Prop) (line : Line) (color : string) :
  Chalk.recognised color = true ->
  Spec.keeps Spec.untouched H (Proc.console line color).
Proof. intros Hc w. rewrite console_recognised by assumption. now repeat split. Qed.

Lemma convert_listing_untouched (found : list string) :
  Spec.keeps Spec.untouched Spec.never (Proc.forOf Convert.listFile found tt).
Proof.
  apply (keeps_forOf _ _ untouched_refl untouched_trans). intros s x.
  now apply console_untouched.
Qed.

Lemma cli_listing_untouched (total : nat) (found : list string) (index : nat) :
  Spec.keeps Spec.untouched Spec.never (Proc.forOf (Cli.listFile total) found index).
Proof.
  apply (keeps_forOf _ _ untouched_refl untouched_trans). intros s x.
  apply (keeps_bind _ _ untouched_trans); [now apply console_untouched |].
  intros _. apply (keeps_ret _ _ untouched_refl).
Qed.

Lemma convert_discovery_any (inputPaths : list string) (w : World) :
  exists r t,
    Convert.getMediaFiles inputPaths w = (r, w, t)
    /\ Spec.attempts t = [] /\ Spec.answers t = []
    /\ match r with
       | Ret found =>
           (forall p, ~ Spec.unreadable w inputPaths p)
           /\ forall f, In f found <-> Spec.wanted Convert.accepted w inputPaths f
       | Stop h => Spec.missing w inputPaths h
       end.
Proof.
  unfold Convert.getMediaFiles, Proc.bind at 1.
  destruct (paths_any Convert.accepted Convert.addPath convert_addPath_any inputPaths [] w)
    as (r & t & -> & A & B & R).
  destruct r as [found | h]; [| exists (Stop h), t; auto].
  destruct R as (Hread & more & -> & W). cbn [app].
  unfold Proc.bind, Convert.log. run_console.
  pose proof (convert_listing_untouched more w) as Hl.
  destruct (Proc.forOf Convert.listFile more tt w) as [[[[] | h] w2] t2].
  - destruct Hl as (-> & A2 & B2). cbn [Proc.ret].
    do 2 eexists. split; [reflexivity |].
    rewrite !attempts_app, !answers_app, A, B, A2, B2.
    split; [reflexivity |]. split; [reflexivity |]. split; [exact Hread | exact W].
  - destruct Hl as [_ []].
Qed.

(** X2.  Discovery in the non-interactive driver, for any input paths and
    any file system.  It changes nothing, reads no line and runs no engine.
    It returns when every input path and every entry listed in an input
    path can be read, and then the files returned are exactly the wanted
    ones: the regular files with an extension of the table that are either
    an input path that is not a directory or a direct entry of an input
    path that is one.  Otherwise it ends with the error of the file system,
    whatever its code, for a path that cannot be read: the error of [stat]
    for a path that cannot be inspected, that of [scandir] for a directory
    that cannot be listed. *)
Theorem getMediaFiles_finds_the_wanted_files :
  forall (inputPaths : list string) (w : World),
    exists r t,
      Convert.getMediaFiles inputPaths w = (r, w, t)
      /\ Spec.attempts t = [] /\ Spec.answers t = []
      /\ match r with
         | Ret found =>
             (forall p, ~ Spec.unreadable w inputPaths p)
             /\ forall f, In f found <-> Spec.wanted Convert.accepted w inputPaths f
         | Stop h => Spec.missing w inputPaths h
         end.
Proof. exact convert_discovery_any. Qed.

Lemma cli_discovery_any (inputPaths : list string) (w : World) :
  exists r t,
    Cli.getVideoFiles inputPaths w = (r, w, t)
    /\ Spec.attempts t = [] /\ Spec.answers t = []
    /\ match r with
       | Ret found =>
           (forall p, ~ Spec.unreadable w inputPaths p)
           /\ forall f, In f found <-> Spec.wanted Cli.accepted w inputPaths f
       | Stop h => Spec.missing w inputPaths h
       end.
Proof.
  unfold Cli.getVideoFiles, Proc.bind at 1.
  destruct (paths_any Cli.accepted Cli.addPath cli_addPath_any inputPaths [] w)
    as (r & t & -> & A & B & R).
  destruct r as [found | h]; [| exists (Stop h), t; auto].
  destruct R as (Hread & more & -> & W). cbn [app].
  unfold Proc.bind, Cli.logWithTimestamp. run_console.
  pose proof (cli_listing_untouched (List.length more) more 0 w) as Hl.
  destruct (Proc.forOf (Cli.listFile (List.length more)) more 0 w) as [[[n | h] w2] t2].
  - destruct Hl as (-> & A2 & B2). cbn [Proc.ret].
    do 2 eexists. split; [reflexivity |].
    rewrite !attempts_app, !answers_app, A, B, A2, B2.
    split; [reflexivity |]. split; [reflexivity |]. split; [exact Hread | exact W].
  - destruct Hl as [_ []].
Qed.

(** X3.  Discovery in the interactive driver, for any input paths and any
    file system: as in the other driver, with the one extension [.mp4], and
    with the same errors of the file system, whatever their codes. *)
Theorem getVideoFiles_finds_the_wanted_files :
  forall (inputPaths : list string) (w : World),
    exists r t,
      Cli.getVideoFiles inputPaths w = (r, w, t)
      /\ Spec.attempts t = [] /\ Spec.answers t = []
      /\ match r with
         | Ret found =>
             (forall p, ~ Spec.unreadable w inputPaths p)
             /\ forall f, In f found <-> Spec.wanted Cli.accepted w inputPaths f
         | Stop h => Spec.missing w inputPaths h
         end.
Proof. exact cli_discovery_any. Qed.


(** ** The arguments of the command line *)

Lemma isDirectoryArgument_run (arg : string) (w : World) :
  Cli.isDirectoryArgument arg w = (Ret (Spec.isFolder w arg), w, []).
Proof.
  unfold Cli.isDirectoryArgument, Spec.isFolder, Proc.bind, Proc.existsSync,
    Proc.statSync, Proc.ret.
  destruct (files w arg) eqn:E; cbn; rewrite ?E; reflexivity.
Qed.

Lemma parseArguments_from (args : list string) (w : World) :
  forall acc,
    Proc.forOf (fun inputPaths arg =>
      keep <- Cli.isDirectoryArgument arg ;;
      Proc.ret (if keep then inputPaths ++ [arg] else inputPaths)) args acc w
    = (Ret (acc ++ filter (Spec.isFolder w) args), w, []).
Proof.
  induction args as [|a args IH]; intros acc.
  - cbn. now rewrite app_nil_r.
  - rewrite forOf_cons. unfold Proc.bind at 1. rewrite isDirectoryArgument_run.
    cbn [Proc.ret filter]. destruct (Spec.isFolder w a); rewrite IH; cbn [app].
    + now rewrite <- app_assoc.
    + reflexivity.
Qed.

(** X4.  [parseArguments] returns the arguments that are existing
    directories, in their order, and it does nothing else; an argument at
    which there is nothing, or a file, is dropped without a word. *)
Theorem parseArguments_keeps_the_directories :
  forall (args : list string) (w : World),
    Cli.parseArguments args w = (Ret (filter (Spec.isFolder w) args), w, []).
Proof.
  intros args w. unfold Cli.parseArguments. now rewrite parseArguments_from.
Qed.

Lemma mixedFolder_consistent : Spec.consistent Spec.mixedFolder.
Proof.
  intros d. unfold Spec.isFolder, Spec.mixedFolder, Spec.fileSystem, Spec.directory.
  cbn [files listing find fst snd].
  destruct (String.eqb_spec "vids" d) as [<- | _].
  - intros _. eexists. split; [reflexivity |].
    repeat constructor; vm_compute; discriminate.
  - repeat match goal with
           | |- context [String.eqb ?a d] => destruct (String.eqb a d)
           end; discriminate.
Qed.

(** Discovery on the arguments that are directories. *)
Lemma cli_discovery_of_directories (args : list string) (w : World) :
  Spec.consistent w ->
  exists found t,
    Cli.getVideoFiles (filter (Spec.isFolder w) args) w = (Ret found, w, t)
    /\ Spec.attempts t = [] /\ Spec.answers t = []
    /\ forall f,
         In f found <->
         exists d names n,
           In d args /\ Spec.isFolder w d = true /\ listing w d = Some names
           /\ In n names /\ f = Path.join d n
           /\ Spec.regular w f = true /\ Cli.accepted f = true.
Proof.
  intros Hok.
  destruct (cli_discovery_any (filter (Spec.isFolder w) args) w)
    as (r & t & -> & A & B & R).
  destruct r as [found | h].
  - destruct R as [_ W]. exists found, t. repeat split; try assumption.
    + intros Hf. apply W in Hf.
      destruct Hf as (Hr & Ha & [[Hin Hf] | (d & names & n & Hd & Hf & Hl & Hn & ->)]).
      * apply filter_In in Hin. destruct Hin as [_ Hin]. congruence.
      * apply filter_In in Hd. destruct Hd as [Hd _].
        exists d, names, n. repeat split; assumption.
    + intros (d & names & n & Hd & Hf & Hl & Hn & -> & Hr & Ha). apply W.
      split; [exact Hr |]. split; [exact Ha |]. right. exists d, names, n.
      repeat split; try assumption. apply filter_In. now split.
  - exfalso. destruct R as (p & _ & [[Hin [Hn | [Hf Hl]]]
                                    | (d & names & n & Hd & Hf & Hl & Hn & -> & Hq)]).
    + apply filter_In in Hin. destruct Hin as [_ Hin].
      unfold Spec.isFolder in Hin. rewrite Hn in Hin. discriminate.
    + destruct (Hok p Hf) as (names & Hl' & _). congruence.
    + destruct (Hok d Hf) as (names' & Hl' & Hall).
      rewrite Hl in Hl'. injection Hl' as <-.
      rewrite Forall_forall in Hall. now apply (Hall n).
Qed.

(** X5.  Discovery in the interactive driver as the main function calls it,
    on the result of [parseArguments]: on a file system on which every
    directory can be listed and every entry listed can be inspected, it
    never fails, whatever the arguments; and the files found are exactly
    the regular [.mp4] entries of the arguments that are directories.  A
    video file given as an argument is not among them. *)
Theorem cli_discovery_of_the_arguments :
  forall (args : list string) (w : World),
    Spec.consistent w ->
    exists found t,
      (inputPaths <- Cli.parseArguments args ;; Cli.getVideoFiles inputPaths) w
      = (Ret found, w, t)
      /\ Spec.attempts t = [] /\ Spec.answers t = []
      /\ forall f,
           In f found <->
           exists d names n,
             In d args /\ Spec.isFolder w d = true /\ listing w d = Some names
             /\ In n names /\ f = Path.join d n
             /\ Spec.regular w f = true /\ Cli.accepted f = true.
Proof.
  intros args w Hok. unfold Proc.bind, Cli.parseArguments.
  rewrite parseArguments_from. cbn [app].
  destruct (cli_discovery_of_directories args w Hok) as (found & t & -> & H).
  exists found, t. split; [reflexivity | exact H].
Qed.

Lemma cli_discovery_of_the_arguments_witness :
  exists found t,
    (inputPaths <- Cli.parseArguments ["vids"; "vids/a.mp4"; "nowhere"]%string ;;
     Cli.getVideoFiles inputPaths) Spec.mixedFolder
    = (Ret found, Spec.mixedFolder, t)
    /\ Spec.attempts t = [] /\ Spec.answers t = []
    /\ forall f,
         In f found <->
         exists d names n,
           In d ["vids"; "vids/a.mp4"; "nowhere"]%string
           /\ Spec.isFolder Spec.mixedFolder d = true
           /\ listing Spec.mixedFolder d = Some names
           /\ In n names /\ f = Path.join d n
           /\ Spec.regular Spec.mixedFolder f = true /\ Cli.accepted f = true.
Proof.
  apply (cli_discovery_of_the_arguments ["vids"; "vids/a.mp4"; "nowhere"]%string
           Spec.mixedFolder).
  exact mixedFolder_consistent.
Defined.

(** ** The interactive loop, from any world *)

Lemma answered_grows (w : World) (rest : list string) : Spec.grows w (Spec.answered w rest).
Proof. now repeat split. Qed.

Lemma errorAt_same (w w' : World) (p : string) :
  files w p = None -> files w' p = None -> errno w' = errno w ->
  Spec.errorAt w' p = Spec.errorAt w p.
Proof. unfold Spec.errorAt, Spec.failing. now intros -> -> ->. Qed.

Lemma errorAt_absent (w : World) (p : string) :
  files w p = None -> Spec.errorAt w p = SystemError (errno w stat p) stat p.
Proof. unfold Spec.errorAt, Spec.failing. now intros ->. Qed.

Lemma absent_before (w w' : World) (p : string) :
  Spec.grows w w' -> files w' p = None -> files w p = None.
Proof.
  intros (G & _) H. destruct (files w p) eqn:E; [| reflexivity].
  exfalso. apply (G p); [rewrite E; discriminate | exact H].
Qed.

Lemma displayFails_later (w w1 : World) (e : Exn) :
  (exists used, engine w = used ++ engine w1) ->
  isTTY w1 = isTTY w ->
  Spec.displayFails w1 e -> Spec.displayFails w e.
Proof.
  intros [used U] T (He & run & Hin & Hn). split; [exact He |].
  exists run. split; [rewrite U; apply in_or_app; now right |].
  intros H. apply Hn. revert H. now apply showable_same.
Qed.

(** The [try] statement of the interactive loop, whatever the world. *)
Lemma cli_tryConvert_any (total : nat) (format scale fps : string) (v : Cli.Vars)
  (file out : string) (w : World) :
  exists r w1 t,
    Cli.tryConvert total format scale fps v file out w = (r, w1, t)
    /\ Spec.grows w w1 /\ listing w1 = listing w /\ stdin w1 = stdin w
    /\ Spec.answers t = []
    /\ Spec.attempts t = [(file, out)]
    /\ (exists used, engine w = used ++ engine w1)
    /\ match r with
       | Ret v' =>
           Cli.completedFiles v' = Cli.completedFiles v + Spec.successes t
           /\ Cli.overwriteAll v' = Cli.overwriteAll v
           /\ Cli.skipAll v' = Cli.skipAll v
       | Stop h =>
           (h = Waiting /\ engine w1 = [])
           \/ (h = Uncaught (Spec.errorAt w file) /\ files w file = None)
           \/ (exists e, h = Uncaught e /\ Spec.displayFails w e)
       end.
Proof.
  destruct (engine w) as [|run es] eqn:He.
  - rewrite cli_tryConvert_waits by assumption.
    do 3 eexists. split; [reflexivity |]. split; [apply grows_refl |].
    repeat split. { now exists []. } now left.
  - assert (U : forall out' ev, exists used,
                  run :: es = used ++ engine (Spec.afterRun w out' ev es)).
    { intros out' ev. now exists [run]. }
    destruct (showable_dec w run) as [Hd | Hd].
    + destruct (ending run) as [sz | msg p] eqn:Hev.
      * destruct (Proc.written out (End sz) (files w) file) as [src |] eqn:Hsrc.
        -- rewrite (cli_tryConvert_ended _ _ _ _ _ _ _ _ _ _ _ _ He Hev Hd Hsrc).
           do 3 eexists. split; [reflexivity |]. split; [apply grows_afterRun |].
           split; [reflexivity |]. split; [reflexivity |].
           split; [count_run |]. split; [count_run |]. split; [apply U |]. count_run.
        -- rewrite (cli_tryConvert_gone _ _ _ _ _ _ _ _ _ _ _ He Hev Hd Hsrc).
           assert (Hf : files w file = None).
           { destruct (files w file) eqn:Hf; [| reflexivity].
             exfalso. apply (written_grows out (End sz) (files w) file); [| exact Hsrc].
             rewrite Hf. discriminate. }
           do 3 eexists. split; [reflexivity |]. split; [apply grows_afterRun |].
           split; [reflexivity |]. split; [reflexivity |].
           split; [count_run |]. split; [count_run |]. split; [apply U |].
           right; left. split; [now rewrite errorAt_absent | exact Hf].
      * rewrite (cli_tryConvert_error _ _ _ _ _ _ _ _ _ _ _ _ He Hev Hd).
        do 3 eexists. split; [reflexivity |]. split; [apply grows_afterRun |].
        split; [reflexivity |]. split; [reflexivity |].
        split; [count_run |]. split; [count_run |]. split; [apply U |]. count_run.
    + destruct (cli_tryConvert_aborts total format scale fps v file out w run es He Hd)
        as (e & t & -> & Hcase & Ha & _ & Hq & _).
      do 3 eexists. split; [reflexivity |]. split; [apply grows_running |].
      split; [reflexivity |]. split; [reflexivity |].
      split; [exact Hq |]. split; [exact Ha |]. split; [now exists [run] |].
      right; right. exists e. split; [reflexivity |]. split; [exact Hcase |].
      exists run. split; [rewrite He; apply in_eq | exact Hd].
Qed.

Lemma promptUserConfirmation_answers (out : string) (w : World) (answer : string)
  (rest : list string) :
  stdin w = answer :: rest ->
  exists t,
    Cli.promptUserConfirmation (Cli.overwriteMessage out) w
    = (Ret (Js.trim answer), Spec.answered w rest, t)
    /\ Spec.attempts t = [] /\ Spec.successes t = 0 /\ Spec.answers t = [answer].
Proof.
  intros Hin.
  unfold Cli.promptUserConfirmation, Cli.overwriteMessage, Cli.logWithTimestamp,
    Proc.bind, Proc.question.
  cbn [Proc.forOf]. unfold Proc.bind, Proc.ret. run_console. rewrite Hin.
  destruct (Js.trim answer =? "1")%string; [run_console; eexists; tally |].
  destruct (Js.trim answer =? "2")%string; [run_console; eexists; tally |].
  destruct (Js.trim answer =? "3")%string; [run_console; eexists; tally |].
  destruct (Js.trim answer =? "4")%string; [run_console; eexists; tally |].
  destruct (Js.trim answer =? "0")%string; run_console; eexists; tally.
Qed.

Lemma cli_convertFile_waits (total : nat) (folder format scale fps : string)
  (v : Cli.Vars) (file : string) (w : World) :
  files w (Cli.outputFile folder format file) <> None ->
  Cli.overwriteAll v = false ->
  Cli.skipAll v = false ->
  stdin w = [] ->
  exists t,
    Cli.convertFile total folder format scale fps v file w = (Stop Waiting, w, t)
    /\ Spec.attempts t = [] /\ Spec.answers t = [].
Proof.
  intros Hp Ho Hs Hin.
  unfold Cli.convertFile, Proc.bind at 1 2, Proc.existsSync.
  destruct (files w (Cli.outputFile folder format file)); [| contradiction].
  rewrite Ho, Hs. cbn [andb negb].
  unfold Cli.overwriteDecision, Proc.bind at 1.
  unfold Cli.promptUserConfirmation, Cli.overwriteMessage, Cli.logWithTimestamp,
    Proc.bind, Proc.question.
  cbn [Proc.forOf]. unfold Proc.bind, Proc.ret. run_console. rewrite Hin.
  eexists. tally.
Qed.

(** What the prompt adds to the trace of the body. *)
Lemma cli_convertFile_asked (total : nat) (folder format scale fps : string)
  (v : Cli.Vars) (file : string) (w : World) (answer : string) (rest : list string) :
  let out := Cli.outputFile folder format file in
  files w out <> None ->
  Cli.overwriteAll v = false ->
  Cli.skipAll v = false ->
  stdin w = answer :: rest ->
  exists t0,
    (Spec.attempts t0 = [] /\ Spec.successes t0 = 0 /\ Spec.answers t0 = [answer])
    /\ Cli.convertFile total folder format scale fps v file w
       = if (Js.trim answer =? "0")%string then
           (Stop (Exit 1), Spec.answered w rest,
            t0 ++ [Console "redBright" (Text "Process canceled by user.")])
         else if (Js.trim answer =? "2")%string then
           let '(r, w2, t2) :=
             Cli.tryConvert total format scale fps
               (Cli.mkVars (Cli.completedFiles v) true (Cli.skipAll v)) file out
               (Spec.answered w rest) in
           (r, w2, t0 ++ t2)
         else if (Js.trim answer =? "4")%string then
           (Ret (Cli.mkVars (Cli.completedFiles v) (Cli.overwriteAll v) true),
            Spec.answered w rest, t0)
         else if (Js.trim answer =? "3")%string then
           (Ret v, Spec.answered w rest,
            t0 ++ [Console "yellowBright" (Skipping (Path.basename out ""))])
         else
           let '(r, w2, t2) :=
             Cli.tryConvert total format scale fps v file out (Spec.answered w rest) in
           (r, w2, t0 ++ t2).
Proof.
  intros out Hp Ho Hs Hin.
  destruct (promptUserConfirmation_answers out w answer rest Hin) as (t0 & Hrun & Hq).
  exists t0. split; [exact Hq |].
  unfold Cli.convertFile, Proc.bind at 1 2, Proc.existsSync. fold out.
  destruct (files w out); [| contradiction].
  rewrite Ho, Hs. cbn [andb negb].
  unfold Cli.overwriteDecision, Proc.bind at 1. rewrite Hrun.
  destruct (Js.trim answer =? "0")%string.
  { unfold Proc.bind, Cli.logWithTimestamp, Proc.exit, Proc.stop. run_console.
    cbn. now rewrite ?app_nil_r. }
  destruct (Js.trim answer =? "2")%string.
  { cbn. rewrite Hs. destruct (Cli.tryConvert _ _ _ _ _ _ _ _) as [[r w2] t2].
    now rewrite ?app_nil_r. }
  destruct (Js.trim answer =? "4")%string.
  { cbn. now rewrite ?app_nil_r, ?Ho. }
  destruct (Js.trim answer =? "3")%string.
  { unfold Proc.bind, Cli.logWithTimestamp. run_console. cbn.
    now rewrite ?app_nil_r. }
  cbn. rewrite Hs. destruct (Cli.tryConvert _ _ _ _ _ _ _ _) as [[r w2] t2].
  now rewrite ?app_nil_r.
Qed.

(** One file of the interactive loop, whatever the world and the
    variables. *)
Lemma cli_convertFile_any (total : nat) (folder format scale fps : string)
  (v : Cli.Vars) (file : string) (w : World) :
  let out := Cli.outputFile folder format file in
  exists r w1 t,
    Cli.convertFile total folder format scale fps v file w = (r, w1, t)
    /\ Spec.grows w w1
    /\ (exists used, engine w = used ++ engine w1)
    /\ listing w1 = listing w
    /\ stdin w = Spec.answers t ++ stdin w1
    /\ (Spec.attempts t = [] \/ Spec.attempts t = [(file, out)])
    /\ List.length (Spec.answers t) <= 1
    /\ (Cli.overwriteAll v = true \/ Cli.skipAll v = true -> Spec.answers t = [])
    /\ (Spec.answers t = [] -> Cli.overwriteAll v = false ->
        Spec.attempts t <> [] -> files w out = None)
    /\ match r with
       | Ret v' =>
           Cli.completedFiles v' = Cli.completedFiles v + Spec.successes t
           /\ (Cli.overwriteAll v = true -> Cli.overwriteAll v' = true)
           /\ (Cli.skipAll v = true -> Cli.skipAll v' = true)
           /\ (Spec.oneFlagAtMost v -> Spec.oneFlagAtMost v')
           /\ (Spec.answers t = [] ->
               Cli.overwriteAll v' = Cli.overwriteAll v
               /\ Cli.skipAll v' = Cli.skipAll v)
       | Stop Waiting => stdin w1 = [] \/ engine w1 = []
       | Stop (Exit code) => code = 1 /\ Spec.attempts t = []
       | Stop (Uncaught e) =>
           (e = Spec.errorAt w file /\ files w file = None) \/ Spec.displayFails w e
       | Stop NotFollowed => False
       end.
Proof.
  intros out.
  assert (Htry : forall v0 w0 t0,
    Spec.grows w w0 -> engine w0 = engine w -> listing w0 = listing w ->
    stdin w = Spec.answers t0 ++ stdin w0 ->
    List.length (Spec.answers t0) <= 1 ->
    Spec.attempts t0 = [] -> Spec.successes t0 = 0 ->
    Cli.completedFiles v0 = Cli.completedFiles v ->
    (Cli.overwriteAll v = true -> Cli.overwriteAll v0 = true) ->
    Cli.skipAll v0 = Cli.skipAll v ->
    (Spec.answers t0 = [] -> Cli.overwriteAll v0 = Cli.overwriteAll v) ->
    (Cli.overwriteAll v = true \/ Cli.skipAll v = true -> Spec.answers t0 = []) ->
    (Spec.answers t0 = [] -> Cli.overwriteAll v = false -> files w out = None) ->
    (Spec.oneFlagAtMost v -> Spec.oneFlagAtMost v0) ->
    exists r w1 t,
      (let '(r, w2, t2) := Cli.tryConvert total format scale fps v0 file out w0 in
       (r, w2, t0 ++ t2)) = (r, w1, t)
      /\ Spec.grows w w1
      /\ (exists used, engine w = used ++ engine w1)
      /\ listing w1 = listing w
      /\ stdin w = Spec.answers t ++ stdin w1
      /\ (Spec.attempts t = [] \/ Spec.attempts t = [(file, out)])
      /\ List.length (Spec.answers t) <= 1
      /\ (Cli.overwriteAll v = true \/ Cli.skipAll v = true -> Spec.answers t = [])
      /\ (Spec.answers t = [] -> Cli.overwriteAll v = false ->
          Spec.attempts t <> [] -> files w out = None)
      /\ match r with
         | Ret v' =>
             Cli.completedFiles v' = Cli.completedFiles v + Spec.successes t
             /\ (Cli.overwriteAll v = true -> Cli.overwriteAll v' = true)
             /\ (Cli.skipAll v = true -> Cli.skipAll v' = true)
             /\ (Spec.oneFlagAtMost v -> Spec.oneFlagAtMost v')
             /\ (Spec.answers t = [] ->
                 Cli.overwriteAll v' = Cli.overwriteAll v
                 /\ Cli.skipAll v' = Cli.skipAll v)
         | Stop Waiting => stdin w1 = [] \/ engine w1 = []
         | Stop (Exit code) => code = 1 /\ Spec.attempts t = []
         | Stop (Uncaught e) =>
             (e = Spec.errorAt w file /\ files w file = None) \/ Spec.displayFails w e
         | Stop NotFollowed => False
         end).
  { intros v0 w0 t0 G0 E0 L0 S0 Len0 A0 N0 C0 O0 K0 OA0 F0 P0 U0.
    destruct (cli_tryConvert_any total format scale fps v0 file out w0)
      as (r & w1 & t & -> & G & L & S & B & A & U & R).
    exists r, w1, (t0 ++ t). split; [reflexivity |].
    rewrite attempts_app, answers_app, successes_app, A0, A, B, N0, app_nil_r.
    cbn [app Nat.add].
    split; [now apply (grows_trans w w0 w1) |].
    split; [now rewrite <- E0 |].
    split; [congruence |]. split; [congruence |].
    split; [now right |].
    split; [exact Len0 |]. split; [exact F0 |]. split; [intros E Ho _; now apply P0 |].
    destruct r as [v' | h].
    - destruct R as (Hc & Ho & Hs). repeat split.
      + congruence.
      + intros E. rewrite Ho. now apply O0.
      + intros E. congruence.
      + intros E. destruct (U0 E) as [E1 | E1]; [left | right]; congruence.
      + rewrite Ho. now apply OA0.
      + congruence.
    - destruct R as [(-> & He) | [(-> & Hf) | (e & -> & Hdf)]].
      + now right.
      + left. assert (Hw : files w file = None) by now apply (absent_before w w0).
        split; [| exact Hw].
        apply errorAt_same; [exact Hw | exact Hf | apply G0].
      + right. apply (displayFails_later w w0);
          [exists []; now rewrite E0 | apply G0 | exact Hdf]. }
  destruct (Cli.skipAll v) eqn:Hs.
  { rewrite cli_convertFile_skipAll by assumption.
    exists (Ret v), w, []. split; [reflexivity |].
    split; [apply grows_refl |]. split; [now exists [] |].
    repeat split; auto; try discriminate.
    intros _ _ []. reflexivity. }
  destruct (Cli.overwriteAll v) eqn:Ho.
  { rewrite cli_convertFile_direct by auto. fold out.
    destruct (Htry v w []) as (r & w1 & t & E & H); auto using grows_refl;
      try discriminate.
    destruct (Cli.tryConvert total format scale fps v file out w) as [[r' w'] t'].
    cbn [app] in E. rewrite E. exists r, w1, t. split; [reflexivity | exact H]. }
  destruct (files w out) eqn:Hp.
  2: { rewrite cli_convertFile_direct by auto. fold out.
       destruct (Htry v w []) as (r & w1 & t & E & H); auto using grows_refl;
         try discriminate.
       destruct (Cli.tryConvert total format scale fps v file out w) as [[r' w'] t'].
       cbn [app] in E. rewrite E. exists r, w1, t. split; [reflexivity | exact H]. }
  assert (Hp' : files w out <> None) by (rewrite Hp; discriminate).
  destruct (stdin w) as [|answer rest] eqn:Hin.
  { destruct (cli_convertFile_waits total folder format scale fps v file w Hp' Ho Hs Hin)
      as (t & -> & A & B).
    exists (Stop Waiting), w, t. split; [reflexivity |].
    split; [apply grows_refl |]. split; [now exists [] |].
    rewrite A, B, Hin. repeat split; auto.
    intros _ _ []. reflexivity. }
  destruct (cli_convertFile_asked total folder format scale fps v file w answer rest
              Hp' Ho Hs Hin) as (t0 & (A0 & N0 & B0) & ->). fold out.
  assert (Hnot : Spec.answers t0 <> []) by (rewrite B0; discriminate).
  destruct (Js.trim answer =? "0")%string.
  { do 3 eexists. split; [reflexivity |].
    split; [apply answered_grows |]. split; [now exists [] |].
    rewrite attempts_app, answers_app, A0, B0. cbn.
    repeat split; auto; try discriminate; intros [E | E]; discriminate. }
  destruct (Js.trim answer =? "2")%string.
  { apply Htry; cbn; rewrite ?B0; auto using answered_grows; try discriminate.
    - intros [E | E]; discriminate.
    - intros _. now right. }
  destruct (Js.trim answer =? "4")%string.
  { do 3 eexists. split; [reflexivity |].
    split; [apply answered_grows |]. split; [now exists [] |].
    rewrite A0, B0, N0. cbn.
    repeat split; auto; try discriminate; try (intros [E | E]; discriminate).
    intros _. left. exact Ho. }
  destruct (Js.trim answer =? "3")%string.
  { do 3 eexists. split; [reflexivity |].
    split; [apply answered_grows |]. split; [now exists [] |].
    rewrite attempts_app, answers_app, successes_app, A0, B0, N0. cbn.
    repeat split; auto; try discriminate; intros [E | E]; discriminate. }
  apply Htry; cbn; rewrite ?B0; auto using answered_grows; try discriminate.
  intros [E | E]; discriminate.
Qed.

Lemma used_trans (w w1 w2 : World) :
  (exists used, engine w = used ++ engine w1) ->
  (exists used, engine w1 = used ++ engine w2) ->
  exists used, engine w = used ++ engine w2.
Proof. intros [u1 ->] [u2 ->]. exists (u1 ++ u2). now rewrite app_assoc. Qed.

Lemma cli_loop_any (total : nat) (folder format scale fps : string)
  (videoFiles : list string) :
  forall (v : Cli.Vars) (w : World),
    exists r w' t,
      Proc.forOf (Cli.convertFile total folder format scale fps) videoFiles v w
      = (r, w', t)
      /\ Spec.grows w w'
      /\ (exists used, engine w = used ++ engine w')
      /\ listing w' = listing w
      /\ stdin w = Spec.answers t ++ stdin w'
      /\ Spec.subsequence (map fst (Spec.attempts t)) videoFiles
      /\ Forall (fun io => snd io = Cli.outputFile folder format (fst io))
           (Spec.attempts t)
      /\ List.length (Spec.answers t) <= List.length videoFiles
      /\ (Cli.overwriteAll v = true \/ Cli.skipAll v = true -> Spec.answers t = [])
      /\ (Spec.answers t = [] -> Cli.overwriteAll v = false ->
          Forall (fun io => files w (snd io) = None) (Spec.attempts t))
      /\ match r with
         | Ret v' =>
             Cli.completedFiles v' = Cli.completedFiles v + Spec.successes t
             /\ (Cli.overwriteAll v = true -> Cli.overwriteAll v' = true)
             /\ (Cli.skipAll v = true -> Cli.skipAll v' = true)
             /\ (Spec.oneFlagAtMost v -> Spec.oneFlagAtMost v')
         | Stop Waiting => stdin w' = [] \/ engine w' = []
         | Stop (Exit code) => code = 1
         | Stop (Uncaught e) =>
             (exists f, In f videoFiles /\ e = Spec.errorAt w f /\ files w f = None)
             \/ Spec.displayFails w e
         | Stop NotFollowed => False
         end.
Proof.
  induction videoFiles as [|file rest IH]; intros v w.
  - exists (Ret v), w, []. split; [reflexivity |].
    split; [apply grows_refl |]. split; [now exists [] |]. cbn.
    repeat split; auto; try constructor.
  - rewrite forOf_cons.
    destruct (cli_convertFile_any total folder format scale fps v file w)
      as (r1 & w1 & t1 & -> & G1 & E1 & L1 & S1 & A1 & Len1 & F1 & P1 & R1).
    destruct r1 as [v1 | h].
    + destruct R1 as (C1 & O1 & K1 & U1 & Same1).
      destruct (IH v1 w1) as (r2 & w2 & t2 & -> & G2 & E2 & L2 & S2 & Sub2 & Out2 & Len2
                               & F2 & P2 & R2).
      exists r2, w2, (t1 ++ t2). split; [reflexivity |].
      rewrite attempts_app, answers_app, successes_app, map_app, length_app.
      split; [now apply (grows_trans w w1 w2) |].
      split; [now apply (used_trans w w1 w2) |].
      split; [congruence |].
      split; [rewrite <- app_assoc; congruence |].
      split; [destruct A1 as [-> | ->]; cbn [map fst app]; now constructor |].
      split; [apply Forall_app; split; [| exact Out2];
              destruct A1 as [-> | ->]; repeat constructor |].
      split; [cbn [List.length]; lia |].
      split.
      { intros Hflag. rewrite (F1 Hflag). cbn [app]. apply F2.
        destruct Hflag as [E | E]; [left; now apply O1 | right; now apply K1]. }
      split.
      { intros Hnone Ho. apply app_eq_nil in Hnone. destruct Hnone as [B1 B2].
        destruct (Same1 B1) as [Ho1 _]. apply Forall_app. split.
        - destruct A1 as [-> | E]; [constructor |]. rewrite E.
          constructor; [| constructor]. cbn [snd]. apply P1; try assumption.
          rewrite E. discriminate.
        - eapply Forall_impl; [| apply P2; [exact B2 | congruence]].
          intros io Hio. cbn beta in *. now apply (absent_before w w1). }
      destruct r2 as [v2 | [code | e | |]].
      * destruct R2 as (C2 & O2 & K2 & U2). repeat split; auto. lia.
      * exact R2.
      * destruct R2 as [(f & Hin & -> & Hf) | Hdf].
        -- left. exists f. split; [now right |].
           assert (Hw : files w f = None) by now apply (absent_before w w1).
           split; [| exact Hw]. apply errorAt_same; [exact Hw | exact Hf | apply G1].
        -- right. apply (displayFails_later w w1); [exact E1 | apply G1 | exact Hdf].
      * exact R2.
      * exact R2.
    + exists (Stop h), w1, t1. split; [reflexivity |].
      split; [exact G1 |]. split; [exact E1 |]. split; [exact L1 |]. split; [exact S1 |].
      split; [destruct A1 as [-> | ->]; cbn [map fst];
              repeat constructor; apply subsequence_nil |].
      split; [destruct A1 as [-> | ->]; repeat constructor |].
      split; [cbn [List.length]; lia |].
      split; [exact F1 |].
      split.
      { intros B1 Ho. destruct A1 as [-> | E]; [constructor |]. rewrite E.
        constructor; [| constructor]. cbn [snd]. apply P1; try assumption.
        rewrite E. discriminate. }
      destruct h as [code | e | |].
      * apply R1.
      * destruct R1 as [[-> Hf] | Hdf]; [left | now right].
        exists file. cbn [In]. auto.
      * exact R1.
      * exact R1.
Qed.

Lemma cli_convertAll_any (format scale fps : string) (videoFiles : list string)
  (w : World) :
  let folder := Path.dirname (hd EmptyString videoFiles) in
  exists r w' t,
    Cli.convertAll format scale fps videoFiles w = (r, w', t)
    /\ Spec.grows w w'
    /\ (exists used, engine w = used ++ engine w')
    /\ listing w' = listing w
    /\ stdin w = Spec.answers t ++ stdin w'
    /\ Spec.subsequence (map fst (Spec.attempts t)) videoFiles
    /\ Forall (fun io => snd io = Cli.outputFile folder format (fst io))
         (Spec.attempts t)
    /\ List.length (Spec.answers t) <= List.length videoFiles
    /\ (Spec.answers t = [] ->
        Forall (fun io => files w (snd io) = None) (Spec.attempts t))
    /\ match r with
       | Ret v =>
           Cli.completedFiles v = Spec.successes t /\ Spec.oneFlagAtMost v
       | Stop Waiting => stdin w' = [] \/ engine w' = []
       | Stop (Exit code) => code = 1
       | Stop (Uncaught e) =>
           (exists f, In f videoFiles /\ e = Spec.errorAt w f /\ files w f = None)
           \/ Spec.displayFails w e
       | Stop NotFollowed => False
       end.
Proof.
  intros folder. unfold Cli.convertAll, Proc.bind at 1. fold folder.
  destruct (cli_loop_any (List.length videoFiles) folder format scale fps videoFiles
              Cli.start w)
    as (r & w' & t & -> & G & E & L & S & Sub & Out & Len & _ & P & R).
  destruct r as [v | h].
  - unfold Cli.logWithTimestamp, Proc.bind, Proc.ret. run_console.
    do 3 eexists. split; [reflexivity |].
    rewrite attempts_app, answers_app, successes_app, !app_nil_r.
    destruct R as (C & _ & _ & U).
    split; [exact G |]. split; [exact E |].
    repeat split; auto.
    + cbn. simpl in C. lia.
    + apply U. now left.
  - exists (Stop h), w', t. split; [reflexivity |].
    split; [exact G |]. split; [exact E |]. repeat split; auto.
Qed.

(** X6.  The loop of the interactive driver, from any world and over any
    files.  The engine is run for some of the files, in their order and at
    most once each, every run onto the output path of its file in the
    folder of the first file; the lines read from the user are the first
    lines there were to read, at most one for each file.  When the loop
    returns, the counter is the number of runs that ended well and the two
    flags are not set both.  Otherwise it stopped for one of four reasons:
    the process was ended with the exit code 1; the lines of the user or the
    runs of the engine ran out; a file of the list that was not there could
    not be inspected at the end of its run; or the progress reports of a run
    could not be shown, for want of a terminal or of a percentage. *)
Theorem cli_loop_runs_in_order :
  forall (format scale fps : string) (videoFiles : list string) (w : World),
    exists r w' t,
      Cli.convertAll format scale fps videoFiles w = (r, w', t)
      /\ Spec.subsequence (map fst (Spec.attempts t)) videoFiles
      /\ Forall (fun io =>
           snd io = Cli.outputFile (Path.dirname (hd EmptyString videoFiles))
                      format (fst io)) (Spec.attempts t)
      /\ stdin w = Spec.answers t ++ stdin w'
      /\ List.length (Spec.answers t) <= List.length videoFiles
      /\ match r with
         | Ret v =>
             Cli.completedFiles v = Spec.successes t /\ Spec.oneFlagAtMost v
         | Stop Waiting => stdin w' = [] \/ engine w' = []
         | Stop (Exit code) => code = 1
         | Stop (Uncaught e) =>
             (exists f, In f videoFiles /\ e = Spec.errorAt w f /\ files w f = None)
             \/ Spec.displayFails w e
         | Stop NotFollowed => False
         end.
Proof.
  intros format scale fps videoFiles w.
  destruct (cli_convertAll_any format scale fps videoFiles w)
    as (r & w' & t & H & _ & _ & _ & S & Sub & Out & Len & _ & R).
  exists r, w', t. split; [exact H |]. split; [exact Sub |]. split; [exact Out |].
  split; [exact S |]. split; [exact Len | exact R].
Qed.

(** X7.  The interactive loop writes over nothing without the user having a
    say: in a run of the loop in which no line was read from the user, every
    run of the engine was onto a path at which there was nothing when the
    loop began.  And once one of the flags [overwriteAll] and [skipAll] is
    set, the loop reads no line any more. *)
Theorem cli_overwrites_only_after_asking :
  (forall (format scale fps : string) (videoFiles : list string) (w : World)
          (r : Outcome Cli.Vars) (w' : World) (t : list Event),
      Cli.convertAll format scale fps videoFiles w = (r, w', t) ->
      Spec.answers t = [] ->
      Forall (fun io => files w (snd io) = None) (Spec.attempts t))
  /\ (forall (total : nat) (folder format scale fps : string)
             (videoFiles : list string) (v : Cli.Vars) (w : World)
             (r : Outcome Cli.Vars) (w' : World) (t : list Event),
        Cli.overwriteAll v = true \/ Cli.skipAll v = true ->
        Proc.forOf (Cli.convertFile total folder format scale fps) videoFiles v w
        = (r, w', t) ->
        Spec.answers t = [] /\ stdin w' = stdin w).
Proof.
  split.
  - intros format scale fps videoFiles w r w' t Hrun Hnone.
    destruct (cli_convertAll_any format scale fps videoFiles w)
      as (r0 & w0 & t0 & H & _ & _ & _ & _ & _ & _ & _ & P & _).
    rewrite Hrun in H. injection H as <- <- <-. now apply P.
  - intros total folder format scale fps videoFiles v w r w' t Hflag Hrun.
    destruct (cli_loop_any total folder format scale fps videoFiles v w)
      as (r0 & w0 & t0 & H & _ & _ & _ & S & _ & _ & _ & F & _).
    rewrite Hrun in H. injection H as <- <- <-.
    specialize (F Hflag). rewrite F in S. now split.
Qed.

Lemma cli_overwrites_only_after_asking_witness :
  (exists r w' t,
      Cli.convertAll "gif" "auto" "30" ["vids/a.mp4"; "vids/b.mp4"]%string
        (Spec.twoVideos [] [Spec.halfway (End 4096%N)]) = (r, w', t)
      /\ Spec.answers t = []
      /\ Forall (fun io =>
           files (Spec.twoVideos [] [Spec.halfway (End 4096%N)]) (snd io) = None)
           (Spec.attempts t))
  /\ (exists r w' t,
         Proc.forOf (Cli.convertFile 2 "vids" "gif" "auto" "30")
           ["vids/b.mp4"; "vids/c.mp4"]%string (Cli.mkVars 0 true false)
           (Spec.threeVideos "1" [Spec.halfway (End 4096%N)]) = (r, w', t)
         /\ Spec.answers t = [] /\ stdin w' = ["1"%string]).
Proof.
  split.
  - do 3 eexists. split; [vm_compute; reflexivity |]. split; [reflexivity |].
    eapply (proj1 cli_overwrites_only_after_asking "gif" "auto" "30"
              ["vids/a.mp4"; "vids/b.mp4"]
              (Spec.twoVideos [] [Spec.halfway (End 4096%N)]))%string.
    + vm_compute. reflexivity.
    + reflexivity.
  - do 3 eexists. split; [vm_compute; reflexivity |].
    eapply (proj2 cli_overwrites_only_after_asking 2 "vids" "gif" "auto" "30"
              ["vids/b.mp4"; "vids/c.mp4"] (Cli.mkVars 0 true false)
              (Spec.threeVideos "1" [Spec.halfway (End 4096%N)]))%string.
    + left. reflexivity.
    + vm_compute. reflexivity.
Defined.

(** The [try] statement when the engine has a run left whose reports can be
    shown and the input is there, with what it reads. *)
Lemma cli_tryConvert_run (total : nat) (format scale fps : string) (v : Cli.Vars)
  (file out : string) (w : World) (run : Run) (es : list Run) :
  engine w = run :: es ->
  Spec.showable w run ->
  files w file <> None ->
  exists t,
    Cli.tryConvert total format scale fps v file out w
    = (Ret (Cli.mkVars
              (Cli.completedFiles v + match ending run with End _ => 1 | Error _ _ => 0 end)
              (Cli.overwriteAll v) (Cli.skipAll v)),
       Spec.afterRun w out (ending run) es, t)
    /\ Spec.attempts t = [(file, out)]
    /\ Spec.successes t = match ending run with End _ => 1 | Error _ _ => 0 end
    /\ Spec.answers t = [].
Proof.
  intros He Hd Hin.
  destruct (cli_tryConvert_step total format scale fps v file out w run es He Hd Hin)
    as (t & Hrun & A & N & _).
  destruct (cli_tryConvert_any total format scale fps v file out w)
    as (r & w1 & t' & Hany & _ & _ & _ & B & _).
  rewrite Hrun in Hany. injection Hany as _ _ <-.
  exists t. auto.
Qed.

Lemma showable_afterRun (w : World) (out : string) (ev : EngineEvent) (es : list Run)
  (runs : list Run) :
  Forall (Spec.showable w) runs ->
  Forall (Spec.showable (Spec.afterRun w out ev es)) runs.
Proof. apply Forall_impl. intros r. now apply showable_same. Qed.

Lemma showable_answered (w : World) (rest : list string) (runs : list Run) :
  Forall (Spec.showable w) runs ->
  Forall (Spec.showable (Spec.answered w rest)) runs.
Proof. apply Forall_impl. intros r. now apply showable_same. Qed.

Lemma cli_loop_overwriteAll (total : nat) (folder format scale fps : string)
  (videoFiles : list string) :
  forall (v : Cli.Vars) (w : World),
    Cli.overwriteAll v = true ->
    Cli.skipAll v = false ->
    List.length videoFiles <= List.length (engine w) ->
    Forall (Spec.showable w) (engine w) ->
    Forall (fun f => files w f <> None) videoFiles ->
    exists v' w' t,
      Proc.forOf (Cli.convertFile total folder format scale fps) videoFiles v w
      = (Ret v', w', t)
      /\ Spec.attempts t
         = map (fun f => (f, Cli.outputFile folder format f)) videoFiles
      /\ Spec.answers t = [] /\ stdin w' = stdin w
      /\ Cli.overwriteAll v' = true /\ Cli.skipAll v' = false
      /\ Cli.completedFiles v' = Cli.completedFiles v + Spec.successes t.
Proof.
  induction videoFiles as [|file rest IH]; intros v w Ho Hs Hlen Hd Hf.
  - exists v, w, []. tally; assumption.
  - rewrite forOf_cons, cli_convertFile_direct by auto.
    inversion Hf as [|? ? Hfile Hrest]; subst.
    destruct (engine w) as [|run es] eqn:He; [simpl in Hlen; lia |].
    inversion Hd as [|? ? Hshow Hes]; subst.
    destruct (cli_tryConvert_run total format scale fps v file
                (Cli.outputFile folder format file) w run es He Hshow Hfile)
      as (t1 & -> & A1 & N1 & B1).
    destruct (IH (Cli.mkVars
                    (Cli.completedFiles v
                     + match ending run with End _ => 1 | Error _ _ => 0 end)
                    (Cli.overwriteAll v) (Cli.skipAll v))
                 (Spec.afterRun w (Cli.outputFile folder format file) (ending run) es))
      as (v' & w' & t2 & -> & A2 & B2 & S2 & O2 & K2 & C2); try assumption.
    { simpl in Hlen. cbn [Spec.afterRun engine]. lia. }
    { eapply Forall_impl; [| exact Hrest]. intros f. apply written_grows. }
    exists v', w', (t1 ++ t2). split; [reflexivity |].
    rewrite attempts_app, answers_app, successes_app, A1, A2, B1, B2, N1.
    cbn [Cli.completedFiles] in C2. repeat split; auto. lia.
Qed.

(** X8.  Overwrite all.  The output of a file is there, no flag is set, and
    the user answers the prompt with the code 2; the engine has a run for
    this file and for each of the files after it, the progress reports of
    its runs can be shown, and the inputs are there.  Then this file and
    every file after it are converted, each onto its output path whether
    something is there or not, the user is asked nothing more, and the loop
    returns with [overwriteAll] set and the counter grown by the number of
    runs that ended well. *)
Theorem overwrite_all_converts_every_remaining_file :
  forall (total : nat) (folder format scale fps : string) (v : Cli.Vars)
         (file : string) (rest : list string) (w : World)
         (answer : string) (lines : list string),
    files w (Cli.outputFile folder format file) <> None ->
    Cli.overwriteAll v = false ->
    Cli.skipAll v = false ->
    stdin w = answer :: lines ->
    Js.trim answer = "2"%string ->
    List.length (file :: rest) <= List.length (engine w) ->
    Forall (Spec.showable w) (engine w) ->
    Forall (fun f => files w f <> None) (file :: rest) ->
    exists v' w' t,
      Proc.forOf (Cli.convertFile total folder format scale fps) (file :: rest) v w
      = (Ret v', w', t)
      /\ Spec.attempts t
         = map (fun f => (f, Cli.outputFile folder format f)) (file :: rest)
      /\ Spec.answers t = [answer]
      /\ stdin w' = lines
      /\ Cli.overwriteAll v' = true /\ Cli.skipAll v' = false
      /\ Cli.completedFiles v' = Cli.completedFiles v + Spec.successes t.
Proof.
  intros total folder format scale fps v file rest w answer lines
    Hp Ho Hs Hin Ht Hlen Hd Hf.
  rewrite forOf_cons.
  destruct (cli_convertFile_asked total folder format scale fps v file w answer lines
              Hp Ho Hs Hin) as (t0 & (A0 & N0 & B0) & ->).
  rewrite Ht. cbn [String.eqb Ascii.eqb Bool.eqb].
  inversion Hf as [|? ? Hfile Hrest]; subst.
  destruct (engine w) as [|run es] eqn:He; [simpl in Hlen; lia |].
  inversion Hd as [|? ? Hshow Hes]; subst.
  destruct (cli_tryConvert_run total format scale fps
              (Cli.mkVars (Cli.completedFiles v) true (Cli.skipAll v)) file
              (Cli.outputFile folder format file) (Spec.answered w lines) run es)
    as (t1 & -> & A1 & N1 & B1);
    [exact He | now apply (showable_same w) | exact Hfile |].
  cbn [Cli.completedFiles Cli.overwriteAll Cli.skipAll].
  destruct (cli_loop_overwriteAll total folder format scale fps rest
              (Cli.mkVars
                 (Cli.completedFiles v
                  + match ending run with End _ => 1 | Error _ _ => 0 end)
                 true (Cli.skipAll v))
              (Spec.afterRun (Spec.answered w lines)
                 (Cli.outputFile folder format file) (ending run) es))
    as (v' & w' & t2 & -> & A2 & B2 & S2 & O2 & K2 & C2);
    [reflexivity | exact Hs | | | |].
  { simpl in Hlen. cbn [Spec.afterRun engine]. lia. }
  { exact (showable_afterRun _ _ _ es es (showable_answered w lines es Hes)). }
  { eapply Forall_impl; [| exact Hrest]. intros f Hf'.
    apply written_grows. exact Hf'. }
  exists v', w', ((t0 ++ t1) ++ t2). split; [reflexivity |].
  rewrite !attempts_app, !answers_app, !successes_app, A0, A1, A2, B0, B1, B2, N0, N1.
  cbn [Cli.completedFiles] in C2. cbn [Spec.afterRun Spec.answered stdin] in S2.
  repeat split; auto. cbn [map app Nat.add]. lia.
Qed.

Lemma overwrite_all_converts_every_remaining_file_witness :
  let runs := [Spec.halfway (End 4096%N); Spec.halfway (Error "Conversion failed" None)] in
  exists v' w' t,
    Proc.forOf (Cli.convertFile 3 "vids" "gif" "auto" "30")
      ["vids/b.mp4"; "vids/c.mp4"]%string (Cli.mkVars 1 false false)
      (Spec.threeVideos " 2" runs) = (Ret v', w', t)
    /\ Spec.attempts t
       = map (fun f => (f, Cli.outputFile "vids" "gif" f))
           ["vids/b.mp4"; "vids/c.mp4"]%string
    /\ Spec.answers t = [" 2"%string]
    /\ stdin w' = []
    /\ Cli.overwriteAll v' = true /\ Cli.skipAll v' = false
    /\ Cli.completedFiles v' = 1 + Spec.successes t.
Proof.
  intros runs.
  apply (overwrite_all_converts_every_remaining_file 3 "vids" "gif" "auto" "30"
           (Cli.mkVars 1 false false) "vids/b.mp4" ["vids/c.mp4"]
           (Spec.threeVideos " 2" runs) " 2" [])%string.
  - vm_compute. discriminate.
  - reflexivity.
  - reflexivity.
  - reflexivity.
  - reflexivity.
  - simpl. lia.
  - constructor; [now apply halfway_showable |].
    constructor; [now apply halfway_showable | constructor].
  - repeat constructor; vm_compute; discriminate.
Defined.

(** X9.  Cancel.  The output of a file is there, no flag is set, and the
    user answers the prompt with the code 0: the process is ended with the
    exit code 1, the engine having been run neither for this file nor for
    any of the files after it. *)
Theorem cancel_ends_the_process :
  forall (total : nat) (folder format scale fps : string) (v : Cli.Vars)
         (file : string) (rest : list string) (w : World)
         (answer : string) (lines : list string),
    files w (Cli.outputFile folder format file) <> None ->
    Cli.overwriteAll v = false ->
    Cli.skipAll v = false ->
    stdin w = answer :: lines ->
    Js.trim answer = "0"%string ->
    exists t,
      Proc.forOf (Cli.convertFile total folder format scale fps) (file :: rest) v w
      = (Stop (Exit 1), Spec.answered w lines, t)
      /\ Spec.attempts t = []
      /\ Spec.answers t = [answer].
Proof.
  intros total folder format scale fps v file rest w answer lines Hp Ho Hs Hin Ht.
  rewrite forOf_cons.
  destruct (cli_convertFile_asked total folder format scale fps v file w answer lines
              Hp Ho Hs Hin) as (t0 & (A0 & N0 & B0) & ->).
  rewrite Ht. cbn [String.eqb Ascii.eqb Bool.eqb].
  eexists. split; [reflexivity |].
  rewrite attempts_app, answers_app, A0, B0. split; reflexivity.
Qed.

Lemma cancel_ends_the_process_witness :
  exists t,
    Proc.forOf (Cli.convertFile 3 "vids" "gif" "auto" "30")
      ["vids/b.mp4"; "vids/c.mp4"]%string (Cli.mkVars 1 false false)
      (Spec.threeVideos "0" [Spec.halfway (End 4096%N)])
    = (Stop (Exit 1), Spec.answered (Spec.threeVideos "0" [Spec.halfway (End 4096%N)]) [], t)
    /\ Spec.attempts t = []
    /\ Spec.answers t = ["0"%string].
Proof.
  apply (cancel_ends_the_process 3 "vids" "gif" "auto" "30"
           (Cli.mkVars 1 false false) "vids/b.mp4" ["vids/c.mp4"]
           (Spec.threeVideos "0" [Spec.halfway (End 4096%N)]) "0" [])%string.
  - vm_compute. discriminate.
  - reflexivity.
  - reflexivity.
  - reflexivity.
  - reflexivity.
Defined.

(** X10.  Skip this file.  The output of a file is there, no flag is set,
    and the user answers the prompt with the code 3: the engine is not run
    for this file, the variables of the loop stay as they are, and the loop
    goes on with the files after it, from the world in which only that line
    has been read. *)
Theorem skip_this_file_goes_on :
  forall (total : nat) (folder format scale fps : string) (v : Cli.Vars)
         (file : string) (rest : list string) (w : World)
         (answer : string) (lines : list string),
    files w (Cli.outputFile folder format file) <> None ->
    Cli.overwriteAll v = false ->
    Cli.skipAll v = false ->
    stdin w = answer :: lines ->
    Js.trim answer = "3"%string ->
    exists t0,
      Spec.attempts t0 = []
      /\ Spec.answers t0 = [answer]
      /\ Proc.forOf (Cli.convertFile total folder format scale fps) (file :: rest) v w
         = (let '(r, w2, t2) :=
              Proc.forOf (Cli.convertFile total folder format scale fps) rest v
                (Spec.answered w lines) in
            (r, w2, t0 ++ t2)).
Proof.
  intros total folder format scale fps v file rest w answer lines Hp Ho Hs Hin Ht.
  rewrite forOf_cons.
  destruct (cli_convertFile_asked total folder format scale fps v file w answer lines
              Hp Ho Hs Hin) as (t0 & (A0 & N0 & B0) & ->).
  rewrite Ht. cbn [String.eqb Ascii.eqb Bool.eqb].
  eexists. split; [| split; [| reflexivity]].
  - now rewrite attempts_app, A0.
  - now rewrite answers_app, B0.
Qed.

Lemma skip_this_file_goes_on_witness :
  exists t0,
    Spec.attempts t0 = []
    /\ Spec.answers t0 = ["3 "%string]
    /\ Proc.forOf (Cli.convertFile 3 "vids" "gif" "auto" "30")
         ["vids/b.mp4"; "vids/c.mp4"]%string (Cli.mkVars 1 false false)
         (Spec.threeVideos "3 " [Spec.halfway (End 4096%N)])
       = (let '(r, w2, t2) :=
            Proc.forOf (Cli.convertFile 3 "vids" "gif" "auto" "30")
              ["vids/c.mp4"]%string (Cli.mkVars 1 false false)
              (Spec.answered (Spec.threeVideos "3 " [Spec.halfway (End 4096%N)]) []) in
          (r, w2, t0 ++ t2)).
Proof.
  apply (skip_this_file_goes_on 3 "vids" "gif" "auto" "30"
           (Cli.mkVars 1 false false) "vids/b.mp4" ["vids/c.mp4"]
           (Spec.threeVideos "3 " [Spec.halfway (End 4096%N)]) "3 " [])%string.
  - vm_compute. discriminate.
  - reflexivity.
  - reflexivity.
  - reflexivity.
  - reflexivity.
Defined.

(** ** The prompts, from any world *)

Lemma onlyReads_waits (w : World) (t : list Event) :
  Spec.attempts t = [] -> Spec.answers t = [] -> Spec.onlyReads w w t.
Proof. intros A B. unfold Spec.onlyReads. now rewrite A, B. Qed.

Lemma onlyReads_answered (w : World) (a : string) (rest : list string) (t : list Event) :
  stdin w = a :: rest -> Spec.attempts t = [] -> Spec.answers t = [a] ->
  Spec.onlyReads w (Spec.answered w rest) t.
Proof. intros Hin A B. unfold Spec.onlyReads. now rewrite A, B, Hin. Qed.

Lemma promptUserScaleLoop_any (lines : list string) :
  forall (w : World) (n : nat),
    stdin w = lines ->
    List.length lines < n ->
    exists r w' t,
      Cli.promptUserScaleLoop n w = (r, w', t)
      /\ Spec.onlyReads w w' t
      /\ match r with
         | Ret scale =>
             exists rejected answer,
               Spec.answers t = rejected ++ [answer]
               /\ Forall (fun a => Spec.rejects (Js.trim a)) rejected
               /\ Spec.accepts (Js.trim answer) scale
               /\ (scale = "auto"%string \/ scale = Js.trim answer)
         | Stop h =>
             h = Waiting /\ stdin w' = []
             /\ Forall (fun a => Spec.rejects (Js.trim a)) lines
         end.
Proof.
  induction lines as [|a lines IH]; intros w n Hin Hn;
    (destruct n as [|n]; [inversion Hn |]).
  - rewrite promptUserScaleLoop_waits by assumption.
    exists (Stop Waiting), w. eexists. split; [reflexivity |].
    split; [now apply onlyReads_waits |]. auto.
  - assert (Hok : forall value, Spec.accepts (Js.trim a) value ->
                    value = "auto"%string \/ value = Js.trim a ->
                    exists r w' t,
                      Cli.promptUserScaleLoop (S n) w = (r, w', t)
                      /\ Spec.onlyReads w w' t
                      /\ match r with
                         | Ret scale =>
                             exists rejected answer,
                               Spec.answers t = rejected ++ [answer]
                               /\ Forall (fun a => Spec.rejects (Js.trim a)) rejected
                               /\ Spec.accepts (Js.trim answer) scale
                               /\ (scale = "auto"%string \/ scale = Js.trim answer)
                         | Stop h =>
                             h = Waiting /\ stdin w' = []
                             /\ Forall (fun a => Spec.rejects (Js.trim a)) (a :: lines)
                         end).
    { intros value Hacc Hval.
      rewrite (promptUserScaleLoop_accept _ _ _ _ _ Hin Hacc).
      do 3 eexists. split; [reflexivity |].
      split; [now apply (onlyReads_answered w a lines) |].
      exists [], a. auto. }
    destruct (validateScale_cases (Js.trim a)) as [H | [H | H]].
    + rewrite (promptUserScaleLoop_reject _ _ _ _ Hin H).
      destruct (IH (Spec.answered w lines) n eq_refl) as (r & w' & t & -> & R & M).
      { simpl in Hn. lia. }
      exists r, w'. eexists. split; [reflexivity |]. split.
      * apply (onlyReads_trans w (Spec.answered w lines) w'); [| exact R].
        now apply (onlyReads_answered w a lines).
      * destruct r as [scale | h].
        -- destruct M as (rejected & answer & B & Hrej & Hacc & Hval).
           exists (a :: rejected), answer. rewrite answers_app, B. auto.
        -- destruct M as (-> & He & Hall). auto.
    + apply (Hok "auto"%string); auto.
    + apply (Hok (Js.trim a)); auto.
Qed.

Lemma validateFps_cases (input : string) :
  Spec.rejectsFps input \/ Spec.acceptsFps input "auto" \/ Spec.acceptsFps input input.
Proof.
  unfold Spec.rejectsFps, Spec.acceptsFps, Cli.validateFps, Spec.invalidFpsLine.
  destruct ((input =? "")%string || (input =? "auto")%string).
  - right. left. reflexivity.
  - destruct (negb (Float.isNaN (Float.parseInt input))
              && Float.geb (Float.parseInt input) 8
              && Float.leb (Float.parseInt input) 60).
    + right. right. reflexivity.
    + left. reflexivity.
Qed.

Lemma promptUserFpsLoop_accept (n : nat) (w : World) (answer value : string)
  (rest : list string) :
  stdin w = answer :: rest -> Spec.acceptsFps (Js.trim answer) value ->
  Cli.promptUserFpsLoop (S n) w
  = (Ret value, Spec.answered w rest, [Spec.enterFpsLine; Asked answer]).
Proof.
  intros Hin Hok. cbn [Cli.promptUserFpsLoop].
  unfold Proc.bind, Cli.logWithTimestamp, Proc.question.
  rewrite console_recognised by reflexivity.
  rewrite Hin. rewrite Hok. reflexivity.
Qed.

Lemma promptUserFpsLoop_reject (n : nat) (w : World) (answer : string)
  (rest : list string) :
  stdin w = answer :: rest -> Spec.rejectsFps (Js.trim answer) ->
  Cli.promptUserFpsLoop (S n) w
  = (let '(r, w', t) := Cli.promptUserFpsLoop n (Spec.answered w rest) in
     (r, w', [Spec.enterFpsLine; Asked answer; Spec.invalidFpsLine] ++ t)).
Proof.
  intros Hin Hno. cbn [Cli.promptUserFpsLoop].
  unfold Proc.bind, Cli.logWithTimestamp, Proc.question.
  rewrite console_recognised by reflexivity.
  rewrite Hin. rewrite Hno. unfold Spec.answered.
  destruct (Cli.promptUserFpsLoop n _) as [[r w'] t].
  reflexivity.
Qed.

Lemma promptUserFpsLoop_waits (n : nat) (w : World) :
  stdin w = [] ->
  Cli.promptUserFpsLoop (S n) w = (Stop Waiting, w, [Spec.enterFpsLine]).
Proof.
  intros Hin. cbn [Cli.promptUserFpsLoop].
  unfold Proc.bind, Cli.logWithTimestamp, Proc.question.
  rewrite console_recognised by reflexivity.
  rewrite Hin. reflexivity.
Qed.

Lemma promptUserFpsLoop_any (lines : list string) :
  forall (w : World) (n : nat),
    stdin w = lines ->
    List.length lines < n ->
    exists r w' t,
      Cli.promptUserFpsLoop n w = (r, w', t)
      /\ Spec.onlyReads w w' t
      /\ match r with
         | Ret fps =>
             exists rejected answer,
               Spec.answers t = rejected ++ [answer]
               /\ Forall (fun a => Spec.rejectsFps (Js.trim a)) rejected
               /\ Spec.acceptsFps (Js.trim answer) fps
               /\ (fps = "auto"%string \/ fps = Js.trim answer)
         | Stop h =>
             h = Waiting /\ stdin w' = []
             /\ Forall (fun a => Spec.rejectsFps (Js.trim a)) lines
         end.
Proof.
  induction lines as [|a lines IH]; intros w n Hin Hn;
    (destruct n as [|n]; [inversion Hn |]).
  - rewrite promptUserFpsLoop_waits by assumption.
    exists (Stop Waiting), w. eexists. split; [reflexivity |].
    split; [now apply onlyReads_waits |]. auto.
  - assert (Hok : forall value, Spec.acceptsFps (Js.trim a) value ->
                    value = "auto"%string \/ value = Js.trim a ->
                    exists r w' t,
                      Cli.promptUserFpsLoop (S n) w = (r, w', t)
                      /\ Spec.onlyReads w w' t
                      /\ match r with
                         | Ret fps =>
                             exists rejected answer,
                               Spec.answers t = rejected ++ [answer]
                               /\ Forall (fun a => Spec.rejectsFps (Js.trim a)) rejected
                               /\ Spec.acceptsFps (Js.trim answer) fps
                               /\ (fps = "auto"%string \/ fps = Js.trim answer)
                         | Stop h =>
                             h = Waiting /\ stdin w' = []
                             /\ Forall (fun a => Spec.rejectsFps (Js.trim a)) (a :: lines)
                         end).
    { intros value Hacc Hval.
      rewrite (promptUserFpsLoop_accept _ _ _ _ _ Hin Hacc).
      do 3 eexists. split; [reflexivity |].
      split; [now apply (onlyReads_answered w a lines) |].
      exists [], a. auto. }
    destruct (validateFps_cases (Js.trim a)) as [H | [H | H]].
    + rewrite (promptUserFpsLoop_reject _ _ _ _ Hin H).
      destruct (IH (Spec.answered w lines) n eq_refl) as (r & w' & t & -> & R & M).
      { simpl in Hn. lia. }
      exists r, w'. eexists. split; [reflexivity |]. split.
      * apply (onlyReads_trans w (Spec.answered w lines) w'); [| exact R].
        now apply (onlyReads_answered w a lines).
      * destruct r as [fps | h].
        -- destruct M as (rejected & answer & B & Hrej & Hacc & Hval).
           exists (a :: rejected), answer. rewrite answers_app, B. auto.
        -- destruct M as (-> & He & Hall). auto.
    + apply (Hok "auto"%string); auto.
    + apply (Hok (Js.trim a)); auto.
Qed.

(** X11.  The scale prompt, from any world.  It does nothing but read lines
    of the user and write to the console.  When it returns, it has read some
    lines that [validateScale] rejects, each followed by the prompt again,
    and then one that it accepts, and the scale returned is [auto] or that
    last line, trimmed.  It never ends the process: when it does not return,
    every line there was has been read and rejected, and it waits for
    another one. *)
Theorem promptUserScale_reads_until_accepted :
  forall w : World,
    exists r w' t,
      Cli.promptUserScale w = (r, w', t)
      /\ Spec.onlyReads w w' t
      /\ match r with
         | Ret scale =>
             exists rejected answer,
               Spec.answers t = rejected ++ [answer]
               /\ Forall (fun a => Spec.rejects (Js.trim a)) rejected
               /\ Spec.accepts (Js.trim answer) scale
               /\ (scale = "auto"%string \/ scale = Js.trim answer)
         | Stop h =>
             h = Waiting /\ stdin w' = []
             /\ Forall (fun a => Spec.rejects (Js.trim a)) (stdin w)
         end.
Proof.
  intros w. unfold Cli.promptUserScale.
  apply (promptUserScaleLoop_any (stdin w) w); [reflexivity | lia].
Qed.

(** X12.  The fps prompt, from any world: as the scale prompt, with
    [validateFps]. *)
Theorem promptUserFps_reads_until_accepted :
  forall w : World,
    exists r w' t,
      Cli.promptUserFps w = (r, w', t)
      /\ Spec.onlyReads w w' t
      /\ match r with
         | Ret fps =>
             exists rejected answer,
               Spec.answers t = rejected ++ [answer]
               /\ Forall (fun a => Spec.rejectsFps (Js.trim a)) rejected
               /\ Spec.acceptsFps (Js.trim answer) fps
               /\ (fps = "auto"%string \/ fps = Js.trim answer)
         | Stop h =>
             h = Waiting /\ stdin w' = []
             /\ Forall (fun a => Spec.rejectsFps (Js.trim a)) (stdin w)
         end.
Proof.
  intros w. unfold Cli.promptUserFps.
  apply (promptUserFpsLoop_any (stdin w) w); [reflexivity | lia].
Qed.

(** The prompt to start. *)

Lemma promptStartConversionLoop_waits (n : nat) (w : World) :
  stdin w = [] ->
  exists t,
    Cli.promptStartConversionLoop (S n) w = (Stop Waiting, w, t)
    /\ Spec.attempts t = [] /\ Spec.answers t = [].
Proof.
  intros Hin. cbn [Cli.promptStartConversionLoop Proc.forOf].
  unfold Proc.bind, Cli.logWithTimestamp, Proc.question, Proc.ret. run_console.
  rewrite Hin. eexists. tally.
Qed.

Lemma promptStartConversionLoop_step (n : nat) (w : World) (answer : string)
  (rest : list string) :
  stdin w = answer :: rest ->
  exists t0,
    (Spec.attempts t0 = [] /\ Spec.answers t0 = [answer])
    /\ Cli.promptStartConversionLoop (S n) w
       = if (Js.trim answer =? "1")%string then (Ret true, Spec.answered w rest, t0)
         else if (Js.trim answer =? "2")%string then (Ret false, Spec.answered w rest, t0)
         else if (Js.trim answer =? "3")%string then
           (Stop (Exit 0), Spec.answered w rest,
            t0 ++ [Console "redBright" (Text "Exiting the process. Goodbye! ")])
         else
           let '(r, w', t) := Cli.promptStartConversionLoop n (Spec.answered w rest) in
           (r, w', (t0 ++ [Console "redBright"
                             (Text "Invalid selection. Please choose a valid option.")])
                   ++ t).
Proof.
  intros Hin. cbn [Cli.promptStartConversionLoop Proc.forOf].
  unfold Proc.bind, Cli.logWithTimestamp, Proc.question, Proc.ret, Proc.exit, Proc.stop.
  run_console. rewrite Hin. fold (Spec.answered w rest).
  eexists. split; [| destruct (Js.trim answer =? "1")%string; [reflexivity |];
                     destruct (Js.trim answer =? "2")%string; [reflexivity |];
                     destruct (Js.trim answer =? "3")%string].
  - split; reflexivity.
  - run_console. reflexivity.
  - run_console.
    destruct (Cli.promptStartConversionLoop n (Spec.answered w rest)) as [[r w'] t].
    reflexivity.
Qed.

Lemma onlyReads_console (w w' : World) (t : list Event) (color : string) (line : Line) :
  Spec.onlyReads w w' t -> Spec.onlyReads w w' (t ++ [Console color line]).
Proof.
  unfold Spec.onlyReads. rewrite attempts_app, answers_app.
  cbn. now rewrite !app_nil_r.
Qed.

Lemma promptStartConversionLoop_any (lines : list string) :
  forall (w : World) (n : nat),
    stdin w = lines ->
    List.length lines < n ->
    exists r w' t,
      Cli.promptStartConversionLoop n w = (r, w', t)
      /\ Spec.onlyReads w w' t
      /\ match r with
         | Ret start =>
             exists invalid answer,
               Spec.answers t = invalid ++ [answer]
               /\ Forall (fun a => ~ In (Js.trim a) ["1"; "2"; "3"]%string) invalid
               /\ Js.trim answer = (if start then "1" else "2")%string
         | Stop (Exit code) =>
             code = 0
             /\ exists invalid answer,
                  Spec.answers t = invalid ++ [answer]
                  /\ Forall (fun a => ~ In (Js.trim a) ["1"; "2"; "3"]%string) invalid
                  /\ Js.trim answer = "3"%string
         | Stop Waiting =>
             stdin w' = []
             /\ Forall (fun a => ~ In (Js.trim a) ["1"; "2"; "3"]%string) lines
         | Stop (Uncaught _) | Stop NotFollowed => False
         end.
Proof.
  induction lines as [|a lines IH]; intros w n Hin Hn;
    (destruct n as [|n]; [inversion Hn |]).
  - destruct (promptStartConversionLoop_waits n w Hin) as (t & -> & A & B).
    exists (Stop Waiting), w, t. split; [reflexivity |].
    split; [now apply onlyReads_waits |]. auto.
  - destruct (promptStartConversionLoop_step n w a lines Hin) as (t0 & [A0 B0] & ->).
    assert (R0 : Spec.onlyReads w (Spec.answered w lines) t0)
      by now apply (onlyReads_answered w a lines).
    destruct (String.eqb_spec (Js.trim a) "1") as [E1 | N1].
    { do 3 eexists. split; [reflexivity |]. split; [exact R0 |].
      exists [], a. auto. }
    destruct (String.eqb_spec (Js.trim a) "2") as [E2 | N2].
    { do 3 eexists. split; [reflexivity |]. split; [exact R0 |].
      exists [], a. auto. }
    destruct (String.eqb_spec (Js.trim a) "3") as [E3 | N3].
    { do 3 eexists. split; [reflexivity |]. split.
      - now apply onlyReads_console.
      - split; [reflexivity |]. exists [], a.
        rewrite answers_app, B0. auto. }
    assert (Hbad : ~ In (Js.trim a) ["1"; "2"; "3"]%string).
    { cbn [In]. intros [E | [E | [E | []]]]; congruence. }
    destruct (IH (Spec.answered w lines) n eq_refl) as (r & w' & t & -> & R & M).
    { simpl in Hn. lia. }
    exists r, w'. eexists. split; [reflexivity |]. split.
    + apply (onlyReads_trans w (Spec.answered w lines) w'); [| exact R].
      now apply onlyReads_console.
    + rewrite !answers_app, B0. cbn [Spec.answers flat_map app].
      destruct r as [start | [code | e | |]].
      * destruct M as (invalid & answer & B & Hinv & Ht).
        exists (a :: invalid), answer. rewrite B. auto.
      * destruct M as (-> & invalid & answer & B & Hinv & Ht).
        split; [reflexivity |]. exists (a :: invalid), answer. rewrite B. auto.
      * exact M.
      * destruct M as [He Hall]. auto.
      * exact M.
Qed.

(** X13.  The prompt to start, from any world.  It does nothing but read
    lines of the user and write to the console.  Every line other than 1, 2
    and 3 is followed by the prompt again; the first line that is one of
    them decides: [true] for 1, [false] for 2, and for 3 the process is
    ended with the exit code 0.  When there is no such line it waits, every
    line having been read. *)
Theorem promptStartConversion_asks_until_valid :
  forall w : World,
    exists r w' t,
      Cli.promptStartConversion w = (r, w', t)
      /\ Spec.onlyReads w w' t
      /\ match r with
         | Ret start =>
             exists invalid answer,
               Spec.answers t = invalid ++ [answer]
               /\ Forall (fun a => ~ In (Js.trim a) ["1"; "2"; "3"]%string) invalid
               /\ Js.trim answer = (if start then "1" else "2")%string
         | Stop (Exit code) =>
             code = 0
             /\ exists invalid answer,
                  Spec.answers t = invalid ++ [answer]
                  /\ Forall (fun a => ~ In (Js.trim a) ["1"; "2"; "3"]%string) invalid
                  /\ Js.trim answer = "3"%string
         | Stop Waiting =>
             stdin w' = []
             /\ Forall (fun a => ~ In (Js.trim a) ["1"; "2"; "3"]%string) (stdin w)
         | Stop (Uncaught _) | Stop NotFollowed => False
         end.
Proof.
  intros w. unfold Cli.promptStartConversion.
  apply (promptStartConversionLoop_any (stdin w) w); [reflexivity | lia].
Qed.

(** The format prompt. *)
Lemma promptUserFormat_any (w : World) :
  exists r w' t,
    Cli.promptUserFormat w = (r, w', t)
    /\ Spec.onlyReads w w' t
    /\ match r with
       | Ret format =>
           (exists answer, Spec.answers t = [answer]
                           /\ (format = None <->
                               ~ In (Js.trim answer) ["1"; "2"; "3"; "4"; "5"]%string))
           /\ (forall value, format = Some value -> In value Convert.formats)
       | Stop h => h = Waiting /\ stdin w = []
       end.
Proof.
  unfold Cli.promptUserFormat, Proc.bind at 1.
  cbn [Proc.forOf]. unfold Cli.logWithTimestamp, Proc.bind, Proc.question, Proc.ret.
  run_console. destruct (stdin w) as [|answer rest] eqn:Hin.
  { do 3 eexists. split; [reflexivity |].
    split; [now apply onlyReads_waits |]. auto. }
  fold (Spec.answered w rest).
  assert (Hone : forall value t,
             In (Js.trim answer) ["1"; "2"; "3"; "4"; "5"]%string ->
             In value Convert.formats ->
             Spec.attempts t = [] -> Spec.answers t = [answer] ->
             exists r w' t',
               (Ret (Some value), Spec.answered w rest, t) = (r, w', t')
               /\ Spec.onlyReads w w' t'
               /\ match r with
                  | Ret format =>
                      (exists answer0,
                          Spec.answers t' = [answer0]
                          /\ (format = None <->
                              ~ In (Js.trim answer0) ["1"; "2"; "3"; "4"; "5"]%string))
                      /\ (forall value0, format = Some value0 -> In value0 Convert.formats)
                  | Stop h => h = Waiting /\ answer :: rest = []
                  end).
  { intros value t Hcode Hfmt A B. do 3 eexists. split; [reflexivity |].
    split; [now apply (onlyReads_answered w answer rest) |]. split.
    - exists answer. split; [exact B |]. split; [discriminate | contradiction].
    - now intros ? [= <-]. }
  destruct (String.eqb_spec (Js.trim answer) "1") as [E1 | N1];
    [apply Hone; rewrite ?E1; cbn; tauto |].
  destruct (String.eqb_spec (Js.trim answer) "2") as [E2 | N2];
    [apply Hone; rewrite ?E2; cbn; tauto |].
  destruct (String.eqb_spec (Js.trim answer) "3") as [E3 | N3];
    [apply Hone; rewrite ?E3; cbn; tauto |].
  destruct (String.eqb_spec (Js.trim answer) "4") as [E4 | N4];
    [apply Hone; rewrite ?E4; cbn; tauto |].
  destruct (String.eqb_spec (Js.trim answer) "5") as [E5 | N5];
    [apply Hone; rewrite ?E5; cbn; tauto |].
  run_console. do 3 eexists. split; [reflexivity |]. split.
  - apply (onlyReads_answered w answer rest); [exact Hin | reflexivity | reflexivity].
  - split; [| discriminate]. exists answer. split; [reflexivity |].
    split; [| reflexivity]. intros _. cbn [In].
    intros [E | [E | [E | [E | [E | []]]]]]; congruence.
Qed.

(** X14.  The format prompt, from any world.  It reads one line and does
    nothing else to the world; there is no second try.  The result is null
    exactly when the line, trimmed, is none of the codes 1 to 5, and
    otherwise it is one of the formats the non-interactive driver accepts
    on its command line.  Without a line to read it waits. *)
Theorem promptUserFormat_asks_once :
  forall w : World,
    exists r w' t,
      Cli.promptUserFormat w = (r, w', t)
      /\ Spec.onlyReads w w' t
      /\ match r with
         | Ret format =>
             (exists answer, Spec.answers t = [answer]
                             /\ (format = None <->
                                 ~ In (Js.trim answer) ["1"; "2"; "3"; "4"; "5"]%string))
             /\ (forall value, format = Some value -> In value Convert.formats)
         | Stop h => h = Waiting /\ stdin w = []
         end.
Proof. exact promptUserFormat_any. Qed.

(** ** Whole numbers read from strings *)

Lemma pow2_nonneg (e : Z) : (0 <= e)%Z -> Float.pow2 e = inject_Z (2 ^ e).
Proof.
  intros H. unfold Float.pow2. apply Z.leb_le in H. now rewrite H.
Qed.

Lemma pow2_pos (e : Z) : (0 < Float.pow2 e)%Q.
Proof.
  unfold Float.pow2. destruct (0 <=? e)%Z eqn:E.
  - apply Z.leb_le in E. unfold Qlt. simpl. rewrite Z.mul_1_r.
    now apply Z.pow_pos_nonneg.
  - apply Z.leb_gt in E. apply Qinv_lt_0_compat. unfold Qlt. simpl.
    rewrite Z.mul_1_r. apply Z.pow_pos_nonneg; lia.
Qed.

Lemma pow2_split (e : Z) :
  (0 <= e)%Z -> (inject_Z (2 ^ 52) * Float.pow2 (e - 52) == Float.pow2 e)%Q.
Proof.
  intros He. rewrite (pow2_nonneg e He). unfold Float.pow2.
  destruct (0 <=? e - 52)%Z eqn:E.
  - apply Z.leb_le in E. rewrite <- inject_Z_mult, <- Z.pow_add_r by lia.
    now replace (52 + (e - 52))%Z with e by lia.
  - apply Z.leb_gt in E.
    assert (Hk : (2 ^ 52 = 2 ^ e * 2 ^ (- (e - 52)))%Z).
    { rewrite <- Z.pow_add_r by lia. f_equal. lia. }
    assert (Hpos : (0 < 2 ^ (- (e - 52)))%Z) by (apply Z.pow_pos_nonneg; lia).
    rewrite Hk, inject_Z_mult, <- Qmult_assoc, Qmult_inv_r, Qmult_1_r; [reflexivity |].
    intros H0. unfold Qeq in H0. simpl in H0. lia.
Qed.

Lemma roundHalfEven_floor (m : Q) : (Qfloor m <= Float.roundHalfEven m)%Z.
Proof.
  unfold Float.roundHalfEven.
  destruct (m - inject_Z (Qfloor m) ?= 1 # 2)%Q; [destruct (Z.even (Qfloor m)) | |]; lia.
Qed.

(** A whole number from 64 on is read as a Number above 60. *)
Lemma ofQ_large (z : Z) :
  (64 <= z)%Z ->
  Float.isNaN (Float.ofQ (inject_Z z)) = false
  /\ Float.geb (Float.ofQ (inject_Z z)) 8 = true
  /\ Float.leb (Float.ofQ (inject_Z z)) 60 = false.
Proof.
  intros Hz. unfold Float.ofQ.
  assert (H0 : Qeq_bool (inject_Z z) 0 = false).
  { apply not_true_iff_false. intros H. apply Qeq_bool_eq in H.
    unfold Qeq in H. simpl in H. lia. }
  rewrite H0.
  assert (Ha : Qabs (inject_Z z) = inject_Z z).
  { unfold Qabs, inject_Z. now rewrite Z.abs_eq by lia. }
  rewrite Ha.
  assert (Hlog : (6 <= Z.log2 z)%Z) by (apply (Z.log2_le_mono 64 z); lia).
  assert (Hpow : (2 ^ Z.log2 z <= z)%Z) by (apply Z.log2_spec; lia).
  assert (He : Float.exponent (inject_Z z) = Z.log2 z).
  { unfold Float.exponent. cbn [Qnum Qden inject_Z]. cbn [Z.log2]. rewrite Z.sub_0_r.
    rewrite (pow2_nonneg (Z.log2 z)) by lia.
    assert (Hle : Qle_bool (inject_Z (2 ^ Z.log2 z)) (inject_Z z) = true).
    { apply Qle_bool_iff. now rewrite <- Zle_Qle. }
    now rewrite Hle. }
  rewrite He, Z.max_l by lia.
  set (q := Float.pow2 (Z.log2 z - 52)).
  set (f := Float.roundHalfEven (inject_Z z / q)).
  assert (Hq : (0 < q)%Q) by apply pow2_pos.
  assert (Hm : (inject_Z (2 ^ 52) <= inject_Z z / q)%Q).
  { apply Qle_shift_div_l; [exact Hq |]. unfold q. rewrite pow2_split by lia.
    rewrite pow2_nonneg by lia. now rewrite <- Zle_Qle. }
  assert (Hf : (2 ^ 52 <= f)%Z).
  { apply Z.le_trans with (Qfloor (inject_Z z / q)); [| apply roundHalfEven_floor].
    rewrite <- (Qfloor_Z (2 ^ 52)). now apply Qfloor_resp_le. }
  assert (Hr : (64 <= inject_Z f * q)%Q).
  { apply Qle_trans with (inject_Z (2 ^ 52) * q)%Q.
    - unfold q. rewrite pow2_split, pow2_nonneg by lia.
      change 64%Q with (inject_Z 64). rewrite <- Zle_Qle.
      apply Z.le_trans with (2 ^ 6)%Z; [reflexivity |].
      apply Z.pow_le_mono_r; lia.
    - apply Qmult_le_compat_r; [| now apply Qlt_le_weak]. now rewrite <- Zle_Qle. }
  assert (Hnn : Qle_bool 0 (inject_Z z) = true).
  { apply Qle_bool_iff. unfold Qle. simpl. lia. }
  rewrite Hnn.
  destruct (Qle_bool (Float.pow2 1024) (inject_Z f * q));
    cbn [Float.isNaN Float.geb Float.leb negb].
  - auto.
  - split; [reflexivity |]. split.
    + apply Qle_bool_iff. change 8%Q with (Qred 8). apply Qred_le.
      apply Qle_trans with 64%Q; [discriminate | exact Hr].
    + apply not_true_iff_false. intros H. apply Qle_bool_iff in H.
      change 60%Q with (Qred 60) in H. apply (proj1 (Qred_le _ _)) in H.
      assert (Habs : (64 <= 60)%Q) by (eapply Qle_trans; eassumption).
      unfold Qle in Habs. simpl in Habs. lia.
Qed.

(** The check of the bounds of [validateFps] on a whole number. *)
Lemma fps_bounds (z : Z) :
  (0 <= z)%Z ->
  negb (Float.isNaN (Float.ofQ (inject_Z z)))
  && Float.geb (Float.ofQ (inject_Z z)) 8 && Float.leb (Float.ofQ (inject_Z z)) 60
  = ((8 <=? z)%Z && (z <=? 60)%Z).
Proof.
  intros Hz. destruct (Z_lt_le_dec z 64) as [Hsmall | Hlarge].
  - assert (Hin : In z (map Z.of_nat (seq 0 64))).
    { apply in_map_iff. exists (Z.to_nat z). split; [lia |]. apply in_seq. lia. }
    cbn [seq map] in Hin.
    repeat (destruct Hin as [<- | Hin]; [vm_compute; reflexivity |]).
    destruct Hin.
  - destruct (ofQ_large z Hlarge) as (-> & -> & ->).
    symmetry. apply andb_false_iff. right. apply Z.leb_gt. lia.
Qed.

Lemma digits_fold_acc (d : Decimal.uint) :
  forall acc : positive,
    fold_left (fun acc c => (10 * acc + (Z.of_nat (Js.code c) - 48))%Z)
      (Js.chars (NilEmpty.string_of_uint d)) (Zpos acc)
    = Zpos (Pos.of_uint_acc d acc).
Proof.
  induction d; intros acc; cbn [NilEmpty.string_of_uint Js.chars list_ascii_of_string
                                 fold_left Pos.of_uint_acc];
    [reflexivity | ..];
    match goal with
    | |- fold_left _ _ ?x = Zpos (Pos.of_uint_acc _ ?p) =>
        replace x with (Zpos p)
          by (match goal with
              | |- context [Z.of_nat ?k] =>
                  let v := eval vm_compute in (Z.of_nat k) in
                  change (Z.of_nat k) with v
              end; lia)
    end;
    apply IHd.
Qed.

Lemma digits_fold (d : Decimal.uint) :
  fold_left (fun acc c => (10 * acc + (Z.of_nat (Js.code c) - 48))%Z)
    (Js.chars (NilEmpty.string_of_uint d)) 0%Z
  = Z.of_N (Pos.of_uint d).
Proof.
  induction d; cbn [NilEmpty.string_of_uint Js.chars list_ascii_of_string
                    fold_left Pos.of_uint];
    [reflexivity | exact IHd | ..];
    match goal with
    | |- fold_left _ _ ?x = Z.of_N (N.pos (Pos.of_uint_acc _ ?p)) =>
        replace x with (Zpos p)
          by (match goal with
              | |- context [Z.of_nat ?k] =>
                  let v := eval vm_compute in (Z.of_nat k) in
                  change (Z.of_nat k) with v
              end; lia)
    end;
    apply digits_fold_acc.
Qed.

(** Reading the decimal rendering of a whole number gives the number. *)
Lemma digitsValue_ofN (n : N) : Float.digitsValue (Js.chars (Js.ofN n)) = Z.of_N n.
Proof.
  unfold Float.digitsValue, Js.ofN, NilZero.string_of_uint.
  rewrite <- (DecimalN.Unsigned.of_to n) at 2. unfold N.of_uint.
  destruct (N.to_uint n) eqn:E; try (rewrite <- E; apply digits_fold).
  reflexivity.
Qed.

Lemma ofN_head (n : N) :
  exists c rest, Js.chars (Js.ofN n) = c :: rest /\ Float.isDigit c = true.
Proof.
  pose proof (digits_ofN n) as H.
  destruct (Js.chars (Js.ofN n)) as [|c rest] eqn:E.
  - exfalso. unfold Js.ofN, NilZero.string_of_uint in E.
    destruct (N.to_uint n); discriminate E.
  - inversion H; subst. now exists c, rest.
Qed.

Lemma digit_not_space (c : ascii) (r : list ascii) :
  Float.isDigit c = true -> Js.skipSpace (c :: r) = None.
Proof.
  destruct c as [[] [] [] [] [] [] [] []]; try discriminate; intros _;
    destruct r as [|b [|d r]]; reflexivity.
Qed.

Lemma digit_not_sign (c : ascii) (r : list ascii) :
  Float.isDigit c = true -> Float.takeSign (c :: r) = (false, c :: r).
Proof.
  destruct c as [[] [] [] [] [] [] [] []]; try discriminate; reflexivity.
Qed.

Lemma trimStart_digit (c : ascii) (r : list ascii) :
  Float.isDigit c = true -> Js.trimStartChars (c :: r) = c :: r.
Proof.
  intros H. unfold Js.trimStartChars. cbn [List.length Js.dropWhileSome].
  now rewrite digit_not_space.
Qed.

Lemma takeDigits_app (ds : list ascii) (suffix : string) :
  Forall (fun c => Float.isDigit c = true) ds ->
  Spec.noDigitAhead suffix = true ->
  Float.takeDigits (ds ++ Js.chars suffix) = ds.
Proof.
  intros Hds Hs. induction Hds as [|c ds Hc _ IH]; cbn [app Float.takeDigits].
  - unfold Spec.noDigitAhead in Hs. destruct (Js.chars suffix) as [|c r]; [reflexivity |].
    cbn [Float.takeDigits]. apply negb_true_iff in Hs. now rewrite Hs.
  - now rewrite Hc, IH.
Qed.

(** [parseInt] on a decimal numeral followed by a text that does not go on
    with a digit. *)
Lemma parseInt_numeral (n : N) (suffix : string) :
  Spec.noDigitAhead suffix = true ->
  Float.parseInt (Js.ofN n ++ suffix) = Float.ofQ (inject_Z (Z.of_N n)).
Proof.
  intros Hs. unfold Float.parseInt. rewrite chars_app.
  destruct (ofN_head n) as (c & rest & E & Hc).
  rewrite E. cbn [app]. rewrite (trimStart_digit _ _ Hc), (digit_not_sign _ _ Hc).
  change (c :: rest ++ Js.chars suffix) with ((c :: rest) ++ Js.chars suffix).
  rewrite <- E, takeDigits_app by (apply digits_ofN || exact Hs).
  rewrite E. cbn iota. rewrite <- E, digitsValue_ofN. reflexivity.
Qed.

Lemma numeral_not_auto (n : N) (suffix : string) :
  let input := (Js.ofN n ++ suffix)%string in
  ((input =? "")%string || (input =? "auto")%string) = false.
Proof.
  intros input. destruct (ofN_head n) as (c & rest & E & Hc).
  assert (Hin : input = String c (Js.str (rest ++ Js.chars suffix))).
  { apply chars_inj. unfold input. rewrite chars_app, E.
    cbn [Js.chars list_ascii_of_string app].
    change (list_ascii_of_string (Js.str (rest ++ Js.chars suffix)))
      with (Js.chars (Js.str (rest ++ Js.chars suffix))).
    now rewrite chars_str. }
  rewrite Hin. cbn [String.eqb orb].
  destruct (Ascii.eqb_spec c "a") as [-> | _]; [discriminate Hc | reflexivity].
Qed.

(** X15.  [validateFps] reads the whole number at the head of its input and
    decides on that number alone: an input made of the decimal numeral of
    [n] and any text that does not go on with a digit is accepted when
    [8 <= n <= 60], and then it is returned as it is, trailing text
    included; it is rejected for every other [n], however large: the
    fraction of [7.9] or [60.9] counts for nothing. *)
Theorem validateFps_reads_the_leading_integer :
  forall (n : N) (suffix : string),
    Spec.noDigitAhead suffix = true ->
    let input := (Js.ofN n ++ suffix)%string in
    ((8 <= n <= 60)%N -> Spec.acceptsFps input input)
    /\ ((n < 8 \/ 60 < n)%N -> Spec.rejectsFps input).
Proof.
  intros n suffix Hs input.
  assert (Hcheck :
    negb (Float.isNaN (Float.parseInt input))
    && Float.geb (Float.parseInt input) 8 && Float.leb (Float.parseInt input) 60
    = ((8 <=? Z.of_N n)%Z && (Z.of_N n <=? 60)%Z)).
  { unfold input. rewrite (parseInt_numeral n suffix Hs). apply fps_bounds. lia. }
  split.
  - intros [H8 H60] w. unfold Cli.validateFps, input in *.
    rewrite (numeral_not_auto n suffix), Hcheck.
    replace ((8 <=? Z.of_N n)%Z && (Z.of_N n <=? 60)%Z) with true; [reflexivity |].
    symmetry. apply andb_true_iff. split; apply Z.leb_le; lia.
  - intros Hout w. unfold Cli.validateFps, input in *.
    rewrite (numeral_not_auto n suffix), Hcheck.
    replace ((8 <=? Z.of_N n)%Z && (Z.of_N n <=? 60)%Z) with false; [reflexivity |].
    symmetry. apply andb_false_iff.
    destruct Hout as [H | H]; [left | right]; apply Z.leb_gt; lia.
Qed.

Lemma validateFps_reads_the_leading_integer_witness :
  Spec.acceptsFps "30fps" "30fps"
  /\ Spec.acceptsFps "60.9" "60.9"
  /\ Spec.rejectsFps "7.9"
  /\ Spec.rejectsFps "100000000000000000000".
Proof.
  split; [| split; [| split]].
  - apply (proj1 (validateFps_reads_the_leading_integer 30 "fps" eq_refl)). lia.
  - apply (proj1 (validateFps_reads_the_leading_integer 60 ".9" eq_refl)). lia.
  - apply (proj2 (validateFps_reads_the_leading_integer 7 ".9" eq_refl)). lia.
  - apply (proj2 (validateFps_reads_the_leading_integer 100000000000000000000 ""
                    eq_refl)). lia.
Defined.

(** ** The main functions *)

Lemma console_then {B} (line : Line) (color : string) (k : unit -> Proc B) (w : World) :
  Chalk.recognised color = true ->
  Proc.bind (Proc.console line color) k w
  = (let '(r, w', t) := k tt w in (r, w', Console color line :: t)).
Proof.
  intros H. unfold Proc.bind. rewrite console_recognised by assumption.
  destruct (k tt w) as [[r w'] t]. reflexivity.
Qed.

Ltac run_logs :=
  unfold Convert.log, Cli.logWithTimestamp;
  repeat (rewrite console_then by reflexivity; cbn beta).

(** X16.  The main function of the non-interactive driver, for any
    arguments and from any world.  It reads no line of the user.  It ends
    the process only with the exit code 1, and only before the engine has
    been run.  Two exceptions can escape it: the error of the file system
    for an input path that cannot be read, which escapes before the engine
    has been run; and that of the progress display, when the standard
    output is not a terminal and a run of the engine reports its progress.
    Otherwise it returns, or it waits for the engine.  In every case each
    run of the engine was onto a path at which there was nothing when the
    program started. *)
Theorem convert_main_outcomes :
  forall (args : list string) (w : World),
    exists r w' t,
      Convert.main args w = (r, w', t)
      /\ Spec.answers t = [] /\ stdin w' = stdin w
      /\ Spec.grows w w'
      /\ Forall (fun io => files w (snd io) = None) (Spec.attempts t)
      /\ match r with
         | Ret _ => 4 <= List.length args
         | Stop (Exit code) => code = 1 /\ w' = w /\ Spec.attempts t = []
         | Stop (Uncaught e) =>
             ((exists p, e = Spec.errorAt w p
                         /\ Spec.unreadable w (firstn (List.length args - 3) args) p)
              /\ w' = w /\ Spec.attempts t = [])
             \/ (e = Spec.noClearLine /\ isTTY w = false
                 /\ exists run, In run (engine w) /\ reports run <> [])
         | Stop Waiting => engine w' = []
         | Stop NotFollowed => False
         end.
Proof.
  intros args w. unfold Convert.main.
  destruct (List.length args <? 4) eqn:Hlen.
  { run_logs. unfold Proc.exit, Proc.stop. do 3 eexists. split; [reflexivity |].
    repeat split; try apply grows_refl; constructor. }
  apply Nat.ltb_ge in Hlen. cbv zeta.
  set (inputPaths := firstn (List.length args - 3) args).
  set (format := Js.toLowerCase (nth (List.length args - 3) args EmptyString)).
  set (scale := nth (List.length args - 2) args EmptyString).
  set (fps := nth (List.length args - 1) args EmptyString).
  destruct (negb (Js.includes Convert.formats format)).
  { run_logs. unfold Proc.exit, Proc.stop. do 3 eexists. split; [reflexivity |].
    repeat split; try apply grows_refl; constructor. }
  run_logs. unfold Proc.bind at 1.
  destruct (convert_discovery_any inputPaths w) as (r & t & -> & A & B & R).
  destruct r as [mediaFiles | h].
  2: { do 3 eexists. split; [reflexivity |]. cbn [Spec.answers Spec.attempts flat_map app].
       fold (Spec.answers t). fold (Spec.attempts t). rewrite A, B.
       split; [reflexivity |]. split; [reflexivity |]. split; [apply grows_refl |].
       split; [constructor |].
       destruct R as (p & -> & Hp). left. repeat split. now exists p. }
  destruct mediaFiles as [|file rest].
  { run_logs. unfold Proc.exit, Proc.stop. do 3 eexists. split; [reflexivity |].
    cbn [Spec.answers Spec.attempts flat_map app].
    fold (Spec.answers t). fold (Spec.attempts t).
    rewrite attempts_app, answers_app, A, B.
    repeat split; try apply grows_refl; constructor. }
  unfold Proc.bind at 1, Convert.convertAll.
  destruct (convert_loop_any (List.length (file :: rest))
              (Path.dirname (hd EmptyString (file :: rest))) format scale fps
              (file :: rest) 0 w)
    as (r & w' & t2 & -> & G & (_ & S & B2) & _ & F & R2 & _).
  assert (F' : Forall (fun io => files w (snd io) = None) (Spec.attempts t2)).
  { eapply Forall_impl; [| exact F]. now intros io [_ H]. }
  destruct R2 as [[-> He] | [(-> & Htty & Hrun) | (n & ->)]].
  - do 3 eexists. split; [reflexivity |].
    cbn [Spec.answers Spec.attempts flat_map app].
    fold (Spec.answers (t ++ t2)). fold (Spec.attempts (t ++ t2)).
    rewrite attempts_app, answers_app, A, B, B2.
    split; [reflexivity |]. split; [exact S |]. split; [exact G |].
    split; [exact F' | exact He].
  - do 3 eexists. split; [reflexivity |].
    cbn [Spec.answers Spec.attempts flat_map app].
    fold (Spec.answers (t ++ t2)). fold (Spec.attempts (t ++ t2)).
    rewrite attempts_app, answers_app, A, B, B2.
    split; [reflexivity |]. split; [exact S |]. split; [exact G |].
    split; [exact F' |]. right. now repeat split.
  - run_logs. unfold Convert.log. rewrite console_recognised by reflexivity.
    do 3 eexists. split; [reflexivity |].
    cbn [Spec.answers Spec.attempts flat_map app].
    fold (Spec.answers (t ++ t2 ++ [Console "white" TotalTime])).
    fold (Spec.attempts (t ++ t2 ++ [Console "white" TotalTime])).
    rewrite !attempts_app, !answers_app, A, B, B2. cbn [Spec.answers Spec.attempts flat_map app].
    rewrite app_nil_r.
    split; [reflexivity |]. split; [exact S |]. split; [exact G |].
    split; [exact F' | exact Hlen].
Qed.

(** The arguments of the non-interactive driver, the three settings last. *)
Lemma convert_args (inputPaths : list string) (format scale fps : string) :
  let args := inputPaths ++ [format; scale; fps] in
  List.length args = List.length inputPaths + 3
  /\ firstn (List.length args - 3) args = inputPaths
  /\ nth (List.length args - 3) args EmptyString = format
  /\ nth (List.length args - 2) args EmptyString = scale
  /\ nth (List.length args - 1) args EmptyString = fps.
Proof.
  intros args. assert (Hlen : List.length args = List.length inputPaths + 3).
  { unfold args. rewrite length_app. reflexivity. }
  split; [exact Hlen |]. rewrite Hlen.
  replace (List.length inputPaths + 3 - 3) with (List.length inputPaths + 0) by lia.
  replace (List.length inputPaths + 3 - 2) with (List.length inputPaths + 1) by lia.
  replace (List.length inputPaths + 3 - 1) with (List.length inputPaths + 2) by lia.
  unfold args. rewrite firstn_app_2, !app_nth2_plus. cbn [firstn nth].
  now rewrite app_nil_r.
Qed.

Lemma lowerChar_twice (c : ascii) : Js.lowerChar (Js.lowerChar c) = Js.lowerChar c.
Proof. destruct c as [[] [] [] [] [] [] [] []]; reflexivity. Qed.

Lemma toLowerCase_twice (s : string) :
  Js.toLowerCase (Js.toLowerCase s) = Js.toLowerCase s.
Proof.
  unfold Js.toLowerCase. rewrite chars_str, map_map. f_equal.
  apply map_ext. apply lowerChar_twice.
Qed.

(** X17.  A path that cannot be read ends the non-interactive driver.  With
    the three settings after the input paths and a format of the list, an
    input path that cannot be inspected (or a directory that cannot be
    listed, or an entry listed that cannot be inspected) makes the main
    function end with the error of the file system for such a path,
    whatever its code, before the engine has been run for any file, the
    readable paths included. *)
Theorem convert_main_unreadable_path :
  forall (inputPaths : list string) (format scale fps : string) (w : World)
         (p : string),
    Js.includes Convert.formats (Js.toLowerCase format) = true ->
    Spec.unreadable w inputPaths p ->
    exists q t,
      Convert.main (inputPaths ++ [format; scale; fps]) w
      = (Stop (Uncaught (Spec.errorAt w q)), w, t)
      /\ Spec.unreadable w inputPaths q
      /\ Spec.attempts t = [].
Proof.
  intros inputPaths format scale fps w p Hfmt Hp.
  destruct (convert_args inputPaths format scale fps) as (Hlen & Hps & Hf & Hs & Hr).
  unfold Convert.main. rewrite Hps, Hf, Hs, Hr, Hlen, Hfmt.
  assert (Hne : inputPaths <> []).
  { intros ->. now apply (unreadable_nil w p). }
  destruct (List.length inputPaths + 3 <? 4) eqn:E.
  { apply Nat.ltb_lt in E. destruct inputPaths; [contradiction | simpl in E; lia]. }
  cbn [negb]. run_logs. unfold Proc.bind at 1.
  destruct (convert_discovery_any inputPaths w) as (r & t & -> & A & B & R).
  destruct r as [mediaFiles | h].
  - exfalso. destruct R as [Hread _]. now apply (Hread p).
  - destruct R as (q & -> & Hq). do 2 eexists. split; [reflexivity |].
    split; [exact Hq |]. cbn [Spec.attempts flat_map app]. exact A.
Qed.

Lemma convert_main_unreadable_path_witness :
  (exists q t,
      Convert.main (["vids"; "nowhere"]%string ++ ["GIF"; "auto"; "30"]%string)
        Spec.mixedFolder
      = (Stop (Uncaught (Spec.errorAt Spec.mixedFolder q)), Spec.mixedFolder, t)
      /\ Spec.unreadable Spec.mixedFolder ["vids"; "nowhere"]%string q
      /\ Spec.attempts t = [])
  /\ (let w := Spec.withCodes Spec.throughAFile Spec.mixedFolder in
      (exists q t,
          Convert.main (["vids/a.mp4/"]%string ++ ["gif"; "auto"; "30"]%string) w
          = (Stop (Uncaught (Spec.errorAt w q)), w, t)
          /\ Spec.unreadable w ["vids/a.mp4/"]%string q
          /\ Spec.attempts t = [])
      /\ Spec.errorAt w "vids/a.mp4/" = SystemError "ENOTDIR" stat "vids/a.mp4/"
      /\ Convert.main ["vids/a.mp4/"; "gif"; "auto"; "30"]%string w
         = (Stop (Uncaught (SystemError "ENOTDIR" stat "vids/a.mp4/")), w,
            [Console "white" (InputPaths ["vids/a.mp4/"%string]);
             Console "white" (Setting "Format" "gif");
             Console "white" (Setting "Scale" "auto");
             Console "white" (Setting "FPS" "30");
             Console "white" (Checking "vids/a.mp4/")])).
Proof.
  split; [| split; [| split]].
  - apply (convert_main_unreadable_path ["vids"; "nowhere"] "GIF" "auto" "30"
             Spec.mixedFolder "nowhere")%string.
    + reflexivity.
    + left. split; [cbn; tauto | left; reflexivity].
  - apply (convert_main_unreadable_path ["vids/a.mp4/"] "gif" "auto" "30"
             (Spec.withCodes Spec.throughAFile Spec.mixedFolder) "vids/a.mp4/")%string.
    + reflexivity.
    + left. split; [cbn; tauto | left; reflexivity].
  - reflexivity.
  - vm_compute. reflexivity.
Defined.

(** X18.  The format on the command line of the non-interactive driver is
    read without regard to case: the main function does the same with a
    format and with that format in lower case. *)
Theorem convert_main_format_in_any_case :
  forall (inputPaths : list string) (format scale fps : string) (w : World),
    Convert.main (inputPaths ++ [format; scale; fps]) w
    = Convert.main (inputPaths ++ [Js.toLowerCase format; scale; fps]) w.
Proof.
  intros inputPaths format scale fps w.
  destruct (convert_args inputPaths format scale fps) as (Hlen & Hps & Hf & Hs & Hr).
  destruct (convert_args inputPaths (Js.toLowerCase format) scale fps)
    as (Hlen' & Hps' & Hf' & Hs' & Hr').
  unfold Convert.main.
  rewrite Hps, Hf, Hs, Hr, Hlen, Hps', Hf', Hs', Hr', Hlen', toLowerCase_twice.
  reflexivity.
Qed.

(** The interactive driver. *)

Lemma bind_ret {A B} (m : Proc A) (k : A -> Proc B) (w w1 : World) (a : A)
  (t1 : list Event) :
  m w = (Ret a, w1, t1) ->
  Proc.bind m k w = (let '(r, w2, t2) := k a w1 in (r, w2, t1 ++ t2)).
Proof. intros H. unfold Proc.bind. now rewrite H. Qed.

Lemma bind_stop {A B} (m : Proc A) (k : A -> Proc B) (w w1 : World) (h : Halt)
  (t1 : list Event) :
  m w = (Stop h, w1, t1) -> Proc.bind m k w = (Stop h, w1, t1).
Proof. intros H. unfold Proc.bind. now rewrite H. Qed.

Lemma onlyReads_grows (w w' : World) (t : list Event) :
  Spec.onlyReads w w' t -> Spec.grows w w'.
Proof.
  intros (F & _ & _ & _ & _ & C & T). repeat split; [| exact C | exact T].
  intros p. now rewrite F.
Qed.

Lemma onlyReads_consistent (w w' : World) (t : list Event) :
  Spec.onlyReads w w' t -> Spec.consistent w -> Spec.consistent w'.
Proof.
  intros (F & L & _) H d. unfold Spec.isFolder. rewrite F, L. apply H.
Qed.

Lemma onlyReads_isFolder (w w' : World) (t : list Event) (args : list string) :
  Spec.onlyReads w w' t ->
  filter (Spec.isFolder w) args = filter (Spec.isFolder w') args.
Proof.
  intros (F & _). apply filter_ext. intros d. unfold Spec.isFolder. now rewrite F.
Qed.

(** A run that has only read lines so far, and then ends well. *)
Lemma endsWell_after (w w1 : World) (t1 : list Event)
  (r : Outcome unit) (w' : World) (t : list Event) :
  Spec.onlyReads w w1 t1 ->
  Spec.endsWell w1 (r, w', t) ->
  Spec.endsWell w (r, w', t1 ++ t).
Proof.
  intros R1 (G & L & S & M). pose proof R1 as (F1 & L1 & E1 & A1 & S1 & C1 & T1).
  unfold Spec.endsWell.
  split; [apply (grows_trans w w1 w'); [now apply (onlyReads_grows w w1 t1) | exact G] |].
  split; [congruence |].
  split; [rewrite answers_app, <- app_assoc; congruence |].
  destruct r as [[] | [code | e | |]]; [exact I | | | exact M | exact M].
  - destruct M as [(-> & A & F) | ->]; [left | now right].
    rewrite attempts_app, A1, A. repeat split. congruence.
  - destruct M as [[He Hno] | Hdf].
    + left. split; [exact He |].
      intros Hok. apply Hno. now apply (onlyReads_consistent w w1 t1).
    + right. apply (displayFails_later w w1);
        [exists []; now rewrite E1 | exact T1 | exact Hdf].
Qed.

Lemma endsWell_waits (w w1 : World) (t1 : list Event) :
  Spec.onlyReads w w1 t1 -> stdin w1 = [] -> Spec.endsWell w (Stop Waiting, w1, t1).
Proof.
  intros R1 He. pose proof R1 as (F1 & L1 & E1 & A1 & S1 & _). unfold Spec.endsWell.
  split; [now apply (onlyReads_grows w w1 t1) |]. auto.
Qed.

Lemma onlyReads_logs (w w' : World) (t logs : list Event) :
  Spec.onlyReads w w' t ->
  Spec.attempts logs = [] -> Spec.answers logs = [] ->
  Spec.onlyReads w w' (t ++ logs).
Proof.
  unfold Spec.onlyReads. intros (F & L & E & A & S & C & T) A2 B2.
  now rewrite attempts_app, answers_app, A, A2, B2, !app_nil_r.
Qed.

(** A path among the directories of a consistent file system can be read. *)
Lemma unreadable_inconsistent (w : World) (args : list string) (p : string) :
  Spec.unreadable w (filter (Spec.isFolder w) args) p -> ~ Spec.consistent w.
Proof.
  intros [[Hin [Hn | [Hf Hl]]] | (d & names & n & Hd & Hf & Hl & Hn & -> & Hq)] Hok.
  - apply filter_In in Hin. destruct Hin as [_ Hin].
    unfold Spec.isFolder in Hin. rewrite Hn in Hin. discriminate.
  - destruct (Hok p Hf) as (names & Hl' & _). congruence.
  - destruct (Hok d Hf) as (names' & Hl' & Hall).
    rewrite Hl in Hl'. injection Hl' as <-.
    rewrite Forall_forall in Hall. now apply (Hall n).
Qed.

Lemma parseArguments_run (args : list string) (w : World) :
  Cli.parseArguments args w = (Ret (filter (Spec.isFolder w) args), w, []).
Proof. unfold Cli.parseArguments. now rewrite parseArguments_from. Qed.

Ltac step H :=
  first [rewrite (bind_ret _ _ _ _ _ _ H) | rewrite (bind_stop _ _ _ _ _ _ H)];
  cbn beta iota.

Ltac logs := unfold Cli.logWithTimestamp;
  repeat (rewrite console_then by reflexivity; cbn beta iota).

(** One turn of the main function: either it ends, and ends well, whatever
    would follow a restart; or it restarts, having read a line at least. *)
Lemma round_cases (args : list string) (w : World) :
  (exists result,
      Spec.endsWell w result /\ forall again, Cli.round args again w = result)
  \/ (exists w1 t1,
         Spec.onlyReads w w1 t1 /\ Spec.answers t1 <> []
         /\ forall again,
              Cli.round args again w
              = (let '(r, w', t) := again w1 in (r, w', t1 ++ t))).
Proof.
  pose proof (parseArguments_run args w) as Hp.
  set (ps := filter (Spec.isFolder w) args) in *.
  (* the scale *)
  destruct (promptUserScaleLoop_any (stdin w) w (S (List.length (stdin w)))
              eq_refl (Nat.lt_succ_diag_r _)) as (r1 & w1 & t1 & H1 & R1 & M1).
  change (Cli.promptUserScale w = (r1, w1, t1)) in H1.
  destruct r1 as [scale | h1].
  2: { destruct M1 as (-> & He & _). left. exists (Stop Waiting, w1, t1).
       split; [now apply endsWell_waits |].
       intros again. unfold Cli.round. step Hp. step H1. reflexivity. }
  assert (N1 : Spec.answers t1 <> []).
  { destruct M1 as (rejected & answer & -> & _). now destruct rejected. }
  (* the fps *)
  destruct (promptUserFpsLoop_any (stdin w1) w1 (S (List.length (stdin w1)))
              eq_refl (Nat.lt_succ_diag_r _)) as (r2 & w2 & t2 & H2 & R2 & M2).
  change (Cli.promptUserFps w1 = (r2, w2, t2)) in H2.
  destruct r2 as [fps | h2].
  2: { destruct M2 as (-> & He & _). left. exists (Stop Waiting, w2, t1 ++ t2).
       split; [apply (endsWell_after w w1); [exact R1 | now apply endsWell_waits] |].
       intros again. unfold Cli.round. step Hp. step H1. step H2. reflexivity. }
  (* the format *)
  destruct (promptUserFormat_any w2) as (r3 & w3 & t3 & H3 & R3 & M3).
  destruct r3 as [format | h3].
  2: { destruct M3 as (-> & He). left. exists (Stop Waiting, w3, t1 ++ t2 ++ t3).
       split.
       - apply (endsWell_after w w1); [exact R1 |].
         apply (endsWell_after w1 w2); [exact R2 |].
         apply endsWell_waits; [exact R3 |].
         destruct R3 as (_ & _ & _ & _ & S3 & _). rewrite He in S3.
         symmetry in S3. now apply app_eq_nil in S3.
       - intros again. unfold Cli.round. step Hp. step H1. step H2. step H3.
         reflexivity. }
  set (shown := [Console "whiteBright" (InputPaths ps);
                 Console "whiteBright" (Setting "Scale" scale);
                 Console "whiteBright" (Setting "FPS" fps);
                 Console "whiteBright" (Setting "Format" (Cli.shownFormat format))]).
  assert (R : Spec.onlyReads w w3 (t1 ++ t2 ++ t3 ++ shown)).
  { apply (onlyReads_trans w w1 w3); [exact R1 |].
    apply (onlyReads_trans w1 w2 w3); [exact R2 |].
    now apply onlyReads_logs. }
  destruct format as [format |].
  2: { right. exists w3.
       exists (t1 ++ t2 ++ t3 ++ shown
               ++ [Console "redBright" (Text "Invalid format. Restarting.")]).
       split; [| split].
       - replace (t1 ++ t2 ++ t3 ++ shown
                  ++ [Console "redBright" (Text "Invalid format. Restarting.")])
           with ((t1 ++ t2 ++ t3 ++ shown)
                 ++ [Console "redBright" (Text "Invalid format. Restarting.")])
           by now rewrite <- ?app_assoc.
         now apply onlyReads_console.
       - rewrite answers_app. intros E. apply app_eq_nil in E. now destruct E.
       - intros again. unfold Cli.round. step Hp. step H1. step H2. step H3. logs.
         destruct (again w3) as [[r w'] t]. cbn [app].
         now rewrite <- ?app_assoc. }
  (* discovery *)
  destruct (cli_discovery_any ps w3) as (r4 & t4 & H4 & A4 & B4 & M4).
  assert (R4 : Spec.onlyReads w w3 ((t1 ++ t2 ++ t3 ++ shown) ++ t4))
    by now apply onlyReads_logs.
  destruct r4 as [found | h4].
  2: { left. exists (Stop h4, w3, t1 ++ t2 ++ t3 ++ shown ++ t4). split.
       - destruct M4 as (p & -> & Hp4). pose proof R4 as (F & L & E & A & S & _).
         unfold Spec.endsWell. rewrite <- ?app_assoc in S.
         split; [now apply (onlyReads_grows w w3 _ R4) |].
         split; [exact L |]. split; [exact S |]. left.
         split; [unfold Spec.errorAt; now do 3 eexists |]. intros Hok.
         unfold ps in Hp4. rewrite (onlyReads_isFolder w w3 _ args R) in Hp4.
         apply (unreadable_inconsistent w3 args p Hp4).
         now apply (onlyReads_consistent w w3 _ R).
       - intros again. unfold Cli.round. step Hp. step H1. step H2. step H3. logs.
         step H4. cbn [app]. now rewrite <- ?app_assoc. }
  destruct M4 as [_ W4].
  destruct found as [|file rest].
  { left.
    exists (Ret tt, w3, t1 ++ t2 ++ t3 ++ shown ++ t4
                        ++ [Console "redBright" (Text "No video files found.")]).
    split.
    - assert (R' : Spec.onlyReads w w3
                     (((t1 ++ t2 ++ t3 ++ shown) ++ t4)
                      ++ [Console "redBright" (Text "No video files found.")]))
        by now apply onlyReads_console.
      rewrite <- ?app_assoc in R'. pose proof R' as (F & L & E & A & S & _).
      unfold Spec.endsWell.
      split; [now apply (onlyReads_grows w w3 _ R') |]. auto.
    - intros again. unfold Cli.round. step Hp. step H1. step H2. step H3. logs.
      step H4. unfold Cli.logWithTimestamp. rewrite console_recognised by reflexivity.
      cbn [app]. now rewrite <- ?app_assoc. }
  (* the prompt to start *)
  destruct (promptStartConversionLoop_any (stdin w3) w3 (S (List.length (stdin w3)))
              eq_refl (Nat.lt_succ_diag_r _)) as (r5 & w5 & t5 & H5 & R5 & M5).
  change (Cli.promptStartConversion w3 = (r5, w5, t5)) in H5.
  assert (R' : Spec.onlyReads w w5 (((t1 ++ t2 ++ t3 ++ shown) ++ t4) ++ t5))
    by now apply (onlyReads_trans w w3 w5).
  destruct r5 as [[|] | h5].
  - (* the conversions *)
    destruct (cli_convertAll_any format scale fps (file :: rest) w5)
      as (r6 & w6 & t6 & H6 & G6 & _ & L6 & S6 & _ & _ & _ & _ & M6).
    left.
    exists (match r6 with Ret _ => Ret tt | Stop h => Stop h end, w6,
            t1 ++ t2 ++ t3 ++ shown ++ t4 ++ t5 ++ t6).
    split.
    + replace (t1 ++ t2 ++ t3 ++ shown ++ t4 ++ t5 ++ t6)
        with ((((t1 ++ t2 ++ t3 ++ shown) ++ t4) ++ t5) ++ t6)
        by now rewrite <- ?app_assoc.
      apply (endsWell_after w w5); [exact R' |]. unfold Spec.endsWell.
      split; [exact G6 |]. split; [exact L6 |]. split; [exact S6 |].
      destruct r6 as [v | [code | e | |]];
        [exact I | now right | | exact M6 | exact M6].
      destruct M6 as [(f & Hin & _ & Hf) | Hdf]; [exfalso | now right].
      apply W4 in Hin. destruct Hin as (Hreg & _).
      unfold Spec.regular in Hreg. destruct R5 as (F5 & _).
      rewrite <- F5, Hf in Hreg. discriminate.
    + intros again. unfold Cli.round. step Hp. step H1. step H2. step H3. logs.
      step H4. step H5.
      destruct r6 as [v | h6]; step H6; cbn [app Proc.ret]; now rewrite <- ?app_assoc, ?app_nil_r.
  - (* the restart *)
    right. exists w5.
    exists (t1 ++ t2 ++ t3 ++ shown ++ t4 ++ t5
            ++ [Console "cyanBright" (Text "Restarting conversion process.")]).
    split; [| split].
    + replace (t1 ++ t2 ++ t3 ++ shown ++ t4 ++ t5
               ++ [Console "cyanBright" (Text "Restarting conversion process.")])
        with ((((t1 ++ t2 ++ t3 ++ shown) ++ t4) ++ t5)
              ++ [Console "cyanBright" (Text "Restarting conversion process.")])
        by now rewrite <- ?app_assoc.
      now apply onlyReads_console.
    + rewrite answers_app. intros E. apply app_eq_nil in E. now destruct E.
    + intros again. unfold Cli.round. step Hp. step H1. step H2. step H3. logs.
      step H4. step H5. logs.
      destruct (again w5) as [[r w'] t]. cbn [app].
      now rewrite <- ?app_assoc.
  - (* the prompt ends the run *)
    left. exists (Stop h5, w5, t1 ++ t2 ++ t3 ++ shown ++ t4 ++ t5). split.
    + rewrite <- ?app_assoc in R'. pose proof R' as (F & L & E & A & S & _).
      unfold Spec.endsWell.
      split; [now apply (onlyReads_grows w w5 _ R') |].
      split; [exact L |]. split; [exact S |].
      destruct h5 as [code | e | |].
      * destruct M5 as [-> _]. left. auto.
      * destruct M5.
      * destruct M5 as [He _]. now left.
      * destruct M5.
    + intros again. unfold Cli.round. step Hp. step H1. step H2. step H3. logs.
      step H4. step H5. cbn [app]. now rewrite <- ?app_assoc.
Qed.

Lemma mainLoop_any (args : list string) :
  forall (n : nat) (w : World),
    List.length (stdin w) < n -> Spec.endsWell w (Cli.mainLoop n args w).
Proof.
  induction n as [|n IH]; intros w Hn; [inversion Hn |].
  cbn [Cli.mainLoop].
  destruct (round_cases args w) as [(res & Hres & ->) | (w1 & t1 & R1 & N1 & ->)];
    [exact Hres |].
  destruct (Cli.mainLoop n args w1) as [[r w'] t] eqn:E.
  apply (endsWell_after w w1); [exact R1 |]. rewrite <- E. apply IH.
  destruct R1 as (_ & _ & _ & _ & S1 & _). rewrite S1, length_app in Hn.
  destruct (Spec.answers t1); [contradiction | simpl in Hn; lia].
Qed.

(** The number of turns allowed does not matter once it exceeds the number
    of lines there are to read. *)
Lemma mainLoop_fuel (args : list string) :
  forall (n m : nat) (w : World),
    List.length (stdin w) < n -> List.length (stdin w) < m ->
    Cli.mainLoop n args w = Cli.mainLoop m args w.
Proof.
  induction n as [|n IH]; intros m w Hn Hm; [inversion Hn |].
  destruct m as [|m]; [inversion Hm |].
  cbn [Cli.mainLoop].
  destruct (round_cases args w) as [(res & _ & Heq) | (w1 & t1 & R1 & N1 & Heq)];
    rewrite !Heq; [reflexivity |].
  rewrite (IH m w1); [reflexivity | |];
    destruct R1 as (_ & _ & _ & _ & S1 & _); rewrite S1, length_app in *;
    (destruct (Spec.answers t1); [contradiction | simpl in *; lia]).
Qed.

(** X19.  The interactive driver as a whole, for any arguments and from any
    world.  Whatever happens, the file system has only grown and the lines
    read are the first lines there were to read.  It ends the process only
    with the exit code 0, and then nothing has been converted and the file
    system is as it was, or with the exit code 1.  An error of the file
    system escapes it only on a file system on which some directory cannot
    be listed or some listed entry cannot be inspected; any other exception
    that escapes it is one of the two of the progress display, and the
    engine then has a run whose reports cannot be shown, for want of a
    terminal or of a percentage.  And it is left waiting only when the lines
    of the user or the runs of the engine have run out: the turns of its
    loop never do. *)
Theorem cli_main_outcomes :
  forall (args : list string) (w : World),
    exists r w' t,
      Cli.main args w = (r, w', t)
      /\ Spec.grows w w' /\ listing w' = listing w
      /\ stdin w = Spec.answers t ++ stdin w'
      /\ match r with
         | Ret _ => True
         | Stop (Exit code) =>
             (code = 0 /\ Spec.attempts t = [] /\ files w' = files w) \/ code = 1
         | Stop (Uncaught e) =>
             ((exists code call p, e = SystemError code call p)
              /\ ~ Spec.consistent w)
             \/ Spec.displayFails w e
         | Stop Waiting => stdin w' = [] \/ engine w' = []
         | Stop NotFollowed => False
         end.
Proof.
  intros args w. unfold Cli.main.
  pose proof (mainLoop_any args (S (List.length (stdin w))) w (Nat.lt_succ_diag_r _))
    as H.
  destruct (Cli.mainLoop (S (List.length (stdin w))) args w) as [[r w'] t].
  exists r, w', t. split; [reflexivity | exact H].
Qed.

Lemma world_answered (w w' : World) (t : list Event) (a b : string)
  (rest : list string) :
  stdin w = a :: rest -> Spec.onlyReads w w' t -> Spec.answers t = [b] ->
  w' = Spec.answered w rest /\ b = a.
Proof.
  intros Hin (F & L & E & _ & S & C & T) B. rewrite B, Hin in S. injection S as -> ->.
  split; [| reflexivity]. destruct w'. unfold Spec.answered. cbn in *. congruence.
Qed.

(** The three settings, from three lines. *)
Lemma round_settings (args : list string) (w : World) (a1 a2 a3 : string)
  (rest : list string) (scale fps : string) :
  stdin w = a1 :: a2 :: a3 :: rest ->
  Spec.accepts (Js.trim a1) scale ->
  Spec.acceptsFps (Js.trim a2) fps ->
  exists format t3,
    Cli.promptUserScale w
    = (Ret scale, Spec.answered w (a2 :: a3 :: rest), [Spec.enterScaleLine; Asked a1])
    /\ Cli.promptUserFps (Spec.answered w (a2 :: a3 :: rest))
       = (Ret fps, Spec.answered w (a3 :: rest), [Spec.enterFpsLine; Asked a2])
    /\ Cli.promptUserFormat (Spec.answered w (a3 :: rest))
       = (Ret format, Spec.answered w rest, t3)
    /\ Spec.attempts t3 = [] /\ Spec.answers t3 = [a3]
    /\ (format = None <-> ~ In (Js.trim a3) ["1"; "2"; "3"; "4"; "5"]%string).
Proof.
  intros Hin Hs Hf.
  destruct (promptUserFormat_any (Spec.answered w (a3 :: rest)))
    as (r3 & w3 & t3 & H3 & R3 & M3).
  destruct r3 as [format | h]; [| now destruct M3 as [_ He]].
  destruct M3 as [(answer & B3 & Hnone) _].
  destruct (world_answered (Spec.answered w (a3 :: rest)) w3 t3 a3 answer rest
              eq_refl R3 B3) as [-> ->].
  change (Spec.answered (Spec.answered w (a3 :: rest)) rest)
    with (Spec.answered w rest) in *.
  exists format, t3. split; [| split; [| split; [| split; [| split]]]].
  - unfold Cli.promptUserScale. rewrite Hin.
    now apply promptUserScaleLoop_accept.
  - exact (promptUserFpsLoop_accept _ (Spec.answered w (a2 :: a3 :: rest)) a2 fps
             (a3 :: rest) eq_refl Hf).
  - exact H3.
  - apply R3.
  - exact B3.
  - exact Hnone.
Qed.

Lemma mainLoop_S (n : nat) (args : list string) :
  Cli.mainLoop (S n) args = Cli.round args (Cli.mainLoop n args).
Proof. reflexivity. Qed.

(** A turn in which the format given is none of the codes. *)
Lemma round_invalid_format (args : list string) (again : Proc unit) (w : World)
  (a1 a2 a3 : string) (rest : list string) (scale fps : string) :
  stdin w = a1 :: a2 :: a3 :: rest ->
  Spec.accepts (Js.trim a1) scale ->
  Spec.acceptsFps (Js.trim a2) fps ->
  ~ In (Js.trim a3) ["1"; "2"; "3"; "4"; "5"]%string ->
  exists t0,
    Spec.attempts t0 = []
    /\ Spec.answers t0 = [a1; a2; a3]
    /\ Cli.round args again w
       = (let '(r, w', t) := again (Spec.answered w rest) in (r, w', t0 ++ t)).
Proof.
  intros Hin Hs Hf Hbad.
  destruct (round_settings args w a1 a2 a3 rest scale fps Hin Hs Hf)
    as (format & t3 & H1 & H2 & H3 & A3 & B3 & Hnone).
  assert (format = None) as -> by now apply Hnone.
  pose proof (parseArguments_run args w) as Hp.
  exists ([Spec.enterScaleLine; Asked a1; Spec.enterFpsLine; Asked a2] ++ t3
          ++ [Console "whiteBright" (InputPaths (filter (Spec.isFolder w) args));
              Console "whiteBright" (Setting "Scale" scale);
              Console "whiteBright" (Setting "FPS" fps);
              Console "whiteBright" (Setting "Format" (Cli.shownFormat None));
              Console "redBright" (Text "Invalid format. Restarting.")]).
  split; [| split].
  - rewrite !attempts_app, A3. reflexivity.
  - rewrite !answers_app, B3. reflexivity.
  - unfold Cli.round. step Hp. step H1. step H2. step H3. logs.
    destruct (again (Spec.answered w rest)) as [[r w'] t].
    cbn [app]. rewrite <- ?app_assoc. reflexivity.
Qed.

(** X20.  After an invalid format everything is asked again.  The user
    gives a scale and an fps that are accepted and then a line that is none
    of the codes of the format prompt: the main function goes on exactly as
    if it were started afresh on the lines that follow, nothing having been
    converted; the scale and the fps just given are forgotten. *)
Theorem invalid_format_starts_over :
  forall (args : list string) (w : World) (a1 a2 a3 : string) (rest : list string)
         (scale fps : string),
    stdin w = a1 :: a2 :: a3 :: rest ->
    Spec.accepts (Js.trim a1) scale ->
    Spec.acceptsFps (Js.trim a2) fps ->
    ~ In (Js.trim a3) ["1"; "2"; "3"; "4"; "5"]%string ->
    exists t0,
      Spec.attempts t0 = []
      /\ Spec.answers t0 = [a1; a2; a3]
      /\ Cli.main args w
         = (let '(r, w', t) := Cli.main args (Spec.answered w rest) in
            (r, w', t0 ++ t)).
Proof.
  intros args w a1 a2 a3 rest scale fps Hin Hs Hf Hbad.
  destruct (round_invalid_format args
              (Cli.mainLoop (List.length (stdin w)) args) w a1 a2 a3 rest scale fps
              Hin Hs Hf Hbad) as (t0 & A0 & B0 & Hround).
  exists t0. split; [exact A0 |]. split; [exact B0 |].
  unfold Cli.main. rewrite mainLoop_S, Hround.
  rewrite (mainLoop_fuel args (List.length (stdin w))
             (S (List.length (stdin (Spec.answered w rest))))
             (Spec.answered w rest)); [reflexivity | |].
  - rewrite Hin. cbn [Spec.answered stdin List.length]. lia.
  - lia.
Qed.

Lemma invalid_format_starts_over_witness :
  exists t0,
    Spec.attempts t0 = []
    /\ Spec.answers t0 = ["1.5"; " 30 "; "9"]%string
    /\ Cli.main ["vids"%string] (Spec.twoVideos ["1.5"; " 30 "; "9"; "auto"]%string [])
       = (let '(r, w', t) :=
            Cli.main ["vids"%string]
              (Spec.answered (Spec.twoVideos ["1.5"; " 30 "; "9"; "auto"]%string [])
                 ["auto"%string]) in
          (r, w', t0 ++ t)).
Proof.
  apply (invalid_format_starts_over ["vids"%string]
           (Spec.twoVideos ["1.5"; " 30 "; "9"; "auto"]%string [])
           "1.5" " 30 " "9" ["auto"%string] "1.5" "30")%string.
  - reflexivity.
  - intros w. vm_compute. reflexivity.
  - intros w. vm_compute. reflexivity.
  - vm_compute. intuition discriminate.
Defined.

(** ** The helpers *)

(** X21.  [formatPercentage].  Of a number from 0 and below [10^21] it is
    a number with exactly two decimals, followed by the percent sign.  From
    [10^21] on the number is written with an exponent instead, and no
    decimals are added: for [10^21] itself the result is [1e+21%].  Of
    [NaN] it is [NaN%].  And of undefined, which the engine gives when it
    does not know the duration of the input, the call throws a
    [TypeError]. *)
Theorem formatPercentage_two_decimals :
  (forall percent : Q,
      (0 <= percent)%Q -> (percent < inject_Z (Num.pow10 21))%Q ->
      exists s, Functions.formatPercentage (Some (Finite percent)) = Ok s
                /\ Spec.twoDecimals "%" s)
  /\ (forall percent : Q,
        (inject_Z (Num.pow10 21) <= percent)%Q ->
        Functions.formatPercentage (Some (Finite percent))
        = Ok (Num.exponential percent ++ "%")%string)
  /\ Functions.formatPercentage (Some (Finite (inject_Z (Num.pow10 21))))
     = Ok "1e+21%"%string
  /\ Functions.formatPercentage (Some NaN) = Ok "NaN%"%string
  /\ Functions.formatPercentage None = Throw Spec.noPercent.
Proof.
  split; [| split; [| split; [| split]]].
  - intros percent H Hlt. eexists. split; [reflexivity |].
    now apply twoDecimals_unit, toFixed_two_decimals.
  - intros percent H. unfold Functions.formatPercentage, Num.toFixed.
    assert (H0 : (0 <= percent)%Q).
    { apply Qle_trans with (inject_Z (Num.pow10 21)); [| exact H]. discriminate. }
    assert (Ha : Qabs percent = percent).
    { destruct percent as [n d]. unfold Qabs. f_equal. apply Z.abs_eq.
      unfold Qle in H0. cbn in H0. lia. }
    rewrite Ha. apply Qle_bool_iff in H0, H. now rewrite H0, H.
  - vm_compute. reflexivity.
  - reflexivity.
  - reflexivity.
Qed.

Lemma formatPercentage_two_decimals_witness :
  (exists s, Functions.formatPercentage (Some (Finite (25 # 2)%Q)) = Ok s
             /\ Spec.twoDecimals "%" s)
  /\ Functions.formatPercentage (Some (Finite (25 # 2)%Q)) = Ok "12.50%"%string
  /\ Functions.formatPercentage (Some (Finite (15 * inject_Z (Num.pow10 21))%Q))
     = Ok (Num.exponential (15 * inject_Z (Num.pow10 21))%Q ++ "%")%string
  /\ Functions.formatPercentage (Some (Finite (15 * inject_Z (Num.pow10 21))%Q))
     = Ok "1.5e+22%"%string.
Proof.
  split; [| split; [| split]].
  - apply (proj1 formatPercentage_two_decimals (25 # 2)%Q); vm_compute;
      reflexivity || discriminate.
  - vm_compute. reflexivity.
  - apply (proj1 (proj2 formatPercentage_two_decimals)). vm_compute. discriminate.
  - vm_compute. reflexivity.
Defined.



(** ** Running again, and the two drivers side by side *)

Lemma attempts_run (input : string) (options : list string) (output : string)
  (lines : list Line) (rest : list Event) :
  Spec.attempts (Started input options output :: Spec.redraws lines ++ rest)
  = (input, output) :: Spec.attempts rest.
Proof.
  change (Started input options output :: Spec.redraws lines ++ rest)
    with ([Started input options output] ++ Spec.redraws lines ++ rest).
  now rewrite !attempts_app, attempts_redraws.
Qed.

Lemma successes_run (input : string) (options : list string) (output : string)
  (lines : list Line) (rest : list Event) :
  Spec.successes (Started input options output :: Spec.redraws lines ++ rest)
  = Spec.successes rest.
Proof.
  change (Started input options output :: Spec.redraws lines ++ rest)
    with ([Started input options output] ++ Spec.redraws lines ++ rest).
  now rewrite !successes_app, successes_redraws.
Qed.

Lemma failures_run (input : string) (options : list string) (output : string)
  (lines : list Line) (rest : list Event) :
  Spec.failures (Started input options output :: Spec.redraws lines ++ rest)
  = Spec.failures rest.
Proof.
  change (Started input options output :: Spec.redraws lines ++ rest)
    with ([Started input options output] ++ Spec.redraws lines ++ rest).
  now rewrite !failures_app, failures_redraws.
Qed.

Lemma convert_convertFile_leaves_output (total : nat) (folder format scale fps : string)
  (n : nat) (file : string) (w : World) (n' : nat) (w1 : World) (t1 : list Event) :
  Convert.convertFile total folder format scale fps n file w = (Ret n', w1, t1) ->
  Spec.failures t1 = [] ->
  files w1 (Convert.outputFile folder format file) <> None.
Proof.
  destruct (files w (Convert.outputFile folder format file)) eqn:Hp.
  - rewrite convert_convertFile_present by (rewrite Hp; discriminate).
    intros [= _ <- _] _. rewrite Hp. discriminate.
  - rewrite convert_convertFile_absent by assumption.
    destruct (engine w) as [|run es] eqn:E.
    + rewrite convert_tryConvert_waits by assumption. discriminate.
    + destruct (redrawable_dec w run) as [Hd | Hd].
      * destruct (ending run) as [sz | msg p] eqn:Hev.
        -- rewrite (convert_tryConvert_end _ _ _ _ _ _ _ _ _ _ _ E Hev Hd).
           intros [= _ <- _] _. unfold Spec.afterRun. cbn [files].
           rewrite written_output. discriminate.
        -- rewrite (convert_tryConvert_error _ _ _ _ _ _ _ _ _ _ _ _ E Hev Hd).
           intros [= _ _ <-]. rewrite failures_run. discriminate.
      * rewrite (convert_tryConvert_aborts _ _ _ _ _ _ _ _ _ _ E Hd). discriminate.
Qed.

Lemma convert_loop_leaves_outputs (total : nat) (folder format scale fps : string)
  (mediaFiles : list string) :
  forall (n : nat) (w : World) (n' : nat) (w' : World) (t : list Event),
    Proc.forOf (Convert.convertFile total folder format scale fps) mediaFiles n w
    = (Ret n', w', t) ->
    Spec.failures t = [] ->
    Forall (fun f => files w' (Convert.outputFile folder format f) <> None) mediaFiles.
Proof.
  induction mediaFiles as [|file rest IH]; intros n w n' w' t Hrun Hok; [constructor |].
  rewrite forOf_cons in Hrun.
  destruct (Convert.convertFile total folder format scale fps n file w)
    as [[[n1 | h] w1] t1] eqn:H1; [| discriminate Hrun].
  destruct (convert_loop_any total folder format scale fps rest n1 w1)
    as (r2 & w2 & t2 & H2 & G2 & _).
  rewrite H2 in Hrun. injection Hrun as -> -> <-.
  rewrite failures_app in Hok. apply app_eq_nil in Hok. destruct Hok as [Hok1 Hok2].
  constructor.
  - apply G2. exact (convert_convertFile_leaves_output _ _ _ _ _ _ _ _ _ _ _ H1 Hok1).
  - exact (IH n1 w1 n' w' t2 H2 Hok2).
Qed.

Lemma convert_loop_skips (total : nat) (folder format scale fps : string)
  (mediaFiles : list string) (w : World) :
  Forall (fun f => files w (Convert.outputFile folder format f) <> None) mediaFiles ->
  forall n,
    exists t,
      Proc.forOf (Convert.convertFile total folder format scale fps) mediaFiles n w
      = (Ret n, w, t)
      /\ Spec.attempts t = [].
Proof.
  induction 1 as [|file rest Hfile _ IH]; intros n; [now exists [] |].
  rewrite forOf_cons, convert_convertFile_present by assumption.
  destruct (IH n) as (t & -> & A). eexists. split; [reflexivity |].
  rewrite attempts_app, A. reflexivity.
Qed.

(** X23.  Running the non-interactive loop again.  After a run of the loop
    that returned and in which no run of the engine failed, the output of
    every file of the list is there; so a second run over the same files,
    from any world with the files of the first run (whatever its terminal,
    and whatever the engine would do and report), runs the engine for none
    of them and leaves everything as it is. *)
Theorem convert_second_run_converts_nothing :
  forall (format scale fps : string) (mediaFiles : list string) (w : World)
         (n : nat) (w' : World) (t : list Event) (again : World),
    Convert.convertAll format scale fps mediaFiles w = (Ret n, w', t) ->
    Spec.failures t = [] ->
    files again = files w' ->
    exists t2,
      Convert.convertAll format scale fps mediaFiles again = (Ret 0, again, t2)
      /\ Spec.attempts t2 = [].
Proof.
  intros format scale fps mediaFiles w n w' t again Hrun Hok Hfiles.
  unfold Convert.convertAll in *.
  apply (convert_loop_skips _ _ _ _ _ mediaFiles again).
  rewrite Hfiles.
  exact (convert_loop_leaves_outputs _ _ _ _ _ _ _ _ _ _ _ Hrun Hok).
Qed.

Lemma convert_second_run_converts_nothing_witness :
  let first := Spec.twoVideos [] [Spec.halfway (End 4096%N); Spec.halfway (End 4096%N)] in
  exists n w' t,
    Convert.convertAll "gif" "auto" "30" ["vids/a.mp4"; "vids/b.mp4"]%string first
    = (Ret n, w', t)
    /\ Spec.attempts t = [("vids/a.mp4", "vids/a.gif"); ("vids/b.mp4", "vids/b.gif")]%string
    /\ let again :=
         mkWorld (files w') (listing w') (errno w') [] false
           [Spec.halfway (End 4096%N)] in
       exists t2,
         Convert.convertAll "gif" "auto" "30" ["vids/a.mp4"; "vids/b.mp4"]%string again
         = (Ret 0, again, t2)
         /\ Spec.attempts t2 = [].
Proof.
  intros first. do 3 eexists. split; [vm_compute; reflexivity |].
  split; [reflexivity |]. cbv zeta.
  eapply (convert_second_run_converts_nothing "gif" "auto" "30"
            ["vids/a.mp4"; "vids/b.mp4"] first)%string.
  - vm_compute. reflexivity.
  - reflexivity.
  - reflexivity.
Defined.

(** One file, when the interactive body returns without a line read. *)
Lemma drivers_agree_on_a_file (total : nat) (folder format scale fps : string)
  (v : Cli.Vars) (file : string) (w : World) (v' : Cli.Vars) (w1 : World)
  (t1 : list Event) :
  Cli.convertFile total folder format scale fps v file w = (Ret v', w1, t1) ->
  Spec.answers t1 = [] ->
  Cli.overwriteAll v = false ->
  Cli.skipAll v = false ->
  exists t1',
    Convert.convertFile total folder format scale fps (Cli.completedFiles v) file w
    = (Ret (Cli.completedFiles v'), w1, t1')
    /\ Spec.attempts t1' = Spec.attempts t1
    /\ Spec.successes t1' = Spec.successes t1
    /\ Cli.overwriteAll v' = false /\ Cli.skipAll v' = false.
Proof.
  intros Hrun Hnone Ho Hs.
  change (Cli.outputFile folder format file)
    with (Convert.outputFile folder format file) in *.
  destruct (files w (Convert.outputFile folder format file)) eqn:Hp.
  - exfalso.
    assert (Hp' : files w (Cli.outputFile folder format file) <> None)
      by (unfold Cli.outputFile; fold (Convert.outputFile folder format file);
          rewrite Hp; discriminate).
    destruct (stdin w) as [|answer rest] eqn:Hin.
    + destruct (cli_convertFile_waits total folder format scale fps v file w
                  Hp' Ho Hs Hin) as (t & Hw & _).
      rewrite Hw in Hrun. discriminate Hrun.
    + destruct (cli_convertFile_asked total folder format scale fps v file w
                  answer rest Hp' Ho Hs Hin) as (t0 & (_ & _ & B0) & Hask).
      rewrite Hask in Hrun.
      assert (Hbad : forall t, Spec.answers (t0 ++ t) <> []).
      { intros t. rewrite answers_app, B0. discriminate. }
      repeat match type of Hrun with
             | (if ?b then _ else _) = _ => destruct b
             | context [Cli.tryConvert ?a ?b ?c ?d ?e ?f ?g ?h] =>
                 destruct (Cli.tryConvert a b c d e f g h) as [[? ?] ?]
             end;
        try discriminate Hrun;
        injection Hrun as _ _ <-; try (now apply (Hbad _) in Hnone).
      rewrite <- (app_nil_r t0) in Hnone. now apply Hbad in Hnone.
  - rewrite cli_convertFile_direct in Hrun by (assumption || (left; exact Hp)).
    rewrite convert_convertFile_absent by assumption.
    change (Cli.outputFile folder format file)
      with (Convert.outputFile folder format file) in Hrun.
    destruct (engine w) as [|run es] eqn:E.
    { rewrite cli_tryConvert_waits in Hrun by assumption. discriminate Hrun. }
    destruct (showable_dec w run) as [Hd | Hd].
    2: { destruct (cli_tryConvert_aborts total format scale fps v file
                     (Convert.outputFile folder format file) w run es E Hd)
           as (e & t & Hab & _).
         rewrite Hab in Hrun. discriminate Hrun. }
    pose proof (showable_redrawable w run Hd) as Hr.
    destruct (ending run) as [sz | msg p] eqn:Hev.
    + destruct (Proc.written (Convert.outputFile folder format file) (End sz)
                  (files w) file) as [src |] eqn:Hsrc.
      * rewrite (cli_tryConvert_ended _ _ _ _ _ _ _ _ _ _ _ _ E Hev Hd Hsrc) in Hrun.
        injection Hrun as <- <- <-.
        rewrite (convert_tryConvert_end _ _ _ _ _ _ _ _ _ _ _ E Hev Hr).
        eexists. split; [reflexivity |].
        rewrite !attempts_run, !successes_run. cbn. auto.
      * rewrite (cli_tryConvert_gone _ _ _ _ _ _ _ _ _ _ _ E Hev Hd Hsrc) in Hrun.
        discriminate Hrun.
    + rewrite (cli_tryConvert_error _ _ _ _ _ _ _ _ _ _ _ _ E Hev Hd) in Hrun.
      injection Hrun as <- <- <-.
      rewrite (convert_tryConvert_error _ _ _ _ _ _ _ _ _ _ _ _ E Hev Hr).
      eexists. split; [reflexivity |].
      rewrite !attempts_run, !successes_run. cbn. auto.
Qed.

Lemma drivers_agree_on_the_loop (total : nat) (folder format scale fps : string)
  (videoFiles : list string) :
  forall (v : Cli.Vars) (w : World) (v' : Cli.Vars) (w' : World) (t : list Event),
    Proc.forOf (Cli.convertFile total folder format scale fps) videoFiles v w
    = (Ret v', w', t) ->
    Spec.answers t = [] ->
    Cli.overwriteAll v = false ->
    Cli.skipAll v = false ->
    exists t',
      Proc.forOf (Convert.convertFile total folder format scale fps) videoFiles
        (Cli.completedFiles v) w
      = (Ret (Cli.completedFiles v'), w', t')
      /\ Spec.attempts t' = Spec.attempts t
      /\ Spec.successes t' = Spec.successes t.
Proof.
  induction videoFiles as [|file rest IH]; intros v w v' w' t Hrun Hnone Ho Hs.
  - injection Hrun as <- <- <-. now exists [].
  - rewrite forOf_cons in Hrun.
    destruct (Cli.convertFile total folder format scale fps v file w)
      as [[[v1 | h] w1] t1] eqn:H1; [| discriminate Hrun].
    destruct (Proc.forOf (Cli.convertFile total folder format scale fps) rest v1 w1)
      as [[r2 w2] t2] eqn:H2.
    injection Hrun as -> -> <-.
    rewrite answers_app in Hnone. apply app_eq_nil in Hnone. destruct Hnone as [B1 B2].
    destruct (drivers_agree_on_a_file _ _ _ _ _ _ _ _ _ _ _ H1 B1 Ho Hs)
      as (t1' & H1' & A1 & N1 & Ho1 & Hs1).
    destruct (IH v1 w1 v' w' t2 H2 B2 Ho1 Hs1) as (t2' & H2' & A2 & N2).
    rewrite forOf_cons, H1', H2'. eexists. split; [reflexivity |].
    now rewrite !attempts_app, !successes_app, A1, A2, N1, N2.
Qed.

(** X24.  The two drivers side by side.  Whenever the loop of the
    interactive driver returns without having read a line of the user, the
    loop of the non-interactive driver, from the same world and over the
    same files, runs the engine for the same files onto the same paths, and
    returns the same count in the same world: they differ in what they
    write to the console and of the progress, and in the options they hand
    to the engine. *)
Theorem drivers_agree_when_nothing_is_asked :
  forall (format scale fps : string) (videoFiles : list string) (w : World)
         (v : Cli.Vars) (w' : World) (t : list Event),
    Cli.convertAll format scale fps videoFiles w = (Ret v, w', t) ->
    Spec.answers t = [] ->
    exists t',
      Convert.convertAll format scale fps videoFiles w = (Ret (Cli.completedFiles v), w', t')
      /\ Spec.attempts t' = Spec.attempts t
      /\ Spec.successes t' = Spec.successes t.
Proof.
  intros format scale fps videoFiles w v w' t Hrun Hnone.
  unfold Cli.convertAll, Proc.bind at 1 in Hrun.
  destruct (Proc.forOf _ videoFiles Cli.start w) as [[[v0 | h] w0] t0] eqn:H0;
    [| discriminate Hrun].
  unfold Cli.logWithTimestamp, Proc.bind, Proc.ret in Hrun.
  rewrite console_recognised in Hrun by reflexivity.
  injection Hrun as <- <- <-.
  rewrite answers_app in Hnone. apply app_eq_nil in Hnone. destruct Hnone as [B0 _].
  destruct (drivers_agree_on_the_loop _ _ _ _ _ _ _ _ _ _ _ H0 B0 eq_refl eq_refl)
    as (t' & H' & A' & N').
  exists t'. unfold Convert.convertAll. split; [exact H' |].
  now rewrite attempts_app, successes_app, A', N', app_nil_r, Nat.add_0_r.
Qed.

Lemma drivers_agree_when_nothing_is_asked_witness :
  let w := Spec.twoVideos []
             [Spec.halfway (End 4096%N); Spec.halfway (Error "Conversion failed" None)] in
  exists v w' t t',
    Cli.convertAll "gif" "2" "30" ["vids/a.mp4"; "vids/b.mp4"]%string w = (Ret v, w', t)
    /\ Spec.answers t = []
    /\ Convert.convertAll "gif" "2" "30" ["vids/a.mp4"; "vids/b.mp4"]%string w
       = (Ret (Cli.completedFiles v), w', t')
    /\ Spec.attempts t' = Spec.attempts t
    /\ Spec.successes t' = Spec.successes t.
Proof.
  intros w. do 3 eexists.
  assert (Hrun : Cli.convertAll "gif" "2" "30" ["vids/a.mp4"; "vids/b.mp4"]%string w
                 = (Ret ?[v], ?[w'], ?[t])) by (vm_compute; reflexivity).
  destruct (drivers_agree_when_nothing_is_asked "gif" "2" "30"
              ["vids/a.mp4"; "vids/b.mp4"]%string w _ _ _ Hrun eq_refl)
    as (t' & H' & A' & N').
  exists t'. repeat split; assumption.
Defined.
